(* ===== verification/_CoqProject ===== *)
-Q . S2P
Prelude.v
Bytes.v
Text.v
Serde.v
PlainSerde.v
Protobuf.v
Proto.v
Jwt.v
Chain.v
Sha256.v
Signature.v
PbsTypes.v
PbsJson.v
Http.v
Relay.v
Commit.v
CommitJson.v
SignerClient.v
Futures.v
PbsConfig.v
PbsState.v
GetHeader.v
SubmitBlock.v
RegisterValidator.v
SignerConfig.v
Config.v
Logging.v
PbsRoutes.v
PbsWire.v
PbsService.v
Process.v
Metrics.v
LocalManager.v
FileSystem.v
ProxyStore.v
Erc2335.v
Persistence.v
Threshold.v
Lagrange.v
Dirk.v
DirkSigning.v
DirkGrpc.v
DirkProxies.v
Loader.v
DockerInit.v
DockerSecrets.v
DockerPorts.v
DockerLogs.v
DockerGaps.v
Deployment.v
EventJson.v
SignerService.v
SignerBackends.v
SignerConcurrency.v
SignerHttp.v
DaCommit.v
EthAmount.v
SignerDeployment.v
StatusApi.v
Binaries.v
