(* ===== verification/Prelude.v ===== *)
(** * Commit-Boost: a verification development

    Commit-Boost is a sidecar for Ethereum validators.  It has two services and a library
    they share, all in Rust under [crates/]:

    - the PBS service ([crates/pbs]) stands between a beacon node and block relays.  The
      beacon node asks for the best header of a slot ([get_header]), returns a signed
      blinded block ([submit_block]), registers validators ([register_validator]) and asks
      for the status ([get_status]); an operator can reload the configuration;
    - the signer service ([crates/signer]) holds validator keys.  Commit modules
      authenticate with JSON web tokens, list their keys, request signatures and create
      proxy keys; an administrator reloads and revokes modules;
    - the common crate ([crates/common]) has the chain constants, signing roots, wire types,
      relay clients, the configuration, the loaders of validator keys, the stores of proxy
      keys and the client that modules use to call the signer;
    - the command line ([crates/cli]) writes the compose file and the secrets with which the
      two services and the modules run in docker.

    ** Conventions

    A Rust [Result] is [Result]; [?] is the monadic bind, [ensure!] is [ensure].  A function
    that emits metrics, builder events, requests or pauses returns a [Traced] value: the list
    of its effects and its result.  A call that can panic returns a [Call] ([Returns] or
    [Panics]).  Where a loop of the source need not end, the function takes a bound on the
    number of rounds and [None] means that the bound was reached; each such function has a
    theorem that says which bound is enough.  Unsigned 64-bit arithmetic is on [Z] with its
    wrap-around ([add64], [mul64]) or saturation ([saturating_sub]) written out.  A [HashMap]
    is a [gmap], and where the source iterates over one the order is a parameter
    ([HashOrder]).  Values the process reads from outside (clocks, relay answers, random
    keys, environment variables, files) are arguments or classes.  Third-party crates are
    classes, with their documented behaviour as the laws of a second class, and each such
    class has a concrete instance which the examples use: [TreeHashLib], [BlsLib] and
    [EcdsaLib] in [Signature], [JwtLib] in [Jwt], [UrlLib] and [HeaderLib] in [Relay],
    [FuturesLib] in [Futures], [HexLib] in [PbsTypes], [SpecReader] in [Chain], [ConfigEnv]
    in [PbsConfig], [ConfigParsers] in [SignerConfig], [ConfigToml] in [Config], [DiskFaults]
    in [FileSystem], [ProxyJson] and [KeystoreLib] in [ProxyStore], [ScalarOps] and [PointOps]
    in [Threshold], [DirkLib] (with the answers of the hosts, [DirkWorld]) in [Dirk],
    [LoaderLib] in [Loader], [CaseLib] in [Text], [DockerLib] in [DockerInit], [LogLib] in
    [Logging], [EtherLib] in [EthAmount], [SerdeLib] and [JsonText] in [Serde], [EcdsaText] in
    [CommitJson], [TonicLib] and [GrpcService] in [Proto], [SignerTexts] and [SignerWire] (HTTP
    between a module and the signer) in [SignerHttp].

    ** Files

    Vocabulary:
    - [Prelude]: results, traces, 64-bit arithmetic, [chunks], [max_by_key], iteration
      orders, the tactics [inv_ok] and [inv_traced], the lemmas of all of these;
    - [Bytes], [Text]: bytes, hexadecimal text, lossy UTF-8, [trim], [split], [join];
    - [Serde]: JSON values and [serde]: derived structs and enums, the forms of tags, defaults and
      nulls as combinators with their laws ([Wire], [Lawful]); [PlainSerde]: an instance of the
      library underneath;
    - [Protobuf]: the wire format of protocol buffers and the fields of a [prost] message as
      combinators with their laws;
    - [Sha256]: SHA-256, executable, to compute the domains of the built-in chains.

    The common crate:
    - [Jwt] ([utils.rs]): creation and validation of tokens;
    - [Chain] ([types.rs], [utils.rs]): chains, their (de)serialization, the slot clock;
    - [Signature] ([signature.rs], [signer/schemes]): domains, signing roots, signing and
      verification with BLS and ECDSA;
    - [PbsTypes] ([pbs/types]): blocks, payloads, headers, KZG commitments;
    - [PbsJson] ([pbs/types]): the JSON of these types;
    - [Http] ([pbs/error.rs], [utils.rs]): errors, the retry rule, the bounded body reader;
    - [Relay] ([pbs/relay.rs]): relay entries, clients and URLs;
    - [Commit] ([commit/request.rs]): signing requests, delegations, the secrets format;
      [CommitJson]: their JSON;
    - [SignerClient] ([commit/client.rs]): the client of the signer;
    - [PbsConfig] ([config/pbs.rs], [config/mux.rs]): the PBS settings, multiplexers and the
      Lido and SSV key registries;
    - [SignerConfig] ([config/signer.rs]): signer settings and signing configurations;
    - [Config] ([config/mod.rs], [config/module.rs]): loading a whole configuration;
    - [Logging] ([initialize_tracing_log] of [utils.rs]): the layers of the logger;
    - [EthAmount] ([eth_to_wei], [as_eth_str] of [utils.rs]): ether amounts as IEEE 754 doubles.

    The PBS service:
    - [Futures]: [select_ok] as an interface, the combinator of concurrent relay calls;
    - [PbsState] ([state.rs]): the state, the choice of relays for a validator;
    - [GetHeader], [SubmitBlock], [RegisterValidator] ([mev_boost]): the four calls;
    - [PbsRoutes] ([api.rs], [routes]): the [BuilderApi] trait as a class, the handlers over
      it, and the server as a step relation on a shared state with pending requests;
    - [PbsWire]: the handlers with the JSON of their messages, as a proxy between the beacon node
      and the relays;
    - [PbsService] ([service.rs], [bin/pbs.rs], [crates/metrics]): the start of the service
      and of its metrics server;
    - [Process] ([utils.rs], [routes/router.rs], [bin]): clock readings, signals, what ends a
      binary, and the middleware that notices a request that is given up;
    - [Metrics] ([metrics.rs]): the registry, what each effect does to it, and the server with it;
    - [StatusApi] ([examples/status_api]): a PBS service of one's own, a second instance of the
      [BuilderApi] with a counter its states share.

    The signer service:
    - [LocalManager] ([manager/local.rs]): keys, proxies, delegations, signing;
    - [FileSystem]: the disk as a tree of files, with the calls of [std::fs] that can fail;
    - [ProxyStore] ([signer/store.rs], [signer/types.rs]): storing and loading proxies as
      plain files; [Erc2335]: as encrypted keystores; [Persistence]: what a manager finds
      after a restart;
    - [Threshold] ([aggregate_partial_signatures] of [manager/dirk.rs]): the loop that combines
      partial signatures, and the class [Shared] of keys that a threshold shares; [Lagrange]: Shamir's
      sharing over a field is such a class, and fewer shares determine nothing;
    - [Proto] ([proto/v1.rs]): the messages of the Dirk API, their encoding and the generated
      clients;
    - [Dirk] ([manager/dirk.rs]): the accounts, the requests to the hosts, the proxies and their
      storage; [DirkSigning] and [DirkProxies]: its theorems; [DirkGrpc]: the manager on the
      clients of [Proto];
    - [Loader] ([signer/loader.rs]): the five formats of validator keys;
    - [SignerService] ([service.rs]): authentication, rate limit, handlers, and the cells the
      clones of the state share, over the interfaces [ProxyStoreOps], [DirkOps] and
      [KeyLoader]; [SignerBackends]: their instances by the files above;
    - [SignerConcurrency] ([service.rs]): requests as tasks that advance one section under a lock
      at a time, on a number of worker threads, and the pool of them as a step relation;
    - [SignerHttp] ([service.rs], [error.rs]): the service as the client of [SignerClient] sees it,
      with the JSON of both directions, and [DaCommit] ([examples/da_commit]): a commit module that
      runs against it;
    - [Binaries] ([bin/signer.rs], [crates/cli/src/lib.rs], the sample modules): the other [main]s.

    The command line:
    - [DockerInit] ([docker_init.rs]): the services, ports, volumes, variables and secrets;
      [DockerSecrets], [DockerPorts], [DockerLogs]: what the services then find in their
      environment, [DockerGaps]: what they do not find;
    - [SignerDeployment]: a commit module and the signer in the containers of the set-up;
    - [Deployment] ([pbs/event.rs]): the receivers of builder events, and who receives them;
      [EventJson]: the JSON of the events.

    ** Theorems

    - Bids and blocks: [get_header_best_bid], [get_header_no_bid], [get_header_budget] and
      [timing_game_requests] characterise what is asked of the relays and what is answered;
      [submit_block_delivers] that an unblinded block is the submitted one with its
      commitments; [register_batches_cover] and [register_wait_all_any_success] the
      registrations; [get_status_spec] the status.  [get_header_returns],
      [submit_block_finishes] and [register_attempts_bounded] give the bounds under which
      the calls finish; [get_header_zero_frequency_diverges],
      [submit_retries_outlive_timeout] and [register_no_wait_first_completion] say what
      happens at the edges of the configuration.
    - On the wire: [bid_passes_through] and [block_passes_through] say that bids, blocks and
      payloads reach their readers as their authors wrote them, in whatever order of fields;
      every message of the three protocols is lawful, but for [reload_never_read_back];
      [dirk_signs_over_grpc] carries the agreement of Dirk and the local manager over the
      protocol buffers of the generated clients.
    - Servers: [pbs_server_safe], [signer_service_safe] and [concurrent_service_safe] are
      invariants of all reachable states of the two services.  The first is proved against the
      class [ApiPromises], which the calls of [mev_boost] satisfy ([default_api_promises]) and
      those of the custom service too ([my_api_promises], [status_api_counts]); [submit_answer]
      and [reload_all_or_nothing] describe single requests, and
      [answers_counted] says that the metrics count the answers.  For the signer,
      [sequential_is_a_run] relates the handlers as wholes to their interleaved sections, and
      [requests_all_answered] says that these neither run for ever nor get stuck.
    - End to end: [da_commit_signs] runs a module against the signer, past token refreshes and
      among other clients: every signature it asks for comes and verifies.
    - Keys and signatures: [commitment_separation] is the uniqueness of commitment signing
      roots up to an exhibited collision, [bls_signatures_verify] the agreement of signer and
      verifier, [builder_domain_is_computed] the constants.  [manager_consistent],
      [create_proxy_spec] and [proxy_maps_spec] are about the manager.
    - Stored keys: [proxies_survive_restart] for both formats of the store,
      [file_key_roundtrip] and [validators_loaded] for the loaders, [start_serves_validators]
      for the service started from a key file.
    - Threshold signatures: [aggregate_recovers] and [few_shares_keep_secret] are about the
      interpolation; [distributed_quorum] says when a distributed account signs and that the
      signature is the one of the shared key, [dirk_refines_local] that the service with Dirk
      answers like the one with the keys in memory; [proxy_generation_spec],
      [dirk_tables_wf] and [dirk_proxy_after_restart] are about its proxies.
    - Deployment: [docker_signer_starts], [docker_secrets_shared], [docker_metrics_ports] and
      [docker_logs_on_host] connect what the command line writes with what the services read,
      [docker_module_served] a module with the signer that the set-up starts for it,
      [docker_events_connected] and [events_delivered_once] the publisher of events with the
      modules that listen, and [pbs_start_checked] the start of the PBS service with its
      server; [docker_dirk_no_admin], [docker_pbs_no_token] and [docker_events_block_signer]
      say which services do not find what they need.
    - Access: [module_requests_authenticated], [guessing_limited],
      [revoked_module_locked_out], [reload_keeps_manager], [signer_client_token_fresh]; and for
      requests that run concurrently [concurrent_guesses_bounded] and [revocation_final].
    - Configuration: [mux_table_spec], [loaded_config_serves], [all_relays_by_url],
      [module_signing_configs_unique], [lido_fetch_complete], [ssv_fetch_complete] and the
      round trips [chain_serialize_roundtrip] and [jwt_secrets_roundtrip].
    - Arithmetic: [check_gas_limit_spec], [slot_clock_window], [read_body_exact_and_bounded],
      [eth_to_wei_accurate].

    ** Bounds

    [get_header] takes a bound on the requests per relay: more than [max_timeout_ms] is
    enough when frequencies are positive.  [submit_block] takes a bound on the attempts per
    relay: one per started 250 ms of the timeout is enough, since the pause before attempt
    [k + 1] is [250 * k] ms.  [register_validator] needs its retry limit.  The SSV reader
    needs one round per page; the Lido reader computes its own bound from the number of keys
    and always has enough ([lido_fuel_enough]).  The decoder of protocol buffers has fuel for every
    byte and is never cut short ([merge_loop_fuel]).  [chunks] and the UTF-8 decoder are given the
    length of their input.

    ** What is not modelled

    Listening on sockets, what is written to the logs, Prometheus registries (updates
    of metrics are effects); the texts of JSON ([JsonText]), YAML, SSZ and TOML; the HTTP/2
    transport under gRPC ([TonicLib]) and the annotation types of [proto/google.api.rs], which
    nothing uses; the parsing of command lines; benchmarks and test support. *)

From Stdlib Require Export ZArith Lia Strings.Byte.
From stdpp Require Export base tactics list gmap strings sorting.

#[global] Open Scope Z_scope.

(** ** Results: Rust's [Result<A, E>] *)

Inductive Result (E A : Type) : Type :=
| Ok (a : A)
| Err (e : E).
Arguments Ok {E A} a.
Arguments Err {E A} e.

#[export] Instance result_eq_dec {E A} `{EqDecision E, EqDecision A} :
  EqDecision (Result E A).
Proof. solve_decision. Defined.

#[export] Instance result_ret {E} : MRet (Result E) := λ A a, Ok a.
#[export] Instance result_bind {E} : MBind (Result E) := λ A B f r,
  match r with Ok a => f a | Err e => Err e end.
#[export] Instance result_fmap {E} : FMap (Result E) := λ A B f r,
  match r with Ok a => Ok (f a) | Err e => Err e end.

(** [ensure!(cond, err)] and [.ok_or(err)] *)
Definition ensure {E} (cond : bool) (err : E) : Result E () :=
  if cond then Ok () else Err err.
Definition ok_or {E A} (o : option A) (err : E) : Result E A :=
  match o with Some a => Ok a | None => Err err end.
Definition map_err {E F A} (f : E → F) (r : Result E A) : Result F A :=
  match r with Ok a => Ok a | Err e => Err (f e) end.
Definition result_ok {E A} (r : Result E A) : option A :=
  match r with Ok a => Some a | Err _ => None end.
Definition is_ok {E A} (r : Result E A) : bool :=
  match r with Ok _ => true | Err _ => false end.

Lemma result_bind_ok {E A B} (r : Result E A) (f : A → Result E B) b :
  (r ≫= f) = Ok b ↔ ∃ a, r = Ok a ∧ f a = Ok b.
Proof. destruct r; simpl; naive_solver. Qed.
Lemma ensure_ok {E} c (e : E) u : ensure c e = Ok u ↔ c = true.
Proof. destruct u, c; simpl; naive_solver. Qed.
Lemma ok_or_ok {E A} (o : option A) (e : E) a : ok_or o e = Ok a ↔ o = Some a.
Proof. destruct o; simpl; naive_solver. Qed.
Lemma map_err_ok {E F A} (f : E → F) (r : Result E A) a : map_err f r = Ok a ↔ r = Ok a.
Proof. destruct r; simpl; naive_solver. Qed.
Lemma is_ok_true {E A} (r : Result E A) : is_ok r = true ↔ ∃ a, r = Ok a.
Proof. destruct r; simpl; naive_solver. Qed.

(** ** Decision by cases on a computation that returned [Ok]

    [inv_ok] turns a hypothesis [body = Ok a], where [body] is written with the
    binds above, into the list of facts each step contributed. *)
Ltac inv_ok1 :=
  match goal with
  | H : Ok _ = Ok _ |- _ => injection H as H; subst
  | H : Err _ = Ok _ |- _ => discriminate H
  | H : Ok _ = Err _ |- _ => discriminate H
  | H : Err _ = Err _ |- _ => injection H as H; subst
  | H : (_ ≫= _) = Ok _ |- _ =>
      apply result_bind_ok in H as (? & ? & H)
  | H : ensure _ _ = Ok _ |- _ => apply ensure_ok in H
  | H : ok_or _ _ = Ok _ |- _ => apply ok_or_ok in H
  | H : map_err _ _ = Ok _ |- _ => apply map_err_ok in H
  | H : mret _ = Ok _ |- _ => unfold mret, result_ret in H
  end.
Ltac inv_ok := repeat (inv_ok1; simpl in *).

(** ** Computations with effects

    A call that talks to the outside world and can fail is a [Traced L E A]: the
    effects [L] it performed, in order, and its [Result].  An early return by [?]
    keeps the effects performed so far and skips the rest. *)
Record Traced (L E A : Type) : Type := mkTraced {
  effects : list L;
  outcome : Result E A;
}.
Arguments mkTraced {L E A} effects outcome.
Arguments effects {L E A} t.
Arguments outcome {L E A} t.

#[export] Instance traced_ret {L E} : MRet (Traced L E) := λ A a, mkTraced [] (Ok a).
#[export] Instance traced_bind {L E} : MBind (Traced L E) := λ A B f t,
  match outcome t with
  | Ok a => let u := f a in mkTraced (effects t ++ effects u) (outcome u)
  | Err e => mkTraced (effects t) (Err e)
  end.
#[export] Instance traced_fmap {L E} : FMap (Traced L E) := λ A B f t,
  mkTraced (effects t) (f <$> outcome t).

Definition tell {L E} (l : L) : Traced L E () := mkTraced [l] (Ok ()).
Definition lift {L E A} (r : Result E A) : Traced L E A := mkTraced [] r.
Definition throw {L E A} (e : E) : Traced L E A := mkTraced [] (Err e).
Definition traced_map_err {L E F A} (f : E → F) (t : Traced L E A) : Traced L F A :=
  mkTraced (effects t) (map_err f (outcome t)).

Lemma traced_bind_ok {L E A B} (t : Traced L E A) (f : A → Traced L E B) b :
  outcome (t ≫= f) = Ok b ↔ ∃ a, outcome t = Ok a ∧ outcome (f a) = Ok b.
Proof.
  unfold mbind, traced_bind. destruct (outcome t); simpl; naive_solver.
Qed.
Lemma traced_bind_tell {L E B} (l : L) (f : () → Traced L E B) :
  outcome (tell l ≫= f) = outcome (f ()).
Proof. reflexivity. Qed.
Lemma traced_bind_lift {L E A B} (r : Result E A) (f : A → Traced L E B) :
  outcome (lift r ≫= f) = (r ≫= λ a, outcome (f a)).
Proof. destruct r; reflexivity. Qed.
Lemma traced_bind_throw {L E A B} (e : E) (f : A → Traced L E B) :
  (throw e : Traced L E A) ≫= f = throw e.
Proof. reflexivity. Qed.

Ltac inv_traced1 :=
  match goal with
  | H : outcome (_ ≫= _) = Ok _ |- _ => apply traced_bind_ok in H as (? & ? & H)
  | H : outcome (tell _) = Ok _ |- _ => clear H
  | H : outcome (lift _) = Ok _ |- _ => unfold lift in H; simpl in H
  | H : outcome (throw _) = Ok _ |- _ => discriminate H
  | H : outcome (mret _) = Ok _ |- _ => simpl in H
  | _ => inv_ok1
  end.
Ltac inv_traced := repeat (inv_traced1; simpl in *).

(** ** What all effects of a call satisfy *)
Definition traced_all {L E A} (P : L → Prop) (t : Traced L E A) : Prop := Forall P (effects t).
Lemma traced_all_bind {L E A B} P (t : Traced L E A) (f : A → Traced L E B) :
  traced_all P t → (∀ a, outcome t = Ok a → traced_all P (f a)) → traced_all P (t ≫= f).
Proof.
  unfold traced_all, mbind, traced_bind. intros Ht Hf. destruct (outcome t) as [a|e]; simpl; [|done].
  apply Forall_app. split; [done|by apply Hf].
Qed.
Lemma traced_all_tell {L E} (P : L → Prop) l : P l → traced_all P (tell l : Traced L E ()).
Proof. by repeat constructor. Qed.
Lemma traced_all_lift {L E A} (P : L → Prop) (r : Result E A) : traced_all P (lift r).
Proof. constructor. Qed.
Lemma traced_all_throw {L E A} (P : L → Prop) (e : E) : traced_all P (throw e : Traced L E A).
Proof. constructor. Qed.
Lemma traced_all_ret {L E A} (P : L → Prop) (a : A) : traced_all P (mret a : Traced L E A).
Proof. constructor. Qed.
Lemma traced_all_fmap {L E A B} (P : L → Prop) (f : A → B) (t : Traced L E A) :
  traced_all P t → traced_all P (f <$> t).
Proof. done. Qed.
(** the effects of a monadic body, one by one *)
Ltac traced_each tac := repeat first
  [ apply traced_all_lift | apply traced_all_throw | apply traced_all_ret | apply traced_all_tell; tac
  | apply traced_all_bind; [|intros ? _] | case_match ].

(** A Rust call either returns or panics. *)
Inductive Call (A : Type) : Type :=
| Returns (a : A)
| Panics.
Arguments Returns {A} a.
Arguments Panics {A}.
Lemma Returns_inj A (a b : A) : Returns a = Returns b → a = b.
Proof. by intros [= ->]. Qed.

(** [Option::expect] and [Result::unwrap] *)
Definition unwrap {A} (o : option A) : Call A :=
  match o with Some a => Returns a | None => Panics end.
Definition call_bind {A B} (c : Call A) (k : A → Call B) : Call B :=
  match c with Returns a => k a | Panics => Panics end.

(** ** Sums over a list *)
Lemma sum_list_with_insert {A} (f : A → nat) (l : list A) i x y :
  l !! i = Some x → (sum_list_with f (<[i := y]> l) + f x = sum_list_with f l + f y)%nat.
Proof.
  revert i. induction l as [|z l IH]; intros [|i] Hi; simplify_eq/=; [lia|].
  specialize (IH i Hi). lia.
Qed.
Lemma sum_list_with_pos {A} (f : A → nat) (l : list A) :
  (0 < sum_list_with f l)%nat → ∃ i x, l !! i = Some x ∧ (0 < f x)%nat.
Proof.
  induction l as [|z l IH]; simpl; [lia|]. intros H. destruct (decide (0 < f z)%nat).
  - by exists 0%nat, z.
  - destruct IH as (i & x & Hi & Hx); [lia|]. by exists (S i), x.
Qed.

(** ** Machine integers

    [u64]/[usize] values are integers in [0, 2^64).  Arithmetic wraps, as in the
    release profile the workspace builds with (no [overflow-checks]). *)
Definition u64_bound : Z := 2 ^ 64.
Definition is_u64 (x : Z) : Prop := 0 ≤ x < u64_bound.
Definition wrap64 (x : Z) : Z := x mod u64_bound.
Definition add64 (x y : Z) : Z := wrap64 (x + y).
Definition mul64 (x y : Z) : Z := wrap64 (x * y).
Definition saturating_sub (x y : Z) : Z := Z.max 0 (x - y).

Lemma wrap64_id x : is_u64 x → wrap64 x = x.
Proof. unfold is_u64, wrap64, u64_bound. intros. by apply Z.mod_small. Qed.
Lemma wrap64_is_u64 x : is_u64 (wrap64 x).
Proof. unfold is_u64, wrap64, u64_bound. apply Z.mod_pos_bound. lia. Qed.
Lemma add64_no_overflow x y : is_u64 (x + y) → add64 x y = x + y.
Proof. apply wrap64_id. Qed.
Lemma mul64_no_overflow x y : is_u64 (x * y) → mul64 x y = x * y.
Proof. apply wrap64_id. Qed.
Lemma saturating_sub_zero x y : saturating_sub x y = 0 ↔ x ≤ y.
Proof. unfold saturating_sub. lia. Qed.

(** ** Iterator adaptors of the standard library *)

(** [Iterator::max_by_key]: the last of the elements with the greatest key *)
Definition max_by_key {A} (key : A → Z) (l : list A) : option A :=
  match l with
  | [] => None
  | x :: l => Some (fold_left (λ acc y, if key y <? key acc then acc else y) l x)
  end.

(** [slice::chunks(n)], for [n > 0] (it panics on [0]) *)
Fixpoint chunks_fuel {A} (fuel n : nat) (l : list A) : list (list A) :=
  match fuel, l with
  | _, [] => []
  | O, _ => []
  | S fuel, _ => take n l :: chunks_fuel fuel n (drop n l)
  end.
Definition chunks {A} (n : nat) (l : list A) : list (list A) :=
  chunks_fuel (length l) n l.

(** [iter.map(f).collect::<Result<Vec<_>, _>>()]: stops at the first error *)
Fixpoint try_map {E A B} (f : A → Result E B) (l : list A) : Result E (list B) :=
  match l with
  | [] => Ok []
  | a :: l => b ← f a; bs ← try_map f l; Ok (b :: bs)
  end.

(** a [for] loop whose body uses [?] *)
Fixpoint try_fold {E A B} (f : B → A → Result E B) (b : B) (l : list A) : Result E B :=
  match l with
  | [] => Ok b
  | a :: l => b' ← f b a; try_fold f b' l
  end.

Section IteratorLemmas.
Context {A : Type}.
Implicit Types l : list A.

(** [m] is a last maximum of [l]: nothing before it is larger, everything after
    it is strictly smaller. *)
Definition last_max (key : A → Z) l (m : A) : Prop :=
  ∃ l1 l2, l = l1 ++ m :: l2 ∧
    (∀ x, x ∈ l1 → key x ≤ key m) ∧ (∀ x, x ∈ l2 → key x < key m).

Lemma max_by_key_fold key l x :
  last_max key (x :: l)
    (fold_left (λ acc y, if key y <? key acc then acc else y) l x).
Proof.
  induction l as [|y l IH] using rev_ind; simpl.
  - exists [], []. set_solver.
  - rewrite fold_left_app. simpl.
    destruct IH as (l1 & l2 & Heq & H1 & H2).
    set (m := fold_left _ l x) in *.
    rewrite app_comm_cons, Heq.
    destruct (Z.ltb_spec (key y) (key m)).
    + exists l1, (l2 ++ [y]). rewrite <- app_assoc. set_solver.
    + exists (l1 ++ m :: l2), []. split_and!; [done| |set_solver].
      intros z Hz. apply elem_of_app in Hz as [Hz|Hz]; [specialize (H1 z Hz); lia|].
      apply elem_of_cons in Hz as [->|Hz]; [done|specialize (H2 z Hz); lia].
Qed.

Lemma max_by_key_some key l m : max_by_key key l = Some m → last_max key l m.
Proof. destruct l as [|x l]; [done|]. intros [= <-]. apply max_by_key_fold. Qed.
Lemma max_by_key_none key l : max_by_key key l = None ↔ l = [].
Proof. destruct l; simpl; naive_solver. Qed.
Lemma last_max_elem key l m : last_max key l m → m ∈ l.
Proof. intros (l1 & l2 & -> & _). set_solver. Qed.
Lemma last_max_ge key l m x : last_max key l m → x ∈ l → key x ≤ key m.
Proof.
  intros (l1 & l2 & -> & H1 & H2) Hx.
  apply elem_of_app in Hx as [Hx|Hx]; [by apply H1|].
  apply elem_of_cons in Hx as [->|Hx]; [done|].
  by apply Z.lt_le_incl, H2.
Qed.

Lemma chunks_fuel_concat fuel n l :
  (0 < n)%nat → (length l ≤ fuel)%nat → concat (chunks_fuel fuel n l) = l.
Proof.
  intros Hn. revert l. induction fuel as [|fuel IH]; intros [|x l] Hl; simpl in *;
    try done; try lia.
  rewrite IH; [apply (take_drop n (x :: l))|].
  destruct n; [lia|]. simpl. rewrite length_drop. lia.
Qed.
Lemma chunks_concat n l : (0 < n)%nat → concat (chunks n l) = l.
Proof. intros. by apply chunks_fuel_concat. Qed.

Lemma chunks_fuel_sizes fuel n l :
  (0 < n)%nat → Forall (λ c, 0 < length c ≤ n)%nat (chunks_fuel fuel n l).
Proof.
  intros Hn. revert l. induction fuel as [|fuel IH]; intros [|x l]; simpl;
    constructor; [|by apply IH].
  rewrite length_take. simpl. lia.
Qed.
Lemma chunks_sizes n l : (0 < n)%nat → Forall (λ c, 0 < length c ≤ n)%nat (chunks n l).
Proof. apply chunks_fuel_sizes. Qed.
Lemma chunks_nil n l : (0 < n)%nat → chunks n l = [] ↔ l = [].
Proof.
  intros Hn. split; [|by intros ->].
  intros H. by rewrite <- (chunks_concat n l), H.
Qed.
End IteratorLemmas.

Lemma try_map_ok {E A B} (f : A → Result E B) l bs :
  try_map f l = Ok bs ↔ Forall2 (λ a b, f a = Ok b) l bs.
Proof.
  revert bs. induction l as [|a l IH]; intros bs; simpl.
  - split; [intros [= <-]; constructor|by inversion 1].
  - rewrite result_bind_ok. setoid_rewrite result_bind_ok. setoid_rewrite IH. split.
    + intros (b & Hb & bs' & Hbs & [= <-]). by constructor.
    + inversion 1; subst. eauto 10.
Qed.

Lemma try_fold_invariant {E A B} (f : B → A → Result E B) (P : B → Prop) b l b' :
  P b → (∀ b a b', a ∈ l → P b → f b a = Ok b' → P b') →
  try_fold f b l = Ok b' → P b'.
Proof.
  intros Hb Hstep. revert b Hb. induction l as [|a l IH]; intros b Hb H; simpl in H.
  - by injection H as <-.
  - apply result_bind_ok in H as (c & Hc & H).
    eapply IH; [|by eapply (Hstep b a); [set_solver|..]|done].
    intros. eapply Hstep; [by right|..]; eauto.
Qed.
Lemma try_fold_app {E A B} (f : B → A → Result E B) b l1 l2 :
  try_fold f b (l1 ++ l2) = (b' ← try_fold f b l1; try_fold f b' l2).
Proof.
  revert b. induction l1 as [|a l1 IH]; intros b; simpl; [done|].
  unfold mbind, result_bind in *. destruct (f b a); simpl; auto.
Qed.

(** A loop whose turns can be exchanged gives the same result on any order of its elements *)
Lemma try_fold_perm {E A B} (f : B → A → Result E B) l l' b b' :
  (∀ b x y b1 b2, f b x = Ok b1 → f b1 y = Ok b2 → ∃ b1', f b y = Ok b1' ∧ f b1' x = Ok b2) →
  l ≡ₚ l' → try_fold f b l = Ok b' → try_fold f b l' = Ok b'.
Proof.
  intros Hswap Hp. revert b b'. induction Hp as [|x l l' Hp IH|x y l|l1 l2 l3 H1 IH1 H2 IH2]; intros b b'; simpl.
  - done.
  - rewrite !result_bind_ok. intros (c & Hc & H). eauto.
  - rewrite !result_bind_ok. intros (c & Hc & H). apply result_bind_ok in H as (d & Hd & H).
    destruct (Hswap _ _ _ _ _ Hc Hd) as (c' & Hc' & Hd'). exists c'. split; [done|].
    apply result_bind_ok. eauto.
  - eauto.
Qed.

(** Where the elements of an [omap] (a [filter_map]) come from *)
Lemma omap_app_inv {A B} (f : A → option B) l k1 k2 :
  omap f l = k1 ++ k2 → ∃ l1 l2, l = l1 ++ l2 ∧ omap f l1 = k1 ∧ omap f l2 = k2.
Proof.
  revert k1. induction l as [|x l IH]; intros k1 H; simpl in H.
  { symmetry in H. apply app_nil in H as [-> ->]. by exists [], []. }
  destruct (f x) as [y|] eqn:E.
  - destruct k1 as [|y' k1]; simpl in H.
    + exists [], (x :: l). simpl. by rewrite E.
    + injection H as -> H. destruct (IH _ H) as (l1 & l2 & -> & <- & <-).
      exists (x :: l1), l2. simpl. by rewrite E.
  - destruct (IH _ H) as (l1 & l2 & -> & <- & <-). exists (x :: l1), l2. simpl. by rewrite E.
Qed.
Lemma omap_cons_inv {A B} (f : A → option B) l y k :
  omap f l = y :: k →
  ∃ l1 x l2, l = l1 ++ x :: l2 ∧ Forall (λ z, f z = None) l1 ∧ f x = Some y ∧ omap f l2 = k.
Proof.
  induction l as [|x l IH]; intros H; simpl in H; [done|].
  destruct (f x) as [y'|] eqn:E.
  - injection H as -> <-. exists [], x, l. by repeat split.
  - destruct (IH H) as (l1 & x' & l2 & -> & Hn & Hx & <-).
    exists (x :: l1), x', l2. repeat split; [|done]. by constructor.
Qed.

(** Every turn of a loop that returned [Ok] returned [Ok] *)
Lemma try_fold_all_ok {E A B} (f : B → A → Result E B) b l b' a :
  try_fold f b l = Ok b' → a ∈ l → ∃ c c', f c a = Ok c'.
Proof.
  revert b. induction l as [|a' l IH]; intros b H Ha; [by apply not_elem_of_nil in Ha|].
  apply result_bind_ok in H as (c & Hc & H).
  apply elem_of_cons in Ha as [->|Ha]; eauto.
Qed.

(** The element of [l] that contributes [k] to a duplicate-free [flat_map] is unique *)
Lemma NoDup_bind_unique {A B} (f : A → list B) l x y k :
  NoDup (l ≫= f) → x ∈ l → y ∈ l → k ∈ f x → k ∈ f y → x = y.
Proof.
  induction l as [|a l IH]; intros Hnd Hx Hy Hkx Hky; [by apply not_elem_of_nil in Hx|].
  rewrite bind_cons in Hnd. apply NoDup_app in Hnd as (_ & Hdisj & Hnd).
  assert (∀ z, z ∈ l → k ∈ f z → k ∈ l ≫= f) by (intros; apply list_elem_of_bind; eauto).
  apply elem_of_cons in Hx as [->|Hx], Hy as [->|Hy]; auto; exfalso; eapply Hdisj; eauto.
Qed.

(** ** Hash maps

    A Rust [HashMap] iterates in an unspecified order.  [HashOrder K] is the order a
    given run uses: any function that lists the entries of a map, each once. *)
Class HashOrder (K : Type) `{Countable K} := {
  hash_iter : ∀ {V : Type}, gmap K V → list (K * V);
  hash_iter_perm : ∀ {V : Type} (m : gmap K V), hash_iter m ≡ₚ map_to_list m;
}.

#[export] Instance canonical_order K `{Countable K} : HashOrder K | 100 :=
  {| hash_iter V m := map_to_list m; hash_iter_perm V m := reflexivity _ |}.

Definition hash_keys `{HashOrder K} {V} (m : gmap K V) : list K := (hash_iter m).*1.
Definition hash_values `{HashOrder K} {V} (m : gmap K V) : list V := (hash_iter m).*2.

Section HashOrderLemmas.
Context `{HashOrder K} {V : Type}.
Implicit Types m : gmap K V.

Lemma hash_iter_elem m k v : (k, v) ∈ hash_iter m ↔ m !! k = Some v.
Proof. rewrite hash_iter_perm. apply elem_of_map_to_list. Qed.
Lemma hash_iter_nodup m : NoDup (hash_iter m).*1.
Proof. rewrite hash_iter_perm. apply NoDup_fst_map_to_list. Qed.
Lemma hash_keys_elem m k : k ∈ hash_keys m ↔ is_Some (m !! k).
Proof.
  unfold hash_keys. rewrite list_elem_of_fmap. split.
  - intros ([k' v] & -> & Hin%hash_iter_elem). by exists v.
  - intros [v Hv]. exists (k, v). split; [done|]. by apply hash_iter_elem.
Qed.
Lemma hash_values_elem m v : v ∈ hash_values m ↔ ∃ k, m !! k = Some v.
Proof.
  unfold hash_values. rewrite list_elem_of_fmap. split.
  - intros ([k v'] & -> & Hin%hash_iter_elem). by exists k.
  - intros [k Hk]. exists (k, v). split; [done|]. by apply hash_iter_elem.
Qed.
Lemma hash_iter_length m : length (hash_iter m) = size m.
Proof. rewrite hash_iter_perm. apply length_map_to_list. Qed.
End HashOrderLemmas.

(** [commit_boost] collects what each component proves for its clients: that an operation
    keeps an invariant, or that what it returns is valid. *)
Create HintDb commit_boost.
#[export] Hint Resolve wrap64_is_u64 : commit_boost.
