(* ===== verification/Bytes.v ===== *)
(** * Bytes, hexadecimal text and UTF-8

    The byte-level vocabulary of the sources: fixed-size byte arrays ([B256],
    [BlsPublicKey], [BlsSignature], [Address], KZG points) are [bytes]; a Rust
    [String] is a [string] of its UTF-8 bytes.  [hex_encode] is [hex::encode] and
    [from_utf8_lossy] is [String::from_utf8_lossy]. *)

From S2P Require Import Prelude.

#[export] Instance byte_eq_dec : EqDecision byte := Byte.byte_eq_dec.
#[export] Instance byte_countable : Countable byte :=
  inj_countable Byte.to_N Byte.of_N Byte.of_to_N.

Notation bytes := (list byte).
Notation B256 := bytes (only parsing).
Notation BlsPublicKey := bytes (only parsing).
Notation BlsSignature := bytes (only parsing).
Notation Address := bytes (only parsing).

(** [x as u8] *)
Definition byte_of_Z (x : Z) : byte :=
  default x00 (Byte.of_N (Z.to_N (x mod 256))).
Definition Z_of_byte (b : byte) : Z := Z.of_N (Byte.to_N b).
Definition bytes_of_Zs (l : list Z) : bytes := byte_of_Z <$> l.

(** [[b; n]] *)
Definition byte_array (n : nat) (b : byte) : bytes := replicate n b.
(** [B256::ZERO] *)
Definition B256_ZERO : B256 := byte_array 32 x00.

(** [u32::to_be_bytes] *)
Definition u32_to_be_bytes (x : Z) : bytes :=
  bytes_of_Zs [Z.shiftr x 24; Z.shiftr x 16; Z.shiftr x 8; x].

Lemma Z_of_byte_range b : 0 ≤ Z_of_byte b < 256.
Proof. unfold Z_of_byte. pose proof (Byte.to_N_bounded b). lia. Qed.
Lemma Z_of_byte_of_Z x : Z_of_byte (byte_of_Z x) = x mod 256.
Proof.
  unfold Z_of_byte, byte_of_Z.
  pose proof (Z.mod_pos_bound x 256 ltac:(lia)).
  destruct (Byte.of_N (Z.to_N (x mod 256))) eqn:E; simpl.
  - apply Byte.to_of_N in E. lia.
  - apply Byte.of_N_None_iff in E. lia.
Qed.
Lemma byte_of_Z_of_byte b : byte_of_Z (Z_of_byte b) = b.
Proof.
  unfold byte_of_Z. pose proof (Z_of_byte_range b).
  rewrite Z.mod_small by lia. unfold Z_of_byte. by rewrite N2Z.id, Byte.of_to_N.
Qed.

(** ** Strings as byte sequences *)

Definition string_of_bytes (l : bytes) : string := String.string_of_list_byte l.
Definition bytes_of_string (s : string) : bytes := String.list_byte_of_string s.

Lemma string_of_bytes_of_string s : string_of_bytes (bytes_of_string s) = s.
Proof. apply String.string_of_list_byte_of_string. Qed.

(** ** Hexadecimal *)

Definition hex_digit (n : N) : byte :=
  default x00 (Byte.of_N (if (n <? 10)%N then 48 + n else 87 + n)).
Definition hex_of_byte (b : byte) : bytes :=
  [hex_digit (Byte.to_N b / 16); hex_digit (Byte.to_N b mod 16)].
(** [hex::encode]: two lower-case digits per byte *)
Definition hex_encode (l : bytes) : string := string_of_bytes (l ≫= hex_of_byte).
(** [hex::encode_prefixed] and [serde_utils::hex::encode] *)
Definition hex_encode_prefixed (l : bytes) : string := ("0x" +:+ hex_encode l)%string.

(** ** [String::from_utf8_lossy]

    Each maximal ill-formed subsequence becomes U+FFFD (EF BF BD). *)
Definition replacement : bytes := [xef; xbf; xbd].

Definition in_range (b : byte) (lo hi : Z) : bool :=
  (lo <=? Z_of_byte b) && (Z_of_byte b <=? hi).

(** the continuation bytes a lead byte requires, each with its range *)
Definition continuation_ranges (b : byte) : option (list (Z * Z)) :=
  let any := (0x80, 0xbf) in
  if in_range b 0x00 0x7f then Some []
  else if in_range b 0xc2 0xdf then Some [any]
  else if in_range b 0xe0 0xe0 then Some [(0xa0, 0xbf); any]
  else if in_range b 0xe1 0xec then Some [any; any]
  else if in_range b 0xed 0xed then Some [(0x80, 0x9f); any]
  else if in_range b 0xee 0xef then Some [any; any]
  else if in_range b 0xf0 0xf0 then Some [(0x90, 0xbf); any; any]
  else if in_range b 0xf1 0xf3 then Some [any; any; any]
  else if in_range b 0xf4 0xf4 then Some [(0x80, 0x8f); any; any]
  else None.

(** how many of the required continuation bytes are present *)
Fixpoint match_ranges (rs : list (Z * Z)) (l : bytes) : nat :=
  match rs, l with
  | (lo, hi) :: rs, b :: l => if in_range b lo hi then S (match_ranges rs l) else O
  | _, _ => O
  end.

Fixpoint utf8_lossy_fuel (fuel : nat) (l : bytes) : bytes :=
  match fuel, l with
  | S fuel, b :: l' =>
      match continuation_ranges b with
      | Some rs =>
          let n := match_ranges rs l' in
          (if decide (n = length rs) then b :: take n l' else replacement)
            ++ utf8_lossy_fuel fuel (drop n l')
      | None => replacement ++ utf8_lossy_fuel fuel l'
      end
  | _, _ => []
  end.
Definition utf8_lossy (l : bytes) : bytes := utf8_lossy_fuel (length l) l.
Definition from_utf8_lossy (l : bytes) : string := string_of_bytes (utf8_lossy l).

Example utf8_lossy_mixed :
  utf8_lossy [x41; xe2; x82; xac; xe2; x82; x41; xff; x42]
  = [x41; xe2; x82; xac] ++ replacement ++ [x41] ++ replacement ++ [x42].
Proof. reflexivity. Qed.

(** ASCII text, which is what relays and the signer send, is left unchanged. *)
Lemma utf8_lossy_fuel_ascii fuel l :
  (length l ≤ fuel)%nat → Forall (λ b, Z_of_byte b < 128) l → utf8_lossy_fuel fuel l = l.
Proof.
  revert l. induction fuel as [|fuel IH]; intros [|b l] Hlen Hall; simpl in *; try done; [lia|].
  apply Forall_cons in Hall as [Hb Hall].
  unfold continuation_ranges, in_range.
  pose proof (Z_of_byte_range b).
  rewrite (proj2 (Z.leb_le 0 (Z_of_byte b))), (proj2 (Z.leb_le (Z_of_byte b) 127)) by lia.
  simpl. rewrite drop_0, IH; [done|lia|done].
Qed.
Lemma utf8_lossy_ascii l : Forall (λ b, Z_of_byte b < 128) l → utf8_lossy l = l.
Proof. by apply utf8_lossy_fuel_ascii. Qed.
(** a byte sequence is UTF-8 when decoding it replaces nothing *)
Definition utf8_valid (b : bytes) : bool := bool_decide (utf8_lossy b = b).
Lemma lossy_ascii (b : bytes) : Forall (λ b, Z_of_byte b < 128) b → utf8_valid b = true.
Proof. intros Hb. unfold utf8_valid. by rewrite bool_decide_true by by apply utf8_lossy_ascii. Qed.
