(* ===== verification/Text.v ===== *)
(** * Text

    The [str] methods of the standard library that the configuration code parses with:
    [trim] (Unicode white space), [split] on an ASCII separator and [join]. *)

From S2P Require Import Prelude Bytes.

(** ** [str::trim] *)

(** the UTF-8 encodings of the characters with the property [White_Space] *)
Definition white_space : list bytes :=
  (bytes_of_Zs <$>
    [[9]; [10]; [11]; [12]; [13]; [32]; [0xc2; 0x85]; [0xc2; 0xa0]; [0xe1; 0x9a; 0x80];
     [0xe2; 0x80; 0xa8]; [0xe2; 0x80; 0xa9]; [0xe2; 0x80; 0xaf]; [0xe2; 0x81; 0x9f];
     [0xe3; 0x80; 0x80]])
  ++ ((λ n, bytes_of_Zs [0xe2; 0x80; n]) <$> seqZ 0x80 11).

(** [l] without the pattern it starts with, if any *)
Fixpoint strip_one (pats : list bytes) (l : bytes) : option bytes :=
  match pats with
  | [] => None
  | p :: pats => if bool_decide (take (length p) l = p) then Some (drop (length p) l)
                 else strip_one pats l
  end.
Fixpoint trim_fuel (fuel : nat) (pats : list bytes) (l : bytes) : bytes :=
  match fuel with
  | O => l
  | S fuel => match strip_one pats l with Some l => trim_fuel fuel pats l | None => l end
  end.
Definition trim_start (l : bytes) : bytes := trim_fuel (length l) white_space l.
Definition trim_end (l : bytes) : bytes :=
  rev (trim_fuel (length l) (reverse <$> white_space) (rev l)).
Definition trim_bytes (l : bytes) : bytes := trim_end (trim_start l).
Definition trim (s : string) : string := string_of_bytes (trim_bytes (bytes_of_string s)).

(** ** [str::split] and [join] *)

Fixpoint split_bytes (sep : byte) (l : bytes) : list bytes :=
  match l with
  | [] => [[]]
  | b :: l =>
      if bool_decide (b = sep) then [] :: split_bytes sep l
      else match split_bytes sep l with
           | [] => [[b]]
           | part :: parts => (b :: part) :: parts
           end
  end.
Definition split (sep : byte) (s : string) : list string :=
  string_of_bytes <$> split_bytes sep (bytes_of_string s).

Fixpoint join_bytes (sep : byte) (parts : list bytes) : bytes :=
  match parts with
  | [] => []
  | [part] => part
  | part :: parts => part ++ sep :: join_bytes sep parts
  end.
Definition join (sep : byte) (parts : list string) : string :=
  string_of_bytes (join_bytes sep (bytes_of_string <$> parts)).

(** [str::rsplit_once] with a character pattern *)
Fixpoint rsplit_once_bytes (sep : byte) (l : bytes) : option (bytes * bytes) :=
  match l with
  | [] => None
  | b :: l =>
      match rsplit_once_bytes sep l with
      | Some (p, n) => Some (b :: p, n)
      | None => if decide (b = sep) then Some ([], l) else None
      end
  end.
Definition rsplit_once (sep : byte) (s : string) : option (string * string) :=
  '(p, n) ← rsplit_once_bytes sep (bytes_of_string s);
  Some (string_of_bytes p, string_of_bytes n).

(** ** Lemmas *)

Lemma bytes_of_string_app s t :
  bytes_of_string (s +:+ t) = bytes_of_string s ++ bytes_of_string t.
Proof.
  unfold bytes_of_string, String.list_byte_of_string.
  induction s as [|a s IH]; [done|]. change (String a s +:+ t)%string with (String a (s +:+ t)).
  cbn [String.list_ascii_of_string map app]. by rewrite <- IH.
Qed.
Lemma bytes_of_string_of_bytes l : bytes_of_string (string_of_bytes l) = l.
Proof. apply String.list_byte_of_string_of_list_byte. Qed.

Lemma split_bytes_nonempty sep l : split_bytes sep l ≠ [].
Proof. destruct l as [|b l]; simpl; [done|]. case_bool_decide; [done|]. by destruct (split_bytes sep l). Qed.

Lemma split_bytes_no_sep sep l : sep ∉ l → split_bytes sep l = [l].
Proof.
  induction l as [|b l IH]; intros Hno; simpl; [done|].
  apply not_elem_of_cons in Hno as [Hb Hno].
  rewrite bool_decide_false by congruence. by rewrite IH.
Qed.

Lemma split_bytes_cons sep part l :
  sep ∉ part → split_bytes sep (part ++ sep :: l) = part :: split_bytes sep l.
Proof.
  induction part as [|b part IH]; intros Hno; simpl.
  - by rewrite bool_decide_true.
  - apply not_elem_of_cons in Hno as [Hb Hno].
    rewrite bool_decide_false by congruence. by rewrite IH.
Qed.

(** Splitting what was joined gives the parts back. *)
Lemma split_join_bytes sep parts :
  parts ≠ [] → Forall (λ p, sep ∉ p) parts → split_bytes sep (join_bytes sep parts) = parts.
Proof.
  induction parts as [|part parts IH]; intros Hne Hall; [done|].
  apply Forall_cons in Hall as [Hp Hall].
  destruct parts as [|part' parts]; [by apply split_bytes_no_sep|].
  change (join_bytes sep (part :: part' :: parts))
    with (part ++ sep :: join_bytes sep (part' :: parts)).
  rewrite split_bytes_cons by done. by rewrite IH.
Qed.

Lemma rsplit_once_bytes_some sep p n :
  sep ∉ n → rsplit_once_bytes sep (p ++ sep :: n) = Some (p, n).
Proof.
  intros Hn. induction p as [|b p IH]; simpl; [|by rewrite IH].
  assert (rsplit_once_bytes sep n = None) as ->; [|by rewrite decide_True].
  induction n as [|b n IHn]; simpl; [done|]. apply not_elem_of_cons in Hn as [Hb Hn].
  by rewrite IHn, decide_False by done.
Qed.

Lemma rsplit_once_bytes_inv sep l p n :
  rsplit_once_bytes sep l = Some (p, n) → l = p ++ sep :: n ∧ sep ∉ n.
Proof.
  revert p n. induction l as [|b l IH]; intros p n H; simpl in H; [done|].
  destruct (rsplit_once_bytes sep l) as [[p' n']|] eqn:E.
  - injection H as <- <-. destruct (IH _ _ eq_refl) as [-> Hn]. done.
  - case_decide as Hb; [|done]. injection H as <- <-. subst. split; [done|].
    intros (l1 & l2 & ->)%list_elem_of_split. clear IH.
    assert (∀ l1, rsplit_once_bytes sep (l1 ++ sep :: l2) ≠ None) as Hsome; [|by eapply Hsome].
    clear l1 E. intros l1. induction l1 as [|b l1 IH]; simpl.
    + destruct (rsplit_once_bytes sep l2) as [[]|]; [done|]. by rewrite decide_True.
    + destruct (rsplit_once_bytes sep (l1 ++ sep :: l2)) as [[]|]; naive_solver.
Qed.

Lemma split_bytes_length_app sep l1 l2 :
  (length (split_bytes sep (l1 ++ sep :: l2))
   = length (split_bytes sep l1) + length (split_bytes sep l2))%nat.
Proof.
  induction l1 as [|b l1 IH]; simpl; [by rewrite bool_decide_true|].
  case_bool_decide; simpl; [by rewrite IH|].
  pose proof (split_bytes_nonempty sep (l1 ++ sep :: l2)).
  pose proof (split_bytes_nonempty sep l1).
  destruct (split_bytes sep (l1 ++ sep :: l2)), (split_bytes sep l1); simpl in *; naive_solver.
Qed.
Lemma split_bytes_length_pos sep l : (1 ≤ length (split_bytes sep l))%nat.
Proof. pose proof (split_bytes_nonempty sep l). destruct (split_bytes sep l); simpl; [done|lia]. Qed.

(** Text that neither starts nor ends with white space is left alone. *)
Definition trimmed (l : bytes) : Prop :=
  strip_one white_space l = None ∧ strip_one (reverse <$> white_space) (rev l) = None.

Lemma trim_fuel_none fuel pats l : strip_one pats l = None → trim_fuel fuel pats l = l.
Proof. intros H. destruct fuel; simpl; [done|]. by rewrite H. Qed.
Lemma trim_bytes_trimmed l : trimmed l → trim_bytes l = l.
Proof.
  intros [H1 H2]. unfold trim_bytes, trim_end, trim_start.
  rewrite (trim_fuel_none _ _ l H1), (trim_fuel_none _ _ _ H2). apply rev_involutive.
Qed.

Lemma strip_one_none pats l :
  strip_one pats l = None ↔ ∀ p, p ∈ pats → take (length p) l ≠ p.
Proof.
  induction pats as [|p pats IH]; simpl; [set_solver|].
  case_bool_decide as Hp.
  - split; [done|]. intros H. by destruct (H p ltac:(by left)).
  - rewrite IH. set_solver.
Qed.

(** A pattern without [c] is a prefix of [k ++ c :: rest] only if it is one of [k]. *)
Lemma strip_one_app pats k c rest :
  (∀ p, p ∈ pats → c ∉ p) → strip_one pats k = None → strip_one pats (k ++ c :: rest) = None.
Proof.
  intros Hc Hk. rewrite strip_one_none in *. intros p Hp Htake.
  destruct (decide (length p ≤ length k)%nat) as [Hle|Hgt].
  - rewrite take_app_le in Htake by done. by apply (Hk p).
  - apply (Hc p Hp). rewrite <- Htake.
    rewrite take_app_ge by lia. apply elem_of_app. right.
    destruct (length p - length k)%nat eqn:E; [lia|]. simpl. by left.
Qed.

Lemma white_space_no b :
  b ∈ [x2c; x3d] → ∀ p, p ∈ white_space → b ∉ p.
Proof.
  intros Hb. apply Forall_forall.
  revert b Hb. apply Forall_forall.
  apply (bool_decide_unpack _). vm_compute. exact I.
Qed.

#[global] Arguments strip_one : simpl never.
#[global] Arguments white_space : simpl never.

Example trim_examples :
  trim " KEY=VALUE , KEY2=value2 " = "KEY=VALUE , KEY2=value2"%string ∧
  trim "" = ""%string ∧ trim "   " = ""%string ∧
  split x2c "a,,b" = ["a"; ""; "b"]%string ∧ split x2c "" = [""]%string.
Proof. repeat split; vm_compute; reflexivity. Qed.

(** ** Hexadecimal text can be read back *)

Definition hex_value (b : byte) : option Z :=
  if in_range b 48 57 then Some (Z_of_byte b - 48)
  else if in_range b 97 102 then Some (Z_of_byte b - 87) else None.
Fixpoint unhex (l : bytes) : option bytes :=
  match l with
  | [] => Some []
  | a :: b :: l =>
      x ← hex_value a; y ← hex_value b; r ← unhex l; Some (byte_of_Z (16 * x + y) :: r)
  | _ => None
  end.
Lemma hex_digit_value b :
  hex_value (hex_digit (Byte.to_N b / 16)) = Some (Z_of_byte b / 16) ∧
  hex_value (hex_digit (Byte.to_N b mod 16)) = Some (Z_of_byte b mod 16).
Proof. destruct b; split; reflexivity. Qed.
Lemma unhex_hex_of_byte b l :
  unhex (hex_of_byte b ++ l) = (r ← unhex l; Some (b :: r)).
Proof.
  destruct (hex_digit_value b) as [Hhi Hlo].
  unfold hex_of_byte. cbn [app unhex]. rewrite Hhi, Hlo. simpl.
  by rewrite <- Z.div_mod, byte_of_Z_of_byte.
Qed.
Lemma hex_value_ascii b : is_Some (hex_value b) → Z_of_byte b < 128.
Proof.
  unfold hex_value, in_range. intros [v Hb]. destruct (Z.lt_ge_cases (Z_of_byte b) 128); [done|].
  by rewrite (proj2 (Z.leb_gt (Z_of_byte b) 57)), (proj2 (Z.leb_gt (Z_of_byte b) 102)), !andb_false_r
    in Hb by lia.
Qed.
Lemma unhex_hex l : unhex (l ≫= hex_of_byte) = Some l.
Proof.
  induction l as [|b l IH]; [done|]. change ((b :: l) ≫= hex_of_byte) with (hex_of_byte b ++ (l ≫= hex_of_byte)).
  by rewrite unhex_hex_of_byte, IH.
Qed.
Lemma hex_encode_inj l l' : hex_encode l = hex_encode l' → l = l'.
Proof.
  unfold hex_encode. intros H%(f_equal bytes_of_string). rewrite !bytes_of_string_of_bytes in H.
  apply (f_equal unhex) in H. rewrite !unhex_hex in H. congruence.
Qed.

Lemma hex_bytes l : Forall (λ b, is_Some (hex_value b)) (l ≫= hex_of_byte).
Proof.
  induction l as [|b l IH]; [constructor|].
  change ((b :: l) ≫= hex_of_byte) with (hex_of_byte b ++ (l ≫= hex_of_byte)).
  apply Forall_app. split; [|done]. destruct (hex_digit_value b) as [Hhi Hlo]. repeat constructor; eauto.
Qed.
Lemma hex_encode_prefixed_bytes l :
  bytes_of_string (hex_encode_prefixed l) = x30 :: x78 :: (l ≫= hex_of_byte).
Proof.
  unfold hex_encode_prefixed. rewrite bytes_of_string_app. unfold hex_encode.
  by rewrite bytes_of_string_of_bytes.
Qed.
Lemma hex_encode_prefixed_inj l l' : hex_encode_prefixed l = hex_encode_prefixed l' → l = l'.
Proof.
  intros H%(f_equal bytes_of_string). rewrite !hex_encode_prefixed_bytes in H.
  injection H as H. apply (f_equal unhex) in H. rewrite !unhex_hex in H. congruence.
Qed.

(** ** Case *)

(** [str::to_lowercase] and [str::to_uppercase], with the Unicode tables *)
Class CaseLib := { to_lowercase : string → string; to_uppercase : string → string }.
(** the tables on ASCII *)
Definition shift_case (lo hi : N) (shift : N → N) (b : byte) : byte :=
  let n := Byte.to_N b in
  if (lo <=? n)%N && (n <=? hi)%N then default b (Byte.of_N (shift n)) else b.
Definition ascii_case : CaseLib := {|
  to_lowercase s := string_of_bytes (shift_case 65 90 (λ n, n + 32)%N <$> bytes_of_string s);
  to_uppercase s := string_of_bytes (shift_case 97 122 (λ n, n - 32)%N <$> bytes_of_string s);
|}.
