(* ===== verification/Serde.v ===== *)
(** * Serialization

    The code that [#[derive(Serialize, Deserialize)]] generates for the structs and enums of
    the crates, on JSON documents.  A [Wire A] is a pair of a serializer and a deserializer,
    with two predicates: [wf], which values are written so that they are read back, and
    [typed], what is known of any value that was read.  [Lawful] states that the pair keeps to
    them, and that the order of the fields of an object never matters.

    A derived struct reads an object field by field in the order of the document, refuses
    duplicates, skips or refuses unknown fields and looks for missing ones at the end; it also
    reads an array of its fields.  The enums of the crates are tagged adjacently, internally
    or externally, or not at all.  What the crates take from libraries (hexadecimal byte
    strings, quoted integers, SSZ lists and bit fields) is the class [SerdeLib]. *)

From S2P Require Import Prelude Bytes.

(** ** JSON documents; an object keeps the order and the duplicates of its text *)

Inductive Json : Type :=
| JNull
| JBool (b : bool)
| JNumber (n : Z)
| JFloat (text : string)
| JString (s : string)
| JArray (l : list Json)
| JObject (fields : list (string * Json)).

(** two documents that differ in the order of the fields of objects only *)
Inductive same_json : Json → Json → Prop :=
| same_refl j : same_json j j
| same_array l l' : Forall2 same_json l l' → same_json (JArray l) (JArray l')
| same_object m m' m'' :
    m ≡ₚ m' → Forall2 (λ x y, x.1 = y.1 ∧ same_json x.2 y.2) m' m'' →
    same_json (JObject m) (JObject m'').

(** a document as the serializers of the crates write it: integers of 64 bits, no floats *)
Fixpoint document (j : Json) : bool :=
  match j with
  | JNumber n => (- 2 ^ 63 <=? n) && (n <? 2 ^ 64)
  | JFloat _ => false
  | JArray l => forallb document l
  | JObject m => forallb (λ kv, document kv.2) m
  | _ => true
  end.

(** ** Errors of deserializers *)

Inductive SerdeError : Type :=
| InvalidType
| MissingField (name : string)
| DuplicateField (name : string)
| UnknownField (name : string)
| UnknownVariant (name : string)
| InvalidLength (n : nat)
| CustomError (msg : string).

(** ** Serializers and deserializers *)

Record Wire (A : Type) := {
  to_json : A → Json;
  from_json : Json → Result SerdeError A;
  wf : A → Prop;
  typed : A → Prop;
}.
Arguments to_json {A} w a.
Arguments from_json {A} w j.
Arguments wf {A} w a.
Arguments typed {A} w a.

Class Lawful {A} (w : Wire A) : Prop := {
  wire_roundtrip : ∀ a, wf w a → from_json w (to_json w a) = Ok a;
  wire_document : ∀ a, wf w a → document (to_json w a) = true;
  wire_typed : ∀ j a, from_json w j = Ok a → typed w a;
  wire_order : ∀ j j' a, same_json j j' → from_json w j = Ok a → from_json w j' = Ok a;
}.

(** ** Derived structs *)

(** a field, with the value of a field that is missing from an object ([Option] and
    [#[serde(default)]]) or from an array ([#[serde(default)]] only) *)
Record Field := {
  f_type : Type;
  f_name : string;
  f_wire : Wire f_type;
  f_absent : option f_type;
  f_absent_seq : option f_type;
}.
Definition field {A} (name : string) (w : Wire A) : Field :=
  {| f_name := name; f_wire := w; f_absent := None; f_absent_seq := None |}.

(** the values of the fields, and the variables of the derived visitor *)
Fixpoint tuple (fs : list Field) : Type :=
  match fs with [] => unit | f :: fs => f_type f * tuple fs end.
Fixpoint slots (fs : list Field) : Type :=
  match fs with [] => unit | f :: fs => option (f_type f) * slots fs end.
Fixpoint no_slots (fs : list Field) : slots fs :=
  match fs with [] => tt | f :: fs => (None, no_slots fs) end.

(** one turn of the loop of [visit_map] *)
Fixpoint set_slot (deny : bool) (fs : list Field) (key : string) (v : Json)
    : slots fs → Result SerdeError (slots fs) :=
  match fs with
  | [] => λ s, if deny then Err (UnknownField key) else Ok s
  | f :: fs => λ s,
      if String.eqb key (f_name f) then
        match s.1 with
        | Some _ => Err (DuplicateField key)
        | None => a ← from_json (f_wire f) v; Ok (Some a, s.2)
        end
      else s' ← set_slot deny fs key v s.2; Ok (s.1, s')
  end.
(** after the loop: the fields that are missing *)
Fixpoint close_slots (fs : list Field) : slots fs → Result SerdeError (tuple fs) :=
  match fs with
  | [] => λ _, Ok tt
  | f :: fs => λ s,
      a ← ok_or (match s.1 with Some a => Some a | None => f_absent f end) (MissingField (f_name f));
      t ← close_slots fs s.2; Ok (a, t)
  end.
Definition visit_map (deny : bool) (fs : list Field) (m : list (string * Json))
    : Result SerdeError (tuple fs) :=
  s ← try_fold (λ s kv, set_slot deny fs kv.1 kv.2 s) (no_slots fs) m;
  close_slots fs s.

(** the elements of an array are the fields in the order of their declaration *)
Fixpoint visit_seq (read : nat) (fs : list Field) (l : list Json) : Result SerdeError (tuple fs) :=
  match fs with
  | [] => match l with [] => Ok tt | _ => Err (InvalidLength (read + length l)) end
  | f :: fs =>
      match l with
      | v :: l => a ← from_json (f_wire f) v; t ← visit_seq (S read) fs l; Ok (a, t)
      | [] => a ← ok_or (f_absent_seq f) (InvalidLength read); t ← visit_seq read fs []; Ok (a, t)
      end
  end.

Fixpoint ser_fields (fs : list Field) : tuple fs → list (string * Json) :=
  match fs with
  | [] => λ _, []
  | f :: fs => λ t, (f_name f, to_json (f_wire f) t.1) :: ser_fields fs t.2
  end.
Definition de_fields (deny : bool) (fs : list Field) (j : Json) : Result SerdeError (tuple fs) :=
  match j with
  | JObject m => visit_map deny fs m
  | JArray l => visit_seq 0 fs l
  | _ => Err InvalidType
  end.

Fixpoint tuple_wf (fs : list Field) : tuple fs → Prop :=
  match fs with [] => λ _, True | f :: fs => λ t, wf (f_wire f) t.1 ∧ tuple_wf fs t.2 end.
Fixpoint tuple_typed (fs : list Field) : tuple fs → Prop :=
  match fs with [] => λ _, True | f :: fs => λ t, typed (f_wire f) t.1 ∧ tuple_typed fs t.2 end.

(** a struct [R] with its fields; [deny] is [#[serde(deny_unknown_fields)]] *)
Definition struct {R} (deny : bool) (fs : list Field) (get : R → tuple fs) (mk : tuple fs → R) : Wire R := {|
  to_json r := JObject (ser_fields fs (get r));
  from_json j := mk <$> de_fields deny fs j;
  wf r := tuple_wf fs (get r);
  typed r := tuple_typed fs (get r);
|}.

(** ** Derived enums *)

(** [serde_json]'s [deserialize_enum]: the name of a variant, or an object with it as the only field *)
Definition external (j : Json) : Result SerdeError (string * option Json) :=
  match j with
  | JString s => Ok (s, None)
  | JObject [(name, v)] => Ok (name, Some v)
  | _ => Err InvalidType
  end.
Definition unit_variant (v : option Json) : Result SerdeError () :=
  match v with None | Some JNull => Ok () | _ => Err InvalidType end.
Definition unit_name (j : Json) : Result SerdeError string :=
  '(name, v) ← external j; _ ← unit_variant v; Ok name.
Definition newtype_variant {A} (w : Wire A) (v : option Json) : Result SerdeError A :=
  match v with Some v => from_json w v | None => Err InvalidType end.

(** [#[serde(tag = t, content = c)]] for an enum with one newtype variant: the fields [t] and
    [c] in either order, whatever else the object has *)
Definition adjacent_entries (t c : string) (m : list (string * Json)) : list (string * Json) :=
  filter (λ kv, kv.1 = t ∨ kv.1 = c) m.
Definition no_third {A} (a : A) (rest : list (string * Json)) : Result SerdeError A :=
  match rest with [] => Ok a | kv :: _ => Err (DuplicateField kv.1) end.
Definition variant_named (variant : string) (j : Json) : Result SerdeError () :=
  name ← unit_name j;
  if String.eqb name variant then Ok () else Err (UnknownVariant name).
Definition de_adjacent {A} (t c variant : string) (w : Wire A) (j : Json) : Result SerdeError A :=
  match j with
  | JObject m =>
      match adjacent_entries t c m with
      | [] => Err (MissingField t)
      | (k1, v1) :: rest =>
          if String.eqb k1 t then
            _ ← variant_named variant v1;
            match rest with
            | [] => Err (MissingField c)
            | (k2, v2) :: rest =>
                if String.eqb k2 t then Err (DuplicateField t)
                else a ← from_json w v2; no_third a rest
            end
          else
            match rest with
            | [] => Err (MissingField t)
            | (k2, v2) :: rest =>
                if String.eqb k2 t then
                  _ ← variant_named variant v2;
                  a ← from_json w v1; no_third a rest
                else Err (DuplicateField c)
            end
      end
  | JArray [v1; v2] => _ ← variant_named variant v1; from_json w v2
  | JArray l => Err (InvalidLength (length l))
  | _ => Err InvalidType
  end.
Definition adjacent {A B} (t c variant : string) (w : Wire A) (get : B → A) (mk : A → B) : Wire B := {|
  to_json b := JObject [(t, JString variant); (c, to_json w (get b))];
  from_json j := mk <$> de_adjacent t c variant w j;
  wf b := wf w (get b);
  typed b := typed w (get b);
|}.

(** [#[serde(untagged)]] for an enum with one variant *)
Definition untagged {A B} (name : string) (w : Wire A) (get : B → A) (mk : A → B) : Wire B := {|
  to_json b := to_json w (get b);
  from_json j := map_err (λ _, CustomError ("data did not match any variant of untagged enum " +:+ name))
                   (mk <$> from_json w j);
  wf b := wf w (get b);
  typed b := typed w (get b);
|}.

(** [#[serde(tag = t)]]: the tag, which is read as an identifier, and the other fields of an
    object, or the first and the other elements of an array *)
Definition identifier (j : Json) : Result SerdeError string :=
  match j with JString s => Ok s | _ => Err InvalidType end.
Definition internal (t : string) (j : Json) : Result SerdeError (string * Json) :=
  match j with
  | JObject m =>
      match (filter (λ kv, kv.1 = t) m).*2 with
      | [] => Err (MissingField t)
      | [v] => name ← identifier v; Ok (name, JObject (filter (λ kv, kv.1 ≠ t) m))
      | _ => Err (DuplicateField t)
      end
  | JArray (v :: l) => name ← identifier v; Ok (name, JArray l)
  | JArray [] => Err (MissingField t)
  | _ => Err InvalidType
  end.

(** ** Implementations of the [serde] crate *)

(** [Vec<T>] *)
Definition vec {A} (w : Wire A) : Wire (list A) := {|
  to_json l := JArray (to_json w <$> l);
  from_json j := match j with JArray l => try_map (from_json w) l | _ => Err InvalidType end;
  wf := Forall (wf w);
  typed := Forall (typed w);
|}.
(** [Option<T>] *)
Definition nullable {A} (w : Wire A) : Wire (option A) := {|
  to_json o := match o with Some a => to_json w a | None => JNull end;
  from_json j := match j with JNull => Ok None | _ => Some <$> from_json w j end;
  wf o := match o with Some a => wf w a ∧ to_json w a ≠ JNull | None => True end;
  typed o := match o with Some a => typed w a | None => True end;
|}.
(** a field of type [Option<T>] *)
Definition opt_field {A} (name : string) (w : Wire A) : Field :=
  {| f_name := name; f_wire := nullable w; f_absent := Some None; f_absent_seq := None |}.
(** [String] *)
Definition text : Wire string := {|
  to_json s := JString s;
  from_json j := match j with JString s => Ok s | _ => Err InvalidType end;
  wf _ := True;
  typed _ := True;
|}.
(** [u64] *)
Definition number64 : Wire Z := {|
  to_json n := JNumber n;
  from_json j :=
    match j with
    | JNumber n => if (0 <=? n) && (n <? u64_bound) then Ok n else Err (CustomError "invalid value")
    | _ => Err InvalidType
    end;
  wf := is_u64;
  typed := is_u64;
|}.

(** ** Documents that differ in the order of fields *)

Lemma same_object_inv m j :
  same_json (JObject m) j → ∃ m' m'', j = JObject m'' ∧ m ≡ₚ m' ∧
    Forall2 (λ x y, x.1 = y.1 ∧ same_json x.2 y.2) m' m''.
Proof.
  inversion 1 as [|?|? m' m'' Hp Hall]; subst; [|by eauto].
  exists m, m. split_and!; [done..|]. clear. induction m; constructor; [|done]. split; [done|constructor].
Qed.
Lemma same_array_inv l j :
  same_json (JArray l) j → ∃ l', j = JArray l' ∧ Forall2 same_json l l'.
Proof.
  inversion 1 as [|? l' Hall|?]; subst; [|by eauto].
  exists l. split; [done|]. clear. induction l; constructor; [constructor|done].
Qed.
(** a document that is neither an object nor an array is the same as itself only *)
Definition scalar (j : Json) : Prop :=
  match j with JArray _ | JObject _ => False | _ => True end.
Lemma same_scalar_inv j j' : same_json j j' → scalar j → j' = j.
Proof. by inversion 1. Qed.
(** A deserializer of scalars *)
Lemma scalar_order {A} (from : Json → Result SerdeError A) j j' a :
  (∀ j a, from j = Ok a → scalar j) → same_json j j' → from j = Ok a → from j' = Ok a.
Proof. intros Hs Hj Ha. rewrite (same_scalar_inv j j'); eauto. Qed.

(** ** Derived structs are lawful *)

Class LawfulFields (fs : list Field) : Prop := lawful_fields : Forall (λ f,
  Lawful (f_wire f) ∧ (∀ a, f_absent f = Some a → typed (f_wire f) a) ∧
  (∀ a, f_absent_seq f = Some a → typed (f_wire f) a)) fs.
#[export] Instance lawful_nil : LawfulFields [].
Proof. constructor. Qed.
#[export] Instance lawful_field {A} name (w : Wire A) fs :
  Lawful w → LawfulFields fs → LawfulFields (field name w :: fs).
Proof. intros ??. constructor; [|done]. by split_and!. Qed.

Fixpoint slots_typed (fs : list Field) : slots fs → Prop :=
  match fs with
  | [] => λ _, True
  | f :: fs => λ s, (∀ a, s.1 = Some a → typed (f_wire f) a) ∧ slots_typed fs s.2
  end.
Lemma no_slots_typed fs : slots_typed fs (no_slots fs).
Proof. induction fs; simpl; [done|]. by split. Qed.

Lemma set_slot_typed deny fs key v (s s' : slots fs) :
  LawfulFields fs → slots_typed fs s → set_slot deny fs key v s = Ok s' → slots_typed fs s'.
Proof.
  induction fs as [|f fs IH]; intros Hl Hs H; simpl in *.
  - by destruct s'.
  - apply Forall_cons in Hl as [[Hw _] Hl]. destruct s as [o s], Hs as [Ho Hs]. simpl in *.
    destruct (String.eqb key (f_name f)).
    + destruct o; [done|]. inv_ok. split; [|done]. intros a' [= <-]. by eapply wire_typed.
    + inv_ok. split; [done|]. by eapply IH.
Qed.
Lemma close_slots_typed fs (s : slots fs) t :
  LawfulFields fs → slots_typed fs s → close_slots fs s = Ok t → tuple_typed fs t.
Proof.
  induction fs as [|f fs IH]; intros Hl Hs H; simpl in *; [done|].
  apply Forall_cons in Hl as [(_ & Ha & _) Hl]. destruct s as [o s], Hs as [Ho Hs]. simpl in *. inv_ok.
  split; [|by eapply IH]. destruct o; simplify_eq; eauto.
Qed.
Lemma visit_seq_typed n fs l t :
  LawfulFields fs → visit_seq n fs l = Ok t → tuple_typed fs t.
Proof.
  revert n l. induction fs as [|f fs IH]; intros n l Hl H; simpl in *; [done|].
  apply Forall_cons in Hl as [(Hw & _ & Ha) Hl]. destruct l as [|v l]; inv_ok; (split; [|by eapply IH]).
  - by apply Ha.
  - by eapply wire_typed.
Qed.
Lemma de_fields_typed deny fs j t :
  LawfulFields fs → de_fields deny fs j = Ok t → tuple_typed fs t.
Proof.
  intros Hl. destruct j as [| | | | |l|m]; simpl; try done; [by apply visit_seq_typed|].
  unfold visit_map. intros H. inv_ok. eapply close_slots_typed; [done| |done].
  eapply (try_fold_invariant _ (slots_typed fs)); [apply no_slots_typed| |done].
  intros s kv s' _ Hs Hk. by apply (set_slot_typed _ _ _ _ _ _ Hl Hs Hk).
Qed.

(** Fields can be read in any order *)
Lemma set_slot_swap deny fs kv kv' (s s1 s2 : slots fs) :
  set_slot deny fs kv.1 kv.2 s = Ok s1 → set_slot deny fs kv'.1 kv'.2 s1 = Ok s2 →
  ∃ s1', set_slot deny fs kv'.1 kv'.2 s = Ok s1' ∧ set_slot deny fs kv.1 kv.2 s1' = Ok s2.
Proof.
  induction fs as [|f fs IH]; intros H1 H2; simpl in *.
  - destruct deny; naive_solver.
  - destruct s as [o s], s2 as [o2 s2]. simpl in *.
    destruct (String.eqb kv.1 (f_name f)), (String.eqb kv'.1 (f_name f)).
    + destruct o; [done|]. apply result_bind_ok in H1 as (a & Ha & [= <-]). done.
    + destruct o; [done|]. apply result_bind_ok in H1 as (a & Ha & [= <-]).
      apply result_bind_ok in H2 as (t & Ht & [= <- <-]). simpl in Ht. exists (None, t).
      rewrite Ht. simpl. by rewrite Ha.
    + apply result_bind_ok in H1 as (t & Ht & [= <-]). simpl in H2. destruct o; [done|].
      apply result_bind_ok in H2 as (a & Ha & [= <- <-]). exists (Some a, s).
      rewrite Ha. simpl. by rewrite Ht.
    + apply result_bind_ok in H1 as (t & Ht & [= <-]). simpl in H2.
      apply result_bind_ok in H2 as (t2 & Ht2 & [= <- <-]).
      destruct (IH _ _ _ Ht Ht2) as (t' & H & H'). exists (o, t'). rewrite H. simpl. by rewrite H'.
Qed.

Lemma set_slot_same deny fs key v v' (s s' : slots fs) :
  LawfulFields fs → same_json v v' → set_slot deny fs key v s = Ok s' → set_slot deny fs key v' s = Ok s'.
Proof.
  induction fs as [|f fs IH]; intros Hl Hv H; simpl in *; [done|].
  apply Forall_cons in Hl as [[Hw _] Hl]. destruct s as [o s]. simpl in *.
  destruct (String.eqb key (f_name f)).
  - destruct o; [done|]. apply result_bind_ok in H as (a & Ha & H).
    by rewrite (wire_order _ _ _ Hv Ha).
  - apply result_bind_ok in H as (t & Ht & H). by rewrite (IH _ _ Hl Hv Ht).
Qed.
Lemma visit_map_same deny fs m m' m'' t :
  LawfulFields fs → m ≡ₚ m' → Forall2 (λ x y, x.1 = y.1 ∧ same_json x.2 y.2) m' m'' →
  visit_map deny fs m = Ok t → visit_map deny fs m'' = Ok t.
Proof.
  intros Hl Hp Hall H. unfold visit_map in *. apply result_bind_ok in H as (s & Hs & H).
  apply (try_fold_perm _ _ _ _ _ (λ b x y b1 b2, set_slot_swap deny fs x y b b1 b2) Hp) in Hs.
  apply result_bind_ok. exists s. split; [|done]. clear H Hp. revert Hs. generalize (no_slots fs).
  induction Hall as [|[k v] [k' v'] m1 m2 [Hk Hv] Hall IH]; intros s0; simpl in *; [done|]. subst k'.
  rewrite !result_bind_ok. intros (s1 & Hs1 & Hs). exists s1. split; [|by apply IH].
  by eapply set_slot_same.
Qed.
Lemma visit_seq_same n fs l l' t :
  LawfulFields fs → Forall2 same_json l l' → visit_seq n fs l = Ok t → visit_seq n fs l' = Ok t.
Proof.
  revert n l l'. induction fs as [|f fs IH]; intros n l l' Hl Hall H; simpl in *.
  - by destruct Hall.
  - apply Forall_cons in Hl as [[Hw _] Hl]. destruct Hall as [|v v' l l' Hv Hall]; [done|].
    apply result_bind_ok in H as (a & Ha & H). apply result_bind_ok in H as (t' & Ht & H).
    rewrite (wire_order _ _ _ Hv Ha). simpl. by rewrite (IH _ _ _ _ Hl Hall Ht).
Qed.
Lemma de_fields_same deny fs j j' t :
  LawfulFields fs → same_json j j' → de_fields deny fs j = Ok t → de_fields deny fs j' = Ok t.
Proof.
  intros Hl Hj H. destruct j as [| | | | |l|m]; simpl in H; try done.
  - apply same_array_inv in Hj as (l' & -> & Hall). by eapply visit_seq_same.
  - apply same_object_inv in Hj as (m' & m'' & -> & Hp & Hall). by eapply visit_map_same.
Qed.

(** Fields that are written are read back *)
Lemma try_fold_other_slot deny f fs m (o : option (f_type f)) (s : slots fs) :
  f_name f ∉ m.*1 →
  try_fold (λ s kv, set_slot deny (f :: fs) kv.1 kv.2 s) (o, s) m
  = (s' ← try_fold (λ s kv, set_slot deny fs kv.1 kv.2 s) s m; Ok (o, s')).
Proof.
  revert s. induction m as [|kv m IH]; intros s Hm; simpl; [done|].
  csimpl in Hm. apply not_elem_of_cons in Hm as [Hk Hm].
  rewrite (proj2 (String.eqb_neq kv.1 (f_name f))) by congruence.
  destruct (set_slot deny fs kv.1 kv.2 s); simpl; [|done]. by apply IH.
Qed.
Lemma ser_fields_names fs t : (ser_fields fs t).*1 = f_name <$> fs.
Proof. induction fs as [|f fs IH]; [done|]. csimpl. by rewrite IH. Qed.
Lemma de_ser_fields deny fs t :
  LawfulFields fs → NoDup (f_name <$> fs) → tuple_wf fs t →
  de_fields deny fs (JObject (ser_fields fs t)) = Ok t.
Proof.
  induction fs as [|f fs IH]; intros Hl Hnd Ht; [by destruct t|].
  apply Forall_cons in Hl as [[Hw _] Hl]. apply NoDup_cons in Hnd as [Hf Hnd].
  destruct t as [a t], Ht as [Ha Ht]. cbn [fst snd] in *.
  specialize (IH t Hl Hnd Ht). cbn [de_fields] in *. unfold visit_map in *.
  apply result_bind_ok in IH as (s & Hs & Hc).
  assert (set_slot deny (f :: fs) (f_name f) (to_json (f_wire f) a) (no_slots (f :: fs))
          = Ok (Some a, no_slots fs)) as Hset.
  { simpl. by rewrite String.eqb_refl, wire_roundtrip. }
  cbn [ser_fields try_fold fst snd]. rewrite Hset. cbn [mbind result_bind].
  rewrite try_fold_other_slot by (by rewrite ser_fields_names). rewrite Hs. simpl. by rewrite Hc.
Qed.

Lemma ser_fields_document fs t :
  LawfulFields fs → tuple_wf fs t → document (JObject (ser_fields fs t)) = true.
Proof.
  induction fs as [|f fs IH]; intros Hl Ht; [done|].
  apply Forall_cons in Hl as [[Hw _] Hl]. destruct t as [a t], Ht as [Ha Ht].
  cbn [ser_fields document forallb fst snd]. rewrite wire_document by done. by apply IH.
Qed.

Lemma struct_lawful {R} deny fs (get : R → tuple fs) mk :
  LawfulFields fs → NoDup (f_name <$> fs) → (∀ r, mk (get r) = r) → (∀ t, get (mk t) = t) →
  Lawful (struct deny fs get mk).
Proof.
  intros Hl Hnd Hmk Hget. split; unfold struct; cbn [to_json from_json wf typed].
  - intros r Hr. rewrite de_ser_fields by done. simpl. by rewrite Hmk.
  - intros r Hr. by apply ser_fields_document.
  - intros j r H. destruct (de_fields deny fs j) eqn:E; simplify_eq/=.
    rewrite Hget. by eapply de_fields_typed.
  - intros j j' r Hj H. destruct (de_fields deny fs j) eqn:E; simplify_eq/=.
    by rewrite (de_fields_same _ _ _ _ _ Hl Hj E).
Qed.
(** a struct is lawful by its fields *)
Ltac derive_lawful :=
  apply struct_lawful; [apply _|apply (bool_decide_unpack _); reflexivity
    |by intros []|by intros t; repeat destruct t as [? t]].

(** Fields that a struct does not have change nothing, unless it denies them *)
Lemma set_slot_unknown fs key v (s : slots fs) :
  key ∉ f_name <$> fs → set_slot false fs key v s = Ok s.
Proof.
  induction fs as [|f fs IH]; simpl; [done|]. rewrite not_elem_of_cons. intros [Hk Hn].
  rewrite (proj2 (String.eqb_neq key (f_name f))) by done. rewrite IH by done. by destruct s.
Qed.
Lemma visit_map_unknown fs m1 key v m2 :
  key ∉ f_name <$> fs → visit_map false fs (m1 ++ (key, v) :: m2) = visit_map false fs (m1 ++ m2).
Proof.
  intros Hk. unfold visit_map. rewrite !try_fold_app. simpl.
  destruct (try_fold _ _ m1); simpl; [|done]. by rewrite set_slot_unknown.
Qed.

(** ** The other implementations are lawful *)

#[export] Instance text_lawful : Lawful text.
Proof.
  split; [done..|]. intros j j' s. apply (scalar_order (from_json text)). by intros [].
Qed.
#[export] Instance number64_lawful : Lawful number64.
Proof.
  assert (∀ n : Z, (0 <=? n) && (n <? u64_bound) = true ↔ is_u64 n) as Hn.
  { intros n. rewrite andb_true_iff, Z.leb_le, Z.ltb_lt. done. }
  split; cbn [to_json from_json wf typed number64].
  - intros n H. by rewrite (proj2 (Hn n) H).
  - unfold is_u64, u64_bound. intros n H. simpl. apply andb_true_iff. rewrite Z.leb_le, Z.ltb_lt. lia.
  - intros [| |m| | | |] n; try done. destruct (_ && _) eqn:E; [|done]. intros [= <-]. by apply Hn.
  - intros j j' n. apply (scalar_order (from_json number64)). by intros [].
Qed.
#[export] Instance vec_lawful {A} (w : Wire A) : Lawful w → Lawful (vec w).
Proof.
  intros Hw. split; cbn [to_json from_json wf typed vec].
  - intros l Hl. apply try_map_ok. induction Hl; constructor; [by apply wire_roundtrip|done].
  - intros l Hl. simpl. induction Hl as [|a l Ha Hl IH]; [done|]. csimpl. by rewrite wire_document.
  - intros [| | | | |vs|] l; try done. intros H%try_map_ok. induction H; constructor; [by eapply wire_typed|done].
  - intros j j' l Hj H. destruct j as [| | | | |vs|]; try done.
    apply same_array_inv in Hj as (vs' & -> & Hall). apply try_map_ok in H. apply try_map_ok.
    revert l H. induction Hall as [|v v' vs vs' Hv Hall IH]; inversion_clear 1; constructor; auto.
    by eapply wire_order.
Qed.
Lemma nullable_lawful {A} (w : Wire A) : Lawful w → Lawful (nullable w).
Proof.
  intros Hw. split; cbn [to_json from_json wf typed nullable].
  - intros [a|]; [|done]. intros [Ha Hn]. rewrite wire_roundtrip by done. by destruct (to_json w a).
  - intros [a|]; [|done]. intros [Ha _]. by apply wire_document.
  - intros j [a|] H; [|done]. destruct j; try done;
      (destruct (from_json w _) eqn:E; [injection H as <-; by eapply wire_typed|done]).
  - intros j j' o Hj H. assert (j = JNull ∨ j ≠ JNull) as [->|Hne] by (destruct j; auto).
    + by rewrite (same_scalar_inv _ _ Hj I).
    + assert (∀ i : Json, i ≠ JNull → match i with JNull => Ok None | _ => Some <$> from_json w i end
        = Some <$> from_json w i) as Hi by (by intros []).
      assert (j' ≠ JNull) as Hne' by (intros ->; by inversion Hj).
      rewrite Hi in H |- * by done. destruct (from_json w j) eqn:E; [|done].
      by rewrite (wire_order _ _ _ Hj E).
Qed.
#[export] Existing Instance nullable_lawful.
#[export] Instance lawful_opt_field {A} name (w : Wire A) fs :
  Lawful w → LawfulFields fs → LawfulFields (opt_field name w :: fs).
Proof.
  intros ??. constructor; [|done]. split; [apply _|]. by split; [intros a [= <-]|].
Qed.
#[export] Instance untagged_lawful {A B} name (w : Wire A) (get : B → A) mk :
  Lawful w → (∀ b, mk (get b) = b) → (∀ a, get (mk a) = a) → Lawful (untagged name w get mk).
Proof.
  intros Hw Hmk Hget. split; cbn [to_json from_json wf typed untagged].
  - intros b Hb. rewrite wire_roundtrip by done. simpl. by rewrite Hmk.
  - intros b Hb. by apply wire_document.
  - intros j b H%map_err_ok. destruct (from_json w j) eqn:E; simplify_eq/=.
    rewrite Hget. by eapply wire_typed.
  - intros j j' b Hj H%map_err_ok. apply map_err_ok. destruct (from_json w j) eqn:E; simplify_eq/=.
    by rewrite (wire_order _ _ _ Hj E).
Qed.

(** ** Tagged enums *)

Lemma unit_name_same j j' name : same_json j j' → unit_name j = Ok name → unit_name j' = Ok name.
Proof.
  unfold unit_name. intros Hj H. apply result_bind_ok in H as ([n v] & He & Hu).
  assert (n = name ∧ unit_variant v = Ok ()) as [-> Hv].
  { destruct v as [[]|]; simpl in Hu; naive_solver. }
  destruct j as [| | | |s| |[|[k u] [|]]]; simpl in He; try done.
  - rewrite (same_scalar_inv _ _ Hj I). by injection He as -> <-.
  - injection He as -> <-. apply same_object_inv in Hj as (m' & m'' & -> & Hp & Hall).
    apply Permutation_length_1_inv in Hp as ->.
    apply Forall2_cons_inv_l in Hall as ([k' u'] & l & [Hk Hs] & Hl & ->).
    inversion Hl; subst. simpl in Hk, Hs. subst k'. simpl. destruct u; simpl in Hv; try done.
    by rewrite (same_scalar_inv _ _ Hs I).
Qed.
Lemma variant_named_same variant j j' :
  same_json j j' → variant_named variant j = Ok () → variant_named variant j' = Ok ().
Proof.
  unfold variant_named. intros Hj H. apply result_bind_ok in H as (n & Hn & H).
  by rewrite (unit_name_same _ _ _ Hj Hn).
Qed.

#[export] Instance adjacent_entries_proper t c : Proper ((≡ₚ) ==> (≡ₚ)) (adjacent_entries t c).
Proof. intros m m' Hm. unfold adjacent_entries. by rewrite Hm. Qed.
(** An adjacently tagged object has its tag and its content once each, in either order *)
Lemma no_third_ok {A} (a b : A) rest : no_third a rest = Ok b ↔ rest = [] ∧ a = b.
Proof. destruct rest; simpl; naive_solver. Qed.
Lemma adjacent_keys t c m k v rest :
  adjacent_entries t c m = (k, v) :: rest → (k = t ∨ k = c) ∧
  ∀ k' v' rest', rest = (k', v') :: rest' → k' = t ∨ k' = c.
Proof.
  intros H. split; [|intros k' v' rest' ->].
  - assert ((k, v) ∈ adjacent_entries t c m) as Hin by (rewrite H; by left).
    by apply list_elem_of_filter in Hin as [? _].
  - assert ((k', v') ∈ adjacent_entries t c m) as Hin by (rewrite H; right; by left).
    by apply list_elem_of_filter in Hin as [? _].
Qed.
Lemma de_adjacent_object {A} t c variant (w : Wire A) m a :
  t ≠ c →
  de_adjacent t c variant w (JObject m) = Ok a ↔
  ∃ v1 v2, adjacent_entries t c m ≡ₚ [(t, v1); (c, v2)] ∧
    variant_named variant v1 = Ok () ∧ from_json w v2 = Ok a.
Proof.
  intros Htc. cbn [de_adjacent]. split.
  - destruct (adjacent_entries t c m) as [|[k1 v1] rest] eqn:E; [done|].
    destruct (adjacent_keys _ _ _ _ _ _ E) as [Hk1 Hk2].
    destruct (String.eqb_spec k1 t) as [->|Hn1].
    + intros H. apply result_bind_ok in H as ([] & Hv & H). destruct rest as [|[k2 v2] rest]; [done|].
      destruct (Hk2 _ _ _ eq_refl) as [->| ->]; [by rewrite String.eqb_refl in H|].
      rewrite (proj2 (String.eqb_neq c t)) in H by done.
      apply result_bind_ok in H as (b & Hb & [-> ->]%no_third_ok). eauto 10.
    + destruct Hk1 as [->| ->]; [done|]. destruct rest as [|[k2 v2] rest]; [done|].
      destruct (String.eqb_spec k2 t) as [->|Hn2]; [|done]. intros H.
      apply result_bind_ok in H as ([] & Hv & H). apply result_bind_ok in H as (b & Hb & [-> ->]%no_third_ok).
      exists v2, v1. split; [by apply Permutation_swap|done].
  - intros (v1 & v2 & Hp & Hv & Ha). symmetry in Hp.
    apply Permutation_length_2_inv in Hp as [-> | ->].
    + rewrite String.eqb_refl, Hv. simpl. rewrite (proj2 (String.eqb_neq c t)) by done. by rewrite Ha.
    + rewrite (proj2 (String.eqb_neq c t)) by done. rewrite String.eqb_refl, Hv. simpl. by rewrite Ha.
Qed.
Lemma same_entries_filter (P : string → Prop) `{∀ k, Decision (P k)} m m' :
  Forall2 (λ x y, x.1 = y.1 ∧ same_json x.2 y.2) m m' →
  Forall2 (λ x y, x.1 = y.1 ∧ same_json x.2 y.2) (filter (λ kv, P kv.1) m) (filter (λ kv, P kv.1) m').
Proof.
  induction 1 as [|[k v] [k' v'] m m' [Hk Hv] Hall IH]; [done|]. simpl in Hk. subst k'.
  rewrite !filter_cons. simpl. case_decide; [|done]. by constructor.
Qed.
Lemma adjacent_lawful {A B} t c variant (w : Wire A) (get : B → A) mk :
  Lawful w → t ≠ c → (∀ b, mk (get b) = b) → (∀ a, get (mk a) = a) →
  Lawful (adjacent t c variant w get mk).
Proof.
  intros Hw Htc Hmk Hget. split; cbn [to_json from_json wf typed adjacent].
  - intros b Hb. rewrite (proj2 (de_adjacent_object t c variant w _ (get b) Htc)); [by rewrite <- (Hmk b) at 2|].
    exists (JString variant), (to_json w (get b)). split_and!; [|simpl; unfold variant_named; simpl;
      by rewrite String.eqb_refl|by apply wire_roundtrip].
    unfold adjacent_entries. rewrite !filter_cons, !decide_True by auto. done.
  - intros b Hb. simpl. by rewrite wire_document.
  - intros j b H. destruct (de_adjacent t c variant w j) eqn:E; simplify_eq/=. rewrite Hget.
    destruct j as [| | | | |[|v1 [|v2 [|]]]|m]; try done.
    + cbn in E. apply result_bind_ok in E as ([] & _ & E). by eapply wire_typed.
    + apply de_adjacent_object in E as (v1 & v2 & _ & _ & E); [|done]. by eapply wire_typed.
  - intros j j' b Hj H. destruct (de_adjacent t c variant w j) eqn:E; simplify_eq/=.
    assert (de_adjacent t c variant w j' = Ok a) as ->; [|done].
    destruct j as [| | | | |[|v1 [|v2 [|]]]|m]; try done.
    + apply same_array_inv in Hj as (l & -> & Hall).
      apply Forall2_cons_inv_l in Hall as (v1' & l1 & Hv1 & Hall & ->).
      apply Forall2_cons_inv_l in Hall as (v2' & l2 & Hv2 & Hall & ->). inversion Hall; subst.
      cbn in E |- *. apply result_bind_ok in E as ([] & Hn & E).
      rewrite (variant_named_same _ _ _ Hv1 Hn). simpl. by eapply wire_order.
    + apply de_adjacent_object in E as (v1 & v2 & Hp & Hn & E); [|done].
      apply same_object_inv in Hj as (m' & m'' & -> & Hm & Hall). apply de_adjacent_object; [done|].
      rewrite Hm in Hp. pose proof (same_entries_filter (λ k, k = t ∨ k = c) _ _ Hall) as Hf.
      fold (adjacent_entries t c m') (adjacent_entries t c m'') in Hf.
      destruct (Permutation_Forall2 Hp Hf) as (l & Hp' & Hf').
      apply Forall2_cons_inv_l in Hf' as ([k1 v1'] & l1 & [Hk1 Hv1] & Hf' & ->).
      apply Forall2_cons_inv_l in Hf' as ([k2 v2'] & l2 & [Hk2 Hv2] & Hf' & ->).
      inversion Hf'; subst. simpl in *. subst. exists v1', v2'. split_and!; [done| |].
      * by eapply variant_named_same.
      * by eapply wire_order.
Qed.

(** ** The serializers of libraries *)

Record Codec (A : Type) := { encode : A → Json; decode : Json → Result SerdeError A }.
Arguments encode {A} c a.
Arguments decode {A} c j.

Class SerdeLib := {
  (** [alloy]'s [FixedBytes<N>], and the types of public keys, signatures, hashes and addresses *)
  fixed_bytes : nat → Codec bytes;
  (** [serde_utils::quoted_u64] and [quoted_u256] *)
  quoted_u64 : Codec Z;
  quoted_u256 : Codec Z;
  (** [QuotedIntWrapper<u64>] and [QuotedIntVecVisitor] *)
  quoted_int : Z → Json;
  quoted_int_vec : Json → Result SerdeError (list Z);
  (** [ssz_types::serde_utils]: [hex_fixed_vec], [hex_var_list], and lists of them *)
  hex_fixed_vec : Z → Codec bytes;
  hex_var_list : Z → Codec bytes;
  list_of_hex_fixed_vec : Z → Z → Codec (list bytes);
  list_of_hex_var_list : Z → Z → Codec (list bytes);
  (** [VariableList<T, N>] and [FixedVector<T, N>], given those of [T] *)
  variable_list : ∀ {A}, Z → Codec A → Codec (list A);
  fixed_vector : ∀ {A}, Z → Codec A → Codec (list A);
  (** [BitList<N>] and [BitVector<N>] *)
  bit_list : Z → Codec (list bool);
  bit_vector : Z → Codec (list bool);
}.

(** the predicates of the types: how long a value is, how large a number *)
Definition wire_of {A} (c : Codec A) (wf typed : A → Prop) : Wire A :=
  {| to_json := encode c; from_json := decode c; Serde.wf := wf; Serde.typed := typed |}.
Definition codec_of {A} (w : Wire A) : Codec A := {| encode := to_json w; decode := from_json w |}.
Definition sized {A} (n : Z) (l : list A) : Prop := Z.of_nat (length l) = n.
Definition at_most {A} (n : Z) (l : list A) : Prop := Z.of_nat (length l) ≤ n.
Definition is_u256 (x : Z) : Prop := 0 ≤ x < 2 ^ 256.

Section Library.
Context {SL : SerdeLib}.
Definition bytesN (n : nat) : Wire bytes := wire_of (fixed_bytes n) (λ b, length b = n) (λ b, length b = n).
Definition u64_quoted : Wire Z := wire_of quoted_u64 is_u64 is_u64.
Definition u256_quoted : Wire Z := wire_of quoted_u256 is_u256 is_u256.
Definition hex_vec n : Wire bytes := wire_of (hex_fixed_vec n) (sized n) (sized n).
Definition hex_list n : Wire bytes := wire_of (hex_var_list n) (at_most n) (at_most n).
Definition hex_vecs m n : Wire (list bytes) :=
  wire_of (list_of_hex_fixed_vec m n) (λ l, at_most m l ∧ Forall (sized n) l) (Forall (sized n)).
Definition hex_lists m n : Wire (list bytes) :=
  wire_of (list_of_hex_var_list m n) (λ l, at_most m l ∧ Forall (at_most n) l) (Forall (at_most n)).
(** the documentation of the two types promises nothing of a list that was read *)
Definition ssz_list {A} n (w : Wire A) : Wire (list A) :=
  wire_of (variable_list n (codec_of w)) (λ l, at_most n l ∧ Forall (wf w) l) (Forall (typed w)).
Definition ssz_vector {A} n (w : Wire A) : Wire (list A) :=
  wire_of (fixed_vector n (codec_of w)) (λ l, sized n l ∧ Forall (wf w) l) (Forall (typed w)).
Definition bits_list n : Wire (list bool) := wire_of (bit_list n) (at_most n) (at_most n).
Definition bits_vector n : Wire (list bool) := wire_of (bit_vector n) (sized n) (sized n).
End Library.

Class SerdeCorrect {SL : SerdeLib} : Prop := {
  fixed_bytes_lawful :: ∀ n, Lawful (bytesN n);
  quoted_u64_lawful :: Lawful u64_quoted;
  quoted_u256_lawful :: Lawful u256_quoted;
  quoted_ints_read : ∀ l, Forall is_u64 l → quoted_int_vec (JArray (quoted_int <$> l)) = Ok l;
  quoted_int_document : ∀ n, document (quoted_int n) = true;
  quoted_ints_u64 : ∀ j l, quoted_int_vec j = Ok l → Forall is_u64 l;
  quoted_ints_order : ∀ j j' l, same_json j j' → quoted_int_vec j = Ok l → quoted_int_vec j' = Ok l;
  hex_fixed_vec_lawful :: ∀ n, Lawful (hex_vec n);
  hex_var_list_lawful :: ∀ n, Lawful (hex_list n);
  list_of_hex_fixed_vec_lawful :: ∀ m n, Lawful (hex_vecs m n);
  list_of_hex_var_list_lawful :: ∀ m n, Lawful (hex_lists m n);
  variable_list_lawful :: ∀ A n (w : Wire A), Lawful w → Lawful (ssz_list n w);
  fixed_vector_lawful :: ∀ A n (w : Wire A), Lawful w → Lawful (ssz_vector n w);
  bit_list_lawful :: ∀ n, Lawful (bits_list n);
  bit_vector_lawful :: ∀ n, Lawful (bits_vector n);
}.

(** ** Text *)

(** [serde_json]: documents as text, and the text of an error *)
Class JsonText := {
  json_text : Json → bytes;
  json_read : bytes → Result string Json;
  error_text : SerdeError → string;
}.
Class JsonTextCorrect {JT : JsonText} : Prop :=
  json_read_text : ∀ j, document j = true → json_read (json_text j) = Ok j.

(** [serde_json::to_vec] and [serde_json::from_slice] *)
Definition to_vec {JT : JsonText} {A} (w : Wire A) (a : A) : bytes := json_text (to_json w a).
Definition from_slice {JT : JsonText} {A} (w : Wire A) (b : bytes) : Result string A :=
  j ← json_read b; map_err error_text (from_json w j).

Section JsonText.
Context {JT : JsonText} {JC : JsonTextCorrect} {A : Type} (w : Wire A) {Hw : Lawful w}.
Lemma from_slice_to_vec a : wf w a → from_slice w (to_vec w a) = Ok a.
Proof.
  intros Ha. unfold from_slice, to_vec. rewrite json_read_text by (by apply wire_document).
  simpl. by rewrite wire_roundtrip.
Qed.
Lemma from_slice_ok b a :
  from_slice w b = Ok a ↔ ∃ j, json_read b = Ok j ∧ from_json w j = Ok a.
Proof. unfold from_slice. rewrite result_bind_ok. by setoid_rewrite map_err_ok. Qed.
(** What is read from the document of [a], in any order, is [a] *)
Lemma from_json_reordered j a b :
  wf w a → same_json (to_json w a) j → from_json w j = Ok b → a = b.
Proof. intros Ha Hj Hb. rewrite (wire_order _ _ a Hj) in Hb; [congruence|by apply wire_roundtrip]. Qed.
End JsonText.

(** ** Enums with several variants *)

(** the readers of the variants by name *)
Fixpoint read_variant {V A} (vs : list (string * (V → Result SerdeError A))) (name : string) (v : V)
    : Result SerdeError A :=
  match vs with
  | [] => Err (UnknownVariant name)
  | (n, read) :: vs => if String.eqb name n then read v else read_variant vs name v
  end.
(** externally tagged, the default *)
Definition de_external {A} (vs : list (string * (option Json → Result SerdeError A))) (j : Json)
    : Result SerdeError A := '(name, v) ← external j; read_variant vs name v.
(** internally tagged *)
Definition de_internal {A} (t : string) (vs : list (string * (Json → Result SerdeError A))) (j : Json)
    : Result SerdeError A := '(name, v) ← internal t j; read_variant vs name v.
Definition tag_fields (t name : string) (j : Json) : Json :=
  match j with JObject m => JObject ((t, JString name) :: m) | _ => j end.

(** a reader that does not see the order of fields, and what it gives *)
Definition reads {V A} (same : V → V → Prop) (P : A → Prop) (read : V → Result SerdeError A) : Prop :=
  ∀ v v' a, same v v' → read v = Ok a → read v' = Ok a ∧ P a.
Inductive same_payload : option Json → option Json → Prop :=
| same_no_payload : same_payload None None
| same_some_payload j j' : same_json j j' → same_payload (Some j) (Some j').

Lemma read_variant_reads {V A} (same : V → V → Prop) (P : A → Prop) vs name :
  Forall (λ nr, reads same P nr.2) vs → reads same P (read_variant vs name).
Proof.
  induction 1 as [|[n read] vs Hr Hall IH]; intros v v' a Hv H; simpl in *; [done|].
  destruct (String.eqb name n); [by apply (Hr v v')|by apply (IH v v')].
Qed.
Lemma external_same j j' name v :
  same_json j j' → external j = Ok (name, v) → ∃ v', external j' = Ok (name, v') ∧ same_payload v v'.
Proof.
  intros Hj H. destruct j as [| | | |s| |[|[k u] [|]]]; try done; simpl in H; injection H as -> <-.
  - rewrite (same_scalar_inv _ _ Hj I). exists None. split; [done|constructor].
  - apply same_object_inv in Hj as (m' & m'' & -> & Hp & Hall). apply Permutation_length_1_inv in Hp as ->.
    apply Forall2_cons_inv_l in Hall as ([k' u'] & l & [Hk Hu] & Hl & ->). inversion Hl; subst.
    simpl in Hk, Hu. subst k'. exists (Some u'). split; [done|by constructor].
Qed.
Lemma de_external_reads {A} (P : A → Prop) vs :
  Forall (λ nr, reads same_payload P nr.2) vs → reads same_json P (de_external vs).
Proof.
  intros Hall j j' a Hj H. apply result_bind_ok in H as ([name v] & He & Hr).
  destruct (external_same _ _ _ _ Hj He) as (v' & He' & Hv). unfold de_external. rewrite He'.
  by apply (read_variant_reads _ _ _ name Hall v v').
Qed.

Lemma internal_same t j j' name v :
  same_json j j' → internal t j = Ok (name, v) → ∃ v', internal t j' = Ok (name, v') ∧ same_json v v'.
Proof.
  intros Hj H. destruct j as [| | | | |[|u l]|m]; try done; simpl in H.
  - apply result_bind_ok in H as (n & Hn & [= <- <-]). apply same_array_inv in Hj as (l' & -> & Hall).
    apply Forall2_cons_inv_l in Hall as (u' & l'' & Hu & Hall & ->). exists (JArray l'').
    destruct u; simpl in Hn; try done. injection Hn as ->. rewrite (same_scalar_inv _ _ Hu I).
    split; [done|by constructor].
  - apply same_object_inv in Hj as (m' & m'' & -> & Hp & Hall).
    destruct (filter (λ kv, kv.1 = t) m).*2 as [|u [|]] eqn:Ef; try done.
    apply result_bind_ok in H as (n & Hn & [= <- <-]).
    destruct u as [| | | |s| |]; simpl in Hn; try done. injection Hn as ->.
    assert (Forall2 (λ x y, x.1 = y.1 ∧ same_json x.2 y.2)
      (filter (λ kv, kv.1 = t) m') (filter (λ kv, kv.1 = t) m'')) as Hf1
      by exact (same_entries_filter (λ k, k = t) _ _ Hall).
    assert (Forall2 (λ x y, x.1 = y.1 ∧ same_json x.2 y.2)
      (filter (λ kv, kv.1 ≠ t) m') (filter (λ kv, kv.1 ≠ t) m'')) as Hf2
      by exact (same_entries_filter (λ k, k ≠ t) _ _ Hall).
    assert (filter (λ kv, kv.1 = t) m ≡ₚ filter (λ kv, kv.1 = t) m') as Hp1 by (by rewrite Hp).
    assert (filter (λ kv, kv.1 ≠ t) m ≡ₚ filter (λ kv, kv.1 ≠ t) m') as Hp2 by (by rewrite Hp).
    destruct (filter (λ kv, kv.1 = t) m) as [|[k u] [|]]; try done. simpl in Ef. injection Ef as ->.
    apply Permutation_length_1_inv in Hp1. rewrite Hp1 in Hf1.
    apply Forall2_cons_inv_l in Hf1 as ([k' u'] & l & [Hk Hu] & Hl & Hf). inversion Hl; subst.
    apply same_scalar_inv in Hu; [|done]. simpl in Hu. subst u'.
    exists (JObject (filter (λ kv, kv.1 ≠ t) m'')). split; [simpl; by rewrite Hf|].
    by eapply same_object.
Qed.
Lemma de_internal_reads {A} (P : A → Prop) t vs :
  Forall (λ nr, reads same_json P nr.2) vs → reads same_json P (de_internal t vs).
Proof.
  intros Hall j j' a Hj H. apply result_bind_ok in H as ([name v] & He & Hr).
  destruct (internal_same _ _ _ _ _ Hj He) as (v' & He' & Hv). unfold de_internal. rewrite He'.
  by apply (read_variant_reads _ _ _ name Hall v v').
Qed.
Lemma internal_tagged t name m :
  t ∉ m.*1 → internal t (tag_fields t name (JObject m)) = Ok (name, JObject m).
Proof.
  intros Ht. simpl. rewrite !filter_cons, decide_True, decide_False by (simpl; auto).
  assert (∀ m : list (string * Json), t ∉ m.*1 →
    filter (λ kv, kv.1 = t) m = [] ∧ filter (λ kv, kv.1 ≠ t) m = m) as Hm.
  { clear. induction m as [|[k v] m IH]; intros Ht; [done|]. csimpl in Ht.
    apply not_elem_of_cons in Ht as [Hk Ht]. destruct (IH Ht) as [H1 H2].
    by rewrite !filter_cons, decide_False, decide_True, H1, H2 by (simpl; congruence). }
  destruct (Hm m Ht) as [-> ->]. done.
Qed.

Definition untagged_object (t : string) (j : Json) : Prop :=
  match j with JObject m => t ∉ m.*1 | _ => False end.
Lemma de_internal_tagged {A} t vs name j :
  untagged_object t j → de_internal t vs (tag_fields t name j) = (read_variant vs name j : Result _ A).
Proof. destruct j as [| | | | | |m]; try done. intros Hm. unfold de_internal. by rewrite internal_tagged. Qed.

(** The reader of a newtype variant *)
Lemma reads_map {A B} (w : Wire A) (mk : A → B) (P : B → Prop) :
  Lawful w → (∀ a, typed w a → P (mk a)) → reads same_json P (λ j, mk <$> from_json w j).
Proof.
  intros Hw HP j j' b Hj H. destruct (from_json w j) as [a|] eqn:E; simplify_eq/=.
  rewrite (wire_order _ _ _ Hj E). split; [done|]. eapply HP, wire_typed, E.
Qed.
Lemma reads_newtype {A B} (w : Wire A) (mk : A → B) (P : B → Prop) :
  Lawful w → (∀ a, typed w a → P (mk a)) → reads same_payload P (λ v, mk <$> newtype_variant w v).
Proof. intros Hw HP v v' b [|j j' Hj]; [done|]. by apply reads_map. Qed.
Lemma reads_unit {B} (b : B) (P : B → Prop) : P b → reads same_payload P (λ v, _ ← unit_variant v; Ok b).
Proof.
  intros HP v v' a Hv H. destruct Hv as [|j j' Hj]; [by injection H as <-|].
  destruct j; try done. rewrite (same_scalar_inv _ _ Hj I). by injection H as <-.
Qed.
(** An enum of unit variants *)
Lemma reads_lawful {A} (to : A → Json) (from : Json → Result SerdeError A) (P Q : A → Prop) :
  (∀ a, P a → from (to a) = Ok a) → (∀ a, P a → document (to a) = true) → reads same_json Q from →
  Lawful {| to_json := to; from_json := from; wf := P; typed := Q |}.
Proof.
  intros Hr Hd Hreads. split; cbn [to_json from_json wf typed]; [done|done| |].
  - intros j a H. by apply (Hreads j j a (same_refl j)) in H as [_ ?].
  - intros j j' a Hj H. by apply (Hreads j j' a Hj) in H as [? _].
Qed.
(** the readers of an enum, one by one *)
Ltac each_variant tac := repeat (apply Forall_cons_2; [cbn [snd]; tac|]); apply Forall_nil_2.
