(* ===== verification/PlainSerde.v ===== *)
(** * A concrete serialization library

    An instance of [SerdeLib] and of [JsonText] with their laws: bytes as hexadecimal text,
    integers as decimal text, bits as zeros and ones.  The examples of the wire formats are
    evaluated with it. *)

From Stdlib Require Import DecimalString DecimalN.
From S2P Require Import Prelude Bytes Text Serde.

(** a value as a text that is read back and checked *)
Definition leaf {A} (to : A → string) (from : string → option A) (check : A → bool) : Codec A := {|
  encode a := JString (to a);
  decode j :=
    match j with
    | JString s =>
        match from s with
        | Some a => if check a then Ok a else Err (CustomError "invalid value")
        | None => Err (CustomError "invalid text")
        end
    | _ => Err InvalidType
    end;
|}.
Lemma leaf_lawful {A} to from check (P : A → Prop) :
  (∀ a, P a → from (to a) = Some a) → (∀ a, check a = true ↔ P a) → Lawful (wire_of (leaf to from check) P P).
Proof.
  intros Hr Hc. split; cbn [to_json from_json wf typed wire_of].
  - intros a Ha. simpl. rewrite Hr by done. by rewrite (proj2 (Hc a) Ha).
  - done.
  - intros j a H. simpl in H. destruct j as [| | | |s| |]; try done. destruct (from s) as [b|]; [|done].
    destruct (check b) eqn:E; [|done]. injection H as <-. by apply Hc.
  - intros j j' a. apply (scalar_order (decode (leaf to from check))). by intros [].
Qed.

Definition bytes_text (s : string) : option bytes :=
  match bytes_of_string s with x30 :: x78 :: l => unhex l | _ => None end.
Definition number_text (n : Z) : string := NilZero.string_of_uint (N.to_uint (Z.to_N n)).
Definition text_number (s : string) : option Z := Z.of_N ∘ N.of_uint <$> NilZero.uint_of_string s.
Definition bits_text (l : list bool) : string :=
  string_of_bytes ((λ b : bool, if b then x31 else x30) <$> l).
Definition text_bits (s : string) : option (list bool) :=
  Some ((λ b, bool_decide (b = x31)) <$> bytes_of_string s).

Lemma bytes_text_read b : bytes_text (hex_encode_prefixed b) = Some b.
Proof. unfold bytes_text. by rewrite hex_encode_prefixed_bytes, unhex_hex. Qed.
Lemma text_number_read n : 0 ≤ n → text_number (number_text n) = Some n.
Proof.
  intros Hn. unfold text_number, number_text. rewrite NilZero.usu.
  - simpl. by rewrite DecimalN.Unsigned.of_to, Z2N.id.
  - destruct (Z.to_N n) as [|p]; [done|]. simpl. intros H.
    pose proof (DecimalPos.Unsigned.to_uint_nonnil p). done.
Qed.
Lemma text_bits_read l : text_bits (bits_text l) = Some l.
Proof.
  unfold text_bits, bits_text. rewrite bytes_of_string_of_bytes, <- list_fmap_compose. f_equal.
  induction l as [|[] l IH]; [done|csimpl; by rewrite IH..].
Qed.

Definition in_width (w : Z) (n : Z) : bool := (0 <=? n) && (n <? w).
Definition has_length {A} (n : Z) (l : list A) : bool := Z.of_nat (length l) =? n.
Definition fits_in {A} (n : Z) (l : list A) : bool := Z.of_nat (length l) <=? n.

Definition plain_bytes (check : bytes → bool) : Codec bytes := leaf hex_encode_prefixed bytes_text check.
Definition plain_number (w : Z) : Codec Z := leaf number_text text_number (in_width w).
Definition plain_list {A} (c : Codec A) : Codec (list A) :=
  codec_of (vec (wire_of c (λ _, True) (λ _, True))).

Definition plain_serde : SerdeLib := {|
  fixed_bytes n := plain_bytes (has_length (Z.of_nat n));
  quoted_u64 := plain_number u64_bound;
  quoted_u256 := plain_number (2 ^ 256);
  quoted_int n := JString (number_text n);
  quoted_int_vec := decode (plain_list (plain_number u64_bound));
  hex_fixed_vec n := plain_bytes (has_length n);
  hex_var_list n := plain_bytes (fits_in n);
  list_of_hex_fixed_vec m n := plain_list (plain_bytes (has_length n));
  list_of_hex_var_list m n := plain_list (plain_bytes (fits_in n));
  variable_list A n c := plain_list c;
  fixed_vector A n c := plain_list c;
  bit_list n := leaf bits_text text_bits (fits_in n);
  bit_vector n := leaf bits_text text_bits (has_length n);
|}.

Lemma plain_bytes_lawful check (P : bytes → Prop) :
  (∀ b, check b = true ↔ P b) → Lawful (wire_of (plain_bytes check) P P).
Proof. intros. apply leaf_lawful; [|done]. intros. apply bytes_text_read. Qed.
Lemma plain_number_lawful w : Lawful (wire_of (plain_number w) (λ n, 0 ≤ n < w) (λ n, 0 ≤ n < w)).
Proof.
  apply leaf_lawful; [intros; apply text_number_read; lia|].
  intros n. unfold in_width. by rewrite andb_true_iff, Z.leb_le, Z.ltb_lt.
Qed.
Lemma plain_list_lawful {A} (c : Codec A) (P Q : A → Prop) (R : list A → Prop) :
  Lawful (wire_of c P Q) → Lawful (wire_of (plain_list c) (λ l, R l ∧ Forall P l) (Forall Q)).
Proof.
  intros Hc. destruct (vec_lawful _ Hc) as [H1 H2 H3 H4].
  split; cbn [to_json from_json wf typed wire_of] in *; [intros l [_ Hl]; by apply H1|
    intros l [_ Hl]; by apply H2|exact H3|exact H4].
Qed.
Lemma has_length_spec {A} n (l : list A) : has_length n l = true ↔ sized n l.
Proof. apply Z.eqb_eq. Qed.
Lemma fits_in_spec {A} n (l : list A) : fits_in n l = true ↔ at_most n l.
Proof. apply Z.leb_le. Qed.

Lemma plain_serde_correct : SerdeCorrect (SL := plain_serde).
Proof.
  pose proof (plain_list_lawful _ _ _ (λ _, True) (plain_number_lawful u64_bound)) as [H1 _ H3 H4].
  split; intros; try apply plain_number_lawful; try (apply plain_bytes_lawful; auto using has_length_spec, fits_in_spec).
  - intros b. unfold has_length. rewrite Z.eqb_eq. lia.
  - by apply H1.
  - done.
  - by eapply H3.
  - by eapply H4.
  - apply plain_list_lawful, plain_bytes_lawful, has_length_spec.
  - apply plain_list_lawful, plain_bytes_lawful, fits_in_spec.
  - by apply (plain_list_lawful (codec_of w) (wf w) (typed w) (at_most n)); destruct H; split.
  - by apply (plain_list_lawful (codec_of w) (wf w) (typed w) (sized n)); destruct H; split.
  - apply leaf_lawful; [intros; apply text_bits_read|apply fits_in_spec].
  - apply leaf_lawful; [intros; apply text_bits_read|apply has_length_spec].
Qed.

(** ** Text: the number of a document, one byte for each binary digit *)

Fixpoint json_tree (j : Json) : gen_tree (bool + Z + string) :=
  match j with
  | JNull => GenNode 0 []
  | JBool b => GenLeaf (inl (inl b))
  | JNumber n => GenLeaf (inl (inr n))
  | JFloat t => GenNode 1 [GenLeaf (inr t)]
  | JString s => GenLeaf (inr s)
  | JArray l => GenNode 2 (json_tree <$> l)
  | JObject m => GenNode 3 ((λ kv, GenNode 4 [GenLeaf (inr kv.1); json_tree kv.2]) <$> m)
  end.
Fixpoint tree_json (t : gen_tree (bool + Z + string)) : Json :=
  match t with
  | GenLeaf (inl (inl b)) => JBool b
  | GenLeaf (inl (inr n)) => JNumber n
  | GenLeaf (inr s) => JString s
  | GenNode 1 [GenLeaf (inr t)] => JFloat t
  | GenNode 2 l => JArray (tree_json <$> l)
  | GenNode 3 m => JObject ((λ e, match e with
                                  | GenNode _ [GenLeaf (inr k); v] => (k, tree_json v)
                                  | _ => (EmptyString, JNull)
                                  end) <$> m)
  | _ => JNull
  end.
Lemma tree_json_tree : ∀ j, tree_json (json_tree j) = j.
Proof.
  fix IH 1. intros [| | | | |l|m]; simpl; try done; f_equal.
  - induction l as [|j l IHl]; [done|]. csimpl. f_equal; [apply IH|exact IHl].
  - induction m as [|[k j] m IHm]; [done|]. csimpl. f_equal; [by rewrite IH|exact IHm].
Qed.

Fixpoint digits (p : positive) : bytes :=
  match p with xH => [] | xO p => x30 :: digits p | xI p => x31 :: digits p end.
Fixpoint undigits (l : bytes) : positive :=
  match l with [] => xH | x31 :: l => xI (undigits l) | _ :: l => xO (undigits l) end.
Lemma undigits_digits p : undigits (digits p) = p.
Proof. induction p; simpl; congruence. Qed.

Definition plain_json_text : JsonText := {|
  json_text j := digits (countable.encode (json_tree j));
  json_read b := from_option (Ok ∘ tree_json) (Err "invalid"%string) (countable.decode (undigits b));
  error_text _ := "invalid"%string;
|}.
Lemma plain_json_text_correct : JsonTextCorrect (JT := plain_json_text).
Proof.
  intros j _. simpl. rewrite undigits_digits, countable.decode_encode. simpl. by rewrite tree_json_tree.
Qed.
