(* ===== verification/Protobuf.v ===== *)
(** * Protocol buffers

    The messages of [crates/signer/src/proto/v1.rs] derive [prost::Message] from attributes
    such as [#[prost(uint32, tag = "3")]].  This file has what the attributes stand for: the
    varints, keys and length-delimited values of the format, one [Slot] per kind of field,
    and [message], which makes the encoder and the merging decoder of a struct from its
    slots.  As in [prost], fields are written in the order of their tags, fields with the
    default value are left out, a field that is read twice is merged, fields of unknown tags
    are skipped, and nesting is limited.

    [Lawful] slots make a lawful message ([message_lawful]), and a lawful message is read
    back from its encoding ([decode_encode]), also when unknown fields follow
    ([decode_unknown]). *)

From S2P Require Import Prelude Bytes Text.

(** ** The format *)

Inductive WireType : Type := Varint | SixtyFourBit | LengthDelimited | StartGroup | EndGroup | ThirtyTwoBit.
#[export] Instance WireType_eq_dec : EqDecision WireType.
Proof. solve_decision. Defined.
Definition wire_code (w : WireType) : Z :=
  match w with
  | Varint => 0 | SixtyFourBit => 1 | LengthDelimited => 2 | StartGroup => 3 | EndGroup => 4
  | ThirtyTwoBit => 5
  end.
Definition wire_type_of (code : Z) : option WireType :=
  match code with
  | 0 => Some Varint | 1 => Some SixtyFourBit | 2 => Some LengthDelimited | 3 => Some StartGroup
  | 4 => Some EndGroup | 5 => Some ThirtyTwoBit | _ => None
  end.

Inductive DecodeError : Type :=
| InvalidVarint | InvalidKey | InvalidWireType | InvalidTag | UnexpectedWireType | BufferUnderflow
| DelimitedLengthExceeded | NotUtf8 | UnexpectedEndGroup | RecursionLimitReached.
(** a reader takes a value off the front of the buffer *)
Definition Reader (A : Type) : Type := bytes → Result DecodeError (A * bytes).
(** readers consume what they read *)
Definition shrinks {A} (r : Reader A) : Prop :=
  ∀ buf a rest, r buf = Ok (a, rest) → (length rest ≤ length buf)%nat.
(** a value is read from its bytes, whatever follows *)
Definition reads_as {A} (r : Reader A) (b : bytes) (a : A) : Prop := ∀ rest, r (b ++ rest) = Ok (a, rest).

(** seven bits a byte, at most ten bytes *)
Fixpoint varint_bytes (n : nat) (value : Z) : bytes :=
  match n with
  | O => []
  | S n =>
      if value <? 128 then [byte_of_Z value]
      else byte_of_Z (value mod 128 + 128) :: varint_bytes n (value / 128)
  end.
Definition encode_varint : Z → bytes := varint_bytes 10.
Fixpoint read_varint (n : nat) (shift value : Z) (buf : bytes) : Result DecodeError (Z * bytes) :=
  match n, buf with
  | S n, b :: buf =>
      let value := value + (Z_of_byte b mod 128) * 2 ^ shift in
      if Z_of_byte b <? 128 then
        if (n =? 0)%nat && (2 <=? Z_of_byte b) then Err InvalidVarint else Ok (value, buf)
      else read_varint n (shift + 7) value buf
  | _, _ => Err InvalidVarint
  end.
Definition decode_varint : Reader Z := read_varint 10 0 0.

Definition encode_key (tag : Z) (w : WireType) : bytes := encode_varint (tag * 8 + wire_code w).
Definition decode_key : Reader (Z * WireType) := λ buf,
  '(key, buf) ← decode_varint buf;
  _ ← ensure (key <? 2 ^ 32) InvalidKey;
  w ← ok_or (wire_type_of (key mod 8)) InvalidWireType;
  _ ← ensure (1 <=? key / 8) InvalidTag;
  Ok ((key / 8, w), buf).

Definition encode_delimited (b : bytes) : bytes := encode_varint (Z.of_nat (length b)) ++ b.
Definition buf_advance (n : Z) (buf : bytes) : Result DecodeError (bytes * bytes) :=
  if Z.of_nat (length buf) <? n then Err BufferUnderflow
  else Ok (take (Z.to_nat n) buf, drop (Z.to_nat n) buf).
Definition decode_delimited : Reader bytes := λ buf, '(len, buf) ← decode_varint buf; buf_advance len buf.

(** [skip_field]: groups are skipped up to their end *)
Fixpoint skip_group (skip : Z → WireType → bytes → Result DecodeError bytes) (tag : Z) (fuel : nat)
    (buf : bytes) : Result DecodeError bytes :=
  match fuel with
  | O => Err InvalidVarint
  | S fuel =>
      '(key, buf) ← decode_key buf;
      match key with
      | (inner, EndGroup) => if inner =? tag then Ok buf else Err UnexpectedEndGroup
      | (inner, w) => buf ← skip inner w buf; skip_group skip tag fuel buf
      end
  end.
Fixpoint skip_field (depth : nat) (tag : Z) (w : WireType) (buf : bytes) : Result DecodeError bytes :=
  match depth with
  | O => Err RecursionLimitReached
  | S depth =>
      match w with
      | Varint => '(_, buf) ← decode_varint buf; Ok buf
      | ThirtyTwoBit => '(_, buf) ← buf_advance 4 buf; Ok buf
      | SixtyFourBit => '(_, buf) ← buf_advance 8 buf; Ok buf
      | LengthDelimited => '(_, buf) ← decode_delimited buf; Ok buf
      | StartGroup => skip_group (skip_field depth) tag (length buf) buf
      | EndGroup => Err UnexpectedEndGroup
      end
  end.

(** [merge_loop]: fields are merged until [limit] bytes remain *)
Fixpoint merge_loop {A} (step : A → Reader A) (limit fuel : nat) (a : A) (buf : bytes)
    : Result DecodeError (A * bytes) :=
  if (limit <? length buf)%nat then
    match fuel with
    | O => Err BufferUnderflow
    | S fuel => '(a, buf) ← step a buf; merge_loop step limit fuel a buf
    end
  else if (length buf =? limit)%nat then Ok (a, buf) else Err DelimitedLengthExceeded.

(** ** Fields and messages *)

Record Chunk := { ck_tag : Z; ck_type : WireType; ck_payload : bytes }.
Definition chunk_bytes (c : Chunk) : bytes := encode_key (ck_tag c) (ck_type c) ++ ck_payload c.
Definition chunks_bytes (l : list Chunk) : bytes := l ≫= chunk_bytes.

(** A field: its tags, the value of a fresh message, what is written for a value, how a value
    read under a key is merged (with the nesting that is left), the values it can carry, and
    how deep it nests *)
Record Slot := {
  s_type : Type;
  s_tags : list Z;
  s_default : s_type;
  s_emit : s_type → list Chunk;
  s_merge : nat → s_type → Z → WireType → Reader s_type;
  s_ok : s_type → Prop;
  s_depth : nat;
}.
Record ProtoMessage (A : Type) := {
  m_encode : A → bytes;
  m_default : A;
  (** a key and the field under it *)
  m_step : nat → A → Reader A;
  m_ok : A → Prop;
  m_depth : nat;
}.
Arguments m_encode {A} _ _.
Arguments m_default {A} _.
Arguments m_step {A} _ _ _ _.
Arguments m_ok {A} _ _.
Arguments m_depth {A} _.

Fixpoint slots (ss : list Slot) : Type :=
  match ss with [] => () | s :: ss => s_type s * slots ss end.
Fixpoint default_slots (ss : list Slot) : slots ss :=
  match ss with [] => tt | s :: ss => (s_default s, default_slots ss) end.
Fixpoint emit_slots (ss : list Slot) : slots ss → list Chunk :=
  match ss with [] => λ _, [] | s :: ss => λ t, s_emit s t.1 ++ emit_slots ss t.2 end.
Fixpoint slots_ok (ss : list Slot) : slots ss → Prop :=
  match ss with [] => λ _, True | s :: ss => λ t, s_ok s t.1 ∧ slots_ok ss t.2 end.
(** [merge_field]: the field of the tag, or an unknown one *)
Fixpoint merge_field (ss : list Slot) (depth : nat) : slots ss → Z → WireType → Reader (slots ss) :=
  match ss with
  | [] => λ t tag w buf, buf ← skip_field depth tag w buf; Ok (t, buf)
  | s :: ss => λ t tag w buf,
      if bool_decide (tag ∈ s_tags s) then
        '(a, buf) ← s_merge s depth t.1 tag w buf; Ok ((a, t.2), buf)
      else
        '(r, buf) ← merge_field ss depth t.2 tag w buf; Ok ((t.1, r), buf)
  end.
(** [derive(Message)]; the slots in the order of their first tags *)
Definition message {A} (ss : list Slot) (get : A → slots ss) (mk : slots ss → A) : ProtoMessage A := {|
  m_encode a := chunks_bytes (emit_slots ss (get a));
  m_default := mk (default_slots ss);
  m_step depth a buf :=
    '((tag, w), buf) ← decode_key buf;
    '(t, buf) ← merge_field ss depth (get a) tag w buf;
    Ok (mk t, buf);
  m_ok a := slots_ok ss (get a);
  m_depth := foldr Nat.max 1%nat (s_depth <$> ss);
|}.

(** [DecodeContext::default]'s [recurse_count] *)
Definition RECURSION_LIMIT : nat := 100.
Definition decode {A} (m : ProtoMessage A) (buf : bytes) : Result DecodeError A :=
  '(a, _) ← merge_loop (m_step m RECURSION_LIMIT) 0 (length buf) (m_default m) buf; Ok a.

(** ** The kinds of fields *)

Definition check_wire_type (expected actual : WireType) : Result DecodeError () :=
  ensure (bool_decide (expected = actual)) UnexpectedWireType.

(** a value under one key, left out when it is the default *)
Definition single {A} `{EqDecision A} (tag : Z) (w : WireType) (d : A) (put : A → bytes) (get : Reader A)
    (ok : A → Prop) : Slot := {|
  s_type := A; s_tags := [tag]; s_default := d;
  s_emit a := if bool_decide (a = d) then [] else [{| ck_tag := tag; ck_type := w; ck_payload := put a |}];
  s_merge _ _ _ w' buf := _ ← check_wire_type w w'; get buf;
  s_ok := ok; s_depth := 0;
|}.
(** [value as u64] and back: [as u32] truncates, [as i32] is signed *)
Definition as_i32 (x : Z) : Z := (x + 2 ^ 31) mod 2 ^ 32 - 2 ^ 31.
Definition varint_reader (cast : Z → Z) : Reader Z := λ buf, '(x, buf) ← decode_varint buf; Ok (cast x, buf).
Definition uint64 (tag : Z) : Slot := single tag Varint 0 encode_varint (varint_reader id) is_u64.
Definition uint32 (tag : Z) : Slot :=
  single tag Varint 0 encode_varint (varint_reader (λ x, x mod 2 ^ 32)) (λ x, 0 ≤ x < 2 ^ 32).
Definition enumeration (tag : Z) : Slot :=
  single tag Varint 0 (λ x, encode_varint (wrap64 x)) (varint_reader as_i32) (λ x, - 2 ^ 31 ≤ x < 2 ^ 31).

Definition bytes_ok (b : bytes) : Prop := is_u64 (Z.of_nat (length b)).
Definition string_ok (s : string) : Prop :=
  bytes_ok (bytes_of_string s) ∧ utf8_valid (bytes_of_string s) = true.
Definition encode_string (s : string) : bytes := encode_delimited (bytes_of_string s).
Definition decode_string : Reader string := λ buf,
  '(b, buf) ← decode_delimited buf; _ ← ensure (utf8_valid b) NotUtf8; Ok (string_of_bytes b, buf).
Definition bytes_field (tag : Z) : Slot := single tag LengthDelimited [] encode_delimited decode_delimited bytes_ok.
Definition string_field (tag : Z) : Slot :=
  single tag LengthDelimited ""%string encode_string decode_string string_ok.

(** repeated values *)
Definition repeated {A} (tag : Z) (put : A → bytes) (get : nat → Reader A) (ok : A → Prop) (depth : nat) : Slot := {|
  s_type := list A; s_tags := [tag]; s_default := [];
  s_emit l := (λ a, {| ck_tag := tag; ck_type := LengthDelimited; ck_payload := put a |}) <$> l;
  s_merge depth l _ w buf :=
    _ ← check_wire_type LengthDelimited w; '(a, buf) ← get depth buf; Ok (l ++ [a], buf);
  s_ok := Forall ok; s_depth := depth;
|}.
Definition repeated_string (tag : Z) : Slot := repeated tag encode_string (λ _, decode_string) string_ok 0.

(** [message::merge] into a value *)
Definition merge_message {A} (m : ProtoMessage A) (depth : nat) (a : A) : Reader A := λ buf,
  match depth with
  | O => Err RecursionLimitReached
  | S depth =>
      '(len, buf) ← decode_varint buf;
      if Z.of_nat (length buf) <? len then Err BufferUnderflow
      else merge_loop (m_step m depth) (length buf - Z.to_nat len) (length buf) a buf
  end.
Definition message_ok {A} (m : ProtoMessage A) (a : A) : Prop := m_ok m a ∧ bytes_ok (m_encode m a).
Definition encode_message {A} (m : ProtoMessage A) (a : A) : bytes := encode_delimited (m_encode m a).
Definition repeated_message {A} (tag : Z) (m : ProtoMessage A) : Slot :=
  repeated tag (encode_message m) (λ depth, merge_message m depth (m_default m)) (message_ok m) (S (m_depth m)).
Definition optional_message {A} (tag : Z) (m : ProtoMessage A) : Slot := {|
  s_type := option A; s_tags := [tag]; s_default := None;
  s_emit o :=
    match o with
    | Some a => [{| ck_tag := tag; ck_type := LengthDelimited; ck_payload := encode_message m a |}]
    | None => []
    end;
  s_merge depth o _ w buf :=
    _ ← check_wire_type LengthDelimited w;
    '(a, buf) ← merge_message m depth (default (m_default m) o) buf; Ok (Some a, buf);
  s_ok o := match o with Some a => message_ok m a | None => True end;
  s_depth := S (m_depth m);
|}.

(** ** Reading back what was written *)

Lemma reads_bind {A B} (r : Reader A) (k : A → Reader B) b1 b2 a c :
  reads_as r b1 a → reads_as (k a) b2 c →
  reads_as (λ buf, '(a, buf) ← r buf; k a buf) (b1 ++ b2) c.
Proof. intros Hr Hk rest. rewrite <- app_assoc, Hr. apply Hk. Qed.

Lemma varint_reads n value shift acc :
  shift = 7 * (10 - Z.of_nat n) → (0 < n ≤ 10)%nat → 0 ≤ value < 2 ^ (64 - shift) →
  reads_as (read_varint n shift acc) (varint_bytes n value) (acc + value * 2 ^ shift).
Proof.
  revert value shift acc. induction n as [|n IH]; intros value shift acc -> Hn Hv; [lia|]. intros rest.
  cbn [varint_bytes]. destruct (Z.ltb_spec value 128) as [Hlt|Hge]; cbn [read_varint app].
  - rewrite Z_of_byte_of_Z, (Z.mod_small value 256), (Z.mod_small value 128) by lia.
    rewrite (proj2 (Z.ltb_lt value 128)) by lia. destruct n as [|n]; [|done].
    cbn [Nat.eqb andb]. rewrite (proj2 (Z.leb_gt 2 value)); [done|]. simpl in Hv. lia.
  - pose proof (Z.mod_pos_bound value 128 ltac:(lia)).
    rewrite Z_of_byte_of_Z, (Z.mod_small (value mod 128 + 128) 256) by lia.
    rewrite (proj2 (Z.ltb_ge (value mod 128 + 128) 128)) by lia.
    destruct n as [|n]; [simpl in Hv; lia|].
    set (sh := 7 * (10 - Z.of_nat (S (S n)))) in *.
    rewrite (IH (value / 128) (sh + 7)); [|lia|lia|].
    + f_equal. f_equal. rewrite Z.pow_add_r by lia. change (2 ^ 7) with 128.
      rewrite Z.add_mod, Z.mod_same, Z.add_0_r, !Z.mod_mod by lia.
      pose proof (Z.div_mod value 128 ltac:(lia)). nia.
    + split; [by apply Z.div_pos; lia|]. apply Z.div_lt_upper_bound; [lia|].
      change 128 with (2 ^ 7). rewrite <- Z.pow_add_r by lia.
      replace (7 + (64 - (sh + 7))) with (64 - sh) by lia. apply Hv.
Qed.
Lemma decode_varint_reads x : is_u64 x → reads_as decode_varint (encode_varint x) x.
Proof.
  intros Hx. pose proof (varint_reads 10 x 0 0 eq_refl ltac:(lia) Hx) as H.
  by replace (0 + x * 2 ^ 0) with x in H by lia.
Qed.
Lemma decode_key_reads tag w :
  1 ≤ tag < 2 ^ 29 → reads_as decode_key (encode_key tag w) (tag, w).
Proof.
  intros Ht rest. assert (0 ≤ wire_code w < 8) as Hw by (destruct w; simpl; lia).
  unfold decode_key, encode_key. rewrite decode_varint_reads by (unfold is_u64, u64_bound; lia). cbn [mbind result_bind].
  rewrite (proj2 (Z.ltb_lt _ _)) by lia. cbn [ensure mbind result_bind].
  rewrite Z.add_comm, Z.mod_add, Z.div_add, (Z.mod_small (wire_code w)), (Z.div_small (wire_code w)) by lia.
  rewrite Z.add_0_l, (proj2 (Z.leb_le 1 tag)) by lia. by destruct w.
Qed.
Lemma buf_advance_app n b rest : n = Z.of_nat (length b) → buf_advance n (b ++ rest) = Ok (b, rest).
Proof.
  intros ->. unfold buf_advance. rewrite length_app, (proj2 (Z.ltb_ge _ _)), Nat2Z.id by lia.
  by rewrite take_app_length, drop_app_length.
Qed.
Lemma decode_delimited_reads b : bytes_ok b → reads_as decode_delimited (encode_delimited b) b.
Proof.
  intros Hb rest. unfold decode_delimited, encode_delimited. rewrite <- app_assoc, decode_varint_reads by done.
  by apply buf_advance_app.
Qed.
Lemma decode_string_reads s : string_ok s → reads_as decode_string (encode_string s) s.
Proof.
  intros [Hb Hu] rest. unfold decode_string, encode_string. rewrite decode_delimited_reads by done.
  cbn [mbind result_bind]. rewrite Hu. cbn. by rewrite string_of_bytes_of_string.
Qed.

(** *** Readers consume *)

Lemma varint_shrinks n shift acc buf x rest :
  read_varint n shift acc buf = Ok (x, rest) → (length rest < length buf)%nat.
Proof.
  revert shift acc buf. induction n as [|n IH]; intros shift acc [|b buf] H; try done. simpl in *.
  destruct (_ <? 128).
  - destruct (_ && _); [done|]. injection H as _ <-. lia.
  - apply IH in H. lia.
Qed.
Lemma key_shrinks buf k rest : decode_key buf = Ok (k, rest) → (length rest < length buf)%nat.
Proof.
  unfold decode_key, decode_varint. intros H. apply result_bind_ok in H as ([key b] & Hv & H).
  apply varint_shrinks in Hv. inv_ok. done.
Qed.
Lemma buf_advance_shrinks n buf b rest : buf_advance n buf = Ok (b, rest) → (length rest ≤ length buf)%nat.
Proof. unfold buf_advance. destruct (_ <? _); [done|]. intros [= _ <-]. rewrite length_drop. lia. Qed.
Lemma delimited_shrinks : shrinks decode_delimited.
Proof.
  intros buf b rest H. apply result_bind_ok in H as ([len b1] & Hv%varint_shrinks & H%buf_advance_shrinks). lia.
Qed.
Lemma skip_shrinks depth tag w buf rest : skip_field depth tag w buf = Ok rest → (length rest ≤ length buf)%nat.
Proof.
  revert tag w buf rest. induction depth as [|depth IH]; intros tag w buf rest H; [done|].
  assert (∀ fuel tag buf rest, skip_group (skip_field depth) tag fuel buf = Ok rest → (length rest ≤ length buf)%nat) as Hg.
  { clear tag w buf rest H. induction fuel as [|fuel IHf]; intros tag buf rest H; [done|]. cbn [skip_group] in H.
    apply result_bind_ok in H as ([[inner w] b1] & Hk%key_shrinks & H).
    destruct w; [..|by destruct (_ =? _); [injection H as <-; lia|]|];
      (apply result_bind_ok in H as (b2 & H1%IH & H2%IHf); lia). }
  destruct w; cbn [skip_field] in H; [..|by apply Hg in H|done|].
  - apply result_bind_ok in H as ([x b1] & H1%varint_shrinks & [= <-]). lia.
  - by apply result_bind_ok in H as ([x b1] & H1%buf_advance_shrinks & [= <-]).
  - by apply result_bind_ok in H as ([x b1] & H1%delimited_shrinks & [= <-]).
  - by apply result_bind_ok in H as ([x b1] & H1%buf_advance_shrinks & [= <-]).
Qed.

(** *** Fields one after the other *)

Inductive feeds {A} (merge : A → Z → WireType → Reader A) : A → list Chunk → A → Prop :=
| feeds_nil a : feeds merge a [] a
| feeds_cons a b c ck cks :
    reads_as (merge a (ck_tag ck) (ck_type ck)) (ck_payload ck) b → feeds merge b cks c →
    feeds merge a (ck :: cks) c.
Lemma feeds_app {A} (merge : A → Z → WireType → Reader A) a b c l1 l2 :
  feeds merge a l1 b → feeds merge b l2 c → feeds merge a (l1 ++ l2) c.
Proof. induction 1; [done|]. intros. econstructor; eauto. Qed.

Definition tag_ok (tag : Z) : Prop := 1 ≤ tag < 2 ^ 29.
Class LawfulSlot (s : Slot) : Prop := {
  slot_tag_ok : Forall tag_ok (s_tags s);
  slot_feeds : ∀ depth a, (s_depth s ≤ depth)%nat → s_ok s a →
    feeds (s_merge s depth) (s_default s) (s_emit s a) a;
  slot_tags : ∀ a, Forall (λ ck, ck_tag ck ∈ s_tags s) (s_emit s a);
  slot_shrinks : ∀ depth a tag w, shrinks (s_merge s depth a tag w);
}.
Class LawfulMessage {A} (m : ProtoMessage A) : Prop := {
  message_reads : ∀ depth a rest fuel, (m_depth m ≤ depth)%nat → m_ok m a → (length (m_encode m a) ≤ fuel)%nat →
    merge_loop (m_step m depth) (length rest) fuel (m_default m) (m_encode m a ++ rest) = Ok (a, rest);
  message_shrinks : ∀ depth a buf b rest, m_step m depth a buf = Ok (b, rest) → (length rest < length buf)%nat;
}.
Class LawfulSlots (ss : list Slot) : Prop := lawful_slots : Forall LawfulSlot ss.
#[export] Instance lawful_slots_nil : LawfulSlots [].
Proof. constructor. Qed.
#[export] Instance lawful_slots_cons s ss : LawfulSlot s → LawfulSlots ss → LawfulSlots (s :: ss).
Proof. by constructor. Qed.

(** Chunks of the first slot go to it, chunks of the others pass it *)
Lemma feeds_here s ss depth t a b cks :
  Forall (λ ck, ck_tag ck ∈ s_tags s) cks → feeds (s_merge s depth) a cks b →
  feeds (merge_field (s :: ss) depth) (a, t) cks (b, t).
Proof.
  intros Hin Hf. revert Hin. induction Hf as [a|a b c ck cks Hr _ IH]; intros Hin; [constructor|].
  apply Forall_cons in Hin as [Hck Hin]. econstructor; [|by apply IH]. intros rest. simpl.
  rewrite bool_decide_true by done. by rewrite Hr.
Qed.
Lemma feeds_there s ss depth (a : s_type s) t t' cks :
  Forall (λ ck, ck_tag ck ∉ s_tags s) cks → feeds (merge_field ss depth) t cks t' →
  feeds (merge_field (s :: ss) depth) (a, t) cks (a, t').
Proof.
  intros Hin Hf. revert Hin. induction Hf as [t|t1 t2 t3 ck cks Hr _ IH]; intros Hin; [constructor|].
  apply Forall_cons in Hin as [Hck Hin]. econstructor; [|by apply IH]. intros rest. simpl.
  rewrite bool_decide_false by done. by rewrite Hr.
Qed.
Lemma emit_tags ss t :
  LawfulSlots ss → Forall (λ ck, ck_tag ck ∈ ss ≫= s_tags) (emit_slots ss t).
Proof.
  intros Hl. induction Hl as [|s ss Hs _ IH]; simpl; [constructor|]. apply Forall_app. split.
  - eapply Forall_impl; [apply slot_tags|]. intros ck Hck. simpl in Hck. csimpl. set_solver.
  - eapply Forall_impl; [apply IH|]. intros ck Hck. simpl in Hck. csimpl. set_solver.
Qed.
Lemma slots_feed ss depth t :
  LawfulSlots ss → NoDup (ss ≫= s_tags) → (foldr Nat.max 1 (s_depth <$> ss) ≤ depth)%nat → slots_ok ss t →
  feeds (merge_field ss depth) (default_slots ss) (emit_slots ss t) t.
Proof.
  intros Hl. induction Hl as [|s ss Hs Hss IH]; intros Hnd Hd Hok.
  { destruct t. constructor. }
  destruct t as [a t]. destruct Hok as [Ha Ht]. csimpl in *. apply NoDup_app in Hnd as (_ & Hdis & Hnd).
  apply (feeds_app _ _ (a, default_slots ss)).
  - apply feeds_here; [apply slot_tags|]. apply slot_feeds; [lia|done].
  - apply feeds_there; [|apply IH; [done|lia|done]].
    eapply Forall_impl; [by apply (emit_tags ss t)|]. intros ck Hck Hin. by apply (Hdis (ck_tag ck)).
Qed.

Lemma encode_key_length tag w : (0 < length (encode_key tag w))%nat.
Proof. unfold encode_key, encode_varint. cbn [varint_bytes]. destruct (_ <? 128); simpl; lia. Qed.
Lemma chunks_read {A} ss (get : A → slots ss) mk depth t t' cks rest fuel :
  (∀ t, get (mk t) = t) → feeds (merge_field ss depth) t cks t' → Forall (λ ck, tag_ok (ck_tag ck)) cks →
  (length (chunks_bytes cks) ≤ fuel)%nat →
  merge_loop (m_step (message ss get mk) depth) (length rest) fuel (mk t) (chunks_bytes cks ++ rest)
  = Ok (mk t', rest).
Proof.
  intros Hgm Hf. revert fuel. induction Hf as [t|t1 t2 t3 ck cks Hr _ IH]; intros fuel Hall Hfuel.
  { destruct fuel; cbn [merge_loop]; simpl; by rewrite Nat.ltb_irrefl, Nat.eqb_refl. }
  apply Forall_cons in Hall as [Hck Hall]. pose proof (encode_key_length (ck_tag ck) (ck_type ck)).
  assert (chunks_bytes (ck :: cks) ++ rest
    = encode_key (ck_tag ck) (ck_type ck) ++ ck_payload ck ++ chunks_bytes cks ++ rest) as Hb
    by (unfold chunks_bytes; csimpl; unfold chunk_bytes; by rewrite <- !app_assoc).
  assert (length (chunks_bytes (ck :: cks)) =
    (length (encode_key (ck_tag ck) (ck_type ck)) + length (ck_payload ck) + length (chunks_bytes cks))%nat) as Hlen.
  { unfold chunks_bytes. csimpl. unfold chunk_bytes. rewrite !length_app. lia. }
  destruct fuel as [|fuel]; [lia|]. cbn [merge_loop]. rewrite length_app, (proj2 (Nat.ltb_lt _ _)) by lia.
  rewrite Hb. cbn [m_step message]. rewrite decode_key_reads by done. cbn [mbind result_bind].
  rewrite Hgm, Hr. cbn [mbind result_bind]. apply IH; [done|lia].
Qed.

Lemma merge_field_shrinks ss depth t tag w : LawfulSlots ss → shrinks (merge_field ss depth t tag w).
Proof.
  intros Hl. induction Hl as [|s ss Hs _ IH]; intros buf t' rest H; simpl in H.
  - by apply result_bind_ok in H as (b & Hb%skip_shrinks & [= _ <-]).
  - case_bool_decide.
    + apply result_bind_ok in H as ([a b] & Hb & [= _ <-]). by eapply slot_shrinks.
    + apply result_bind_ok in H as ([r b] & Hb & [= _ <-]). by eapply IH.
Qed.
Lemma emit_tag_ok ss t : LawfulSlots ss → Forall (λ ck, tag_ok (ck_tag ck)) (emit_slots ss t).
Proof.
  intros Hl. eapply Forall_impl; [by apply (emit_tags ss)|]. intros ck Hck.
  apply list_elem_of_bind in Hck as (s & Hck & Hs).
  assert (LawfulSlot s) by (by apply (proj1 (Forall_forall _ _) Hl)).
  by apply (proj1 (Forall_forall _ _) slot_tag_ok).
Qed.
(** A message of lawful slots with distinct tags *)
Lemma message_lawful {A} ss (get : A → slots ss) mk :
  LawfulSlots ss → NoDup (ss ≫= s_tags) → (∀ t, get (mk t) = t) → (∀ a, mk (get a) = a) →
  LawfulMessage (message ss get mk).
Proof.
  intros Hl Hnd Hgm Hmg. split.
  - intros depth a rest fuel Hd Hok Hfuel. pose proof (emit_tag_ok ss (get a) Hl) as Ht.
    pose proof (chunks_read ss get mk depth _ _ _ rest fuel Hgm (slots_feed ss depth (get a) Hl Hnd Hd Hok) Ht Hfuel) as H.
    by rewrite Hmg in H.
  - intros depth a buf b rest H. apply result_bind_ok in H as ([[tag w] b1] & H1%key_shrinks & H).
    apply result_bind_ok in H as ([t b2] & H2 & [= _ <-]). apply merge_field_shrinks in H2; [lia|done].
Qed.

(** A message is read back from its encoding *)
Lemma decode_encode {A} (m : ProtoMessage A) {Hm : LawfulMessage m} a :
  (m_depth m ≤ RECURSION_LIMIT)%nat → m_ok m a → decode m (m_encode m a) = Ok a.
Proof.
  intros Hd Ha. unfold decode.
  pose proof (message_reads (m := m) RECURSION_LIMIT a [] _ Hd Ha (le_n _)) as H.
  rewrite app_nil_r in H. change (length (A := byte) []) with 0%nat in H. by rewrite H.
Qed.

(** *** Lawful fields *)

Lemma single_lawful {A} `{EqDecision A} tag w (d : A) put get ok :
  tag_ok tag → (∀ a, ok a → reads_as get (put a) a) → shrinks get → LawfulSlot (single tag w d put get ok).
Proof.
  intros Ht Hr Hs. split; cbn [single s_tags s_default s_emit s_merge s_ok s_depth].
  - by constructor.
  - intros depth a _ Ha. case_bool_decide as Hd; [subst; constructor|]. econstructor; [|constructor]. intros rest.
    simpl. unfold check_wire_type. rewrite bool_decide_true by done. by apply Hr.
  - intros a. case_bool_decide; repeat constructor.
  - intros depth a tag' w' buf b rest H. apply result_bind_ok in H as (? & _ & H). by eapply Hs.
Qed.
Lemma varint_reader_shrinks cast : shrinks (varint_reader cast).
Proof. intros buf x rest H. apply result_bind_ok in H as ([y b] & Hv%varint_shrinks & [= _ <-]). lia. Qed.
Lemma varint_reader_reads cast x y : is_u64 y → cast y = x → reads_as (varint_reader cast) (encode_varint y) x.
Proof. intros Hy <- rest. unfold varint_reader. by rewrite decode_varint_reads. Qed.
Lemma as_i32_wrap x : - 2 ^ 31 ≤ x < 2 ^ 31 → as_i32 (wrap64 x) = x.
Proof.
  intros Hx. unfold as_i32, wrap64, u64_bound. destruct (Z.lt_ge_cases x 0).
  - replace (x mod 2 ^ 64) with (x + 2 ^ 64)
      by (symmetry; rewrite <- (Z.mod_add x 1) by lia; apply Z.mod_small; lia).
    replace (x + 2 ^ 64 + 2 ^ 31) with (x + 2 ^ 31 + 2 ^ 32 * 2 ^ 32) by lia.
    rewrite Z.mod_add, Z.mod_small by lia. lia.
  - rewrite (Z.mod_small x), Z.mod_small by lia. lia.
Qed.
Lemma string_shrinks : shrinks decode_string.
Proof.
  intros buf s rest H. apply result_bind_ok in H as ([b b1] & Hb%delimited_shrinks & H). by inv_ok.
Qed.

Section Kinds.
Context (tag : Z) (Ht : tag_ok tag).
Lemma uint64_lawful : LawfulSlot (uint64 tag).
Proof.
  apply single_lawful; [done| |apply varint_reader_shrinks]. intros x Hx. by apply varint_reader_reads.
Qed.
Lemma uint32_lawful : LawfulSlot (uint32 tag).
Proof.
  apply single_lawful; [done| |apply varint_reader_shrinks]. intros x Hx.
  apply varint_reader_reads; [unfold is_u64, u64_bound; lia|]. by apply Z.mod_small.
Qed.
Lemma enumeration_lawful : LawfulSlot (enumeration tag).
Proof.
  apply single_lawful; [done| |apply varint_reader_shrinks]. intros x Hx.
  apply varint_reader_reads; [apply wrap64_is_u64|by apply as_i32_wrap].
Qed.
Lemma bytes_field_lawful : LawfulSlot (bytes_field tag).
Proof. apply single_lawful; [done|apply decode_delimited_reads|apply delimited_shrinks]. Qed.
Lemma string_field_lawful : LawfulSlot (string_field tag).
Proof. apply single_lawful; [done|apply decode_string_reads|apply string_shrinks]. Qed.

Lemma repeated_lawful {A} put (get : nat → Reader A) ok n :
  (∀ depth a, (n ≤ depth)%nat → ok a → reads_as (get depth) (put a) a) → (∀ depth, shrinks (get depth)) →
  LawfulSlot (repeated tag put get ok n).
Proof.
  intros Hr Hs. split; cbn [repeated s_tags s_default s_emit s_merge s_ok s_depth].
  - by constructor.
  - intros depth l Hd Hl. set (merge := λ l _ w buf, _ ← check_wire_type LengthDelimited w; _).
    change l with ([] ++ l) at 2. generalize (@nil A).
    induction Hl as [|a l Ha _ IH]; intros done; [rewrite app_nil_r; constructor|].
    econstructor; [|rewrite (cons_middle a done l), app_assoc; apply IH]. intros rest.
    unfold merge. simpl. by rewrite Hr.
  - intros l. apply Forall_fmap, Forall_true. intros a. by left.
  - intros depth l tag' w buf l' rest H. apply result_bind_ok in H as (? & _ & H).
    apply result_bind_ok in H as ([a b] & Ha%Hs & [= _ <-]). done.
Qed.
Lemma repeated_string_lawful : LawfulSlot (repeated_string tag).
Proof. apply repeated_lawful; [intros; by apply decode_string_reads|intros; apply string_shrinks]. Qed.

Context {A : Type} (m : ProtoMessage A) {Hm : LawfulMessage m}.
Lemma merge_loop_shrinks depth limit fuel a : shrinks (merge_loop (m_step m depth) limit fuel a).
Proof.
  revert a. induction fuel as [|fuel IH]; intros a buf b rest H; cbn [merge_loop] in H.
  - destruct (_ <? _)%nat; [done|]. destruct (_ =? _)%nat; [|done]. by injection H as _ <-.
  - destruct (_ <? _)%nat.
    + apply result_bind_ok in H as ([a1 b1] & H1%message_shrinks & H2%IH). lia.
    + destruct (_ =? _)%nat; [|done]. by injection H as _ <-.
Qed.
Lemma merge_message_shrinks depth a : shrinks (merge_message m depth a).
Proof.
  intros buf b rest H. destruct depth as [|depth]; [done|]. apply result_bind_ok in H as ([len b1] & H1%varint_shrinks & H).
  destruct (_ <? _); [done|]. apply merge_loop_shrinks in H. lia.
Qed.
Lemma merge_message_reads depth a :
  (S (m_depth m) ≤ depth)%nat → message_ok m a →
  reads_as (merge_message m depth (m_default m)) (encode_message m a) a.
Proof.
  intros Hd [Ha Hb] rest. destruct depth as [|depth]; [lia|]. unfold merge_message, encode_message, encode_delimited.
  rewrite <- app_assoc, decode_varint_reads by done. cbn [mbind result_bind].
  rewrite length_app, (proj2 (Z.ltb_ge _ _)), Nat2Z.id by lia.
  replace (length (m_encode m a) + length rest - length (m_encode m a))%nat with (length rest) by lia.
  apply message_reads; [lia|done|lia].
Qed.
Lemma repeated_message_lawful : LawfulSlot (repeated_message tag m).
Proof. apply repeated_lawful; [intros; by apply merge_message_reads|intros; apply merge_message_shrinks]. Qed.
Lemma optional_message_lawful : LawfulSlot (optional_message tag m).
Proof.
  split; cbn [optional_message s_tags s_default s_emit s_merge s_ok s_depth].
  - by constructor.
  - intros depth [a|] Hd Ha; [|constructor]. econstructor; [|constructor]. intros rest. simpl.
    by rewrite merge_message_reads.
  - intros [a|]; repeat constructor.
  - intros depth o tag' w buf o' rest H. apply result_bind_ok in H as (? & _ & H).
    apply result_bind_ok in H as ([a b] & Ha%merge_message_shrinks & [= _ <-]). done.
Qed.
End Kinds.

(** tags are numerals *)
#[export] Hint Extern 0 (tag_ok _) => (split; [by apply Z.leb_le|by apply Z.ltb_lt]) : proto.
#[export] Hint Resolve uint64_lawful uint32_lawful enumeration_lawful bytes_field_lawful string_field_lawful
  repeated_string_lawful repeated_message_lawful optional_message_lawful : proto.
Ltac derive_message :=
  apply message_lawful;
  [repeat (apply lawful_slots_cons; [by eauto with proto typeclass_instances|]); apply lawful_slots_nil
  |apply (bool_decide_unpack _); vm_compute; exact I
  |by intros t; repeat destruct t as [? t]
  |by intros []].

(** *** Unknown fields, and the fuel of the loops *)

Lemma feeds_unknown ss depth t tag w p :
  tag ∉ ss ≫= s_tags → (∀ rest, skip_field depth tag w (p ++ rest) = Ok rest) →
  feeds (merge_field ss depth) t [{| ck_tag := tag; ck_type := w; ck_payload := p |}] t.
Proof.
  intros Hin Hskip. econstructor; [|constructor]. intros rest. cbn [ck_tag ck_type ck_payload].
  induction ss as [|s ss IH]; simpl in *; [by rewrite Hskip; destruct t|].
  apply not_elem_of_app in Hin as [Hs Hss]. rewrite bool_decide_false, IH by done. by destruct t.
Qed.
(** A field that the struct does not have, as a newer peer sends it, is ignored *)
Lemma decode_unknown {A} ss (get : A → slots ss) mk a tag w p :
  LawfulSlots ss → NoDup (ss ≫= s_tags) → (∀ t, get (mk t) = t) → (∀ a, mk (get a) = a) →
  (m_depth (message ss get mk) ≤ RECURSION_LIMIT)%nat → m_ok (message ss get mk) a →
  tag_ok tag → tag ∉ ss ≫= s_tags → (∀ rest, skip_field RECURSION_LIMIT tag w (p ++ rest) = Ok rest) →
  decode (message ss get mk) (m_encode (message ss get mk) a ++ encode_key tag w ++ p) = Ok a.
Proof.
  intros Hl Hnd Hgm Hmg Hd Ha Ht Hin Hskip. unfold decode.
  set (ck := {| ck_tag := tag; ck_type := w; ck_payload := p |}).
  assert (m_encode (message ss get mk) a ++ encode_key tag w ++ p
    = chunks_bytes (emit_slots ss (get a) ++ [ck]) ++ []) as ->.
  { unfold chunks_bytes. rewrite bind_app, app_nil_r. csimpl. by rewrite app_nil_r. }
  pose proof (chunks_read ss get mk RECURSION_LIMIT (default_slots ss) (get a) (emit_slots ss (get a) ++ [ck]) []
    (length (chunks_bytes (emit_slots ss (get a) ++ [ck]) ++ [])) Hgm) as H.
  rewrite Hmg in H. cbn [length] in H. simpl m_default. rewrite H; [done|..].
  - apply (feeds_app _ _ (get a)); [by apply slots_feed|by apply feeds_unknown].
  - apply Forall_app. split; [by apply emit_tag_ok|by apply Forall_singleton].
  - rewrite app_nil_r. lia.
Qed.
(** A loop with fuel for every byte of the buffer is not cut short *)
Lemma merge_loop_fuel {A} (m : ProtoMessage A) {Hm : LawfulMessage m} depth limit f1 f2 a buf :
  (length buf ≤ f1)%nat → (length buf ≤ f2)%nat →
  merge_loop (m_step m depth) limit f1 a buf = merge_loop (m_step m depth) limit f2 a buf.
Proof.
  revert f2 a buf. induction f1 as [|f1 IH]; intros [|f2] a buf H1 H2; cbn [merge_loop]; try done;
    try (rewrite (proj2 (Nat.ltb_ge limit (length buf))) by lia; done).
  destruct (_ <? _)%nat; [|done]. destruct (m_step m depth a buf) as [[b rest]|] eqn:E; [|done].
  simpl. apply message_shrinks in E. apply IH; lia.
Qed.
