(* ===== verification/Proto.v ===== *)
(** * The gRPC API of Dirk

    Models [crates/signer/src/proto/v1.rs], the types and clients generated from the
    protocol definition: the messages as records, the encoding their [prost] attributes give
    them over the combinators of [Protobuf], and the three clients.  The transport under the
    clients, [tonic], is the class [TonicLib].

    Every message is lawful, so that what one side encodes the other decodes; the methods of
    the clients differ in nothing but their path and messages ([unary_served]). *)

From S2P Require Import Prelude Bytes Text Protobuf.

(** ** The messages *)

Inductive ResponseState : Type := Unknown | Succeeded | Denied | Failed.
#[export] Instance ResponseState_eq_dec : EqDecision ResponseState.
Proof. solve_decision. Defined.
Definition as_str_name (s : ResponseState) : string :=
  match s with
  | Unknown => "UNKNOWN" | Succeeded => "SUCCEEDED" | Denied => "DENIED" | Failed => "FAILED"
  end.
Definition from_str_name (value : string) : option ResponseState :=
  if String.eqb value "UNKNOWN" then Some Unknown
  else if String.eqb value "SUCCEEDED" then Some Succeeded
  else if String.eqb value "DENIED" then Some Denied
  else if String.eqb value "FAILED" then Some Failed
  else None.
Lemma str_name_spec s value : from_str_name value = Some s ↔ value = as_str_name s.
Proof.
  split; [|by intros ->; destruct s]. unfold from_str_name. intros H.
  repeat match type of H with context [String.eqb value ?x] =>
    destruct (String.eqb_spec value x); [by injection H as <-|] end.
  done.
Qed.
(** the accessor [state()] of a message: an [i32] of no variant reads as the default *)
Definition response_state (state : Z) : ResponseState :=
  match state with 1 => Succeeded | 2 => Denied | 3 => Failed | _ => Unknown end.

Record Endpoint := { ep_id : Z; ep_name : string; ep_port : Z }.
Record ListAccountsRequest := { paths : list string }.
Record ProtoAccount := { pa_name : string; pa_public_key : bytes; pa_uuid : bytes }.
Record ProtoDistributedAccount := {
  pd_name : string; pd_public_key : bytes; pd_participants : list Endpoint;
  pd_signing_threshold : Z; pd_uuid : bytes; pd_composite_public_key : bytes;
}.
Record ListAccountsResponse := {
  la_state : Z; la_accounts : list ProtoAccount;
  la_distributed_accounts : list ProtoDistributedAccount;
}.
Record UnlockAccountRequest := { ua_account : string; ua_passphrase : bytes }.
Record UnlockAccountResponse := { ur_state : Z }.
Record LockAccountRequest := { lk_account : string }.
Record LockAccountResponse := { lr_state : Z }.
Record GenerateRequest := {
  gr_account : string; gr_passphrase : bytes; gr_participants : Z; gr_signing_threshold : Z;
}.
Record GenerateResponse := {
  ge_state : Z; ge_message : string; ge_public_key : bytes; ge_participants : list Endpoint;
}.
Inductive SignId : Type := IdPublicKey (key : bytes) | IdAccount (name : string).
Record DirkSignRequest := { ds_data : bytes; ds_domain : bytes; ds_id : option SignId }.
Record SignResponse := { sr_state : Z; sr_signature : bytes }.
Record MultisignRequest := { ms_requests : list DirkSignRequest }.
Record MultisignResponse := { ms_responses : list SignResponse }.
Record Checkpoint := { cp_epoch : Z; cp_root : bytes }.
Record AttestationData := {
  ad_slot : Z; ad_committee_index : Z; ad_beacon_block_root : bytes;
  ad_source : option Checkpoint; ad_target : option Checkpoint;
}.
Record BeaconBlockHeader := {
  bh_slot : Z; bh_proposer_index : Z; bh_parent_root : bytes; bh_state_root : bytes; bh_body_root : bytes;
}.
(** the three enums [Id] have the same variants and tags *)
Record SignBeaconAttestationRequest := {
  ba_domain : bytes; ba_data : option AttestationData; ba_id : option SignId;
}.
Record SignBeaconAttestationsRequest := { bas_requests : list SignBeaconAttestationRequest }.
Record SignBeaconProposalRequest := {
  bp_domain : bytes; bp_data : option BeaconBlockHeader; bp_id : option SignId;
}.

(** ** Their encoding *)

Definition endpoint_proto : ProtoMessage Endpoint :=
  message [uint64 1; string_field 2; uint32 3]
    (λ e, (ep_id e, (ep_name e, (ep_port e, tt))))
    (λ t, let '(v1, (v2, (v3, _))) := t in {| ep_id := v1; ep_name := v2; ep_port := v3 |}).
#[export] Instance endpoint_lawful : LawfulMessage endpoint_proto.
Proof. derive_message. Qed.
Definition list_accounts_request_proto : ProtoMessage ListAccountsRequest :=
  message [repeated_string 1]
    (λ e, (paths e, tt))
    (λ t, let '(v1, _) := t in {| paths := v1 |}).
#[export] Instance list_accounts_request_lawful : LawfulMessage list_accounts_request_proto.
Proof. derive_message. Qed.
Definition account_proto : ProtoMessage ProtoAccount :=
  message [string_field 1; bytes_field 2; bytes_field 3]
    (λ e, (pa_name e, (pa_public_key e, (pa_uuid e, tt))))
    (λ t, let '(v1, (v2, (v3, _))) := t in {| pa_name := v1; pa_public_key := v2; pa_uuid := v3 |}).
#[export] Instance account_lawful : LawfulMessage account_proto.
Proof. derive_message. Qed.
Definition distributed_account_proto : ProtoMessage ProtoDistributedAccount :=
  message [string_field 1; bytes_field 2; repeated_message 3 endpoint_proto; uint32 4; bytes_field 5; bytes_field 6]
    (λ e, (pd_name e, (pd_public_key e, (pd_participants e, (pd_signing_threshold e, (pd_uuid e,
          (pd_composite_public_key e, tt)))))))
    (λ t, let '(v1, (v2, (v3, (v4, (v5, (v6, _)))))) := t in
      {| pd_name := v1; pd_public_key := v2; pd_participants := v3; pd_signing_threshold := v4; pd_uuid := v5;
         pd_composite_public_key := v6 |}).
#[export] Instance distributed_account_lawful : LawfulMessage distributed_account_proto.
Proof. derive_message. Qed.
Definition list_accounts_response_proto : ProtoMessage ListAccountsResponse :=
  message [enumeration 1; repeated_message 2 account_proto; repeated_message 3 distributed_account_proto]
    (λ e, (la_state e, (la_accounts e, (la_distributed_accounts e, tt))))
    (λ t, let '(v1, (v2, (v3, _))) := t in {| la_state := v1; la_accounts := v2; la_distributed_accounts := v3 |}).
#[export] Instance list_accounts_response_lawful : LawfulMessage list_accounts_response_proto.
Proof. derive_message. Qed.
Definition unlock_account_request_proto : ProtoMessage UnlockAccountRequest :=
  message [string_field 1; bytes_field 2]
    (λ e, (ua_account e, (ua_passphrase e, tt)))
    (λ t, let '(v1, (v2, _)) := t in {| ua_account := v1; ua_passphrase := v2 |}).
#[export] Instance unlock_account_request_lawful : LawfulMessage unlock_account_request_proto.
Proof. derive_message. Qed.
Definition unlock_account_response_proto : ProtoMessage UnlockAccountResponse :=
  message [enumeration 1]
    (λ e, (ur_state e, tt))
    (λ t, let '(v1, _) := t in {| ur_state := v1 |}).
#[export] Instance unlock_account_response_lawful : LawfulMessage unlock_account_response_proto.
Proof. derive_message. Qed.
Definition lock_account_request_proto : ProtoMessage LockAccountRequest :=
  message [string_field 1]
    (λ e, (lk_account e, tt))
    (λ t, let '(v1, _) := t in {| lk_account := v1 |}).
#[export] Instance lock_account_request_lawful : LawfulMessage lock_account_request_proto.
Proof. derive_message. Qed.
Definition lock_account_response_proto : ProtoMessage LockAccountResponse :=
  message [enumeration 1]
    (λ e, (lr_state e, tt))
    (λ t, let '(v1, _) := t in {| lr_state := v1 |}).
#[export] Instance lock_account_response_lawful : LawfulMessage lock_account_response_proto.
Proof. derive_message. Qed.
Definition generate_request_proto : ProtoMessage GenerateRequest :=
  message [string_field 1; bytes_field 2; uint32 3; uint32 4]
    (λ e, (gr_account e, (gr_passphrase e, (gr_participants e, (gr_signing_threshold e, tt)))))
    (λ t, let '(v1, (v2, (v3, (v4, _)))) := t in
      {| gr_account := v1; gr_passphrase := v2; gr_participants := v3; gr_signing_threshold := v4 |}).
#[export] Instance generate_request_lawful : LawfulMessage generate_request_proto.
Proof. derive_message. Qed.
Definition generate_response_proto : ProtoMessage GenerateResponse :=
  message [enumeration 1; string_field 2; bytes_field 3; repeated_message 4 endpoint_proto]
    (λ e, (ge_state e, (ge_message e, (ge_public_key e, (ge_participants e, tt)))))
    (λ t, let '(v1, (v2, (v3, (v4, _)))) := t in
      {| ge_state := v1; ge_message := v2; ge_public_key := v3; ge_participants := v4 |}).
#[export] Instance generate_response_lawful : LawfulMessage generate_response_proto.
Proof. derive_message. Qed.

(** [derive(Oneof)]: a variant is written even when it is empty, and the last one read counts *)
Definition sign_id_field : Slot := {|
  s_type := option SignId; s_tags := [1; 2]; s_default := None;
  s_emit o :=
    match o with
    | Some (IdPublicKey key) => [{| ck_tag := 1; ck_type := LengthDelimited; ck_payload := encode_delimited key |}]
    | Some (IdAccount name) => [{| ck_tag := 2; ck_type := LengthDelimited; ck_payload := encode_string name |}]
    | None => []
    end;
  s_merge _ _ tag w buf :=
    _ ← check_wire_type LengthDelimited w;
    if tag =? 1 then '(key, buf) ← decode_delimited buf; Ok (Some (IdPublicKey key), buf)
    else '(name, buf) ← decode_string buf; Ok (Some (IdAccount name), buf);
  s_ok o :=
    match o with
    | Some (IdPublicKey key) => bytes_ok key
    | Some (IdAccount name) => string_ok name
    | None => True
    end;
  s_depth := 0;
|}.
#[export] Instance sign_id_lawful : LawfulSlot sign_id_field.
Proof.
  split; cbn [sign_id_field s_tags s_default s_emit s_merge s_ok s_depth].
  - repeat (apply Forall_cons; split); [by auto with proto..|constructor].
  - intros depth [[key|name]|] _ Ho; [..|constructor]; (econstructor; [|constructor]); intros rest; simpl.
    + by rewrite decode_delimited_reads.
    + by rewrite decode_string_reads.
  - intros [[key|name]|]; repeat constructor.
  - intros depth o tag w buf o' rest H. apply result_bind_ok in H as (? & _ & H). destruct (tag =? 1).
    + by apply result_bind_ok in H as ([y b] & Hx%delimited_shrinks & [= _ <-]).
    + by apply result_bind_ok in H as ([y b] & Hx%string_shrinks & [= _ <-]).
Qed.

Definition sign_request_proto : ProtoMessage DirkSignRequest :=
  message [sign_id_field; bytes_field 3; bytes_field 4]
    (λ e, (ds_id e, (ds_data e, (ds_domain e, tt))))
    (λ t, let '(v1, (v2, (v3, _))) := t in {| ds_id := v1; ds_data := v2; ds_domain := v3 |}).
#[export] Instance sign_request_lawful : LawfulMessage sign_request_proto.
Proof. derive_message. Qed.
Definition sign_response_proto : ProtoMessage SignResponse :=
  message [enumeration 1; bytes_field 2]
    (λ e, (sr_state e, (sr_signature e, tt)))
    (λ t, let '(v1, (v2, _)) := t in {| sr_state := v1; sr_signature := v2 |}).
#[export] Instance sign_response_lawful : LawfulMessage sign_response_proto.
Proof. derive_message. Qed.
Definition multisign_request_proto : ProtoMessage MultisignRequest :=
  message [repeated_message 1 sign_request_proto]
    (λ e, (ms_requests e, tt))
    (λ t, let '(v1, _) := t in {| ms_requests := v1 |}).
#[export] Instance multisign_request_lawful : LawfulMessage multisign_request_proto.
Proof. derive_message. Qed.
Definition multisign_response_proto : ProtoMessage MultisignResponse :=
  message [repeated_message 1 sign_response_proto]
    (λ e, (ms_responses e, tt))
    (λ t, let '(v1, _) := t in {| ms_responses := v1 |}).
#[export] Instance multisign_response_lawful : LawfulMessage multisign_response_proto.
Proof. derive_message. Qed.
Definition checkpoint_proto : ProtoMessage Checkpoint :=
  message [uint64 1; bytes_field 2]
    (λ e, (cp_epoch e, (cp_root e, tt)))
    (λ t, let '(v1, (v2, _)) := t in {| cp_epoch := v1; cp_root := v2 |}).
#[export] Instance checkpoint_lawful : LawfulMessage checkpoint_proto.
Proof. derive_message. Qed.
Definition attestation_data_proto : ProtoMessage AttestationData :=
  message [uint64 1; uint64 2; bytes_field 3; optional_message 4 checkpoint_proto;
           optional_message 5 checkpoint_proto]
    (λ e, (ad_slot e, (ad_committee_index e, (ad_beacon_block_root e, (ad_source e, (ad_target e, tt))))))
    (λ t, let '(v1, (v2, (v3, (v4, (v5, _))))) := t in
      {| ad_slot := v1; ad_committee_index := v2; ad_beacon_block_root := v3; ad_source := v4;
         ad_target := v5 |}).
#[export] Instance attestation_data_lawful : LawfulMessage attestation_data_proto.
Proof. derive_message. Qed.
Definition beacon_block_header_proto : ProtoMessage BeaconBlockHeader :=
  message [uint64 1; uint64 2; bytes_field 3; bytes_field 4; bytes_field 5]
    (λ e, (bh_slot e, (bh_proposer_index e, (bh_parent_root e, (bh_state_root e, (bh_body_root e, tt))))))
    (λ t, let '(v1, (v2, (v3, (v4, (v5, _))))) := t in
      {| bh_slot := v1; bh_proposer_index := v2; bh_parent_root := v3; bh_state_root := v4;
         bh_body_root := v5 |}).
#[export] Instance beacon_block_header_lawful : LawfulMessage beacon_block_header_proto.
Proof. derive_message. Qed.
Definition sign_attestation_request_proto : ProtoMessage SignBeaconAttestationRequest :=
  message [sign_id_field; bytes_field 3; optional_message 4 attestation_data_proto]
    (λ e, (ba_id e, (ba_domain e, (ba_data e, tt))))
    (λ t, let '(v1, (v2, (v3, _))) := t in {| ba_id := v1; ba_domain := v2; ba_data := v3 |}).
#[export] Instance sign_attestation_request_lawful : LawfulMessage sign_attestation_request_proto.
Proof. derive_message. Qed.
Definition sign_attestations_request_proto : ProtoMessage SignBeaconAttestationsRequest :=
  message [repeated_message 1 sign_attestation_request_proto]
    (λ e, (bas_requests e, tt))
    (λ t, let '(v1, _) := t in {| bas_requests := v1 |}).
#[export] Instance sign_attestations_request_lawful : LawfulMessage sign_attestations_request_proto.
Proof. derive_message. Qed.
Definition sign_proposal_request_proto : ProtoMessage SignBeaconProposalRequest :=
  message [sign_id_field; bytes_field 3; optional_message 4 beacon_block_header_proto]
    (λ e, (bp_id e, (bp_domain e, (bp_data e, tt))))
    (λ t, let '(v1, (v2, (v3, _))) := t in {| bp_id := v1; bp_domain := v2; bp_data := v3 |}).
#[export] Instance sign_proposal_request_lawful : LawfulMessage sign_proposal_request_proto.
Proof. derive_message. Qed.

(** ** The clients *)

(** [tonic::Status]; the codes used are [Unknown] and [Internal] *)
Record Status := { st_code : Z; st_message : string }.
Definition status_unknown (message : string) : Status := {| st_code := 2; st_message := message |}.
Definition status_internal (message : string) : Status := {| st_code := 13; st_message := message |}.

(** the trait [GrpcService]: whether a transport is ready, and what it answers to the bytes sent
    to a path *)
Class GrpcService (T : Type) := {
  service_ready : T → Result string ();
  service_call : T → string → bytes → Result Status bytes;
}.
(** [tonic]: a client over a service, its settings, and a unary call, which sends the bytes of
    a message to a path; the connection of an endpoint; the texts of its errors *)
Class TonicLib := {
  Grpc : Type → Type;
  grpc_new : ∀ {T}, T → Grpc T;
  Uri : Type;
  grpc_with_origin : ∀ {T}, T → Uri → Grpc T;
  InterceptedService : Type → Type → Type;
  intercepted_new : ∀ {T F}, T → F → InterceptedService T F;
  CompressionEncoding : Type;
  grpc_send_compressed : ∀ {T}, Grpc T → CompressionEncoding → Grpc T;
  grpc_accept_compressed : ∀ {T}, Grpc T → CompressionEncoding → Grpc T;
  grpc_max_decoding_message_size : ∀ {T}, Grpc T → Z → Grpc T;
  grpc_max_encoding_message_size : ∀ {T}, Grpc T → Z → Grpc T;
  grpc_ready : ∀ {T} {GS : GrpcService T}, Grpc T → Result string ();
  grpc_unary : ∀ {T} {GS : GrpcService T}, Grpc T → string → bytes → Result Status bytes;
  GrpcEndpoint : Type;
  GrpcChannel : Type;
  endpoint_new : string → Result string GrpcEndpoint;
  endpoint_connect : GrpcEndpoint → Result string GrpcChannel;
  decode_error_text : DecodeError → string;
  status_text : Status → string;
}.

(** the three generated modules differ in the name of the service and the methods *)
Inductive Service : Type := Lister | AccountManager | Signer.
Definition service_name (s : Service) : string :=
  match s with Lister => "v1.Lister" | AccountManager => "v1.AccountManager" | Signer => "v1.Signer" end.

Section Clients.
Context {TL : TonicLib}.

Record GrpcClient (s : Service) (T : Type) := { gc_inner : Grpc T }.
#[global] Arguments gc_inner {s T} _.
Definition ListerClient : Type → Type := GrpcClient Lister.
Definition AccountManagerClient : Type → Type := GrpcClient AccountManager.
Definition DirkSignerClient : Type → Type := GrpcClient Signer.

Definition grpc_client_new {T} (s : Service) (inner : T) : GrpcClient s T :=
  {| gc_inner := grpc_new inner |}.
Definition grpc_client_connect (s : Service) (dst : string) : Result string (GrpcClient s GrpcChannel) :=
  endpoint ← endpoint_new dst;
  conn ← endpoint_connect endpoint;
  Ok (grpc_client_new s conn).
Definition grpc_client_with_origin {T} (s : Service) (inner : T) (origin : Uri) : GrpcClient s T :=
  {| gc_inner := grpc_with_origin inner origin |}.
Definition grpc_client_with_interceptor {T F} (s : Service) (inner : T) (interceptor : F)
    : GrpcClient s (InterceptedService T F) :=
  grpc_client_new s (intercepted_new inner interceptor).
Definition send_compressed {s T} (self : GrpcClient s T) (encoding : CompressionEncoding) : GrpcClient s T :=
  {| gc_inner := grpc_send_compressed (gc_inner self) encoding |}.
Definition accept_compressed {s T} (self : GrpcClient s T) (encoding : CompressionEncoding) : GrpcClient s T :=
  {| gc_inner := grpc_accept_compressed (gc_inner self) encoding |}.
Definition max_decoding_message_size {s T} (self : GrpcClient s T) (limit : Z) : GrpcClient s T :=
  {| gc_inner := grpc_max_decoding_message_size (gc_inner self) limit |}.
Definition max_encoding_message_size {s T} (self : GrpcClient s T) (limit : Z) : GrpcClient s T :=
  {| gc_inner := grpc_max_encoding_message_size (gc_inner self) limit |}.

Definition method_path (s : Service) (method : string) : string := "/" +:+ service_name s +:+ "/" +:+ method.
Context {T : Type} {GS : GrpcService T}.
(** what every method does: wait for the service, then a unary call with [ProstCodec] *)
Definition unary {s Req Res} (method : string) (req : ProtoMessage Req) (res : ProtoMessage Res)
    (self : GrpcClient s T) (request : Req) : Result Status Res :=
  _ ← map_err (λ e, status_unknown ("Service was not ready: " +:+ e)) (grpc_ready (gc_inner self));
  body ← grpc_unary (gc_inner self) (method_path s method) (m_encode req request);
  map_err (λ e, status_internal (decode_error_text e)) (decode res body).

Definition list_accounts : ListerClient T → ListAccountsRequest → Result Status ListAccountsResponse :=
  unary "ListAccounts" list_accounts_request_proto list_accounts_response_proto.
Definition unlock : AccountManagerClient T → UnlockAccountRequest → Result Status UnlockAccountResponse :=
  unary "Unlock" unlock_account_request_proto unlock_account_response_proto.
Definition lock : AccountManagerClient T → LockAccountRequest → Result Status LockAccountResponse :=
  unary "Lock" lock_account_request_proto lock_account_response_proto.
Definition generate : AccountManagerClient T → GenerateRequest → Result Status GenerateResponse :=
  unary "Generate" generate_request_proto generate_response_proto.
Definition sign : DirkSignerClient T → DirkSignRequest → Result Status SignResponse :=
  unary "Sign" sign_request_proto sign_response_proto.
Definition multisign : DirkSignerClient T → MultisignRequest → Result Status MultisignResponse :=
  unary "Multisign" multisign_request_proto multisign_response_proto.
Definition sign_beacon_attestation :
    DirkSignerClient T → SignBeaconAttestationRequest → Result Status SignResponse :=
  unary "SignBeaconAttestation" sign_attestation_request_proto sign_response_proto.
Definition sign_beacon_attestations :
    DirkSignerClient T → SignBeaconAttestationsRequest → Result Status MultisignResponse :=
  unary "SignBeaconAttestations" sign_attestations_request_proto multisign_response_proto.
Definition sign_beacon_proposal :
    DirkSignerClient T → SignBeaconProposalRequest → Result Status SignResponse :=
  unary "SignBeaconProposal" sign_proposal_request_proto sign_response_proto.

(** a server that decodes what arrives at the path of a method, answers and encodes the answer *)
Definition serves_method {Req Res} (g : Grpc T) (s : Service) (method : string) (req : ProtoMessage Req)
    (res : ProtoMessage Res) (f : Req → Result Status Res) : Prop :=
  ∀ body request, decode req body = Ok request →
    grpc_unary g (method_path s method) body = m_encode res <$> f request.
(** A method is the function its server computes, on messages that the format carries *)
Lemma unary_served {s Req Res} (self : GrpcClient s T) method (req : ProtoMessage Req) (res : ProtoMessage Res)
    f request `{LawfulMessage Req req} `{LawfulMessage Res res} :
  grpc_ready (gc_inner self) = Ok () → serves_method (gc_inner self) s method req res f →
  (m_depth req ≤ RECURSION_LIMIT)%nat → (m_depth res ≤ RECURSION_LIMIT)%nat →
  m_ok req request → (∀ r, f request = Ok r → m_ok res r) →
  unary method req res self request = f request.
Proof.
  intros Hready Hserves Hd1 Hd2 Hreq Hres. unfold unary. rewrite Hready. cbn [map_err mbind result_bind].
  rewrite (Hserves _ request) by (by apply decode_encode).
  destruct (f request) as [r|e]; [|done]. simpl. by rewrite decode_encode by auto.
Qed.
(** And when the service is not ready, nothing is sent *)
Lemma unary_not_ready {s Req Res} (self : GrpcClient s T) method (req : ProtoMessage Req) (res : ProtoMessage Res)
    request e :
  grpc_ready (gc_inner self) = Err e →
  unary method req res self request = Err (status_unknown ("Service was not ready: " +:+ e)).
Proof. intros H. unfold unary. by rewrite H. Qed.
End Clients.

(** ** On concrete bytes *)

Example varint_300 : encode_varint 300 = [xac; x02].
Proof. reflexivity. Qed.
Example sign_response_bytes :
  m_encode sign_response_proto {| sr_state := 1; sr_signature := [xaa; xbb] |} = [x08; x01; x12; x02; xaa; xbb].
Proof. reflexivity. Qed.
(** the oneof first, and a variant is written even when empty *)
Example sign_request_bytes :
  m_encode sign_request_proto {| ds_data := [x01]; ds_domain := []; ds_id := Some (IdAccount "") |}
  = [x12; x00; x1a; x01; x01].
Proof. reflexivity. Qed.
(** a negative state takes ten bytes; a field 15 that the client does not know is skipped *)
Example newer_response :
  decode sign_response_proto ([x7a; x01; xff] ++ encode_key 1 Varint ++ encode_varint (wrap64 (-5)) ++ [x12; x01; xaa])
  = Ok {| sr_state := -5; sr_signature := [xaa] |}.
Proof. vm_compute. reflexivity. Qed.
Example truncated_response : decode sign_response_proto [x08; x01; x12; x05; xaa] = Err BufferUnderflow.
Proof. reflexivity. Qed.
Example unknown_state : response_state (-5) = Unknown.
Proof. reflexivity. Qed.
