(* ===== verification/Jwt.v ===== *)
(** * JSON web tokens

    Models [create_jwt], [decode_jwt], [validate_jwt] and [validate_admin_jwt] of
    [crates/common/src/utils.rs].  The [jsonwebtoken] crate is the class [JwtLib]; the
    laws of [JwtCorrect] are its documented behaviour: HMAC signatures, the expiry check
    with a leeway, and the claims read back as they were encoded. *)

From S2P Require Import Prelude Bytes.

Notation ModuleId := string (only parsing).
Notation Jwt := string (only parsing).

Definition SIGNER_JWT_EXPIRATION : Z := 300.
(** the leeway of [Validation::default()] and the one the signer sets, in seconds *)
Definition DEFAULT_LEEWAY : Z := 60.
Definition VALIDATE_LEEWAY : Z := 10.

Record JwtClaims := { jc_exp : Z; jc_module : string }.
Record JwtAdmin := { ja_exp : Z; ja_admin : bool }.

Class JwtLib := {
  (** [jsonwebtoken::encode(&Header::default(), claims, secret)] *)
  jwt_encode : string → JwtClaims → Result string Jwt;
  (** [jsonwebtoken::decode::<JwtClaims>(jwt, secret, validation)] at a given time;
      [None] for the secret is [insecure_disable_signature_validation] *)
  jwt_decode : option string → Z → Z → Jwt → Result string JwtClaims;
  (** [jsonwebtoken::decode::<JwtAdmin>] *)
  jwt_decode_admin : string → Z → Z → Jwt → Result string JwtAdmin;
  (** the token carries the HMAC of its content under the secret *)
  jwt_signed : string → Jwt → Prop;
}.

Class JwtCorrect {JL : JwtLib} := {
  jwt_encode_total : ∀ secret c, is_ok (jwt_encode secret c) = true;
  jwt_encode_signed : ∀ secret c t, jwt_encode secret c = Ok t → jwt_signed secret t;
  jwt_decode_encode : ∀ secret c t leeway now,
    jwt_encode secret c = Ok t → now - leeway ≤ jc_exp c →
    jwt_decode (Some secret) leeway now t = Ok c ∧ jwt_decode None leeway now t = Ok c;
  (** an accepted token is signed with the secret, in date, and its claims do not depend
      on how it was checked *)
  jwt_decode_sound : ∀ secret leeway now t c,
    jwt_decode (Some secret) leeway now t = Ok c →
    jwt_signed secret t ∧ now - leeway ≤ jc_exp c ∧
    (∀ leeway' c', jwt_decode None leeway' now t = Ok c' → c' = c);
  jwt_decode_admin_sound : ∀ secret leeway now t c,
    jwt_decode_admin secret leeway now t = Ok c →
    jwt_signed secret t ∧ now - leeway ≤ ja_exp c;
}.

Section JwtOps.
Context {JL : JwtLib}.

Definition create_jwt (now : Z) (module_id : ModuleId) (secret : string) : Result string Jwt :=
  jwt_encode secret {| jc_module := module_id; jc_exp := now + SIGNER_JWT_EXPIRATION |}.

(** reads the module id without checking the signature *)
Definition decode_jwt (now : Z) (jwt : Jwt) : Result string ModuleId :=
  claims ← jwt_decode None DEFAULT_LEEWAY now jwt; Ok (jc_module claims).

Definition validate_jwt (now : Z) (jwt : Jwt) (secret : string) : Result string () :=
  _ ← jwt_decode (Some secret) VALIDATE_LEEWAY now jwt; Ok ().

Definition validate_admin_jwt (now : Z) (jwt : Jwt) (secret : string) : Result string () :=
  claims ← jwt_decode_admin secret VALIDATE_LEEWAY now jwt;
  if ja_admin claims then Ok () else Err "Token is not admin"%string.
End JwtOps.

(** ** A concrete token library

    A token is the secret, the expiry and the claim in the clear, as a string of bits. *)
Fixpoint bits_of_pos (p : positive) : bytes :=
  match p with xH => [] | xO p => x30 :: bits_of_pos p | xI p => x31 :: bits_of_pos p end.
Fixpoint pos_of_bits (l : bytes) : positive :=
  match l with
  | [] => xH
  | b :: l => if bool_decide (b = x30) then xO (pos_of_bits l) else xI (pos_of_bits l)
  end.
Lemma pos_of_bits_of_pos p : pos_of_bits (bits_of_pos p) = p.
Proof. induction p as [p IH|p IH|]; simpl; by rewrite ?IH. Qed.

Definition TokenContent : Type := string * (Z * (string + bool)).
Definition token_of (c : TokenContent) : Jwt := string_of_bytes (bits_of_pos (encode c)).
Definition token_content (t : Jwt) : option TokenContent :=
  decode (pos_of_bits (bytes_of_string t)).
Lemma token_content_of c : token_content (token_of c) = Some c.
Proof.
  unfold token_content, token_of, bytes_of_string, string_of_bytes.
  by rewrite String.list_byte_of_string_of_list_byte, pos_of_bits_of_pos, decode_encode.
Qed.

Definition toy_decode (secret : option string) (leeway now : Z) (t : Jwt)
    : Result string JwtClaims :=
  match token_content t with
  | Some (s, (e, inl m)) =>
      if bool_decide (secret = None ∨ secret = Some s) then
        if now - leeway <=? e then Ok {| jc_exp := e; jc_module := m |}
        else Err "ExpiredSignature"%string
      else Err "InvalidSignature"%string
  | _ => Err "InvalidToken"%string
  end.
Definition toy_decode_admin (secret : string) (leeway now : Z) (t : Jwt)
    : Result string JwtAdmin :=
  match token_content t with
  | Some (s, (e, inr a)) =>
      if bool_decide (secret = s) then
        if now - leeway <=? e then Ok {| ja_exp := e; ja_admin := a |}
        else Err "ExpiredSignature"%string
      else Err "InvalidSignature"%string
  | _ => Err "InvalidToken"%string
  end.
Definition toy_jwt : JwtLib := {|
  jwt_encode secret c := Ok (token_of (secret, (jc_exp c, inl (jc_module c))));
  jwt_decode := toy_decode;
  jwt_decode_admin := toy_decode_admin;
  jwt_signed secret t := ∃ c, token_content t = Some (secret, c);
|}.

Lemma toy_jwt_correct : JwtCorrect (JL := toy_jwt).
Proof.
  split; simpl; unfold toy_decode, toy_decode_admin.
  - done.
  - intros secret c t [= <-]. eexists. apply token_content_of.
  - intros secret [e m] t leeway now [= <-] Hexp. simpl in *. rewrite token_content_of.
    rewrite !bool_decide_true by auto. by rewrite (proj2 (Z.leb_le _ _)) by lia.
  - intros secret leeway now t c H.
    destruct (token_content t) as [[s [e [m|a]]]|] eqn:E; try done.
    case_bool_decide as Hs; [|done]. destruct Hs as [?|[= <-]]; [done|].
    destruct (Z.leb_spec (now - leeway) e); [|done]. injection H as <-.
    split_and!; [eauto|done|]. intros leeway' c'. rewrite bool_decide_true by auto.
    destruct (_ <=? _); [|done]. by intros [= <-].
  - intros secret leeway now t c H.
    destruct (token_content t) as [[s [e [m|a]]]|] eqn:E; try done.
    case_bool_decide as Hs; [|done]. subst s.
    destruct (Z.leb_spec (now - leeway) e); [|done]. injection H as <-. split; [eauto|done].
Qed.

(** Tokens the client makes.  A token created for a module under a secret names that
    module, validates under that secret until ten seconds past its five minutes, and any
    token that validates was signed with the secret and is in date. *)
Theorem jwt_create_validate {JL : JwtLib} {JC : JwtCorrect} (now now' : Z) (id : ModuleId)
    (secret : string) :
  now' ≤ now + SIGNER_JWT_EXPIRATION + VALIDATE_LEEWAY →
  ∃ t, create_jwt now id secret = Ok t ∧
       decode_jwt now' t = Ok id ∧ validate_jwt now' t secret = Ok () ∧
       (∀ secret', validate_jwt now' t secret' = Ok () → jwt_signed secret' t).
Proof.
  intros Hnow. unfold create_jwt, decode_jwt, validate_jwt.
  set (c := {| jc_module := id; jc_exp := now + SIGNER_JWT_EXPIRATION |}).
  pose proof (jwt_encode_total secret c) as Htotal.
  destruct (jwt_encode secret c) as [t|] eqn:E; [|done]. exists t.
  unfold VALIDATE_LEEWAY, DEFAULT_LEEWAY in *.
  destruct (jwt_decode_encode secret c t 60 now' E) as [_ ->]; [simpl; lia|].
  destruct (jwt_decode_encode secret c t 10 now' E) as [-> _]; [simpl; lia|].
  split_and!; [done..|]. intros secret' H. inv_ok.
  by eapply jwt_decode_sound.
Qed.

Lemma jwt_create_validate_witness :
  ∃ t, validate_jwt (JL := toy_jwt) 1310 t "secret" = Ok ().
Proof.
  destruct (jwt_create_validate (JL := toy_jwt) (JC := toy_jwt_correct) 1000 1310 "DA_COMMIT"
              "secret" ltac:(vm_compute; discriminate)) as (t & _ & _ & Hv & _).
  exists t. exact Hv.
Defined.
