(* ===== verification/Chain.v ===== *)
(** * Chains and slot times

    Models [crates/common/src/types.rs] (the [Chain] enum, its constants, its
    serialised form and the loading of a custom chain spec) and the slot clock of
    [crates/common/src/utils.rs].  Reading and decoding the spec file is a parameter
    ([SpecReader]); everything the repository does with the decoded values is here. *)

From stdpp Require Import pretty.
From S2P Require Import Prelude Bytes.

Notation ForkVersion := bytes (only parsing).

Inductive KnownChain : Type :=
| KMainnet | KHolesky | KSepolia | KHelder | KHoodi.

Inductive Chain : Type :=
| Mainnet | Holesky | Sepolia | Helder | Hoodi
| Custom (genesis_time_secs slot_time_secs : Z) (genesis_fork_version : ForkVersion).

#[export] Instance KnownChain_eq_dec : EqDecision KnownChain.
Proof. solve_decision. Defined.
#[export] Instance Chain_eq_dec : EqDecision Chain.
Proof. solve_decision. Defined.

Definition known_id (k : KnownChain) : Z :=
  match k with
  | KMainnet => 1 | KHolesky => 17000 | KSepolia => 11155111
  | KHelder => 167000 | KHoodi => 560048
  end.

Definition known_builder_domain (k : KnownChain) : B256 :=
  bytes_of_Zs
  match k with
  | KMainnet => [0; 0; 0; 1; 245; 165; 253; 66; 209; 106; 32; 48; 39; 152; 239; 110; 211; 9; 151;
                 155; 67; 0; 61; 35; 32; 217; 240; 232; 234; 152; 49; 169]
  | KHolesky => [0; 0; 0; 1; 91; 131; 162; 55; 89; 197; 96; 178; 208; 198; 69; 118; 225; 220; 252;
                 52; 234; 148; 196; 152; 143; 62; 13; 159; 119; 240; 83; 135]
  | KSepolia => [0; 0; 0; 1; 211; 1; 7; 120; 205; 8; 238; 81; 75; 8; 254; 103; 182; 197; 3; 181; 16;
                 152; 122; 76; 228; 63; 66; 48; 109; 151; 198; 124]
  | KHelder => [0; 0; 0; 1; 148; 196; 26; 244; 132; 255; 247; 150; 73; 105; 224; 189; 217; 34; 248;
                45; 255; 15; 75; 232; 122; 96; 208; 102; 76; 201; 209; 255]
  | KHoodi => [0; 0; 0; 1; 113; 145; 3; 81; 30; 250; 79; 19; 98; 255; 42; 80; 153; 108; 204; 243;
               41; 204; 132; 203; 65; 12; 94; 92; 125; 53; 29; 3]
  end.

Definition known_genesis_fork_version (k : KnownChain) : ForkVersion :=
  match k with
  | KMainnet => [x00; x00; x00; x00]
  | KHolesky => [x01; x01; x70; x00]
  | KSepolia => [x90; x00; x00; x69]
  | KHelder => [x10; x00; x00; x00]
  | KHoodi => [x10; x00; x09; x10]
  end.

Definition known_genesis_time_sec (k : KnownChain) : Z :=
  match k with
  | KMainnet => 1606824023 | KHolesky => 1695902400 | KSepolia => 1655733600
  | KHelder => 1718967660 | KHoodi => 1742213400
  end.

Definition known_slot_time_sec (k : KnownChain) : Z :=
  match k with KMainnet | KHolesky | KSepolia | KHelder | KHoodi => 12 end.

(** [impl From<KnownChain> for Chain] *)
Definition chain_from_known (k : KnownChain) : Chain :=
  match k with
  | KMainnet => Mainnet | KHolesky => Holesky | KSepolia => Sepolia
  | KHelder => Helder | KHoodi => Hoodi
  end.

(** [Chain::id]: [unimplemented!] on a custom chain *)
Definition chain_id (c : Chain) : Call Z :=
  match c with
  | Mainnet => Returns (known_id KMainnet)
  | Holesky => Returns (known_id KHolesky)
  | Sepolia => Returns (known_id KSepolia)
  | Helder => Returns (known_id KHelder)
  | Hoodi => Returns (known_id KHoodi)
  | Custom _ _ _ => Panics
  end.

Definition genesis_fork_version (c : Chain) : ForkVersion :=
  match c with
  | Mainnet => known_genesis_fork_version KMainnet
  | Holesky => known_genesis_fork_version KHolesky
  | Sepolia => known_genesis_fork_version KSepolia
  | Helder => known_genesis_fork_version KHelder
  | Hoodi => known_genesis_fork_version KHoodi
  | Custom _ _ v => v
  end.

Definition genesis_time_sec (c : Chain) : Z :=
  match c with
  | Mainnet => known_genesis_time_sec KMainnet
  | Holesky => known_genesis_time_sec KHolesky
  | Sepolia => known_genesis_time_sec KSepolia
  | Helder => known_genesis_time_sec KHelder
  | Hoodi => known_genesis_time_sec KHoodi
  | Custom t _ _ => t
  end.

Definition slot_time_sec (c : Chain) : Z :=
  match c with
  | Mainnet => known_slot_time_sec KMainnet
  | Holesky => known_slot_time_sec KHolesky
  | Sepolia => known_slot_time_sec KSepolia
  | Helder => known_slot_time_sec KHelder
  | Hoodi => known_slot_time_sec KHoodi
  | Custom _ s _ => s
  end.

(** [impl Debug for Chain] and [impl Display for Chain] *)
Definition chain_debug (c : Chain) : string :=
  match c with
  | Mainnet => "Mainnet"
  | Holesky => "Holesky"
  | Sepolia => "Sepolia"
  | Helder => "Helder"
  | Hoodi => "Hoodi"
  | Custom t s v =>
      let quote := string_of_bytes [x22] in
      "Custom { genesis_time_secs: " +:+ pretty t +:+ ", slot_time_secs: " +:+ pretty s
        +:+ ", genesis_fork_version: " +:+ quote +:+ hex_encode_prefixed v +:+ quote +:+ " }"
  end.
Definition chain_display (c : Chain) : string :=
  match c with
  | Mainnet | Holesky | Sepolia | Helder | Hoodi => chain_debug c
  | Custom _ _ _ => "Custom"
  end.

(** ** The serialised form *)

Inductive ChainLoader : Type :=
| LoaderKnown (k : KnownChain)
| LoaderPath (genesis_time_secs : Z) (path : string)
| LoaderCustom (genesis_time_secs slot_time_secs : Z) (genesis_fork_version : bytes).

(** [impl Serialize for Chain] *)
Definition chain_serialize (c : Chain) : ChainLoader :=
  match c with
  | Mainnet => LoaderKnown KMainnet
  | Holesky => LoaderKnown KHolesky
  | Sepolia => LoaderKnown KSepolia
  | Helder => LoaderKnown KHelder
  | Hoodi => LoaderKnown KHoodi
  | Custom t s v => LoaderCustom t s v
  end.

Inductive ChainError : Type :=
| ChainFileNotFound (path : string)
| ChainFileUndecodable (path : string)
| ForkVersionLength (len : nat).

(** [let v: ForkVersion = bytes.as_ref().try_into()?] *)
Definition fork_version_try_from (b : bytes) : Result ChainError ForkVersion :=
  if decide (length b = 4%nat) then Ok b else Err (ForkVersionLength (length b)).

(** The file system and the three decoders [load_chain_from_file] tries in turn:
    JSON with a [data] field, plain JSON, YAML.  Each gives seconds per slot and the
    fork version as the format spells it (bytes in JSON, a [u32] in YAML). *)
Class SpecReader := {
  read_spec_file : string → option bytes;
  decode_spec_data_json : bytes → option (Z * bytes);
  decode_spec_json : bytes → option (Z * bytes);
  decode_spec_yaml : bytes → option (Z * Z);
}.

Section Loading.
Context {SR : SpecReader}.

(** [QuotedSpecFile::to_chain] *)
Definition quoted_to_chain (spec : Z * bytes) : Result ChainError (Z * ForkVersion) :=
  v ← fork_version_try_from spec.2; Ok (spec.1, v).
(** [SpecFile::to_chain] *)
Definition spec_to_chain (spec : Z * Z) : Z * ForkVersion :=
  (spec.1, u32_to_be_bytes spec.2).

Definition load_chain_from_file (path : string) : Result ChainError (Z * ForkVersion) :=
  file ← ok_or (read_spec_file path) (ChainFileNotFound path);
  match decode_spec_data_json file with
  | Some decoded => quoted_to_chain decoded
  | None =>
    match decode_spec_json file with
    | Some decoded => quoted_to_chain decoded
    | None =>
      match decode_spec_yaml file with
      | Some decoded => Ok (spec_to_chain decoded)
      | None => Err (ChainFileUndecodable path)
      end
    end
  end.

(** [impl Deserialize for Chain] *)
Definition chain_deserialize (loader : ChainLoader) : Result ChainError Chain :=
  match loader with
  | LoaderKnown known => Ok (chain_from_known known)
  | LoaderPath genesis_time_secs path =>
      spec ← load_chain_from_file path;
      Ok (Custom genesis_time_secs spec.1 spec.2)
  | LoaderCustom genesis_time_secs slot_time_secs version =>
      v ← fork_version_try_from version;
      Ok (Custom genesis_time_secs slot_time_secs v)
  end.

(** the [chain] binding of [CommitBoostConfig::from_env_path]: the path of the
    spec file may be overridden by the [CB_CHAIN_SPEC] variable *)
Definition chain_from_env (chain_spec_env : option string) (loader : ChainLoader)
  : Result ChainError Chain :=
  match loader with
  | LoaderPath genesis_time_secs path =>
      spec ← (match chain_spec_env with
              | Some p => load_chain_from_file p
              | None => load_chain_from_file path
              end);
      Ok (Custom genesis_time_secs spec.1 spec.2)
  | LoaderKnown known => Ok (chain_from_known known)
  | LoaderCustom genesis_time_secs slot_time_secs version =>
      v ← fork_version_try_from version;
      Ok (Custom genesis_time_secs slot_time_secs v)
  end.
End Loading.

(** ** The slot clock ([utils.rs]) *)

Definition MILLIS_PER_SECOND : Z := 1000.

Definition timestamp_of_slot_start_sec (slot : Z) (c : Chain) : Z :=
  add64 (genesis_time_sec c) (mul64 slot (slot_time_sec c)).
Definition timestamp_of_slot_start_millis (slot : Z) (c : Chain) : Z :=
  mul64 (timestamp_of_slot_start_sec slot c) MILLIS_PER_SECOND.
(** [now] is the value [utcnow_ms()] returns *)
Definition ms_into_slot (now slot : Z) (c : Chain) : Z :=
  saturating_sub now (timestamp_of_slot_start_millis slot c).

(** ** Properties *)

(** The fork version is four bytes; the type of the Rust field guarantees it. *)
Definition chain_wf (c : Chain) : Prop := length (genesis_fork_version c) = 4%nat.

Lemma fork_version_try_from_ok b v :
  fork_version_try_from b = Ok v ↔ b = v ∧ length v = 4%nat.
Proof. unfold fork_version_try_from. case_decide; naive_solver. Qed.

(** Every chain a configuration can produce has a four-byte fork version. *)
Lemma chain_from_env_wf {SR : SpecReader} env loader c :
  chain_from_env env loader = Ok c → chain_wf c.
Proof.
  destruct loader as [[]|t path|t s v]; simpl; intros; inv_ok; try done.
  - destruct env; unfold load_chain_from_file, quoted_to_chain in *; inv_ok;
      repeat case_match; inv_ok; try done;
      match goal with H : fork_version_try_from _ = _ |- _ =>
        by apply fork_version_try_from_ok in H as [_ ?] end.
  - match goal with H : fork_version_try_from _ = _ |- _ =>
      by apply fork_version_try_from_ok in H as [_ ?] end.
Qed.

(** The slots whose start, in milliseconds, fits the machine word. *)
Definition slot_in_range (slot : Z) (c : Chain) : Prop :=
  0 ≤ slot ∧ 0 ≤ genesis_time_sec c ∧ 0 < slot_time_sec c ∧
  (genesis_time_sec c + slot * slot_time_sec c) * MILLIS_PER_SECOND < u64_bound.

Lemma slot_start_sec_exact slot c :
  slot_in_range slot c →
  timestamp_of_slot_start_sec slot c = genesis_time_sec c + slot * slot_time_sec c.
Proof.
  unfold slot_in_range, MILLIS_PER_SECOND, timestamp_of_slot_start_sec, u64_bound. intros.
  rewrite mul64_no_overflow, add64_no_overflow; unfold is_u64, u64_bound; nia.
Qed.
Lemma slot_start_millis_exact slot c :
  slot_in_range slot c →
  timestamp_of_slot_start_millis slot c
  = (genesis_time_sec c + slot * slot_time_sec c) * 1000.
Proof.
  intros Hs. unfold timestamp_of_slot_start_millis.
  rewrite slot_start_sec_exact by done.
  unfold slot_in_range, MILLIS_PER_SECOND in *.
  rewrite mul64_no_overflow; unfold is_u64; nia.
Qed.

Lemma slot_in_range_le s s' c : 0 ≤ s' ≤ s → slot_in_range s c → slot_in_range s' c.
Proof. unfold slot_in_range, MILLIS_PER_SECOND. intros. split_and!; nia. Qed.

(** Writing a chain to the configuration format and reading it back gives the
    same chain, for every chain whose fork version has its four bytes; the spec file
    is not consulted. *)
Theorem chain_serialize_roundtrip {SR : SpecReader} (env : option string) (c : Chain) :
  chain_wf c →
  chain_deserialize (chain_serialize c) = Ok c ∧
  chain_from_env env (chain_serialize c) = Ok c.
Proof.
  intros Hwf. destruct c; try done. simpl.
  unfold fork_version_try_from. unfold chain_wf in Hwf. simpl in Hwf. by case_decide.
Qed.

Definition no_spec_reader : SpecReader :=
  {| read_spec_file _ := None; decode_spec_data_json _ := None;
     decode_spec_json _ := None; decode_spec_yaml _ := None |}.

Lemma chain_serialize_roundtrip_witness :
  let c := Custom 1 2 [x01; x00; x00; x00] in
  chain_wf c ∧
  chain_deserialize (SR := no_spec_reader) (chain_serialize c) = Ok c ∧
  chain_from_env (SR := no_spec_reader) None (chain_serialize c) = Ok c.
Proof.
  split; [reflexivity|].
  apply (chain_serialize_roundtrip (SR := no_spec_reader) None (Custom 1 2 [x01; x00; x00; x00])).
  reflexivity.
Defined.

(** The slot clock.  For a slot whose successor still fits the machine word, a
    time [now] at or after the slot start is less than one slot length into the slot
    exactly when it is before the start of the next slot; slot starts are spaced by
    the slot length, so they are strictly increasing and no two slots share one. *)
Theorem slot_clock_window (c : Chain) (slot now : Z) :
  slot_in_range (slot + 1) c → 0 ≤ slot →
  timestamp_of_slot_start_millis (slot + 1) c
  = timestamp_of_slot_start_millis slot c + slot_time_sec c * 1000 ∧
  (timestamp_of_slot_start_millis slot c ≤ now →
     ms_into_slot now slot c < slot_time_sec c * 1000 ↔
     now < timestamp_of_slot_start_millis (slot + 1) c) ∧
  (∀ slot', 0 ≤ slot' < slot →
     timestamp_of_slot_start_sec slot' c < timestamp_of_slot_start_sec slot c).
Proof.
  intros Hr Hs. assert (slot_in_range slot c) by (eapply slot_in_range_le; [|done]; lia).
  unfold ms_into_slot. rewrite !slot_start_millis_exact by done.
  split_and!; [lia|unfold saturating_sub; lia|].
  intros slot' Hslot'. rewrite !slot_start_sec_exact; try done;
    [|eapply slot_in_range_le; [|done]; lia].
  unfold slot_in_range in *. nia.
Qed.

Lemma slot_clock_window_witness :
  slot_in_range 6 Holesky ∧ 0 ≤ 5 ∧
  timestamp_of_slot_start_millis 6 Holesky
  = timestamp_of_slot_start_millis 5 Holesky + 12000.
Proof.
  assert (slot_in_range 6 Holesky) as Hr by (vm_compute; split_and!; congruence).
  split_and!; [done|lia|].
  apply (slot_clock_window Holesky 5 0 Hr). lia.
Defined.
