(* ===== verification/Sha256.v ===== *)
(** * SHA-256

    The hash function (FIPS 180-4) behind SSZ Merkleization.  The sources reach it
    through the [tree_hash] crate, which the development keeps abstract
    (class [TreeHashLib] of [Signature]); this executable definition instantiates
    that class, so that the signing roots and domains of the repository are computed
    and compared with the constants and test vectors the sources contain. *)

From S2P Require Import Prelude Bytes.

Definition mask32 : Z := 2 ^ 32 - 1.
Definition add32 (x y : Z) : Z := Z.land (x + y) mask32.
Definition rotr (n x : Z) : Z :=
  Z.lor (Z.shiftr x n) (Z.land (Z.shiftl x (32 - n)) mask32).
Definition not32 (x : Z) : Z := Z.lxor x mask32.

(** The constants are the first 32 bits of the fractional parts of the cube roots of
    the first 64 primes (rounds) and of the square roots of the first 8 (initial
    state).  [icbrt] is the integer cube root, bit by bit from [2 ^ bits]. *)
Fixpoint icbrt (bits : nat) (n acc : Z) : Z :=
  match bits with
  | O => acc
  | S bits =>
      let next := acc + Z.shiftl 1 (Z.of_nat bits) in
      icbrt bits n (if next * next * next <=? n then next else acc)
  end.

Definition is_prime (n : Z) : bool :=
  forallb (λ d, negb (n mod d =? 0)) (seqZ 2 (n - 2)).
Definition primes : list Z := Eval vm_compute in filter (λ n, is_prime n = true) (seqZ 2 310).
Definition round_constants : list Z :=
  Eval vm_compute in
    (λ p, Z.land (icbrt 36 (Z.shiftl p 96) 0) mask32) <$> primes.
Definition initial_state : list Z :=
  Eval vm_compute in
    (λ p, Z.land (Z.sqrt (Z.shiftl p 64)) mask32) <$> take 8 primes.

Definition big_sigma0 (x : Z) : Z := Z.lxor (rotr 2 x) (Z.lxor (rotr 13 x) (rotr 22 x)).
Definition big_sigma1 (x : Z) : Z := Z.lxor (rotr 6 x) (Z.lxor (rotr 11 x) (rotr 25 x)).
Definition small_sigma0 (x : Z) : Z := Z.lxor (rotr 7 x) (Z.lxor (rotr 18 x) (Z.shiftr x 3)).
Definition small_sigma1 (x : Z) : Z := Z.lxor (rotr 17 x) (Z.lxor (rotr 19 x) (Z.shiftr x 10)).
Definition choose (x y z : Z) : Z := Z.lxor (Z.land x y) (Z.land (not32 x) z).
Definition majority (x y z : Z) : Z :=
  Z.lxor (Z.land x y) (Z.lxor (Z.land x z) (Z.land y z)).

(** The message schedule, newest word first. *)
Fixpoint extend_schedule (n : nat) (w : list Z) : list Z :=
  match n with
  | O => w
  | S n =>
      let new := add32 (add32 (small_sigma1 (nth 1 w 0)) (nth 6 w 0))
                       (add32 (small_sigma0 (nth 14 w 0)) (nth 15 w 0)) in
      extend_schedule n (new :: w)
  end.
Definition schedule (block : list Z) : list Z := rev (extend_schedule 48 (rev block)).

Definition compress_round (s : list Z) (kw : Z * Z) : list Z :=
  match s with
  | [a; b; c; d; e; f; g; h] =>
      let t1 := add32 (add32 h (big_sigma1 e)) (add32 (choose e f g) (add32 kw.1 kw.2)) in
      let t2 := add32 (big_sigma0 a) (majority a b c) in
      [add32 t1 t2; a; b; c; add32 d t1; e; f; g]
  | _ => s
  end.
Definition compress (s block : list Z) : list Z :=
  zip_with add32 s
    (fold_left compress_round (zip round_constants (schedule block)) s).

(** Big-endian words. *)
Fixpoint words_of_bytes (l : bytes) : list Z :=
  match l with
  | a :: b :: c :: d :: l =>
      (Z.shiftl (Z_of_byte a) 24 + Z.shiftl (Z_of_byte b) 16
       + Z.shiftl (Z_of_byte c) 8 + Z_of_byte d) :: words_of_bytes l
  | _ => []
  end.
Definition pad_message (l : bytes) : bytes :=
  let len := Z.of_nat (length l) in
  l ++ [x80] ++ replicate (Z.to_nat ((55 - len) mod 64)) x00
    ++ u32_to_be_bytes (Z.shiftr (8 * len) 32) ++ u32_to_be_bytes (8 * len).

Definition sha256 (l : bytes) : bytes :=
  fold_left compress (chunks 16 (words_of_bytes (pad_message l))) initial_state
    ≫= u32_to_be_bytes.

Example sha256_abc :
  hex_encode (sha256 (bytes_of_string "abc"))
  = "ba7816bf8f01cfea414140de5dae2223b00361a396177a9cb410ff61f20015ad"%string.
Proof. vm_compute. reflexivity. Qed.
Example sha256_two_blocks :
  hex_encode (sha256 (bytes_of_string "abcdbcdecdefdefgefghfghighijhijkijkljklmklmnlmnomnopnopq"))
  = "248d6a61d20638b8e5c026930c3e6039a33ce45964ff2167f6ecedd419db06c1"%string.
Proof. vm_compute. reflexivity. Qed.
