(* ===== verification/Signature.v ===== *)
(** * Domains, signing roots and signatures

    Models [crates/common/src/signature.rs], the signing structures of [types.rs],
    [crates/common/src/error.rs] and the BLS and ECDSA signers of
    [crates/common/src/signer/schemes].  The third-party crates they call are
    classes: [TreeHashLib] (the [tree_hash] crate's node hash), [BlsLib] ([blst])
    and [EcdsaLib] ([alloy]'s local signer), each with the documented law the callers
    rely on. *)

From S2P Require Import Prelude Bytes Sha256 Chain.

(** ** Constants ([constants.rs]) *)

Definition APPLICATION_BUILDER_DOMAIN : bytes := [x00; x00; x00; x01].
Definition GENESIS_VALIDATORS_ROOT : B256 := byte_array 32 x00.
Definition COMMIT_BOOST_DOMAIN : bytes := bytes_of_Zs [109; 109; 111; 67].

(** ** SSZ tree hashing

    [hash_nodes] hashes two 32-byte nodes into their parent.  [derive(TreeHash)] on a
    struct of two fields is the hash of the two field roots; a byte array of at most 32
    bytes is its own root, zero-padded on the right. *)
Class TreeHashLib := {
  hash_nodes : B256 → B256 → B256;
}.
Class TreeHash (T : Type) := tree_hash_root : T → B256.

Definition pad32 (l : bytes) : B256 := l ++ replicate (32 - length l) x00.

Record SigningData := { object_root : B256; signing_domain : B256 }.
Record PropCommitSigningInfo := { pc_data : B256; module_signing_id : B256 }.
(** the struct local to [compute_domain] *)
Record ForkData := { fork_version : bytes; genesis_validators_root : B256 }.

Section TreeHashing.
Context {TH : TreeHashLib}.

#[export] Instance signing_data_tree_hash : TreeHash SigningData :=
  λ d, hash_nodes (object_root d) (signing_domain d).
#[export] Instance prop_commit_tree_hash : TreeHash PropCommitSigningInfo :=
  λ d, hash_nodes (pc_data d) (module_signing_id d).
#[export] Instance fork_data_tree_hash : TreeHash ForkData :=
  λ d, hash_nodes (pad32 (fork_version d)) (genesis_validators_root d).

Definition compute_domain (c : Chain) (domain_mask : bytes) : B256 :=
  let fd := {| fork_version := genesis_fork_version c;
               genesis_validators_root := GENESIS_VALIDATORS_ROOT |} in
  let fork_data_root := tree_hash_root fd in
  domain_mask ++ take 28 fork_data_root.

Definition compute_prop_commit_signing_root (c : Chain) (root : B256)
    (id : option B256) (domain_mask : bytes) : B256 :=
  let domain := compute_domain c domain_mask in
  match id with
  | Some id =>
      let root := tree_hash_root {| pc_data := root; module_signing_id := id |} in
      tree_hash_root {| object_root := root; signing_domain := domain |}
  | None => tree_hash_root {| object_root := root; signing_domain := domain |}
  end.

(** [Chain::builder_domain] *)
Definition builder_domain (c : Chain) : B256 :=
  match c with
  | Mainnet => known_builder_domain KMainnet
  | Holesky => known_builder_domain KHolesky
  | Sepolia => known_builder_domain KSepolia
  | Helder => known_builder_domain KHelder
  | Hoodi => known_builder_domain KHoodi
  | Custom _ _ _ => compute_domain c APPLICATION_BUILDER_DOMAIN
  end.
End TreeHashing.

(** The node hash of the deployed system. *)
Definition sha256_tree_hash : TreeHashLib :=
  {| hash_nodes a b := sha256 (a ++ b) |}.

(** ** Errors of the BLS library ([error.rs]) *)

Inductive BLST_ERROR : Type :=
| BLST_SUCCESS | BLST_BAD_ENCODING | BLST_POINT_NOT_ON_CURVE | BLST_POINT_NOT_IN_GROUP
| BLST_AGGR_TYPE_MISMATCH | BLST_VERIFY_FAIL | BLST_PK_IS_INFINITY | BLST_BAD_SCALAR.
#[export] Instance BLST_ERROR_eq_dec : EqDecision BLST_ERROR.
Proof. solve_decision. Defined.

Inductive BlstErrorWrapper : Type :=
| BlstSuccess (e : BLST_ERROR)
| BlstBadEncoding (e : BLST_ERROR)
| BlstPointNotOnCurve (e : BLST_ERROR)
| BlstPointNotInGroup (e : BLST_ERROR)
| BlstAggrTypeMismatch (e : BLST_ERROR)
| BlstVerifyFail (e : BLST_ERROR)
| BlstPkIsInfinity (e : BLST_ERROR)
| BlstBadScalar (e : BLST_ERROR).
#[export] Instance BlstErrorWrapper_eq_dec : EqDecision BlstErrorWrapper.
Proof. solve_decision. Defined.

(** [impl Display for BlstErrorWrapper] *)
Definition blst_error_display (e : BlstErrorWrapper) : string :=
  match e with
  | BlstSuccess _ => "BLST_SUCCESS"
  | BlstBadEncoding _ => "BLST_BAD_ENCODING"
  | BlstPointNotOnCurve _ => "BLST_POINT_NOT_ON_CURVE"
  | BlstPointNotInGroup _ => "BLST_POINT_NOT_IN_GROUP"
  | BlstAggrTypeMismatch _ => "BLST_AGGR_TYPE_MISMATCH"
  | BlstVerifyFail _ => "BLST_VERIFY_FAIL"
  | BlstPkIsInfinity _ => "BLST_PK_IS_INFINITY"
  | BlstBadScalar _ => "BLST_BAD_SCALAR"
  end.
(** [impl From<BLST_ERROR> for BlstErrorWrapper] *)
Definition blst_error_from (e : BLST_ERROR) : BlstErrorWrapper :=
  match e with
  | BLST_SUCCESS => BlstSuccess BLST_SUCCESS
  | BLST_BAD_ENCODING => BlstBadEncoding BLST_BAD_ENCODING
  | BLST_POINT_NOT_ON_CURVE => BlstPointNotOnCurve BLST_POINT_NOT_ON_CURVE
  | BLST_POINT_NOT_IN_GROUP => BlstPointNotInGroup BLST_POINT_NOT_IN_GROUP
  | BLST_AGGR_TYPE_MISMATCH => BlstAggrTypeMismatch BLST_AGGR_TYPE_MISMATCH
  | BLST_VERIFY_FAIL => BlstVerifyFail BLST_VERIFY_FAIL
  | BLST_PK_IS_INFINITY => BlstPkIsInfinity BLST_PK_IS_INFINITY
  | BLST_BAD_SCALAR => BlstBadScalar BLST_BAD_SCALAR
  end.

(** ** BLS signatures ([blst] behind [schemes/bls.rs]) *)

Class BlsLib := {
  BlsSecretKey : Type;
  BlstPublicKey : Type;
  BlstSignature : Type;
  sk_from_bytes : bytes → Result BLST_ERROR BlsSecretKey;
  sk_to_bytes : BlsSecretKey → bytes;
  (** [sk.sk_to_pk().to_bytes()] *)
  sk_to_pk : BlsSecretKey → BlsPublicKey;
  (** [sk.sign(msg, BLS_DST_SIG, &[]).to_bytes()] *)
  sk_sign : BlsSecretKey → bytes → BlsSignature;
  (** [PublicKey::key_validate] and [Signature::from_bytes] *)
  key_validate : BlsPublicKey → Result BLST_ERROR BlstPublicKey;
  sig_from_bytes : BlsSignature → Result BLST_ERROR BlstSignature;
  (** [signature.verify(true, msg, BLS_DST_SIG, &[], &pubkey, true)] *)
  sig_verify : BlstSignature → bytes → BlstPublicKey → BLST_ERROR;
}.

(** The documented contract of the scheme: public keys and signatures it produces
    decode, and a signature verifies under the key that made it. *)
Class BlsCorrect {BL : BlsLib} := {
  bls_key_decodes : ∀ sk, ∃ pk, key_validate (sk_to_pk sk) = Ok pk;
  bls_sig_decodes : ∀ sk msg, ∃ s, sig_from_bytes (sk_sign sk msg) = Ok s;
  bls_sign_verifies : ∀ sk msg pk s,
    key_validate (sk_to_pk sk) = Ok pk → sig_from_bytes (sk_sign sk msg) = Ok s →
    sig_verify s msg pk = BLST_SUCCESS;
}.

#[export] Hint Resolve bls_sign_verifies : commit_boost.
(** the sizes of compressed public keys and signatures *)
Class BlsSizes {BL : BlsLib} := {
  pk_size : ∀ sk, length (sk_to_pk sk) = 48%nat;
  sig_size : ∀ sk msg, length (sk_sign sk msg) = 96%nat;
}.

Section Bls.
Context {BL : BlsLib}.

(** [utils.rs]: conversions between [alloy] and [blst] types *)
Definition alloy_pubkey_to_blst (pubkey : BlsPublicKey) : Result BLST_ERROR BlstPublicKey :=
  key_validate pubkey.
Definition alloy_sig_to_blst (signature : BlsSignature) : Result BLST_ERROR BlstSignature :=
  sig_from_bytes signature.

Definition verify_bls_signature (pubkey : BlsPublicKey) (msg : bytes)
    (signature : BlsSignature) : Result BlstErrorWrapper () :=
  pubkey ← map_err blst_error_from (alloy_pubkey_to_blst pubkey);
  signature ← map_err blst_error_from (alloy_sig_to_blst signature);
  let res := sig_verify signature msg pubkey in
  if decide (res = BLST_SUCCESS) then Ok () else Err (blst_error_from res).

Definition sign_message (secret_key : BlsSecretKey) (msg : bytes) : BlsSignature :=
  sk_sign secret_key msg.
End Bls.

Section Signing.
Context {TH : TreeHashLib} {BL : BlsLib}.

Definition verify_signed_message {T} `{TreeHash T} (c : Chain) (pubkey : BlsPublicKey)
    (msg : T) (signature : BlsSignature) (id : option B256) (domain_mask : bytes)
    : Result BlstErrorWrapper () :=
  let signing_root :=
    compute_prop_commit_signing_root c (tree_hash_root msg) id domain_mask in
  verify_bls_signature pubkey signing_root signature.

(** [object_root.tree_hash_root()] is the identity on a [B256] *)
Definition sign_builder_root (c : Chain) (secret_key : BlsSecretKey) (root : B256)
    : BlsSignature :=
  let signing_data := {| object_root := root; signing_domain := builder_domain c |} in
  sign_message secret_key (tree_hash_root signing_data).

Definition sign_builder_message {T} `{TreeHash T} (c : Chain) (secret_key : BlsSecretKey)
    (msg : T) : BlsSignature :=
  sign_builder_root c secret_key (tree_hash_root msg).

Definition sign_commit_boost_root (c : Chain) (secret_key : BlsSecretKey) (root : B256)
    (id : option B256) : BlsSignature :=
  let signing_root :=
    compute_prop_commit_signing_root c root id COMMIT_BOOST_DOMAIN in
  sign_message secret_key signing_root.

Definition verify_proposer_commitment_signature_bls {T} `{TreeHash T} (c : Chain)
    (pubkey : BlsPublicKey) (msg : T) (signature : BlsSignature) (id : B256)
    : Result BlstErrorWrapper () :=
  let domain := compute_domain c COMMIT_BOOST_DOMAIN in
  let root := tree_hash_root {| pc_data := tree_hash_root msg; module_signing_id := id |} in
  let signing_root := tree_hash_root {| object_root := root; signing_domain := domain |} in
  verify_bls_signature pubkey signing_root signature.

(** *** [BlsSigner] ([schemes/bls.rs]) *)
Inductive BlsSigner : Type := BlsLocal (secret : BlsSecretKey).

Definition bls_signer_new_from_bytes (b : bytes) : Result BlstErrorWrapper BlsSigner :=
  secret ← map_err blst_error_from (sk_from_bytes b); Ok (BlsLocal secret).
Definition bls_signer_pubkey (s : BlsSigner) : BlsPublicKey :=
  match s with BlsLocal secret => sk_to_pk secret end.
Definition bls_signer_secret (s : BlsSigner) : B256 :=
  match s with BlsLocal secret => sk_to_bytes secret end.
Definition bls_signer_sign (s : BlsSigner) (c : Chain) (root : B256) (id : option B256)
    : BlsSignature :=
  match s with BlsLocal sk => sign_commit_boost_root c sk root id end.
Definition bls_signer_sign_msg {T} `{TreeHash T} (s : BlsSigner) (c : Chain) (msg : T)
    (id : option B256) : BlsSignature :=
  bls_signer_sign s c (tree_hash_root msg) id.
End Signing.

(** ** ECDSA signatures ([schemes/ecdsa.rs]) *)

Class EcdsaLib := {
  PrivateKeySigner : Type;
  EcdsaSignature : Type;
  EcdsaError : Type;
  ec_from_slice : bytes → Result EcdsaError PrivateKeySigner;
  ec_to_bytes : PrivateKeySigner → bytes;
  ec_address : PrivateKeySigner → Address;
  sign_hash_sync : PrivateKeySigner → B256 → Result EcdsaError EcdsaSignature;
  recover_address_from_prehash : EcdsaSignature → B256 → Result EcdsaError Address;
}.
(** Recovery from a signature and the signed hash gives the signer's address. *)
Class EcdsaCorrect {EC : EcdsaLib} := {
  ecdsa_recovers : ∀ sk h s,
    sign_hash_sync sk h = Ok s → recover_address_from_prehash s h = Ok (ec_address sk);
}.
Class EcdsaSizes {EC : EcdsaLib} := address_size : ∀ sk, length (ec_address sk) = 20%nat.

Section Ecdsa.
Context {TH : TreeHashLib} {EC : EcdsaLib}.

Inductive EcdsaSigner : Type := EcdsaLocal (secret : PrivateKeySigner).

Definition ecdsa_signer_new_from_bytes (b : bytes) : Result EcdsaError EcdsaSigner :=
  secret ← ec_from_slice b; Ok (EcdsaLocal secret).
Definition ecdsa_signer_address (s : EcdsaSigner) : Address :=
  match s with EcdsaLocal secret => ec_address secret end.
Definition ecdsa_signer_secret (s : EcdsaSigner) : bytes :=
  match s with EcdsaLocal secret => ec_to_bytes secret end.
Definition ecdsa_signer_sign (s : EcdsaSigner) (c : Chain) (root : B256) (id : option B256)
    : Result EcdsaError EcdsaSignature :=
  match s with
  | EcdsaLocal sk =>
      let domain := compute_domain c COMMIT_BOOST_DOMAIN in
      let signing_root :=
        match id with
        | Some id =>
            let root := tree_hash_root {| pc_data := root; module_signing_id := id |} in
            tree_hash_root {| object_root := root; signing_domain := domain |}
        | None => tree_hash_root {| object_root := root; signing_domain := domain |}
        end in
      sign_hash_sync sk signing_root
  end.
Definition ecdsa_signer_sign_msg {T} `{TreeHash T} (s : EcdsaSigner) (c : Chain) (msg : T)
    (id : option B256) : Result EcdsaError EcdsaSignature :=
  ecdsa_signer_sign s c (tree_hash_root msg) id.

Inductive EcdsaVerifyError : Type :=
| RecoverFailed (e : EcdsaError)
| InvalidSignature.

Definition verify_ecdsa_signature (address : Address) (msg : B256) (s : EcdsaSignature)
    : Result EcdsaVerifyError () :=
  recovered ← map_err RecoverFailed (recover_address_from_prehash s msg);
  ensure (bool_decide (recovered = address)) InvalidSignature.

Definition verify_proposer_commitment_signature_ecdsa {T} `{TreeHash T} (c : Chain)
    (address : Address) (msg : T) (signature : EcdsaSignature) (id : B256)
    : Result EcdsaVerifyError () :=
  let root := tree_hash_root msg in
  let domain := compute_domain c COMMIT_BOOST_DOMAIN in
  let root := tree_hash_root {| pc_data := root; module_signing_id := id |} in
  let signing_root := tree_hash_root {| object_root := root; signing_domain := domain |} in
  verify_ecdsa_signature address signing_root signature.
End Ecdsa.

(** ** Domains: the constants are the computed values *)

(** For each of the five built-in chains, the builder domain written into the
    source is the domain [compute_domain] derives from the chain's fork version with
    SHA-256, so [Chain::builder_domain] agrees with [compute_domain] on every chain. *)
Theorem builder_domain_is_computed (c : Chain) :
  builder_domain (TH := sha256_tree_hash) c
  = compute_domain (TH := sha256_tree_hash) c APPLICATION_BUILDER_DOMAIN.
Proof. destruct c; [vm_compute; reflexivity..|reflexivity]. Qed.

(** The signing roots the unit tests of [schemes/ecdsa.rs] expect. *)
Example noncommit_signing_root :
  hex_encode (compute_prop_commit_signing_root (TH := sha256_tree_hash) Holesky
                (byte_array 32 x01) None COMMIT_BOOST_DOMAIN)
  = "219ca7a673b2cbbf67bec6c9f60f78bd051336d57b68d1540190f30667e86725"%string.
Proof. vm_compute. reflexivity. Qed.
Example prop_commit_signing_root :
  hex_encode (compute_prop_commit_signing_root (TH := sha256_tree_hash) Hoodi
                (byte_array 32 x01) (Some (byte_array 32 x02)) COMMIT_BOOST_DOMAIN)
  = "8cd49ccf2f9b0297796ff96ce5f7c5d26e20a59d0032ee2ad6249dcd9682b808"%string.
Proof. vm_compute. reflexivity. Qed.

(** ** Signatures verify *)

Section RoundTrips.
Context {TH : TreeHashLib} {BL : BlsLib} {BC : BlsCorrect}.

Lemma verify_sign_message sk msg :
  verify_bls_signature (sk_to_pk sk) msg (sign_message sk msg) = Ok ().
Proof.
  unfold verify_bls_signature, alloy_pubkey_to_blst, alloy_sig_to_blst, sign_message.
  destruct (bls_key_decodes sk) as [pk Hpk], (bls_sig_decodes sk msg) as [s Hs].
  rewrite Hpk, Hs. simpl. by rewrite decide_True by eauto with commit_boost.
Qed.

(** The signer's message verifies for whoever checks it the way the repository does. *)
Lemma commit_boost_sign_verifies {T} `{TreeHash T} c sk (msg : T) id :
  verify_signed_message c (sk_to_pk sk) msg
    (sign_commit_boost_root c sk (tree_hash_root msg) id) id COMMIT_BOOST_DOMAIN = Ok ().
Proof. apply verify_sign_message. Qed.
End RoundTrips.

(** A transparent scheme, for evaluating the definitions on concrete inputs: the
    signature is the key followed by the message. *)
Definition toy_bls : BlsLib := {|
  BlsSecretKey := bytes; BlstPublicKey := bytes; BlstSignature := bytes;
  sk_from_bytes b := if decide (b = []) then Err BLST_BAD_SCALAR else Ok b;
  sk_to_bytes sk := sk;
  sk_to_pk sk := x80 :: resize 47 x00 sk;
  sk_sign sk msg := resize 96 x00 ((x80 :: resize 47 x00 sk) ++ msg);
  key_validate pk :=
    match pk with x80 :: _ => Ok pk | _ => Err BLST_BAD_ENCODING end;
  sig_from_bytes s :=
    match s with x80 :: _ => Ok s | _ => Err BLST_BAD_ENCODING end;
  sig_verify s msg pk :=
    if decide (s = resize 96 x00 (pk ++ msg)) then BLST_SUCCESS else BLST_VERIFY_FAIL;
|}.
Lemma toy_bls_correct : BlsCorrect (BL := toy_bls).
Proof.
  split; simpl; [eauto|eauto|]. intros sk msg pk s [= <-] [= <-]. by rewrite decide_True.
Qed.
Lemma toy_bls_sizes : BlsSizes (BL := toy_bls).
Proof. split; intros; [simpl; by rewrite length_resize|apply length_resize]. Qed.

(** keys and signatures of the right sizes *)
Definition sized_bls : BlsLib := {|
  BlsSecretKey := bytes; BlstPublicKey := bytes; BlstSignature := bytes;
  sk_from_bytes b := Ok b; sk_to_bytes sk := sk;
  sk_to_pk sk := resize 48 x00 sk;
  sk_sign sk msg := resize 96 x00 (resize 48 x00 sk ++ msg);
  key_validate pk := Ok pk; sig_from_bytes s := Ok s;
  sig_verify s msg pk :=
    if decide (s = resize 96 x00 (pk ++ msg)) then BLST_SUCCESS else BLST_VERIFY_FAIL;
|}.
Lemma sized_bls_sizes : BlsSizes (BL := sized_bls).
Proof. split; intros; apply length_resize. Qed.
Lemma sized_bls_correct : BlsCorrect (BL := sized_bls).
Proof. split; simpl; [eauto|eauto|]. intros sk msg pk s [= <-] [= <-]. by rewrite decide_True. Qed.

Definition toy_ecdsa : EcdsaLib := {|
  PrivateKeySigner := bytes; EcdsaSignature := bytes * B256; EcdsaError := ();
  ec_from_slice b := if decide (b = []) then Err () else Ok b;
  ec_to_bytes sk := sk;
  ec_address sk := resize 20 x00 sk;
  sign_hash_sync sk h := Ok (resize 20 x00 sk, h);
  recover_address_from_prehash s h := if decide (s.2 = h) then Ok s.1 else Err ();
|}.
Lemma toy_ecdsa_sizes : EcdsaSizes (EC := toy_ecdsa).
Proof. intros sk. apply length_resize. Qed.
Lemma toy_ecdsa_correct : EcdsaCorrect (EC := toy_ecdsa).
Proof. split; simpl. intros sk h s [= <-]. simpl. by rewrite decide_True. Qed.

#[export] Instance b256_tree_hash : TreeHash bytes | 100 := λ root, root.

(** A proposer commitment signed by the signer verifies under
    [verify_proposer_commitment_signature_bls] with the same chain and signing id, and
    a builder-domain signature verifies under [verify_signed_message] with the builder
    domain whenever the chain's builder domain is the computed one; both for every
    message type and every correct BLS library. *)
Theorem bls_signatures_verify {TH : TreeHashLib} {BL : BlsLib} {BC : BlsCorrect} {T} `{TreeHash T}
    (c : Chain) (sk : BlsSecretKey) (msg : T) (id : B256) :
  builder_domain c = compute_domain c APPLICATION_BUILDER_DOMAIN →
  verify_proposer_commitment_signature_bls c (bls_signer_pubkey (BlsLocal sk)) msg
    (bls_signer_sign_msg (BlsLocal sk) c msg (Some id)) id = Ok () ∧
  verify_signed_message c (sk_to_pk sk) msg (sign_builder_message c sk msg) None
    APPLICATION_BUILDER_DOMAIN = Ok ().
Proof.
  intros Hdomain. split.
  - apply verify_sign_message.
  - unfold verify_signed_message, sign_builder_message, sign_builder_root.
    rewrite Hdomain. apply verify_sign_message.
Qed.

Lemma bls_signatures_verify_witness :
  let sk : @BlsSecretKey toy_bls := [x01; x02] in
  verify_signed_message (TH := sha256_tree_hash) (BL := toy_bls) Holesky
    (sk_to_pk sk) B256_ZERO
    (sign_builder_message (TH := sha256_tree_hash) (BL := toy_bls) Holesky sk B256_ZERO)
    None APPLICATION_BUILDER_DOMAIN = Ok ().
Proof.
  apply (bls_signatures_verify (TH := sha256_tree_hash) (BL := toy_bls)
           (BC := toy_bls_correct) (T := bytes) Holesky [x01; x02] B256_ZERO B256_ZERO).
  vm_compute. reflexivity.
Defined.

Lemma ecdsa_sign_verifies {TH : TreeHashLib} {EC : EcdsaLib} {ECC : EcdsaCorrect} {T} `{TreeHash T}
    c (s : EcdsaSigner) (msg : T) id signature :
  ecdsa_signer_sign s c (tree_hash_root msg) (Some id) = Ok signature →
  verify_proposer_commitment_signature_ecdsa c (ecdsa_signer_address s) msg signature id = Ok ().
Proof.
  destruct s as [sk]. intros Hsig%ecdsa_recovers.
  unfold verify_proposer_commitment_signature_ecdsa, verify_ecdsa_signature.
  cbv zeta in *. rewrite Hsig. simpl. by rewrite bool_decide_true.
Qed.

(** ** Separation of signatures *)

Section Separation.
Context {TH : TreeHashLib}.

(** Two different node pairs whose hashes agree on the bytes a domain keeps. *)
Definition collides (p q : B256 * B256) : Prop :=
  p ≠ q ∧ take 28 (hash_nodes p.1 p.2) = take 28 (hash_nodes q.1 q.2).

Lemma hash_nodes_inj_or_collides a b a' b' :
  hash_nodes a b = hash_nodes a' b' → (a = a' ∧ b = b') ∨ collides (a, b) (a', b').
Proof.
  intros Heq. destruct (decide ((a, b) = (a', b'))) as [[= -> ->]|Hne]; [by left|].
  right. split; [done|]. simpl. by rewrite Heq.
Qed.

Lemma compute_domain_inj_or_collides c m c' m' :
  chain_wf c → chain_wf c' → length m = length m' →
  compute_domain c m = compute_domain c' m' →
  (m = m' ∧ genesis_fork_version c = genesis_fork_version c') ∨
  collides (pad32 (genesis_fork_version c), GENESIS_VALIDATORS_ROOT)
           (pad32 (genesis_fork_version c'), GENESIS_VALIDATORS_ROOT).
Proof.
  unfold compute_domain, tree_hash_root, fork_data_tree_hash. simpl.
  intros Hc Hc' Hlen Heq. apply app_inj_1 in Heq as [-> Heq]; [|done].
  destruct (decide (genesis_fork_version c = genesis_fork_version c')) as [He|Hne];
    [by left|right]. split; [|done]. simpl. intros [= Hpad]. apply Hne.
  unfold pad32 in Hpad. by apply app_inj_1 in Hpad as [? _]; [|by rewrite Hc, Hc'].
Qed.
End Separation.

(** C15: What a commitment signature binds.  If two commitments have the same signing
    root then they agree on the data, on the module signing id, on the domain type and
    on the fork version of the chain, unless one of the hashes computed on the way is a
    collision that the statement exhibits.  So a signature given to one module, for one
    domain or on one fork, is not one for another. *)
Theorem commitment_separation {TH : TreeHashLib} (c c' : Chain) (data data' id id' : B256)
    (mask mask' : bytes) :
  chain_wf c → chain_wf c' → length mask = length mask' →
  compute_prop_commit_signing_root c data (Some id) mask
  = compute_prop_commit_signing_root c' data' (Some id') mask' →
  (data = data' ∧ id = id' ∧ mask = mask' ∧
   genesis_fork_version c = genesis_fork_version c') ∨
  collides (hash_nodes data id, compute_domain c mask)
           (hash_nodes data' id', compute_domain c' mask') ∨
  collides (data, id) (data', id') ∨
  collides (pad32 (genesis_fork_version c), GENESIS_VALIDATORS_ROOT)
           (pad32 (genesis_fork_version c'), GENESIS_VALIDATORS_ROOT).
Proof.
  intros Hc Hc' Hlen Heq.
  unfold compute_prop_commit_signing_root, tree_hash_root, signing_data_tree_hash,
    prop_commit_tree_hash in Heq. cbn in Heq.
  apply hash_nodes_inj_or_collides in Heq as [[Hin Hdom]|]; [|by right; left].
  apply hash_nodes_inj_or_collides in Hin as [[-> ->]|]; [|by right; right; left].
  apply compute_domain_inj_or_collides in Hdom as [[-> ?]|]; auto.
Qed.

Lemma commitment_separation_witness :
  let TH := sha256_tree_hash in
  let fork := Custom 0 12 [x00; x00; x00; x00] in
  compute_prop_commit_signing_root Mainnet B256_ZERO (Some B256_ZERO) COMMIT_BOOST_DOMAIN
    = compute_prop_commit_signing_root fork B256_ZERO (Some B256_ZERO) COMMIT_BOOST_DOMAIN ∧
  ((B256_ZERO = B256_ZERO ∧ B256_ZERO = B256_ZERO ∧ COMMIT_BOOST_DOMAIN = COMMIT_BOOST_DOMAIN ∧
    genesis_fork_version Mainnet = genesis_fork_version fork) ∨
   collides (hash_nodes B256_ZERO B256_ZERO, compute_domain Mainnet COMMIT_BOOST_DOMAIN)
            (hash_nodes B256_ZERO B256_ZERO, compute_domain fork COMMIT_BOOST_DOMAIN) ∨
   collides (B256_ZERO, B256_ZERO) (B256_ZERO, B256_ZERO) ∨
   collides (pad32 (genesis_fork_version Mainnet), GENESIS_VALIDATORS_ROOT)
            (pad32 (genesis_fork_version fork), GENESIS_VALIDATORS_ROOT)).
Proof.
  intros TH fork. split; [vm_compute; reflexivity|].
  apply (commitment_separation (TH := TH) Mainnet fork); vm_compute; reflexivity.
Defined.
