(* ===== verification/PbsTypes.v ===== *)
(** * The Builder API data model

    Models [crates/common/src/pbs/types]: the Electra containers a relay and the
    beacon node exchange, their accessors, and the text form of KZG commitments and
    proofs.  An SSZ list or vector is a [list]; its capacity is a field of [EthSpec]
    and the [_wf] predicates state it. *)

From S2P Require Import Prelude Bytes Text Signature.

(** ** Preset sizes ([spec.rs]) *)

Record EthSpec := {
  MaxProposerSlashings : Z; MaxValidatorsPerCommittee : Z; MaxDeposits : Z;
  MaxVoluntaryExits : Z; SyncCommitteeSize : Z; BytesPerLogsBloom : Z;
  MaxExtraDataBytes : Z; MaxBlsToExecutionChanges : Z; MaxBlobCommitmentsPerBlock : Z;
  MaxWithdrawalsPerPayload : Z; MaxBytesPerTransaction : Z; MaxTransactionsPerPayload : Z;
  BytesPerBlob : Z; MaxCommitteesPerSlot : Z; MaxAttesterSlashings : Z; MaxAttestations : Z;
  MaxValidatorsPerSlot : Z; MaxConsolidationRequestsPerPayload : Z;
  MaxDepositRequestsPerPayload : Z; MaxWithdrawalRequestsPerPayload : Z;
}.

Definition ElectraSpec : EthSpec := {|
  MaxValidatorsPerCommittee := 2048;
  MaxProposerSlashings := 16;
  MaxDeposits := 16;
  MaxVoluntaryExits := 16;
  SyncCommitteeSize := 512;
  MaxExtraDataBytes := 32;
  MaxBlobCommitmentsPerBlock := 4096;
  BytesPerLogsBloom := 256;
  MaxBlsToExecutionChanges := 16;
  MaxWithdrawalsPerPayload := 16;
  MaxBytesPerTransaction := 1073741824;
  MaxTransactionsPerPayload := 1048576;
  BytesPerBlob := 131072;
  MaxCommitteesPerSlot := 64;
  MaxAttesterSlashings := 1;
  MaxAttestations := 8;
  MaxValidatorsPerSlot := 131072;
  MaxConsolidationRequestsPerPayload := 2;
  MaxDepositRequestsPerPayload := 8192;
  MaxWithdrawalRequestsPerPayload := 16;
|}.

(** [VariableList<T, N>] holds at most [N] elements. *)
Definition fits {A} (bound : Z) (l : list A) : Prop := Z.of_nat (length l) ≤ bound.

(** ** KZG commitments and proofs ([kzg.rs]) *)

Definition BYTES_PER_COMMITMENT : nat := 48.
Definition BYTES_PER_PROOF : nat := 48.
Notation KzgCommitment := bytes (only parsing).
Notation KzgProof := bytes (only parsing).

(** [impl Display]: 0x-prefixed hexadecimal *)
Definition kzg_commitment_display (c : KzgCommitment) : string := hex_encode_prefixed c.
Definition kzg_proof_display (p : KzgProof) : string := hex_encode_prefixed p.

Inductive KzgParseError : Type :=
| KzgHex (reason : string)
| KzgInvalidByteLength (got expected : nat)
| KzgMissingPrefix.

(** [str::strip_prefix] *)
Definition strip_prefix (p s : string) : option string :=
  if String.prefix p s then Some (String.substring (String.length p) (String.length s) s)
  else None.

(** [alloy::primitives::hex::decode] *)
Class HexLib := {
  hex_decode : string → Result string bytes;
}.
(** It inverts [hex::encode]. *)
Class HexCorrect {HX : HexLib} := {
  hex_decode_encode : ∀ b, hex_decode (hex_encode b) = Ok b;
}.

Section Kzg.
Context {HX : HexLib}.

(** [impl FromStr for KzgCommitment] *)
Definition kzg_commitment_from_str (s : string) : Result KzgParseError KzgCommitment :=
  match strip_prefix "0x" s with
  | Some stripped =>
      b ← map_err KzgHex (hex_decode stripped);
      if decide (length b = BYTES_PER_COMMITMENT) then Ok b
      else Err (KzgInvalidByteLength (length b) BYTES_PER_COMMITMENT)
  | None => Err KzgMissingPrefix
  end.

(** [impl FromStr for KzgProof] *)
Definition kzg_proof_from_str (s : string) : Result KzgParseError KzgProof :=
  match strip_prefix "0x" s with
  | Some stripped =>
      b ← map_err KzgHex (hex_decode stripped);
      if decide (length b = BYTES_PER_PROOF) then Ok b
      else Err (KzgInvalidByteLength (length b) BYTES_PER_PROOF)
  | None => Err KzgMissingPrefix
  end.

(** [impl Serialize] and [impl Deserialize]: a string in both directions *)
Definition kzg_commitment_serialize (c : KzgCommitment) : string := kzg_commitment_display c.
Definition kzg_commitment_deserialize (s : string) : Result KzgParseError KzgCommitment :=
  kzg_commitment_from_str s.
Definition kzg_proof_serialize (p : KzgProof) : string := kzg_proof_display p.
Definition kzg_proof_deserialize (s : string) : Result KzgParseError KzgProof := kzg_proof_from_str s.
End Kzg.

(** ** Execution requests ([execution_requests.rs]) *)

Record DepositRequest := {
  dr_pubkey : BlsPublicKey; dr_withdrawal_credentials : B256; dr_amount : Z;
  dr_signature : BlsSignature; dr_index : Z;
}.
Record WithdrawalRequest := {
  wr_source_address : Address; wr_validator_pubkey : BlsPublicKey; wr_amount : Z;
}.
Record ConsolidationRequest := {
  cr_source_address : Address; cr_source_pubkey : BlsPublicKey; cr_target_pubkey : BlsPublicKey;
}.
Record ExecutionRequests := {
  er_deposits : list DepositRequest;
  er_withdrawals : list WithdrawalRequest;
  er_consolidations : list ConsolidationRequest;
}.

(** ** Execution payloads ([execution_payload.rs]) *)

(** the root of an empty transaction list *)
Definition EMPTY_TX_ROOT_HASH : B256 :=
  [x7f; xfe; x24; x1e; xa6; x01; x87; xfd; xb0; x18; x7b; xfa; x22; xde; x35; xd1;
   xf9; xbe; xd7; xab; x06; x1d; x94; x01; xfd; x47; xe3; x4a; x54; xfb; xed; xe1].

Record Withdrawal := {
  w_index : Z; w_validator_index : Z; w_address : Address; w_amount : Z;
}.
Record ExecutionPayload := {
  ep_parent_hash : B256; ep_fee_recipient : Address; ep_state_root : B256;
  ep_receipts_root : B256; ep_logs_bloom : bytes; ep_prev_randao : B256;
  ep_block_number : Z; ep_gas_limit : Z; ep_gas_used : Z; ep_timestamp : Z;
  ep_extra_data : bytes; ep_base_fee_per_gas : Z; ep_block_hash : B256;
  ep_transactions : list bytes; ep_withdrawals : list Withdrawal;
  ep_blob_gas_used : Z; ep_excess_blob_gas : Z;
}.
Record ExecutionPayloadHeader := {
  eph_parent_hash : B256; eph_fee_recipient : Address; eph_state_root : B256;
  eph_receipts_root : B256; eph_logs_bloom : bytes; eph_prev_randao : B256;
  eph_block_number : Z; eph_gas_limit : Z; eph_gas_used : Z; eph_timestamp : Z;
  eph_extra_data : bytes; eph_base_fee_per_gas : Z; eph_block_hash : B256;
  eph_transactions_root : B256; eph_withdrawals_root : B256;
  eph_blob_gas_used : Z; eph_excess_blob_gas : Z;
}.

(** ** Blobs ([blobs_bundle.rs]) *)

Record BlobsBundle := {
  commitments : list KzgCommitment;
  proofs : list KzgProof;
  blobs : list bytes;
}.

(** ** The response envelope ([utils.rs]) *)

Inductive VersionedResponse (E : Type) : Type := Electra (e : E).
Arguments Electra {E} e.
Definition version {E} (v : VersionedResponse E) : string :=
  match v with Electra _ => "electra" end.

(** ** [get_header] ([get_header.rs]) *)

Record GetHeaderParams := {
  ghp_slot : Z; ghp_parent_hash : B256; ghp_pubkey : BlsPublicKey;
}.
Record SignedExecutionPayloadHeader (T : Type) := { seph_message : T; seph_signature : BlsSignature }.
Arguments seph_message {T} _.
Arguments seph_signature {T} _.
Record ExecutionPayloadHeaderMessageElectra := {
  hm_header : ExecutionPayloadHeader;
  hm_blob_kzg_commitments : list KzgCommitment;
  hm_execution_requests : ExecutionRequests;
  hm_value : Z;
  hm_pubkey : BlsPublicKey;
}.
Definition GetHeaderResponse : Type :=
  VersionedResponse (SignedExecutionPayloadHeader ExecutionPayloadHeaderMessageElectra).

Definition header_block_number (r : GetHeaderResponse) : Z :=
  match r with Electra d => eph_block_number (hm_header (seph_message d)) end.
Definition header_block_hash (r : GetHeaderResponse) : B256 :=
  match r with Electra d => eph_block_hash (hm_header (seph_message d)) end.
Definition header_gas_limit (r : GetHeaderResponse) : Z :=
  match r with Electra d => eph_gas_limit (hm_header (seph_message d)) end.
Definition header_pubkey (r : GetHeaderResponse) : BlsPublicKey :=
  match r with Electra d => hm_pubkey (seph_message d) end.
Definition header_value (r : GetHeaderResponse) : Z :=
  match r with Electra d => hm_value (seph_message d) end.
Definition header_transactions_root (r : GetHeaderResponse) : B256 :=
  match r with Electra d => eph_transactions_root (hm_header (seph_message d)) end.
Definition header_parent_hash (r : GetHeaderResponse) : B256 :=
  match r with Electra d => eph_parent_hash (hm_header (seph_message d)) end.
Definition header_signature (r : GetHeaderResponse) : BlsSignature :=
  match r with Electra d => seph_signature d end.

(** ** Blinded blocks ([blinded_block_body.rs], [beacon_block.rs]) *)

Record Eth1Data := { e1_deposit_root : B256; e1_deposit_count : Z; e1_block_hash : B256 }.
Record BeaconBlockHeader := {
  bh_slot : Z; bh_proposer_index : Z; bh_parent_root : B256; bh_state_root : B256;
  bh_body_root : B256;
}.
Record SignedBeaconBlockHeader := { sbh_message : BeaconBlockHeader; sbh_signature : BlsSignature }.
Record BlsToExecutionChange := {
  bc_validator_index : Z; bc_from_bls_pubkey : BlsPublicKey; bc_to_execution_address : Address;
}.
Record SignedBlsToExecutionChange := {
  sbc_message : BlsToExecutionChange; sbc_signature : BlsSignature;
}.
Record ProposerSlashing := {
  signed_header_1 : SignedBeaconBlockHeader; signed_header_2 : SignedBeaconBlockHeader;
}.
Record Checkpoint := { cp_epoch : Z; cp_root : B256 }.
Record AttestationData := {
  ad_slot : Z; ad_index : Z; ad_beacon_block_root : B256; ad_source : Checkpoint;
  ad_target : Checkpoint;
}.
Record IndexedAttestationElectra := {
  attesting_indices : list Z; ia_data : AttestationData; ia_signature : BlsSignature;
}.
Record AttesterSlashingElectra := {
  attestation_1 : IndexedAttestationElectra; attestation_2 : IndexedAttestationElectra;
}.
Record AttestationElectra := {
  aggregation_bits : list bool; at_data : AttestationData; at_signature : BlsSignature;
  committee_bits : list bool;
}.
Record DepositData := {
  dd_pubkey : BlsPublicKey; dd_withdrawal_credentials : B256; dd_amount : Z;
  dd_signature : BlsSignature;
}.
Record Deposit := { d_proof : list B256; d_data : DepositData }.
Record VoluntaryExit := { ve_epoch : Z; ve_validator_index : Z }.
Record SignedVoluntaryExit := { sve_message : VoluntaryExit; sve_signature : BlsSignature }.
Record SyncAggregate := {
  sync_committee_bits : list bool; sync_committee_signature : BlsSignature;
}.

Record BlindedBeaconBlockBodyElectra := {
  randao_reveal : BlsSignature;
  eth1_data : Eth1Data;
  graffiti : B256;
  proposer_slashings : list ProposerSlashing;
  attester_slashings : list AttesterSlashingElectra;
  attestations : list AttestationElectra;
  deposits : list Deposit;
  voluntary_exits : list SignedVoluntaryExit;
  sync_aggregate : SyncAggregate;
  execution_payload_header : ExecutionPayloadHeader;
  bls_to_execution_changes : list SignedBlsToExecutionChange;
  blob_kzg_commitments : list KzgCommitment;
  execution_requests : ExecutionRequests;
}.
Record BlindedBeaconBlockElectra := {
  bb_slot : Z; bb_proposer_index : Z; bb_parent_root : B256; bb_state_root : B256;
  bb_body : BlindedBeaconBlockBodyElectra;
}.
Inductive BlindedBeaconBlock : Type := BlindedElectra (b : BlindedBeaconBlockElectra).
Record SignedBlindedBeaconBlock := {
  sbb_message : BlindedBeaconBlock; sbb_signature : BlsSignature;
}.

Definition blinded_block_hash (b : SignedBlindedBeaconBlock) : B256 :=
  match sbb_message b with
  | BlindedElectra b => eph_block_hash (execution_payload_header (bb_body b))
  end.
Definition blinded_block_number (b : SignedBlindedBeaconBlock) : Z :=
  match sbb_message b with
  | BlindedElectra b => eph_block_number (execution_payload_header (bb_body b))
  end.
Definition blinded_parent_hash (b : SignedBlindedBeaconBlock) : B256 :=
  match sbb_message b with
  | BlindedElectra b => eph_parent_hash (execution_payload_header (bb_body b))
  end.
Definition blinded_slot (b : SignedBlindedBeaconBlock) : Z :=
  match sbb_message b with BlindedElectra b => bb_slot b end.

Record PayloadAndBlobsElectra := {
  execution_payload : ExecutionPayload; blobs_bundle : BlobsBundle;
}.
Definition payload_block_hash (p : PayloadAndBlobsElectra) : B256 :=
  ep_block_hash (execution_payload p).
Definition SubmitBlindedBlockResponse : Type := VersionedResponse PayloadAndBlobsElectra.
Definition submit_response_block_hash (r : SubmitBlindedBlockResponse) : B256 :=
  match r with Electra d => payload_block_hash d end.

(** A registration of a validator's fee preferences, as the beacon node sends it
    ([alloy]'s [ValidatorRegistration]). *)
Record ValidatorRegistration := {
  vr_fee_recipient : Address; vr_gas_limit : Z; vr_timestamp : Z;
  vr_pubkey : BlsPublicKey; vr_signature : BlsSignature;
}.

(** ** KZG text round trip *)

Lemma substring_all m s : (String.length s ≤ m)%nat → String.substring 0 m s = s.
Proof.
  revert m. induction s as [|a s IH]; intros [|m] Hm; simpl in *; try done; [lia|].
  f_equal. apply IH. lia.
Qed.
Lemma substring_app p m s :
  (String.length s ≤ m)%nat → String.substring (String.length p) m (p +:+ s) = s.
Proof.
  intros Hm. induction p as [|a p IH]; simpl; [by apply substring_all|done].
Qed.
Lemma string_app_length p s : String.length (p +:+ s) = (String.length p + String.length s)%nat.
Proof. induction p as [|a p IH]; simpl; [done|]. by f_equal. Qed.

Lemma strip_prefix_app p s : strip_prefix p (p +:+ s) = Some s.
Proof.
  unfold strip_prefix.
  assert (String.prefix p (p +:+ s) = true) as ->.
  { induction p as [|a p IH]; simpl; [by destruct s|].
    destruct (Ascii.ascii_dec a a); [done|congruence]. }
  f_equal. apply substring_app. rewrite string_app_length. lia.
Qed.

Lemma kzg_from_str_display {HX : HexLib} {HC : HexCorrect} b :
  length b = 48%nat →
  kzg_commitment_from_str (kzg_commitment_display b) = Ok b ∧
  kzg_proof_from_str (kzg_proof_display b) = Ok b.
Proof.
  intros Hlen.
  unfold kzg_commitment_from_str, kzg_commitment_display, kzg_proof_from_str,
    kzg_proof_display, hex_encode_prefixed.
  rewrite strip_prefix_app, hex_decode_encode. simpl.
  by rewrite !decide_True by done.
Qed.
(** So the JSON text of a commitment or a proof is read back *)
Lemma kzg_serde_roundtrip {HX : HexLib} {HC : HexCorrect} b :
  length b = BYTES_PER_COMMITMENT →
  kzg_commitment_deserialize (kzg_commitment_serialize b) = Ok b ∧
  kzg_proof_deserialize (kzg_proof_serialize b) = Ok b.
Proof. apply kzg_from_str_display. Qed.

(** ** A concrete decoder *)

Definition plain_hex : HexLib := {|
  hex_decode s :=
    match bytes_of_string s with
    | x30 :: x78 :: l => from_option Ok (Err "invalid"%string) (unhex l)
    | l => from_option Ok (Err "invalid"%string) (unhex l)
    end;
|}.
Lemma plain_hex_correct : HexCorrect (HX := plain_hex).
Proof.
  split. intros b. cbn [hex_decode plain_hex]. unfold hex_encode. rewrite bytes_of_string_of_bytes.
  pose proof (hex_bytes b) as Hall. pose proof (unhex_hex b) as Hu.
  destruct (b ≫= hex_of_byte) as [|a [|c l]]; [by rewrite Hu|by destruct a; rewrite Hu|].
  apply Forall_cons in Hall as [_ [[v Hc] _]%Forall_cons].
  destruct a; try by rewrite Hu. destruct c; try by rewrite Hu. done.
Qed.
