(* ===== verification/PbsJson.v ===== *)
(** * The Builder API on the wire

    The JSON of every type of [crates/common/src/pbs/types]: the structs and enums that
    [derive] serializes, with the attributes of the source ([quoted_u64], [deny_unknown_fields],
    [untagged], [tag] and [content]), the lists of quoted integers of [utils.rs] and the KZG
    commitments and proofs of [kzg.rs], over the combinators of [Serde].

    The theorems: a message within the limits of the preset is read back as it was written
    however the fields of its objects are ordered, whatever is read has numbers and byte
    strings of the widths of their types, and a bid passes from a relay through [get_header]
    to the beacon node unchanged. *)

From S2P Require Import Prelude Bytes Text Serde Signature PbsTypes.

(** [utils.rs]: a list of quoted integers, with the limit of its type *)
Definition quoted_variable_list_u64 {SL : SerdeLib} (n : Z) : Wire (list Z) := {|
  to_json l := JArray (quoted_int <$> l);
  from_json j :=
    l ← quoted_int_vec j;
    if Z.of_nat (length l) <=? n then Ok l else Err (CustomError "invalid length");
  wf l := at_most n l ∧ Forall is_u64 l;
  typed l := at_most n l ∧ Forall is_u64 l;
|}.
#[export] Instance quoted_variable_list_lawful {SL : SerdeLib} {SC : SerdeCorrect} n :
  Lawful (quoted_variable_list_u64 n).
Proof.
  split; unfold quoted_variable_list_u64; cbn [to_json from_json wf typed]; unfold at_most.
  - intros l [Hn Hl]. rewrite quoted_ints_read by done. simpl. by rewrite (proj2 (Z.leb_le _ n)).
  - intros l _. simpl. induction l; [done|]. csimpl. by rewrite quoted_int_document.
  - intros j l H. apply result_bind_ok in H as (l' & Hl & H). destruct (Z.leb_spec (Z.of_nat (length l')) n); [|done].
    injection H as <-. split; [done|]. by eapply quoted_ints_u64.
  - intros j j' l Hj H. apply result_bind_ok in H as (l' & Hl & H). by rewrite (quoted_ints_order _ _ _ Hj Hl).
Qed.

(** [kzg.rs]: [impl Serialize] and [impl Deserialize] *)
Definition kzg_text (to : bytes → string) (from : string → Result KzgParseError bytes) (n : nat) : Wire bytes := {|
  to_json c := JString (to c);
  from_json j :=
    match j with
    | JString s => map_err (λ _, CustomError "invalid commitment or proof") (from s)
    | _ => Err InvalidType
    end;
  wf c := length c = n;
  typed c := length c = n;
|}.
Definition kzg_commitment_wire {HX : HexLib} : Wire KzgCommitment :=
  kzg_text kzg_commitment_serialize kzg_commitment_deserialize BYTES_PER_COMMITMENT.
Definition kzg_proof_wire {HX : HexLib} : Wire KzgProof :=
  kzg_text kzg_proof_serialize kzg_proof_deserialize BYTES_PER_PROOF.

Lemma kzg_from_str_length {HX : HexLib} s b :
  kzg_commitment_from_str s = Ok b ∨ kzg_proof_from_str s = Ok b → length b = 48%nat.
Proof.
  unfold kzg_commitment_from_str, kzg_proof_from_str.
  intros [H|H]; (destruct (strip_prefix "0x" s); [|done]); inv_ok; case_decide; by simplify_eq.
Qed.
Lemma kzg_text_lawful to from n :
  (∀ b, length b = n → from (to b) = Ok b) → (∀ s b, from s = Ok b → length b = n) →
  Lawful (kzg_text to from n).
Proof.
  intros Hr Ht. split; unfold kzg_text; cbn [to_json from_json wf typed].
  - intros b Hb. by rewrite Hr.
  - done.
  - intros j c H. destruct j; try done. apply map_err_ok in H. eauto.
  - intros j j' b. apply (scalar_order (from_json (kzg_text to from n))). by intros [].
Qed.
#[export] Instance kzg_commitment_lawful {HX : HexLib} {HC : HexCorrect} : Lawful kzg_commitment_wire.
Proof.
  apply kzg_text_lawful; [|intros s b H; eapply kzg_from_str_length; by left].
  intros b Hb. by apply kzg_serde_roundtrip.
Qed.
#[export] Instance kzg_proof_lawful {HX : HexLib} {HC : HexCorrect} : Lawful kzg_proof_wire.
Proof.
  apply kzg_text_lawful; [|intros s b H; eapply kzg_from_str_length; by right].
  intros b Hb. by apply kzg_serde_roundtrip.
Qed.

Section PbsJson.
Context {SL : SerdeLib} {SC : SerdeCorrect} {HX : HexLib} {HC : HexCorrect}.
(** the wire types are the ones of [ElectraSpec] *)
Local Notation T := ElectraSpec.

Definition kzg_commitments_wire : Wire (list KzgCommitment) :=
  ssz_list (MaxBlobCommitmentsPerBlock T) kzg_commitment_wire.
Definition kzg_proofs_wire : Wire (list KzgProof) :=
  ssz_list (MaxBlobCommitmentsPerBlock T) kzg_proof_wire.

(** ** Execution payloads ([execution_payload.rs]) *)

Definition withdrawal_wire : Wire Withdrawal :=
  struct false
    [field "index" u64_quoted; field "validator_index" u64_quoted; field "address" (bytesN 20);
     field "amount" u64_quoted]
    (λ x, (w_index x, (w_validator_index x, (w_address x, (w_amount x, tt)))))
    (λ t, let '(v1, (v2, (v3, (v4, _)))) := t in
      {| w_index := v1; w_validator_index := v2; w_address := v3; w_amount := v4 |}).
#[export] Instance withdrawal_lawful : Lawful withdrawal_wire.
Proof. derive_lawful. Qed.
Definition execution_payload_wire : Wire ExecutionPayload :=
  struct false
    [field "parent_hash" (bytesN 32); field "fee_recipient" (bytesN 20); field "state_root" (bytesN 32);
     field "receipts_root" (bytesN 32); field "logs_bloom" (hex_vec (BytesPerLogsBloom T));
     field "prev_randao" (bytesN 32); field "block_number" u64_quoted; field "gas_limit" u64_quoted;
     field "gas_used" u64_quoted; field "timestamp" u64_quoted;
     field "extra_data" (hex_list (MaxExtraDataBytes T)); field "base_fee_per_gas" u256_quoted;
     field "block_hash" (bytesN 32);
     field "transactions" (hex_lists (MaxTransactionsPerPayload T) (MaxBytesPerTransaction T));
     field "withdrawals" (ssz_list (MaxWithdrawalsPerPayload T) withdrawal_wire);
     field "blob_gas_used" u64_quoted; field "excess_blob_gas" u64_quoted]
    (λ x, (ep_parent_hash x, (ep_fee_recipient x, (ep_state_root x, (ep_receipts_root x, (ep_logs_bloom x,
        (ep_prev_randao x, (ep_block_number x, (ep_gas_limit x, (ep_gas_used x, (ep_timestamp x,
        (ep_extra_data x, (ep_base_fee_per_gas x, (ep_block_hash x, (ep_transactions x, (ep_withdrawals x,
        (ep_blob_gas_used x, (ep_excess_blob_gas x, tt))))))))))))))))))
    (λ t, let '(v1, (v2, (v3, (v4, (v5, (v6, (v7, (v8, (v9, (v10, (v11, (v12, (v13, (v14, (v15, (v16,
        (v17, _))))))))))))))))) := t in
      {| ep_parent_hash := v1; ep_fee_recipient := v2; ep_state_root := v3; ep_receipts_root := v4;
         ep_logs_bloom := v5; ep_prev_randao := v6; ep_block_number := v7; ep_gas_limit := v8;
         ep_gas_used := v9; ep_timestamp := v10; ep_extra_data := v11; ep_base_fee_per_gas := v12;
         ep_block_hash := v13; ep_transactions := v14; ep_withdrawals := v15; ep_blob_gas_used := v16;
         ep_excess_blob_gas := v17 |}).
#[export] Instance execution_payload_lawful : Lawful execution_payload_wire.
Proof. derive_lawful. Qed.
Definition payload_header_wire : Wire ExecutionPayloadHeader :=
  struct false
    [field "parent_hash" (bytesN 32); field "fee_recipient" (bytesN 20); field "state_root" (bytesN 32);
     field "receipts_root" (bytesN 32); field "logs_bloom" (hex_vec (BytesPerLogsBloom T));
     field "prev_randao" (bytesN 32); field "block_number" u64_quoted; field "gas_limit" u64_quoted;
     field "gas_used" u64_quoted; field "timestamp" u64_quoted;
     field "extra_data" (hex_list (MaxExtraDataBytes T)); field "base_fee_per_gas" u256_quoted;
     field "block_hash" (bytesN 32); field "transactions_root" (bytesN 32);
     field "withdrawals_root" (bytesN 32); field "blob_gas_used" u64_quoted;
     field "excess_blob_gas" u64_quoted]
    (λ x, (eph_parent_hash x, (eph_fee_recipient x, (eph_state_root x, (eph_receipts_root x,
        (eph_logs_bloom x, (eph_prev_randao x, (eph_block_number x, (eph_gas_limit x, (eph_gas_used x,
        (eph_timestamp x, (eph_extra_data x, (eph_base_fee_per_gas x, (eph_block_hash x,
        (eph_transactions_root x, (eph_withdrawals_root x, (eph_blob_gas_used x,
        (eph_excess_blob_gas x, tt))))))))))))))))))
    (λ t, let '(v1, (v2, (v3, (v4, (v5, (v6, (v7, (v8, (v9, (v10, (v11, (v12, (v13, (v14, (v15, (v16,
        (v17, _))))))))))))))))) := t in
      {| eph_parent_hash := v1; eph_fee_recipient := v2; eph_state_root := v3; eph_receipts_root := v4;
         eph_logs_bloom := v5; eph_prev_randao := v6; eph_block_number := v7; eph_gas_limit := v8;
         eph_gas_used := v9; eph_timestamp := v10; eph_extra_data := v11; eph_base_fee_per_gas := v12;
         eph_block_hash := v13; eph_transactions_root := v14; eph_withdrawals_root := v15;
         eph_blob_gas_used := v16; eph_excess_blob_gas := v17 |}).
#[export] Instance payload_header_lawful : Lawful payload_header_wire.
Proof. derive_lawful. Qed.
(** ** Execution requests ([execution_requests.rs]) *)

Definition deposit_request_wire : Wire DepositRequest :=
  struct false
    [field "pubkey" (bytesN 48); field "withdrawal_credentials" (bytesN 32); field "amount" u64_quoted;
     field "signature" (bytesN 96); field "index" u64_quoted]
    (λ x, (dr_pubkey x, (dr_withdrawal_credentials x, (dr_amount x, (dr_signature x, (dr_index x, tt))))))
    (λ t, let '(v1, (v2, (v3, (v4, (v5, _))))) := t in
      {| dr_pubkey := v1; dr_withdrawal_credentials := v2; dr_amount := v3; dr_signature := v4;
         dr_index := v5 |}).
#[export] Instance deposit_request_lawful : Lawful deposit_request_wire.
Proof. derive_lawful. Qed.
Definition withdrawal_request_wire : Wire WithdrawalRequest :=
  struct false
    [field "source_address" (bytesN 20); field "validator_pubkey" (bytesN 48); field "amount" u64_quoted]
    (λ x, (wr_source_address x, (wr_validator_pubkey x, (wr_amount x, tt))))
    (λ t, let '(v1, (v2, (v3, _))) := t in
      {| wr_source_address := v1; wr_validator_pubkey := v2; wr_amount := v3 |}).
#[export] Instance withdrawal_request_lawful : Lawful withdrawal_request_wire.
Proof. derive_lawful. Qed.
Definition consolidation_request_wire : Wire ConsolidationRequest :=
  struct false
    [field "source_address" (bytesN 20); field "source_pubkey" (bytesN 48);
     field "target_pubkey" (bytesN 48)]
    (λ x, (cr_source_address x, (cr_source_pubkey x, (cr_target_pubkey x, tt))))
    (λ t, let '(v1, (v2, (v3, _))) := t in
      {| cr_source_address := v1; cr_source_pubkey := v2; cr_target_pubkey := v3 |}).
#[export] Instance consolidation_request_lawful : Lawful consolidation_request_wire.
Proof. derive_lawful. Qed.
Definition execution_requests_wire : Wire ExecutionRequests :=
  struct false
    [field "deposits" (ssz_list (MaxDepositRequestsPerPayload T) deposit_request_wire);
     field "withdrawals" (ssz_list (MaxWithdrawalRequestsPerPayload T) withdrawal_request_wire);
     field "consolidations" (ssz_list (MaxConsolidationRequestsPerPayload T) consolidation_request_wire)]
    (λ x, (er_deposits x, (er_withdrawals x, (er_consolidations x, tt))))
    (λ t, let '(v1, (v2, (v3, _))) := t in
      {| er_deposits := v1; er_withdrawals := v2; er_consolidations := v3 |}).
#[export] Instance execution_requests_lawful : Lawful execution_requests_wire.
Proof. derive_lawful. Qed.
(** ** Blobs ([blobs_bundle.rs]) *)

Definition blobs_bundle_wire : Wire BlobsBundle :=
  struct false
    [field "commitments" kzg_commitments_wire; field "proofs" kzg_proofs_wire;
     field "blobs" (hex_vecs (MaxBlobCommitmentsPerBlock T) (BytesPerBlob T))]
    (λ x, (commitments x, (proofs x, (blobs x, tt))))
    (λ t, let '(v1, (v2, (v3, _))) := t in
      {| commitments := v1; proofs := v2; blobs := v3 |}).
#[export] Instance blobs_bundle_lawful : Lawful blobs_bundle_wire.
Proof. derive_lawful. Qed.
(** ** [get_header] ([get_header.rs]) *)

Definition get_header_params_wire : Wire GetHeaderParams :=
  struct false
    [field "slot" number64; field "parent_hash" (bytesN 32); field "pubkey" (bytesN 48)]
    (λ x, (ghp_slot x, (ghp_parent_hash x, (ghp_pubkey x, tt))))
    (λ t, let '(v1, (v2, (v3, _))) := t in
      {| ghp_slot := v1; ghp_parent_hash := v2; ghp_pubkey := v3 |}).
#[export] Instance get_header_params_lawful : Lawful get_header_params_wire.
Proof. derive_lawful. Qed.
Definition header_message_wire : Wire ExecutionPayloadHeaderMessageElectra :=
  struct false
    [field "header" payload_header_wire; field "blob_kzg_commitments" kzg_commitments_wire;
     field "execution_requests" execution_requests_wire; field "value" u256_quoted;
     field "pubkey" (bytesN 48)]
    (λ x, (hm_header x, (hm_blob_kzg_commitments x, (hm_execution_requests x, (hm_value x,
        (hm_pubkey x, tt))))))
    (λ t, let '(v1, (v2, (v3, (v4, (v5, _))))) := t in
      {| hm_header := v1; hm_blob_kzg_commitments := v2; hm_execution_requests := v3; hm_value := v4;
         hm_pubkey := v5 |}).
#[export] Instance header_message_lawful : Lawful header_message_wire.
Proof. derive_lawful. Qed.
Definition signed_header_wire : Wire (SignedExecutionPayloadHeader ExecutionPayloadHeaderMessageElectra) :=
  struct false
    [field "message" header_message_wire; field "signature" (bytesN 96)]
    (λ x, (seph_message x, (seph_signature x, tt)))
    (λ t, let '(v1, (v2, _)) := t in
      {| seph_message := v1; seph_signature := v2 |}).
#[export] Instance signed_header_lawful : Lawful signed_header_wire.
Proof. derive_lawful. Qed.
(** [GetHeaderResponse], by the attributes of [VersionedResponse] *)
Definition versioned {E} (w : Wire E) : Wire (VersionedResponse E) :=
  adjacent "version" "data" "electra" w (λ v, match v with Electra e => e end) Electra.
#[export] Instance versioned_lawful {E} (w : Wire E) : Lawful w → Lawful (versioned w).
Proof. intros Hw. apply adjacent_lawful; [done..|by intros []|done]. Qed.
Definition get_header_response_wire : Wire GetHeaderResponse := versioned signed_header_wire.
#[export] Instance get_header_response_lawful : Lawful get_header_response_wire.
Proof. apply _. Qed.

(** ** Blinded blocks ([blinded_block_body.rs], [beacon_block.rs]) *)

Definition eth1_data_wire : Wire Eth1Data :=
  struct false
    [field "deposit_root" (bytesN 32); field "deposit_count" u64_quoted; field "block_hash" (bytesN 32)]
    (λ x, (e1_deposit_root x, (e1_deposit_count x, (e1_block_hash x, tt))))
    (λ t, let '(v1, (v2, (v3, _))) := t in
      {| e1_deposit_root := v1; e1_deposit_count := v2; e1_block_hash := v3 |}).
#[export] Instance eth1_data_lawful : Lawful eth1_data_wire.
Proof. derive_lawful. Qed.
Definition beacon_block_header_wire : Wire BeaconBlockHeader :=
  struct false
    [field "slot" u64_quoted; field "proposer_index" u64_quoted; field "parent_root" (bytesN 32);
     field "state_root" (bytesN 32); field "body_root" (bytesN 32)]
    (λ x, (bh_slot x, (bh_proposer_index x, (bh_parent_root x, (bh_state_root x, (bh_body_root x, tt))))))
    (λ t, let '(v1, (v2, (v3, (v4, (v5, _))))) := t in
      {| bh_slot := v1; bh_proposer_index := v2; bh_parent_root := v3; bh_state_root := v4;
         bh_body_root := v5 |}).
#[export] Instance beacon_block_header_lawful : Lawful beacon_block_header_wire.
Proof. derive_lawful. Qed.
Definition signed_beacon_block_header_wire : Wire SignedBeaconBlockHeader :=
  struct false
    [field "message" beacon_block_header_wire; field "signature" (bytesN 96)]
    (λ x, (sbh_message x, (sbh_signature x, tt)))
    (λ t, let '(v1, (v2, _)) := t in
      {| sbh_message := v1; sbh_signature := v2 |}).
#[export] Instance signed_beacon_block_header_lawful : Lawful signed_beacon_block_header_wire.
Proof. derive_lawful. Qed.
Definition bls_change_wire : Wire BlsToExecutionChange :=
  struct false
    [field "validator_index" u64_quoted; field "from_bls_pubkey" (bytesN 48);
     field "to_execution_address" (bytesN 20)]
    (λ x, (bc_validator_index x, (bc_from_bls_pubkey x, (bc_to_execution_address x, tt))))
    (λ t, let '(v1, (v2, (v3, _))) := t in
      {| bc_validator_index := v1; bc_from_bls_pubkey := v2; bc_to_execution_address := v3 |}).
#[export] Instance bls_change_lawful : Lawful bls_change_wire.
Proof. derive_lawful. Qed.
Definition signed_bls_change_wire : Wire SignedBlsToExecutionChange :=
  struct false
    [field "message" bls_change_wire; field "signature" (bytesN 96)]
    (λ x, (sbc_message x, (sbc_signature x, tt)))
    (λ t, let '(v1, (v2, _)) := t in
      {| sbc_message := v1; sbc_signature := v2 |}).
#[export] Instance signed_bls_change_lawful : Lawful signed_bls_change_wire.
Proof. derive_lawful. Qed.
Definition proposer_slashing_wire : Wire ProposerSlashing :=
  struct false
    [field "signed_header_1" signed_beacon_block_header_wire;
     field "signed_header_2" signed_beacon_block_header_wire]
    (λ x, (signed_header_1 x, (signed_header_2 x, tt)))
    (λ t, let '(v1, (v2, _)) := t in
      {| signed_header_1 := v1; signed_header_2 := v2 |}).
#[export] Instance proposer_slashing_lawful : Lawful proposer_slashing_wire.
Proof. derive_lawful. Qed.
Definition checkpoint_wire : Wire Checkpoint :=
  struct false
    [field "epoch" u64_quoted; field "root" (bytesN 32)]
    (λ x, (cp_epoch x, (cp_root x, tt)))
    (λ t, let '(v1, (v2, _)) := t in
      {| cp_epoch := v1; cp_root := v2 |}).
#[export] Instance checkpoint_lawful : Lawful checkpoint_wire.
Proof. derive_lawful. Qed.
Definition attestation_data_wire : Wire AttestationData :=
  struct false
    [field "slot" u64_quoted; field "index" u64_quoted; field "beacon_block_root" (bytesN 32);
     field "source" checkpoint_wire; field "target" checkpoint_wire]
    (λ x, (ad_slot x, (ad_index x, (ad_beacon_block_root x, (ad_source x, (ad_target x, tt))))))
    (λ t, let '(v1, (v2, (v3, (v4, (v5, _))))) := t in
      {| ad_slot := v1; ad_index := v2; ad_beacon_block_root := v3; ad_source := v4; ad_target := v5 |}).
#[export] Instance attestation_data_lawful : Lawful attestation_data_wire.
Proof. derive_lawful. Qed.
Definition indexed_attestation_wire : Wire IndexedAttestationElectra :=
  struct false
    [field "attesting_indices" (quoted_variable_list_u64 (MaxValidatorsPerSlot T));
     field "data" attestation_data_wire; field "signature" (bytesN 96)]
    (λ x, (attesting_indices x, (ia_data x, (ia_signature x, tt))))
    (λ t, let '(v1, (v2, (v3, _))) := t in
      {| attesting_indices := v1; ia_data := v2; ia_signature := v3 |}).
#[export] Instance indexed_attestation_lawful : Lawful indexed_attestation_wire.
Proof. derive_lawful. Qed.
Definition attester_slashing_wire : Wire AttesterSlashingElectra :=
  struct false
    [field "attestation_1" indexed_attestation_wire; field "attestation_2" indexed_attestation_wire]
    (λ x, (attestation_1 x, (attestation_2 x, tt)))
    (λ t, let '(v1, (v2, _)) := t in
      {| attestation_1 := v1; attestation_2 := v2 |}).
#[export] Instance attester_slashing_lawful : Lawful attester_slashing_wire.
Proof. derive_lawful. Qed.
Definition attestation_wire : Wire AttestationElectra :=
  struct false
    [field "aggregation_bits" (bits_list (MaxValidatorsPerSlot T)); field "data" attestation_data_wire;
     field "signature" (bytesN 96); field "committee_bits" (bits_vector (MaxCommitteesPerSlot T))]
    (λ x, (aggregation_bits x, (at_data x, (at_signature x, (committee_bits x, tt)))))
    (λ t, let '(v1, (v2, (v3, (v4, _)))) := t in
      {| aggregation_bits := v1; at_data := v2; at_signature := v3; committee_bits := v4 |}).
#[export] Instance attestation_lawful : Lawful attestation_wire.
Proof. derive_lawful. Qed.
Definition deposit_data_wire : Wire DepositData :=
  struct false
    [field "pubkey" (bytesN 48); field "withdrawal_credentials" (bytesN 32); field "amount" u64_quoted;
     field "signature" (bytesN 96)]
    (λ x, (dd_pubkey x, (dd_withdrawal_credentials x, (dd_amount x, (dd_signature x, tt)))))
    (λ t, let '(v1, (v2, (v3, (v4, _)))) := t in
      {| dd_pubkey := v1; dd_withdrawal_credentials := v2; dd_amount := v3; dd_signature := v4 |}).
#[export] Instance deposit_data_lawful : Lawful deposit_data_wire.
Proof. derive_lawful. Qed.
Definition deposit_wire : Wire Deposit :=
  struct false
    [field "proof" (ssz_vector 33 (bytesN 32)); field "data" deposit_data_wire]
    (λ x, (d_proof x, (d_data x, tt)))
    (λ t, let '(v1, (v2, _)) := t in
      {| d_proof := v1; d_data := v2 |}).
#[export] Instance deposit_lawful : Lawful deposit_wire.
Proof. derive_lawful. Qed.
Definition voluntary_exit_wire : Wire VoluntaryExit :=
  struct false
    [field "epoch" u64_quoted; field "validator_index" u64_quoted]
    (λ x, (ve_epoch x, (ve_validator_index x, tt)))
    (λ t, let '(v1, (v2, _)) := t in
      {| ve_epoch := v1; ve_validator_index := v2 |}).
#[export] Instance voluntary_exit_lawful : Lawful voluntary_exit_wire.
Proof. derive_lawful. Qed.
Definition signed_voluntary_exit_wire : Wire SignedVoluntaryExit :=
  struct false
    [field "message" voluntary_exit_wire; field "signature" (bytesN 96)]
    (λ x, (sve_message x, (sve_signature x, tt)))
    (λ t, let '(v1, (v2, _)) := t in
      {| sve_message := v1; sve_signature := v2 |}).
#[export] Instance signed_voluntary_exit_lawful : Lawful signed_voluntary_exit_wire.
Proof. derive_lawful. Qed.
Definition sync_aggregate_wire : Wire SyncAggregate :=
  struct false
    [field "sync_committee_bits" (bits_vector (SyncCommitteeSize T));
     field "sync_committee_signature" (bytesN 96)]
    (λ x, (sync_committee_bits x, (sync_committee_signature x, tt)))
    (λ t, let '(v1, (v2, _)) := t in
      {| sync_committee_bits := v1; sync_committee_signature := v2 |}).
#[export] Instance sync_aggregate_lawful : Lawful sync_aggregate_wire.
Proof. derive_lawful. Qed.
Definition blinded_body_wire : Wire BlindedBeaconBlockBodyElectra :=
  struct true
    [field "randao_reveal" (bytesN 96); field "eth1_data" eth1_data_wire; field "graffiti" (bytesN 32);
     field "proposer_slashings" (ssz_list (MaxProposerSlashings T) proposer_slashing_wire);
     field "attester_slashings" (ssz_list (MaxAttesterSlashings T) attester_slashing_wire);
     field "attestations" (ssz_list (MaxAttestations T) attestation_wire);
     field "deposits" (ssz_list (MaxDeposits T) deposit_wire);
     field "voluntary_exits" (ssz_list (MaxVoluntaryExits T) signed_voluntary_exit_wire);
     field "sync_aggregate" sync_aggregate_wire; field "execution_payload_header" payload_header_wire;
     field "bls_to_execution_changes" (ssz_list (MaxBlsToExecutionChanges T) signed_bls_change_wire);
     field "blob_kzg_commitments" kzg_commitments_wire; field "execution_requests" execution_requests_wire]
    (λ x, (randao_reveal x, (eth1_data x, (graffiti x, (proposer_slashings x, (attester_slashings x,
        (attestations x, (deposits x, (voluntary_exits x, (sync_aggregate x, (execution_payload_header x,
        (bls_to_execution_changes x, (blob_kzg_commitments x, (execution_requests x, tt))))))))))))))
    (λ t, let '(v1, (v2, (v3, (v4, (v5, (v6, (v7, (v8, (v9, (v10, (v11, (v12, (v13, _))))))))))))) := t in
      {| randao_reveal := v1; eth1_data := v2; graffiti := v3; proposer_slashings := v4;
         attester_slashings := v5; attestations := v6; deposits := v7; voluntary_exits := v8;
         sync_aggregate := v9; execution_payload_header := v10; bls_to_execution_changes := v11;
         blob_kzg_commitments := v12; execution_requests := v13 |}).
#[export] Instance blinded_body_lawful : Lawful blinded_body_wire.
Proof. derive_lawful. Qed.
Definition blinded_block_electra_wire : Wire BlindedBeaconBlockElectra :=
  struct false
    [field "slot" u64_quoted; field "proposer_index" u64_quoted; field "parent_root" (bytesN 32);
     field "state_root" (bytesN 32); field "body" blinded_body_wire]
    (λ x, (bb_slot x, (bb_proposer_index x, (bb_parent_root x, (bb_state_root x, (bb_body x, tt))))))
    (λ t, let '(v1, (v2, (v3, (v4, (v5, _))))) := t in
      {| bb_slot := v1; bb_proposer_index := v2; bb_parent_root := v3; bb_state_root := v4;
         bb_body := v5 |}).
#[export] Instance blinded_block_electra_lawful : Lawful blinded_block_electra_wire.
Proof. derive_lawful. Qed.
(** [#[serde(untagged)]] *)
Definition blinded_block_wire : Wire BlindedBeaconBlock :=
  untagged "BlindedBeaconBlock" blinded_block_electra_wire (λ b, match b with BlindedElectra b => b end)
    BlindedElectra.
#[export] Instance blinded_block_lawful : Lawful blinded_block_wire.
Proof. apply untagged_lawful; [apply _|by intros []|done]. Qed.


Definition signed_blinded_block_wire : Wire SignedBlindedBeaconBlock :=
  struct false
    [field "message" blinded_block_wire; field "signature" (bytesN 96)]
    (λ x, (sbb_message x, (sbb_signature x, tt)))
    (λ t, let '(v1, (v2, _)) := t in
      {| sbb_message := v1; sbb_signature := v2 |}).
#[export] Instance signed_blinded_block_lawful : Lawful signed_blinded_block_wire.
Proof. derive_lawful. Qed.
Definition payload_and_blobs_wire : Wire PayloadAndBlobsElectra :=
  struct false
    [field "execution_payload" execution_payload_wire; field "blobs_bundle" blobs_bundle_wire]
    (λ x, (execution_payload x, (blobs_bundle x, tt)))
    (λ t, let '(v1, (v2, _)) := t in
      {| execution_payload := v1; blobs_bundle := v2 |}).
#[export] Instance payload_and_blobs_lawful : Lawful payload_and_blobs_wire.
Proof. derive_lawful. Qed.
Definition submit_response_wire : Wire SubmitBlindedBlockResponse := versioned payload_and_blobs_wire.
#[export] Instance submit_response_lawful : Lawful submit_response_wire.
Proof. apply _. Qed.

End PbsJson.
