(* ===== verification/Http.v ===== *)
(** * HTTP vocabulary, errors and effects

    Models [crates/common/src/pbs/error.rs], the bounded body reader of
    [crates/common/src/utils.rs], [safe_read_http_response] of [config/utils.rs] and
    the constants of the PBS crate.  The [reqwest] client is a parameter: a request is
    data ([HttpRequest]) and its answer is data ([SendOutcome]); the metrics and builder
    events the code emits are the [Effect]s of a [Traced] computation. *)

From stdpp Require Import pretty.
From S2P Require Import Prelude Bytes Signature PbsTypes.

Notation Url := string (only parsing).
Notation HeaderValue := bytes (only parsing).

(** ** Requests and answers *)

(** What the code asks of a [reqwest::Error]. *)
Record ReqwestError := { is_timeout : bool; is_connect : bool }.

Inductive Method : Type := GET | POST.
Inductive RequestBody : Type :=
| NoBody
| BlindedBlockBody (b : SignedBlindedBeaconBlock)
| RegistrationsBody (l : list ValidatorRegistration).

Record HttpRequest := {
  rq_method : Method;
  rq_url : Url;
  rq_timeout_ms : Z;
  rq_headers : gmap string HeaderValue;
  rq_body : RequestBody;
}.

(** An answer: its status, its [Content-Length] if the header is present, and the
    body as the stream of chunks [bytes_stream()] yields. *)
Record Response := {
  res_status : Z;
  res_content_length : option Z;
  res_chunks : list (Result ReqwestError bytes);
}.
(** [client.….send().await] *)
Notation SendOutcome := (Result ReqwestError Response) (only parsing).

(** [StatusCode::is_success] *)
Definition is_success (code : Z) : bool := (200 <=? code) && (code <? 300).
Definition STATUS_OK : Z := 200.
Definition STATUS_ACCEPTED : Z := 202.
Definition STATUS_NO_CONTENT : Z := 204.

(** ** Constants of the PBS crate ([constants.rs]) *)

Definition STATUS_ENDPOINT_TAG : string := "status".
Definition REGISTER_VALIDATOR_ENDPOINT_TAG : string := "register_validator".
Definition SUBMIT_BLINDED_BLOCK_ENDPOINT_TAG : string := "submit_blinded_block".
Definition GET_HEADER_ENDPOINT_TAG : string := "get_header".
Definition RELOAD_ENDPOINT_TAG : string := "reload".
Definition TIMEOUT_ERROR_CODE : Z := 555.
Definition TIMEOUT_ERROR_CODE_STR : string := "555".
Definition MAX_SIZE_SUBMIT_BLOCK_RESPONSE : Z := 20 * 1024 * 1024.
Definition MAX_SIZE_REGISTER_VALIDATOR_REQUEST : Z := 20 * 1024 * 1024.
Definition MAX_SIZE_GET_HEADER_RESPONSE : Z := 5 * 1024 * 1024.
Definition MAX_SIZE_DEFAULT : Z := 1024.
Definition MUXER_HTTP_MAX_LENGTH : Z := 1024 * 1024 * 10.

(** [code.as_str()] *)
Definition status_str (code : Z) : string := pretty code.

(** ** Errors *)

Inductive ResponseReadError : Type :=
| PayloadTooLarge (max content_length : Z) (raw : string)
| ReqwestReadError (e : ReqwestError).

Inductive ValidationError : Type :=
| EmptyBlockhash
| PubkeyMismatch (expected got : BlsPublicKey)
| ParentHashMismatch (expected got : B256)
| BlockHashMismatch (expected got : B256)
| KzgCommitments (expected_blobs got_blobs got_commitments got_proofs : Z)
| KzgMismatch (expected got : string) (index : Z)
| BidTooLow (min got : Z)
| EmptyTxRoot
| Sigverify (e : BlstErrorWrapper)
| TimestampMismatch (expected got : Z)
| BlockNumberMismatch (parent header : Z)
| GasLimit (parent header : Z)
| PayloadVersionMismatch (request response : string).
#[export] Instance ValidationError_eq_dec : EqDecision ValidationError.
Proof. solve_decision. Defined.

Inductive PbsError : Type :=
| AxumError (e : string)
| Reqwest (e : ReqwestError)
| JsonDecode (err raw : string)
| ReadResponse (e : ResponseReadError)
| RelayResponse (error_msg : string) (code : Z)
| Validation (e : ValidationError)
| UrlParsing (e : string).

(** [PbsError::is_timeout] *)
Definition pbs_is_timeout (e : PbsError) : bool :=
  match e with Reqwest err => is_timeout err | _ => false end.

(** [PbsError::should_retry]; the range [500..509] excludes its end *)
Definition should_retry (e : PbsError) : bool :=
  match e with
  | Reqwest err => is_timeout err || is_connect err
  | RelayResponse _ code =>
      if (500 <=? code) && (code <? 509) then true
      else if (code =? 400) || (code =? 429) then false
      else false
  | _ => false
  end.

(** ** Effects *)

(** [pbs/event.rs] *)
Inductive BuilderApiVersion : Type := V1 | V2.
#[export] Instance BuilderApiVersion_eq_dec : EqDecision BuilderApiVersion.
Proof. solve_decision. Defined.

Inductive BuilderEvent : Type :=
| EvGetHeaderRequest (params : GetHeaderParams)
| EvGetHeaderResponse (res : option GetHeaderResponse)
| EvGetStatusEvent
| EvGetStatusResponse
| EvSubmitBlockRequest (block : SignedBlindedBeaconBlock) (api_version : BuilderApiVersion)
| EvSubmitBlockResponseV1 (res : SubmitBlindedBlockResponse)
| EvSubmitBlockResponseV2
| EvMissedPayload (block_hash : B256)
| EvRegisterValidatorRequest (l : list ValidatorRegistration)
| EvRegisterValidatorResponse
| EvReloadEvent
| EvReloadResponse.

(** The metrics of [metrics.rs] (a counter increment, an observation or a gauge
    update), the requests sent to relays, the pauses between retries and the events posted
    to subscribers. *)
Inductive Effect : Type :=
| Sent (relay_id : string) (req : HttpRequest)
| RelayStatusCode (code endpoint relay_id : string)
| RelayLatency (endpoint relay_id : string)
| RelayLastSlot (relay_id : string) (slot : Z)
| RelayHeaderValue (relay_id : string) (gwei : Z)
| BeaconNodeStatus (code endpoint : string)
| Slept (ms : Z)
| Published (endpoint : Url) (event : BuilderEvent).

Notation Relayed := (Traced Effect PbsError) (only parsing).

(** ** The bounded body reader *)

Definition Zlen {A} (l : list A) : Z := Z.of_nat (length l).

(** the [while let Some(chunk) = stream.next().await] loop *)
Fixpoint read_chunks (content_length : option Z) (max_size : Z) (acc : bytes)
    (chunks : list (Result ReqwestError bytes)) : Result ResponseReadError bytes :=
  match chunks with
  | [] => Ok acc
  | Err e :: _ => Err (ReqwestReadError e)
  | Ok chunk :: chunks =>
      if Zlen acc + Zlen chunk >? max_size then
        Err (PayloadTooLarge max_size (default 0 content_length)
               (from_utf8_lossy (take 1024 acc)))
      else read_chunks content_length max_size (acc ++ chunk) chunks
  end.

Definition read_chunked_body_with_max (res : Response) (max_size : Z)
    : Result ResponseReadError bytes :=
  match res_content_length res with
  | Some length =>
      if length >? max_size then Err (PayloadTooLarge max_size length "")
      else read_chunks (Some length) max_size [] (res_chunks res)
  | None => read_chunks None max_size [] (res_chunks res)
  end.

(** [read_chunked_body_with_max(res, max).await?] inside a function that returns
    [PbsError] *)
Definition read_body (res : Response) (max_size : Z) : Result PbsError bytes :=
  map_err ReadResponse (read_chunked_body_with_max res max_size).

(** [config/utils.rs] *)
Inductive HttpReadError : Type :=
| RequestFailedStatus (status : Z) (body : string)
| BodyReadFailed (e : ResponseReadError)
| RequestFailedBodyFailed (status : Z) (e : ResponseReadError).

Definition safe_read_http_response (res : Response) : Result HttpReadError bytes :=
  let status_code := res_status res in
  match read_chunked_body_with_max res MUXER_HTTP_MAX_LENGTH with
  | Ok response_bytes =>
      if is_success status_code then Ok response_bytes
      else Err (RequestFailedStatus status_code (from_utf8_lossy response_bytes))
  | Err e =>
      if is_success status_code then Err (BodyReadFailed e)
      else Err (RequestFailedBodyFailed status_code e)
  end.

(** ** The body reader is bounded and exact *)

Lemma utf8_lossy_fuel_length fuel l :
  (length (utf8_lossy_fuel fuel l) ≤ 3 * length l)%nat.
Proof.
  revert l. induction fuel as [|fuel IH]; intros [|b l]; cbn [utf8_lossy_fuel length]; try lia.
  destruct (continuation_ranges b) as [rs|].
  - rewrite length_app. specialize (IH (drop (match_ranges rs l) l)).
    rewrite length_drop in IH.
    case_decide; [|simpl; lia]. cbn [length]. rewrite length_take. lia.
  - rewrite length_app. specialize (IH l). simpl. lia.
Qed.

Lemma string_of_bytes_length l : String.length (string_of_bytes l) = length l.
Proof.
  unfold string_of_bytes. induction l as [|b l IH]; [done|]. simpl. by f_equal.
Qed.

Lemma from_utf8_lossy_length l : (String.length (from_utf8_lossy l) ≤ 3 * length l)%nat.
Proof. unfold from_utf8_lossy. rewrite string_of_bytes_length. apply utf8_lossy_fuel_length. Qed.

(** All chunks arrived, and this is what they carry. *)
Definition received (chunks : list (Result ReqwestError bytes)) (body : bytes) : Prop :=
  ∃ cs, chunks = Ok <$> cs ∧ body = concat cs.

Lemma received_cons c chunks body :
  received (c :: chunks) body ↔
  ∃ chunk rest, c = Ok chunk ∧ received chunks rest ∧ body = chunk ++ rest.
Proof.
  split.
  - intros ([|chunk cs] & [= -> ->] & ->). exists chunk, (concat cs). split_and!; try done.
    by exists cs.
  - intros (chunk & rest & -> & (cs & -> & ->) & ->). by exists (chunk :: cs).
Qed.

Lemma read_chunks_ok cl max acc chunks body :
  Zlen acc ≤ max →
  read_chunks cl max acc chunks = Ok body ↔
  ∃ rest, received chunks rest ∧ body = acc ++ rest ∧ Zlen body ≤ max.
Proof.
  unfold Zlen. revert acc. induction chunks as [|[chunk|e] chunks IH]; intros acc Hacc; simpl.
  - split.
    + intros [= <-]. exists []. rewrite app_nil_r. split_and!; [by exists []|done|done].
    + intros (rest & (cs & Hcs & ->) & -> & _).
      destruct cs; [|done]. by rewrite app_nil_r.
  - setoid_rewrite received_cons.
    unfold Zlen.
    destruct (Z.gtb_spec (Z.of_nat (length acc) + Z.of_nat (length chunk)) max) as [Hgt|Hle].
    + split; [done|]. intros (rest & (chunk' & rest' & [= <-] & _ & ->) & -> & Hmax).
      rewrite !length_app in Hmax. lia.
    + rewrite IH by (rewrite length_app; lia). split.
      * intros (rest & Hrest & -> & Hmax). exists (chunk ++ rest).
        rewrite app_assoc. eauto 10.
      * intros (rest & (chunk' & rest' & [= <-] & ? & ->) & -> & Hmax).
        exists rest'. rewrite <- app_assoc. eauto.
  - split; [done|]. intros (rest & Hr & _). apply received_cons in Hr. naive_solver.
Qed.

Lemma read_chunks_err cl max acc chunks e :
  read_chunks cl max acc chunks = Err e →
  match e with
  | PayloadTooLarge m len raw =>
      m = max ∧ len = default 0 cl ∧ (String.length raw ≤ 3 * 1024)%nat
  | ReqwestReadError e => Err e ∈ chunks
  end.
Proof.
  revert acc. induction chunks as [|[chunk|err] chunks IH]; intros acc H; simpl in H; [done| |].
  - destruct (_ >? _).
    + injection H as <-. split_and!; [done|done|].
      pose proof (from_utf8_lossy_length (take 1024 acc)) as Hl.
      rewrite length_take in Hl. lia.
    + apply IH in H. destruct e; [done|by right].
  - injection H as <-. by left.
Qed.

(** Reading a relay's answer.  With a non-negative limit, the reader returns a body
    exactly when the declared length (if any) is within the limit, every chunk arrived
    and their concatenation is within the limit; the body is that concatenation.  It
    never returns more than the limit, and an over-limit error quotes the limit and at
    most 3 KiB of text. *)
Theorem read_body_exact_and_bounded (res : Response) (max : Z) :
  0 ≤ max →
  (∀ body, read_chunked_body_with_max res max = Ok body ↔
     from_option (λ l, l ≤ max) True (res_content_length res) ∧
     received (res_chunks res) body ∧ Zlen body ≤ max) ∧
  (∀ m len raw, read_chunked_body_with_max res max = Err (PayloadTooLarge m len raw) →
     m = max ∧ (String.length raw ≤ 3072)%nat).
Proof.
  intros Hmax. unfold read_chunked_body_with_max.
  assert (Zlen (@nil byte) ≤ max) as Hnil by done.
  destruct (res_content_length res) as [len|]; [destruct (Z.gtb_spec len max) as [Hlt|Hle]|]; split;
    simpl; try (intros body; rewrite read_chunks_ok by done; naive_solver);
    try (intros m len' raw Herr%read_chunks_err; naive_solver lia).
  - intros body. split; [done|lia].
  - intros m len' raw [= <- <- <-]. simpl. lia.
Qed.

Lemma read_body_exact_and_bounded_witness :
  let res := {| res_status := 200; res_content_length := Some 3;
                res_chunks := [Ok [x41]; Ok [x42; x43]] |} in
  0 ≤ 1024 ∧ Zlen [x41; x42; x43] ≤ 1024.
Proof.
  split; [lia|].
  apply (proj1 (read_body_exact_and_bounded
    {| res_status := 200; res_content_length := Some 3;
       res_chunks := [Ok [x41]; Ok [x42; x43]] |} 1024 ltac:(lia)) [x41; x42; x43]).
  reflexivity.
Defined.
