(* ===== verification/Relay.v ===== *)
(** * Relays

    Models [crates/common/src/pbs/relay.rs], the [RelayConfig] of
    [crates/common/src/config/pbs.rs], [pbs/builder.rs], the Builder API paths of
    [pbs/constants.rs] and the user-agent helpers of [utils.rs].  The [url], [http] and
    [reqwest] crates are classes ([UrlLib], [HeaderLib]); the laws stated of them are
    the documented ones. *)

From stdpp Require Import pretty.
From S2P Require Import Prelude Bytes Text Signature PbsTypes Http.

(** ** Constants ([pbs/constants.rs], [lib.rs]) *)

Definition BUILDER_V1_API_PATH : string := "/eth/v1/builder".
Definition BUILDER_V2_API_PATH : string := "/eth/v2/builder".
Definition GET_STATUS_PATH : string := "/status".
Definition REGISTER_VALIDATOR_PATH : string := "/validators".
Definition SUBMIT_BLOCK_PATH : string := "/blinded_blocks".
Definition RELOAD_PATH : string := "/reload".
Definition BUILDER_EVENTS_PATH : string := "/builder_events".
Definition HEADER_VERSION_KEY : string := "X-CommitBoost-Version".
Definition HEADER_START_TIME_UNIX_MS : string := "Date-Milliseconds".
Definition USER_AGENT : string := "user-agent".
Definition DEFAULT_REQUEST_TIMEOUT_SECS : Z := 10.

(** ** The crates the code calls *)

Class UrlLib := {
  (** [Url::parse] *)
  url_parse : string → Result string Url;
  (** [Url::join] *)
  url_join : Url → string → Result string Url;
  (** [url.query_pairs_mut().append_pair(k, v)] *)
  url_append_pair : Url → string → string → Url;
  (** [url.host().map(to_string)] and [url.username()] *)
  url_host : Url → option string;
  url_username : Url → string;
}.

(** [to_ascii_lowercase] *)
Definition lower_byte (b : byte) : byte :=
  if in_range b 65 90 then byte_of_Z (Z_of_byte b + 32) else b.
Definition to_ascii_lowercase (s : string) : string :=
  string_of_bytes (lower_byte <$> bytes_of_string s).

(** visible ASCII, space or tab *)
Definition visible_ascii (b : byte) : bool := in_range b 32 126 || in_range b 9 9.

Class HeaderLib := {
  (** [CARGO_PKG_VERSION] of the build *)
  COMMIT_BOOST_VERSION : string;
  (** [HeaderName::from_str] *)
  header_name_from_str : string → option string;
  (** [HeaderValue::from_str] and [HeaderValue::to_str] *)
  header_value_from_str : string → option HeaderValue;
  header_value_to_str : HeaderValue → option string;
  (** [Client::builder().default_headers(h).timeout(t).build()] *)
  client_build : gmap string HeaderValue → Z → Result string ();
}.
(** Header names are case-insensitive, stored in lower case; a header value is the text
    it was built from, visible ASCII is accepted, and only visible ASCII reads back as
    text; a package version is visible ASCII. *)
Class HeaderCorrect {HL : HeaderLib} := {
  header_name_lower : ∀ k n, header_name_from_str k = Some n → n = to_ascii_lowercase k;
  header_value_bytes : ∀ s v, header_value_from_str s = Some v → v = bytes_of_string s;
  header_value_visible : ∀ s,
    forallb visible_ascii (bytes_of_string s) = true →
    header_value_from_str s = Some (bytes_of_string s);
  header_text_visible : ∀ v s,
    header_value_to_str v = Some s →
    v = bytes_of_string s ∧ forallb visible_ascii (bytes_of_string s) = true;
  version_visible : forallb visible_ascii (bytes_of_string COMMIT_BOOST_VERSION) = true;
}.

Notation HeaderMap := (gmap string HeaderValue) (only parsing).

(** ** Relay configuration *)

Record RelayEntry := { re_id : string; re_pubkey : BlsPublicKey; re_url : Url }.

Record RelayConfig := {
  rc_id : option string;
  entry : RelayEntry;
  headers : option (gmap string string);
  get_params : option (gmap string string);
  enable_timing_games : bool;
  target_first_request_ms : option Z;
  frequency_get_header_ms : option Z;
  validator_registration_batch_size : option Z;
}.

(** [RelayConfig::id] *)
Definition relay_config_id (c : RelayConfig) : string := default (re_id (entry c)) (rc_id c).

(** the values [empty_string_as_none] accepts *)
Inductive BatchSizeHelper : Type := HelperStr (s : string) | HelperNumber (n : Z).

(** [str::parse::<usize>] *)
Definition digit_of_byte (b : byte) : option Z :=
  if in_range b 48 57 then Some (Z_of_byte b - 48) else None.
Fixpoint parse_digits (acc : Z) (l : bytes) : option Z :=
  match l with
  | [] => Some acc
  | b :: l =>
      d ← digit_of_byte b;
      let acc := 10 * acc + d in
      if acc <? u64_bound then parse_digits acc l else None
  end.
Definition parse_usize (s : string) : option Z :=
  match bytes_of_string s with
  | [] => None
  | [x2b] => None
  | x2b :: l => parse_digits 0 l
  | l => parse_digits 0 l
  end.

Definition empty_string_as_none (h : BatchSizeHelper) : Result string (option Z) :=
  match h with
  | HelperStr str =>
      if String.eqb str "" then Ok None
      else match parse_usize str with
           | Some n => Ok (Some n)
           | None => Err "Expected empty string or number"%string
           end
  | HelperNumber number => Ok (Some number)
  end.

(** ** Relay clients *)

Record Client := { default_headers : HeaderMap; client_timeout_secs : Z }.
Record RelayClient := { rl_id : string; rl_client : Client; rl_config : RelayConfig }.

(** [RelayClient::pubkey] *)
Definition relay_pubkey (r : RelayClient) : BlsPublicKey := re_pubkey (entry (rl_config r)).
Definition relay_url (r : RelayClient) : Url := re_url (entry (rl_config r)).

Section RelayOps.
Context {HX : HexLib} {UL : UrlLib} {HL : HeaderLib} {HO : HashOrder string}.

(** [impl Deserialize for RelayEntry]; [BlsPublicKey::from_hex] also checks the length *)
Definition pubkey_from_hex (s : string) : option BlsPublicKey :=
  b ← result_ok (hex_decode s); if decide (length b = 48%nat) then Some b else None.
Definition relay_entry_deserialize (url : Url) : Result string RelayEntry :=
  id ← ok_or (url_host url) "missing host"%string;
  pubkey ← ok_or (pubkey_from_hex (url_username url)) "invalid BLS pubkey"%string;
  Ok {| re_pubkey := pubkey; re_url := url; re_id := id |}.

(** one turn of the [for (key, value) in custom_headers] loop *)
Definition insert_custom_header (h : HeaderMap) (kv : string * string)
    : Result string HeaderMap :=
  name ← ok_or (header_name_from_str kv.1) "{key} is an invalid header name"%string;
  value ← ok_or (header_value_from_str kv.2) "{key} has an invalid header value"%string;
  Ok (<[name := value]> h).

Definition version_headers : HeaderMap :=
  {[ to_ascii_lowercase HEADER_VERSION_KEY := bytes_of_string COMMIT_BOOST_VERSION ]}.

(** [RelayClient::new] *)
Definition relay_client_new (config : RelayConfig) : Result string RelayClient :=
  hs ← match headers config with
       | Some custom_headers =>
           try_fold insert_custom_header version_headers (hash_iter custom_headers)
       | None => Ok version_headers
       end;
  _ ← client_build hs DEFAULT_REQUEST_TIMEOUT_SECS;
  Ok {| rl_id := relay_config_id config;
        rl_client := {| default_headers := hs;
                        client_timeout_secs := DEFAULT_REQUEST_TIMEOUT_SECS |};
        rl_config := config |}.

(** [BuilderApiVersion::path] and its [Display] *)
Definition api_version_path (v : BuilderApiVersion) : string :=
  match v with V1 => BUILDER_V1_API_PATH | V2 => BUILDER_V2_API_PATH end.
Definition api_version_display (v : BuilderApiVersion) : string :=
  match v with V1 => "v1" | V2 => "v2" end.

Definition get_url (r : RelayClient) (path : string) : Result PbsError Url :=
  url ← map_err UrlParsing (url_join (relay_url r) path);
  Ok match get_params (rl_config r) with
     | Some params =>
         fold_left (λ url kv, url_append_pair url kv.1 kv.2) (hash_iter params) url
     | None => url
     end.

Definition builder_api_url (r : RelayClient) (path : string) (v : BuilderApiVersion)
    : Result PbsError Url :=
  get_url r (api_version_path v +:+ path).

Definition get_header_url (r : RelayClient) (slot : Z) (parent_hash : B256)
    (validator_pubkey : BlsPublicKey) : Result PbsError Url :=
  builder_api_url r
    ("/header/" +:+ pretty slot +:+ "/" +:+ hex_encode_prefixed parent_hash +:+ "/"
     +:+ hex_encode_prefixed validator_pubkey) V1.
Definition get_status_url (r : RelayClient) : Result PbsError Url :=
  builder_api_url r GET_STATUS_PATH V1.
Definition register_validator_url (r : RelayClient) : Result PbsError Url :=
  builder_api_url r REGISTER_VALIDATOR_PATH V1.
Definition submit_block_url (r : RelayClient) (v : BuilderApiVersion) : Result PbsError Url :=
  builder_api_url r SUBMIT_BLOCK_PATH v.

(** ** User agent ([utils.rs]) *)

Definition get_user_agent (req_headers : HeaderMap) : string :=
  default "" (req_headers !! USER_AGENT ≫= header_value_to_str).
Definition get_user_agent_with_version (req_headers : HeaderMap)
    : Result string HeaderValue :=
  let ua := get_user_agent req_headers in
  ok_or (header_value_from_str ("commit-boost/" +:+ COMMIT_BOOST_VERSION +:+ " " +:+ ua))
    "invalid header value"%string.
End RelayOps.

(** ** Lemmas *)

Section RelayLemmas.
Context {HL : HeaderLib} {HC : HeaderCorrect} {HO : HashOrder string}.

Lemma user_agent_is_visible h : forallb visible_ascii (bytes_of_string (get_user_agent h)) = true.
Proof.
  unfold get_user_agent. destruct (h !! USER_AGENT) as [v|]; simpl; [|done].
  destruct (header_value_to_str v) as [s|] eqn:E; simpl; [|done].
  by apply header_text_visible in E as [_ E].
Qed.

(** The user agent sent to relays can always be built. *)
Lemma user_agent_with_version_ok h : ∃ v, get_user_agent_with_version h = Ok v.
Proof.
  unfold get_user_agent_with_version. eexists. rewrite header_value_visible; [done|].
  by rewrite !bytes_of_string_app, !forallb_app, version_visible, user_agent_is_visible.
Qed.

(** What the loop over the custom headers leaves in the map. *)
Lemma insert_custom_headers_lookup l h h' n :
  try_fold insert_custom_header h l = Ok h' →
  (n ∉ (to_ascii_lowercase ∘ fst) <$> l → h' !! n = h !! n) ∧
  (∀ kv, kv ∈ l → to_ascii_lowercase kv.1 = n →
     (∀ kv', kv' ∈ l → to_ascii_lowercase kv'.1 = n → kv' = kv) →
     h' !! n = Some (bytes_of_string kv.2)).
Proof.
  revert h. induction l as [|[k v] l IH]; intros h H; simpl in H.
  { injection H as <-. set_solver. }
  apply result_bind_ok in H as (h1 & Hh1 & H).
  unfold insert_custom_header in Hh1. simpl in Hh1. inv_ok.
  match goal with H : header_name_from_str _ = Some _ |- _ => apply header_name_lower in H as -> end.
  match goal with H : header_value_from_str _ = Some _ |- _ => apply header_value_bytes in H as -> end.
  destruct (IH _ H) as [IH1 IH2]. split.
  - intros Hn. apply not_elem_of_cons in Hn as [Hne Hn].
    rewrite IH1 by done. by apply lookup_insert_ne.
  - intros kv Hkv Hlow Huniq.
    destruct (decide (n ∈ (to_ascii_lowercase ∘ fst) <$> l)) as [Hin|Hout].
    + apply list_elem_of_fmap in Hin as (kv' & Hn & Hin). simpl in Hn.
      assert (kv' = kv) as -> by (apply Huniq; [by right|done]).
      apply IH2; [done|done|]. intros kv' ? ?. apply Huniq; [by right|done].
    + apply elem_of_cons in Hkv as [->|Hkv].
      * rewrite IH1 by done. simpl in *. subst. by rewrite lookup_insert_eq.
      * exfalso. apply Hout. apply list_elem_of_fmap. by exists kv.
Qed.

(** Headers of a relay client.  A client that was built sends every configured
    header whose name is configured once up to letter case, with the configured value;
    it sends the version header with this build's version unless the configuration
    overrides that very header; and it keeps the relay's configuration and identifier. *)
Theorem relay_client_headers (config : RelayConfig) (r : RelayClient) :
  relay_client_new config = Ok r →
  rl_config r = config ∧
  rl_id r = default (re_id (entry config)) (rc_id config) ∧
  (∀ k v, default ∅ (headers config) !! k = Some v →
     (∀ k' v', default ∅ (headers config) !! k' = Some v' →
        to_ascii_lowercase k' = to_ascii_lowercase k → k' = k) →
     default_headers (rl_client r) !! to_ascii_lowercase k = Some (bytes_of_string v)) ∧
  ((∀ k v, default ∅ (headers config) !! k = Some v →
      to_ascii_lowercase k ≠ to_ascii_lowercase HEADER_VERSION_KEY) →
   default_headers (rl_client r) !! to_ascii_lowercase HEADER_VERSION_KEY
   = Some (bytes_of_string COMMIT_BOOST_VERSION)).
Proof.
  intros H. unfold relay_client_new in H. apply result_bind_ok in H as (hs & H & Hr).
  inv_ok. split; [done|]. split; [done|].
  destruct (headers config) as [custom|]; simpl in *; inv_ok; [split|].
  - intros k v Hk Huniq.
    eapply (insert_custom_headers_lookup _ _ _ (to_ascii_lowercase k)) in H as [_ H].
    apply (H (k, v)); [by apply hash_iter_elem|done|].
    intros [k' v'] Hin%hash_iter_elem Hlow. simpl in Hlow.
    assert (k' = k) as -> by (by eapply Huniq). by simplify_eq.
  - intros Hno.
    eapply (insert_custom_headers_lookup _ _ _ (to_ascii_lowercase HEADER_VERSION_KEY))
      in H as [H _].
    rewrite H; [apply lookup_singleton_eq|].
    intros ([k v] & Hlow & Hin%hash_iter_elem)%list_elem_of_fmap. by eapply Hno.
  - split; [intros k v Hk; by rewrite lookup_empty in Hk|].
    intros _. apply lookup_singleton_eq.
Qed.
End RelayLemmas.

(** A concrete instance: any non-empty name is accepted, the client always builds. *)
Definition plain_headers : HeaderLib := {|
  COMMIT_BOOST_VERSION := "0.8.0";
  header_name_from_str k := if String.eqb k "" then None else Some (to_ascii_lowercase k);
  header_value_from_str s :=
    if forallb visible_ascii (bytes_of_string s) then Some (bytes_of_string s) else None;
  header_value_to_str v := if forallb visible_ascii v then Some (string_of_bytes v) else None;
  client_build _ _ := Ok ();
|}.
Lemma plain_headers_correct : HeaderCorrect (HL := plain_headers).
Proof.
  split; simpl.
  - intros k n. by destruct (String.eqb k ""); intros [= <-].
  - intros s v. by destruct (forallb _ _); intros [= <-].
  - by intros s ->.
  - intros v s. destruct (forallb visible_ascii v) eqn:E; intros [= <-].
    by rewrite bytes_of_string_of_bytes.
  - reflexivity.
Qed.

(** ** Numbers that are printed parse back *)

Lemma digit_pretty (x : N) : (x < 10)%N → digit_of_byte (Ascii.byte_of_ascii (pretty_N_char x)) = Some (Z.of_N x).
Proof. intros H. assert (x = 0 ∨ x = 1 ∨ x = 2 ∨ x = 3 ∨ x = 4 ∨ x = 5 ∨ x = 6 ∨ x = 7 ∨ x = 8 ∨ x = 9)%N by lia. naive_solver. Qed.
Lemma parse_pretty_go (x : N) s : Z.of_N x < u64_bound →
  parse_digits 0 (bytes_of_string (pretty_N_go x s)) = parse_digits (Z.of_N x) (bytes_of_string s).
Proof.
  revert s. induction (N.lt_wf_0 x) as [x _ IH]. intros s Hx.
  destruct (decide (x = 0)%N) as [->|Hne]; [done|]. rewrite pretty_N_go_step by lia.
  assert (x = 10 * (x `div` 10) + x `mod` 10 ∧ x `mod` 10 < 10)%N as [Hdiv Hmod]
    by (split; [apply N.div_mod|apply N.mod_lt]; done).
  set (q := (x `div` 10)%N) in *. set (r := (x `mod` 10)%N) in *.
  assert (q < x)%N by lia. assert (Z.of_N q < u64_bound) by lia. rewrite IH by done. 
  change (bytes_of_string (String (pretty_N_char r) s)) with (Ascii.byte_of_ascii (pretty_N_char r) :: bytes_of_string s).
  cbn [parse_digits].
  rewrite digit_pretty by lia. simpl.
  replace (10 * Z.of_N q + Z.of_N r) with (Z.of_N x) by lia.
  by rewrite (proj2 (Z.ltb_lt _ _) Hx).
Qed.
Lemma parse_digits_usize s n : s ≠ ""%string → parse_digits 0 (bytes_of_string s) = Some n → parse_usize s = Some n.
Proof.
  intros Hs H. unfold parse_usize. destruct (bytes_of_string s) as [|b l] eqn:E.
  - destruct Hs. by rewrite <- (string_of_bytes_of_string s), E.
  - destruct b; try exact H. discriminate H.
Qed.
Lemma parse_usize_pretty (n : Z) : is_u64 n → parse_usize (pretty n) = Some n.
Proof.
  intros [Hlo Hhi].
  assert (pretty n = pretty (Z.to_N n)) as -> by (destruct n; [done|done|lia]).
  replace n with (Z.of_N (Z.to_N n)) in Hhi |- * at 2 by lia. generalize dependent (Z.to_N n). intros x Hx.
  assert (pretty x ≠ ""%string ∧ parse_digits 0 (bytes_of_string (pretty x)) = Some (Z.of_N x)) as [].
  2: by apply parse_digits_usize.
  unfold pretty, pretty_N. case_decide as H0; [subst; split; done|]. rewrite parse_pretty_go by done. split; [|done].
  intros Heq. pose proof (parse_pretty_go x "" Hx) as H. rewrite Heq in H. simpl in H. injection H. lia.
Qed.


(** a url library for the witnesses: joining replaces nothing, it concatenates *)
Definition plain_urls : UrlLib := {|
  url_parse s := Ok s; url_join u p := Ok (u +:+ p);
  url_append_pair u k v := u +:+ "&" +:+ k +:+ "=" +:+ v;
  url_host _ := None; url_username _ := ""%string;
|}.

Definition sample_relay_config : RelayConfig := {|
  rc_id := Some "relay-a"%string;
  entry := {| re_id := "abc.xyz"; re_pubkey := byte_array 48 x01; re_url := "http://abc.xyz/" |};
  headers := Some {[ "X-Api-Key"%string := "secret"%string ]};
  get_params := None; enable_timing_games := false; target_first_request_ms := None;
  frequency_get_header_ms := None; validator_registration_batch_size := Some 3;
|}.
Definition sample_relay : RelayClient := {|
  rl_id := "relay-a";
  rl_client := {| default_headers :=
                    <["x-api-key"%string := bytes_of_string "secret"]>
                      {[ "x-commitboost-version"%string := bytes_of_string "0.8.0" ]};
                  client_timeout_secs := 10 |};
  rl_config := sample_relay_config;
|}.

Lemma relay_client_headers_witness :
  relay_client_new (HL := plain_headers) sample_relay_config = Ok sample_relay ∧
  rl_id sample_relay = "relay-a"%string.
Proof.
  split; [vm_compute; reflexivity|].
  apply (relay_client_headers (HL := plain_headers) (HC := plain_headers_correct)
           sample_relay_config sample_relay).
  vm_compute; reflexivity.
Defined.

(** The loader of the batch size: an empty string means no limit. *)
Example batch_size_texts :
  empty_string_as_none (HelperStr "") = Ok None ∧
  empty_string_as_none (HelperStr "250") = Ok (Some 250) ∧
  empty_string_as_none (HelperStr "18446744073709551615") = Ok (Some (2 ^ 64 - 1)) ∧
  is_ok (empty_string_as_none (HelperStr "18446744073709551616")) = false ∧
  is_ok (empty_string_as_none (HelperStr "12a")) = false.
Proof. repeat split. Qed.
