(* ===== verification/Commit.v ===== *)
(** * The commit API: requests and delegations

    Models [crates/common/src/commit] ([request.rs], [error.rs] and [constants.rs]),
    [decode_string_to_map] of [config/utils.rs] and the format of the secrets that the
    docker set-up writes.  [T: ProxyId]
    is one of two types, a BLS public key or an address, so a delegation is indexed by
    its [EncryptionScheme]. *)

From S2P Require Import Prelude Bytes Text Jwt Chain Signature PbsTypes Http Relay.

(** ** Requests *)

Definition GET_PUBKEYS_PATH : string := "/signer/v1/get_pubkeys".
Definition REQUEST_SIGNATURE_PATH : string := "/signer/v1/request_signature".
Definition GENERATE_PROXY_KEY_PATH : string := "/signer/v1/generate_proxy_key".
Definition STATUS_PATH : string := "/status".
Definition SIGNER_RELOAD_PATH : string := "/reload".
Definition REVOKE_MODULE_PATH : string := "/revoke_jwt".

Inductive EncryptionScheme : Type := Bls | Ecdsa.
#[export] Instance EncryptionScheme_eq_dec : EqDecision EncryptionScheme.
Proof. solve_decision. Defined.

(** [impl Display] and [impl FromStr] *)
Definition scheme_display (s : EncryptionScheme) : string :=
  match s with Bls => "bls" | Ecdsa => "ecdsa" end.
Definition scheme_from_str (s : string) : Result string EncryptionScheme :=
  if String.eqb s "bls" then Ok Bls
  else if String.eqb s "ecdsa" then Ok Ecdsa
  else Err ("Unknown scheme: " +:+ s).

Record ProxyDelegation (S : EncryptionScheme) := { delegator : BlsPublicKey; proxy : bytes }.
Arguments delegator {S} _.
Arguments proxy {S} _.
Record SignedProxyDelegation (S : EncryptionScheme) := {
  spd_message : ProxyDelegation S; spd_signature : BlsSignature;
}.
Arguments spd_message {S} _.
Arguments spd_signature {S} _.

Record SignConsensusRequest := { scr_pubkey : BlsPublicKey; scr_object_root : B256 }.
Record SignProxyRequest (S : EncryptionScheme) := { spr_proxy : bytes; spr_object_root : B256 }.
Arguments spr_proxy {S} _.
Arguments spr_object_root {S} _.

Inductive SignRequest : Type :=
| Consensus (r : SignConsensusRequest)
| ProxyBls (r : SignProxyRequest Bls)
| ProxyEcdsa (r : SignProxyRequest Ecdsa).

Record GenerateProxyRequest := { consensus_pubkey : BlsPublicKey; scheme : EncryptionScheme }.
Record ReloadRequest := {
  rr_jwt_secrets : option (gmap string string); rr_admin_secret : option string;
}.
Record RevokeModuleRequest := { rv_module_id : ModuleId }.
Record ConsensusProxyMap := {
  cpm_consensus : BlsPublicKey; proxy_bls : list BlsPublicKey; proxy_ecdsa : list Address;
}.
Record GetPubkeysResponse := { gp_keys : list ConsensusProxyMap }.

(** an address is displayed with the checksum of EIP-55 in the case of its digits *)
Class AddressText := { address_display : Address → string }.
(** the [Display] of a key of a scheme *)
Definition proxy_display {AT : AddressText} (S : EncryptionScheme) (p : bytes) : string :=
  match S with Bls => hex_encode_prefixed p | Ecdsa => address_display p end.
(** the [Display]s of delegations and of [SignRequest] *)
Definition delegation_display {AT : AddressText} {S} (d : ProxyDelegation S) : string :=
  "Delegator: " +:+ hex_encode_prefixed (delegator d) +:+ string_of_bytes [x0a]
    +:+ "Proxy: " +:+ proxy_display S (proxy d).
Definition signed_delegation_display {AT : AddressText} {S} (d : SignedProxyDelegation S) : string :=
  delegation_display (spd_message d) +:+ string_of_bytes [x0a]
    +:+ "Signature: " +:+ hex_encode_prefixed (spd_signature d).
Definition sign_request_display {AT : AddressText} (r : SignRequest) : string :=
  match r with
  | Consensus req =>
      "Consensus(pubkey: " +:+ hex_encode_prefixed (scr_pubkey req) +:+ ", object_root: "
        +:+ hex_encode_prefixed (scr_object_root req) +:+ ")"
  | ProxyBls req =>
      "BLS(proxy: " +:+ proxy_display Bls (spr_proxy req) +:+ ", object_root: "
        +:+ hex_encode_prefixed (spr_object_root req) +:+ ")"
  | ProxyEcdsa req =>
      "ECDSA(proxy: " +:+ proxy_display Ecdsa (spr_proxy req) +:+ ", object_root: "
        +:+ hex_encode_prefixed (spr_object_root req) +:+ ")"
  end.

(** the request builders *)
Definition sign_consensus_new (pubkey : BlsPublicKey) (object_root : B256) : SignConsensusRequest :=
  {| scr_pubkey := pubkey; scr_object_root := object_root |}.
Definition sign_consensus_builder (pubkey : BlsPublicKey) : SignConsensusRequest :=
  sign_consensus_new pubkey B256_ZERO.
Definition consensus_with_root (r : SignConsensusRequest) (root : B256) : SignConsensusRequest :=
  {| scr_pubkey := scr_pubkey r; scr_object_root := root |}.
Definition consensus_with_msg {T} `{TreeHash T} (r : SignConsensusRequest) (msg : T) : SignConsensusRequest :=
  consensus_with_root r (tree_hash_root msg).
Definition sign_proxy_new (S : EncryptionScheme) (proxy : bytes) (object_root : B256) : SignProxyRequest S :=
  {| spr_proxy := proxy; spr_object_root := object_root |}.
Definition sign_proxy_builder (S : EncryptionScheme) (proxy : bytes) : SignProxyRequest S :=
  sign_proxy_new S proxy B256_ZERO.
Definition proxy_with_root {S} (r : SignProxyRequest S) (root : B256) : SignProxyRequest S :=
  {| spr_proxy := spr_proxy r; spr_object_root := root |}.
Definition proxy_with_msg {S T} `{TreeHash T} (r : SignProxyRequest S) (msg : T) : SignProxyRequest S :=
  proxy_with_root r (tree_hash_root msg).
Definition generate_proxy_request_new (pk : BlsPublicKey) (s : EncryptionScheme)
    : GenerateProxyRequest := {| consensus_pubkey := pk; scheme := s |}.
Definition consensus_proxy_map_new (pk : BlsPublicKey) : ConsensusProxyMap :=
  {| cpm_consensus := pk; proxy_bls := []; proxy_ecdsa := [] |}.

(** ** Delegations *)

Section Delegation.
Context {TH : TreeHashLib} {BL : BlsLib}.

(** the SSZ root of a 48-byte key (two leaves) and of an address (one leaf) *)
Definition bls_pubkey_root (pk : BlsPublicKey) : B256 :=
  hash_nodes (take 32 pk) (pad32 (drop 32 pk)).
Definition address_root (a : Address) : B256 := pad32 a.
Definition proxy_root (S : EncryptionScheme) (p : bytes) : B256 :=
  match S with Bls => bls_pubkey_root p | Ecdsa => address_root p end.

(** [derive(TreeHash)] *)
#[export] Instance delegation_tree_hash S : TreeHash (ProxyDelegation S) :=
  λ d, hash_nodes (bls_pubkey_root (delegator d)) (proxy_root S (proxy d)).

(** [SignedProxyDelegation::validate] *)
Definition delegation_validate {S} (d : SignedProxyDelegation S) (c : Chain)
    : Result BlstErrorWrapper () :=
  verify_signed_message c (delegator (spd_message d)) (spd_message d) (spd_signature d)
    None COMMIT_BOOST_DOMAIN.
End Delegation.

(** ** [decode_string_to_map] and its inverse *)

(** one [key=value] pair; anything after a second [=] is dropped *)
Definition decode_pair (pair : bytes) : Result string (string * string) :=
  match split_bytes x3d (trim_bytes pair) with
  | key :: value :: _ => Ok (string_of_bytes key, string_of_bytes value)
  | _ => Err ("Invalid key-value pair: " +:+ string_of_bytes pair)
  end.
Definition decode_string_to_map (raw : string) : Result string (gmap string string) :=
  pairs ← try_map decode_pair (split_bytes x2c (trim_bytes (bytes_of_string raw)));
  Ok (fold_left (λ m kv, <[kv.1 := kv.2]> m) pairs ∅).

(** [deserialize_jwt_secrets] *)
Definition deserialize_jwt_secrets (raw : string) : Result string (option (gmap string string)) :=
  match decode_string_to_map raw with
  | Ok m => Ok (Some m)
  | Err _ => Err "Invalid format"%string
  end.

(** [format_comma_separated] of [crates/cli/src/docker_init.rs], on the entries of the
    [IndexMap] in insertion order *)
Definition format_comma_separated (l : list (string * string)) : string :=
  join x2c ((λ kv, kv.1 +:+ "=" +:+ kv.2) <$> l).

(** an id and a secret that the text format can carry *)
Definition plain_entry (kv : string * string) : Prop :=
  let k := bytes_of_string kv.1 in
  let v := bytes_of_string kv.2 in
  x2c ∉ k ∧ x3d ∉ k ∧ x2c ∉ v ∧ x3d ∉ v ∧
  strip_one white_space k = None ∧ strip_one (reverse <$> white_space) (rev v) = None.

Lemma entry_bytes (kv : string * string) :
  bytes_of_string (kv.1 +:+ "=" +:+ kv.2)
  = bytes_of_string kv.1 ++ x3d :: bytes_of_string kv.2.
Proof. by rewrite !bytes_of_string_app. Qed.

Lemma white_space_no_rev b p : b ∈ [x2c; x3d] → p ∈ reverse <$> white_space → b ∉ p.
Proof.
  intros Hb (q & -> & Hq)%list_elem_of_fmap. rewrite elem_of_reverse. by apply white_space_no.
Qed.

Lemma entry_trimmed kv tail : plain_entry kv →
  strip_one white_space (bytes_of_string (kv.1 +:+ "=" +:+ kv.2) ++ tail) = None ∧
  strip_one (reverse <$> white_space) (rev (tail ++ bytes_of_string (kv.1 +:+ "=" +:+ kv.2))) = None.
Proof.
  intros (_ & _ & _ & _ & Hk & Hv). rewrite entry_bytes. split.
  - rewrite <- app_assoc. simpl. apply strip_one_app; [|done].
    intros p. apply white_space_no. set_solver.
  - rewrite rev_app_distr, rev_app_distr. simpl. rewrite <- !app_assoc. simpl.
    apply strip_one_app; [|done]. intros p. apply white_space_no_rev. set_solver.
Qed.

Lemma decode_pair_entry kv :
  plain_entry kv → decode_pair (bytes_of_string (kv.1 +:+ "=" +:+ kv.2)) = Ok kv.
Proof.
  intros H. unfold decode_pair.
  destruct (entry_trimmed kv [] H) as [H1 H2]. rewrite app_nil_r in H1.
  rewrite trim_bytes_trimmed by done. rewrite entry_bytes.
  destruct H as (_ & Hk & _ & Hv & _). rewrite split_bytes_cons by done.
  rewrite split_bytes_no_sep by done. by rewrite !string_of_bytes_of_string, <- surjective_pairing.
Qed.

Lemma join_entries_trimmed l :
  l ≠ [] → Forall plain_entry l →
  trimmed (join_bytes x2c (bytes_of_string <$> ((λ kv, kv.1 +:+ "=" +:+ kv.2) <$> l))).
Proof.
  intros Hne Hall. split.
  - destruct Hall as [|kv l Hkv Hall]; [done|]. simpl. destruct l as [|kv' l]; simpl.
    + destruct (entry_trimmed kv [] Hkv) as [H _]. by rewrite app_nil_r in H.
    + by apply entry_trimmed.
  - assert (∃ tail kv, plain_entry kv ∧
      join_bytes x2c (bytes_of_string <$> ((λ kv, kv.1 +:+ "=" +:+ kv.2) <$> l))
      = tail ++ bytes_of_string (kv.1 +:+ "=" +:+ kv.2)) as (tail & kv & Hkv & ->).
    { induction Hall as [|kv l Hkv Hall IH]; [done|]. destruct l as [|kv' l].
      - by exists [], kv.
      - destruct IH as (tail & kv'' & ? & Heq); [done|].
        exists (bytes_of_string (kv.1 +:+ "=" +:+ kv.2) ++ x2c :: tail), kv''. split; [done|].
        rewrite <- app_assoc. simpl in *. by rewrite Heq. }
    by apply entry_trimmed.
Qed.

(** The secrets survive the environment variable.  Module ids and secrets without
    commas, equals signs and white space at the outer ends are written into [CB_JWTS] by
    the docker setup and read back by the signer as the same map. *)
Theorem jwt_secrets_roundtrip (l : list (string * string)) :
  l ≠ [] → NoDup l.*1 → Forall plain_entry l →
  decode_string_to_map (format_comma_separated l) = Ok (list_to_map l).
Proof.
  intros Hne Hnd Hall. unfold decode_string_to_map, format_comma_separated, join.
  rewrite bytes_of_string_of_bytes, trim_bytes_trimmed by (by apply join_entries_trimmed).
  rewrite split_join_bytes.
  - assert (try_map decode_pair
      (bytes_of_string <$> ((λ kv, kv.1 +:+ "=" +:+ kv.2) <$> l)) = Ok l) as ->.
    { apply try_map_ok. clear Hne Hnd.
      induction Hall; constructor; auto using decode_pair_entry. }
    simpl. f_equal.
    assert (∀ m : gmap string string, (∀ k, k ∈ l.*1 → m !! k = None) →
      fold_left (λ m kv, <[kv.1 := kv.2]> m) l m = list_to_map l ∪ m) as Hfold.
    { clear Hne Hall. induction l as [|[k v] l IH]; intros m Hm; simpl.
      - by rewrite left_id_L by apply _.
      - simpl in *. apply NoDup_cons in Hnd as [Hk Hnd].
        rewrite IH; [|done|].
        + rewrite <- insert_union_r by (by apply not_elem_of_list_to_map_1).
          by rewrite insert_union_l.
        + intros k' Hk'. rewrite lookup_insert_ne by set_solver. apply Hm. by right. }
    rewrite Hfold by (intros; apply lookup_empty). by rewrite right_id_L by apply _.
  - by destruct l.
  - apply Forall_fmap, Forall_fmap. eapply Forall_impl; [done|].
    intros kv (Hk & _ & Hv & _). simpl. rewrite entry_bytes.
    rewrite elem_of_app, elem_of_cons. naive_solver.
Qed.

Lemma jwt_secrets_roundtrip_witness :
  decode_string_to_map "DA_COMMIT=s3cret,ORACLE=0therSecret"
  = Ok {[ "DA_COMMIT"%string := "s3cret"%string; "ORACLE"%string := "0therSecret"%string ]}.
Proof.
  apply (jwt_secrets_roundtrip [("DA_COMMIT", "s3cret"); ("ORACLE", "0therSecret")]%string).
  - discriminate.
  - apply (bool_decide_unpack _). vm_compute. exact I.
  - repeat constructor; try (apply (bool_decide_unpack _); vm_compute; exact I).
Defined.
