(* ===== verification/CommitJson.v ===== *)
(** * The commit API on the wire

    The JSON of the requests and answers of the signing service
    ([crates/common/src/commit/request.rs], and [EcdsaSignature] of
    [signer/schemes/ecdsa.rs]), over the combinators of [Serde]: [SignRequest] is tagged by
    its field [type], [EncryptionScheme] is a name, and [ReloadRequest] reads its secrets
    with [deserialize_jwt_secrets].

    All of them are lawful but the last, which is written as an object or [null] where a
    string is expected: [reload_never_read_back]. *)

From S2P Require Import Prelude Bytes Text Serde PlainSerde Jwt Chain Signature PbsTypes PbsJson Commit.

(** [derive(Serialize, Deserialize)] with its two renamed variants *)
Definition scheme_wire : Wire EncryptionScheme := {|
  to_json s := JString (match s with Bls => "bls" | Ecdsa => "ecdsa" end);
  from_json := de_external [("bls"%string, λ v, _ ← unit_variant v; Ok Bls);
                            ("ecdsa"%string, λ v, _ ← unit_variant v; Ok Ecdsa)];
  wf _ := True;
  typed _ := True;
|}.
#[export] Instance scheme_lawful : Lawful scheme_wire.
Proof.
  apply reads_lawful; [by intros []|by intros []|]. apply de_external_reads.
  each_variant ltac:(by apply reads_unit).
Qed.

(** the text of a signature of [alloy]: [to_string] and [from_str] *)
Class EcdsaText {EC : EcdsaLib} := {
  ecdsa_display : EcdsaSignature → string;
  ecdsa_from_str : string → Result string EcdsaSignature;
}.
Class EcdsaTextCorrect {EC : EcdsaLib} {ET : EcdsaText} : Prop :=
  ecdsa_from_display : ∀ s, ecdsa_from_str (ecdsa_display s) = Ok s.
(** [impl Serialize] and [impl Deserialize for EcdsaSignature] *)
Definition ecdsa_signature_wire {EC : EcdsaLib} {ET : EcdsaText} : Wire EcdsaSignature := {|
  to_json s := JString (ecdsa_display s);
  from_json j := s ← from_json text j; map_err CustomError (ecdsa_from_str s);
  wf _ := True;
  typed _ := True;
|}.
#[export] Instance ecdsa_signature_lawful {EC : EcdsaLib} {ET : EcdsaText} {EX : EcdsaTextCorrect} :
  Lawful ecdsa_signature_wire.
Proof.
  split; cbn [to_json from_json wf typed ecdsa_signature_wire]; [|done|done|].
  - intros s _. simpl. by rewrite ecdsa_from_display.
  - intros j j' s. apply (scalar_order (from_json ecdsa_signature_wire)). by intros [].
Qed.

Section CommitJson.
Context {SL : SerdeLib} {SC : SerdeCorrect}.

Definition proxy_size (S : EncryptionScheme) : nat := match S with Bls => 48 | Ecdsa => 20 end.
Definition proxy_wire (S : EncryptionScheme) : Wire bytes := bytesN (proxy_size S).

(** ** Delegations *)

Definition delegation_wire S : Wire (ProxyDelegation S) :=
  struct false [field "delegator" (bytesN 48); field "proxy" (proxy_wire S)]
    (λ d, (delegator d, (proxy d, tt)))
    (λ t, let '(v1, (v2, _)) := t in {| delegator := v1; proxy := v2 |}).
#[export] Instance delegation_lawful S : Lawful (delegation_wire S).
Proof. derive_lawful. Qed.
Definition signed_delegation_wire S : Wire (SignedProxyDelegation S) :=
  struct false [field "message" (delegation_wire S); field "signature" (bytesN 96)]
    (λ d, (spd_message d, (spd_signature d, tt)))
    (λ t, let '(v1, (v2, _)) := t in {| spd_message := v1; spd_signature := v2 |}).
#[export] Instance signed_delegation_lawful S : Lawful (signed_delegation_wire S).
Proof. derive_lawful. Qed.

(** ** Requests *)

Definition sign_consensus_wire : Wire SignConsensusRequest :=
  struct false [field "pubkey" (bytesN 48); field "object_root" (bytesN 32)]
    (λ r, (scr_pubkey r, (scr_object_root r, tt)))
    (λ t, let '(v1, (v2, _)) := t in {| scr_pubkey := v1; scr_object_root := v2 |}).
#[export] Instance sign_consensus_lawful : Lawful sign_consensus_wire.
Proof. derive_lawful. Qed.
Definition sign_proxy_wire S : Wire (SignProxyRequest S) :=
  struct false [field "proxy" (proxy_wire S); field "object_root" (bytesN 32)]
    (λ r, (spr_proxy r, (spr_object_root r, tt)))
    (λ t, let '(v1, (v2, _)) := t in {| spr_proxy := v1; spr_object_root := v2 |}).
#[export] Instance sign_proxy_lawful S : Lawful (sign_proxy_wire S).
Proof. derive_lawful. Qed.

(** [#[serde(tag = "type", rename_all = "snake_case")]] *)
Definition sign_request_wire : Wire SignRequest := {|
  to_json r :=
    match r with
    | Consensus r => tag_fields "type" "consensus" (to_json sign_consensus_wire r)
    | ProxyBls r => tag_fields "type" "proxy_bls" (to_json (sign_proxy_wire Bls) r)
    | ProxyEcdsa r => tag_fields "type" "proxy_ecdsa" (to_json (sign_proxy_wire Ecdsa) r)
    end;
  from_json := de_internal "type"
    [("consensus"%string, λ j, Consensus <$> from_json sign_consensus_wire j);
     ("proxy_bls"%string, λ j, ProxyBls <$> from_json (sign_proxy_wire Bls) j);
     ("proxy_ecdsa"%string, λ j, ProxyEcdsa <$> from_json (sign_proxy_wire Ecdsa) j)];
  wf r :=
    match r with
    | Consensus r => wf sign_consensus_wire r
    | ProxyBls r => wf (sign_proxy_wire Bls) r
    | ProxyEcdsa r => wf (sign_proxy_wire Ecdsa) r
    end;
  typed r :=
    match r with
    | Consensus r => typed sign_consensus_wire r
    | ProxyBls r => typed (sign_proxy_wire Bls) r
    | ProxyEcdsa r => typed (sign_proxy_wire Ecdsa) r
    end;
|}.
Lemma tagged_document t name {R} deny fs (get : R → tuple fs) mk r :
  document (to_json (struct deny fs get mk) r) = true →
  document (tag_fields t name (to_json (struct deny fs get mk) r)) = true.
Proof. done. Qed.
#[export] Instance sign_request_lawful : Lawful sign_request_wire.
Proof.
  apply reads_lawful.
  - intros [r|r|r] Hr; rewrite de_internal_tagged by (apply (bool_decide_unpack _); reflexivity);
      cbn [read_variant String.eqb Ascii.eqb Bool.eqb]; by rewrite wire_roundtrip.
  - intros [r|r|r] Hr; apply tagged_document; by apply wire_document.
  - apply de_internal_reads. each_variant ltac:(by apply (reads_map _ _ _ _)).
Qed.

Definition generate_proxy_wire : Wire GenerateProxyRequest :=
  struct false [field "pubkey" (bytesN 48); field "scheme" scheme_wire]
    (λ r, (consensus_pubkey r, (scheme r, tt)))
    (λ t, let '(v1, (v2, _)) := t in {| consensus_pubkey := v1; scheme := v2 |}).
#[export] Instance generate_proxy_lawful : Lawful generate_proxy_wire.
Proof. derive_lawful. Qed.
Definition revoke_module_wire : Wire RevokeModuleRequest :=
  struct false [field "module_id" text] (λ r, (rv_module_id r, tt))
    (λ t, let '(v1, _) := t in {| rv_module_id := v1 |}).
#[export] Instance revoke_module_lawful : Lawful revoke_module_wire.
Proof. derive_lawful. Qed.

(** ** Answers *)

Definition consensus_proxy_map_wire : Wire ConsensusProxyMap :=
  struct false
    [field "consensus" (bytesN 48); field "proxy_bls" (vec (bytesN 48)); field "proxy_ecdsa" (vec (bytesN 20))]
    (λ m, (cpm_consensus m, (proxy_bls m, (proxy_ecdsa m, tt))))
    (λ t, let '(v1, (v2, (v3, _))) := t in {| cpm_consensus := v1; proxy_bls := v2; proxy_ecdsa := v3 |}).
#[export] Instance consensus_proxy_map_lawful : Lawful consensus_proxy_map_wire.
Proof. derive_lawful. Qed.
Definition get_pubkeys_wire : Wire GetPubkeysResponse :=
  struct false [field "keys" (vec consensus_proxy_map_wire)] (λ r, (gp_keys r, tt))
    (λ t, let '(v1, _) := t in {| gp_keys := v1 |}).
#[export] Instance get_pubkeys_lawful : Lawful get_pubkeys_wire.
Proof. derive_lawful. Qed.

(** ** Reloads *)

(** the field [jwt_secrets]: a map when it is written, a string when it is read *)
Context {HO : HashOrder string}.
Definition jwt_secrets_wire : Wire (option (gmap string string)) := {|
  to_json o :=
    match o with
    | Some m => JObject ((λ kv, (kv.1, JString kv.2)) <$> hash_iter m)
    | None => JNull
    end;
  from_json j := raw ← from_json text j; map_err CustomError (deserialize_jwt_secrets raw);
  wf _ := False;
  typed _ := True;
|}.
#[export] Instance jwt_secrets_lawful : Lawful jwt_secrets_wire.
Proof. split; try done. intros j j' o. apply (scalar_order (from_json jwt_secrets_wire)). by intros []. Qed.
(** [#[serde(default)]] *)
Definition default_field {A} (name : string) (w : Wire A) (d : A) : Field :=
  {| f_name := name; f_wire := w; f_absent := Some d; f_absent_seq := Some d |}.
Definition reload_wire : Wire ReloadRequest :=
  struct false [default_field "jwt_secrets" jwt_secrets_wire None; opt_field "admin_secret" text]
    (λ r, (rr_jwt_secrets r, (rr_admin_secret r, tt)))
    (λ t, let '(v1, (v2, _)) := t in {| rr_jwt_secrets := v1; rr_admin_secret := v2 |}).

(** What is written for a reload is never read: [Serialize] writes the secrets as an object,
    or as [null] when there are none, and [Deserialize] accepts only a string. *)
Theorem reload_never_read_back (r : ReloadRequest) :
  from_json reload_wire (to_json reload_wire r) = Err InvalidType.
Proof. destruct r as [[m|] o]; reflexivity. Qed.
(** Without the field, and with the text of the documentation, a request is read *)
Lemma reload_admin_only s :
  from_json reload_wire (JObject [("admin_secret"%string, JString s)])
  = Ok {| rr_jwt_secrets := None; rr_admin_secret := Some s |}.
Proof. reflexivity. Qed.
Lemma reload_documented l :
  l ≠ [] → NoDup l.*1 → Forall plain_entry l →
  from_json reload_wire (JObject [("jwt_secrets"%string, JString (format_comma_separated l))])
  = Ok {| rr_jwt_secrets := Some (list_to_map l); rr_admin_secret := None |}.
Proof.
  intros Hne Hnd Hall. unfold reload_wire, struct. cbn. unfold deserialize_jwt_secrets.
  by rewrite jwt_secrets_roundtrip.
Qed.
End CommitJson.
