(* ===== verification/SignerClient.v ===== *)
(** * The signer client

    Models [crates/common/src/commit/client.rs]: the client a commit module uses to call
    the signer.  The client is a mutable object, so each call maps a client to the client
    it leaves behind and the result.  Two clocks are read: the monotonic [Instant] (in
    nanoseconds) and the wall clock of the token library (in seconds). *)

From S2P Require Import Prelude Bytes Text Jwt Signature Http Relay Commit.

Definition AUTHORIZATION : string := "authorization".
Definition NANOS_PER_SEC : Z := 1000000000.

Record SignerClient := {
  sc_url : Url;
  sc_client : Client;
  last_jwt_refresh : Z;
  sc_module_id : ModuleId;
  sc_jwt_secret : Jwt;
}.

Inductive SignerClientError : Type :=
| ScReqwestError (e : ReqwestError)
| ScInvalidHeader
| FailedRequest (status : Z) (error_msg : string)
| SerdeDecodeError (e : string)
| ScParseError (e : string)
| ScJWTError (e : string).

(** the body of a call to the signer *)
Inductive SignerBody : Type :=
| SbEmpty
| SbSign (r : SignRequest)
| SbProxy (r : GenerateProxyRequest).

(** a request as it reaches the signer: path, the client's headers, body *)
Record SignerCall := {
  sq_url : Url; sq_headers : gmap string HeaderValue; sq_body : SignerBody;
}.

(** One moment: both clocks, and the answer to a request sent then. *)
Record Moment := {
  instant_ns : Z;
  wall_sec : Z;
  answer : SignerCall → SendOutcome;
}.

(** [res.bytes().await]: the whole body, unbounded *)
Definition read_all (res : Response) : Result ReqwestError bytes :=
  cs ← try_map id (res_chunks res); Ok (concat cs).

Section SignerClientOps.
Context {UL : UrlLib} {HL : HeaderLib} {JL : JwtLib}.

(** the header map and client that [new] and [refresh_jwt] build *)
Definition client_for (jwt : Jwt) : Result string Client :=
  auth_value ← ok_or (header_value_from_str ("Bearer " +:+ jwt)) "invalid jwt"%string;
  let headers := {[ AUTHORIZATION := auth_value ]} in
  _ ← client_build headers DEFAULT_REQUEST_TIMEOUT_SECS;
  Ok {| default_headers := headers; client_timeout_secs := DEFAULT_REQUEST_TIMEOUT_SECS |}.

Definition signer_client_new (t : Moment) (url : Url) (jwt_secret : Jwt) (module_id : ModuleId)
    : Result string SignerClient :=
  jwt ← create_jwt (wall_sec t) module_id jwt_secret;
  client ← client_for jwt;
  Ok {| sc_url := url; sc_client := client; last_jwt_refresh := instant_ns t;
        sc_module_id := module_id; sc_jwt_secret := jwt_secret |}.

Definition set_client (self : SignerClient) (client : Client) : SignerClient :=
  {| sc_url := sc_url self; sc_client := client; last_jwt_refresh := last_jwt_refresh self;
     sc_module_id := sc_module_id self; sc_jwt_secret := sc_jwt_secret self |}.

(** [last_jwt_refresh] is read and never written *)
Definition refresh_jwt (t : Moment) (self : SignerClient) : Result SignerClientError SignerClient :=
  if instant_ns t - last_jwt_refresh self >? SIGNER_JWT_EXPIRATION * NANOS_PER_SEC then
    jwt ← map_err ScJWTError (create_jwt (wall_sec t) (sc_module_id self) (sc_jwt_secret self));
    client ← map_err ScJWTError (client_for jwt);
    Ok (set_client self client)
  else Ok self.

(** the call [self] sends to a path *)
Definition signer_call (self : SignerClient) (url : Url) (body : SignerBody) : SignerCall :=
  {| sq_url := url; sq_headers := default_headers (sc_client self); sq_body := body |}.

(** the part [request_signature] and [generate_proxy_key] share: send, read, check the
    status, decode *)
Definition post_and_decode {A} (t : Moment) (self : SignerClient) (path : string)
    (body : SignerBody) (parse : bytes → Result string A)
    : SignerClient * Result SignerClientError A :=
  match refresh_jwt t self with
  | Err e => (self, Err e)
  | Ok self =>
      (self,
       url ← map_err ScParseError (url_join (sc_url self) path);
       res ← map_err ScReqwestError (answer t (signer_call self url body));
       let status := res_status res in
       response_bytes ← map_err ScReqwestError (read_all res);
       if is_success status then map_err SerdeDecodeError (parse response_bytes)
       else Err (FailedRequest status (from_utf8_lossy response_bytes)))
  end.

Definition get_pubkeys (t : Moment) (parse : bytes → Result string GetPubkeysResponse)
    (self : SignerClient) : SignerClient * Result SignerClientError GetPubkeysResponse :=
  match refresh_jwt t self with
  | Err e => (self, Err e)
  | Ok self =>
      (self,
       url ← map_err ScParseError (url_join (sc_url self) GET_PUBKEYS_PATH);
       res ← map_err ScReqwestError (answer t (signer_call self url SbEmpty));
       if is_success (res_status res) then
         response_bytes ← map_err ScReqwestError (read_all res);
         map_err SerdeDecodeError (parse response_bytes)
       else
         response_bytes ← map_err ScReqwestError (read_all res);
         Err (FailedRequest (res_status res) (from_utf8_lossy response_bytes)))
  end.

Definition request_signature {A} (t : Moment) (parse : bytes → Result string A)
    (self : SignerClient) (request : SignRequest) : SignerClient * Result SignerClientError A :=
  post_and_decode t self REQUEST_SIGNATURE_PATH (SbSign request) parse.

Definition request_consensus_signature {A} (t : Moment) (parse : bytes → Result string A)
    (self : SignerClient) (request : SignConsensusRequest) :=
  request_signature t parse self (Consensus request).
Definition request_proxy_signature_bls {A} (t : Moment) (parse : bytes → Result string A)
    (self : SignerClient) (request : SignProxyRequest Bls) :=
  request_signature t parse self (ProxyBls request).
Definition request_proxy_signature_ecdsa {A} (t : Moment) (parse : bytes → Result string A)
    (self : SignerClient) (request : SignProxyRequest Ecdsa) :=
  request_signature t parse self (ProxyEcdsa request).

Definition generate_proxy_key {A} (t : Moment) (parse : bytes → Result string A)
    (self : SignerClient) (request : GenerateProxyRequest) : SignerClient * Result SignerClientError A :=
  post_and_decode t self GENERATE_PROXY_KEY_PATH (SbProxy request) parse.
Definition generate_proxy_key_bls (t : Moment)
    (parse : bytes → Result string (SignedProxyDelegation Bls)) (self : SignerClient)
    (pk : BlsPublicKey) :=
  generate_proxy_key t parse self (generate_proxy_request_new pk Bls).
Definition generate_proxy_key_ecdsa (t : Moment)
    (parse : bytes → Result string (SignedProxyDelegation Ecdsa)) (self : SignerClient)
    (pk : BlsPublicKey) :=
  generate_proxy_key t parse self (generate_proxy_request_new pk Ecdsa).

(** ** The token a call carries *)

(** the calls a module makes, one after the other *)
Inductive ClientOp : Type :=
| OpGetPubkeys | OpSign (r : SignRequest) | OpProxy (r : GenerateProxyRequest).
Definition run_op (t : Moment) (self : SignerClient) (op : ClientOp) : SignerClient :=
  match op with
  | OpGetPubkeys => (get_pubkeys t (λ _, Err ""%string) self).1
  | OpSign r => (request_signature t (λ b, Ok b) self r).1
  | OpProxy r => (generate_proxy_key t (λ b, Ok b) self r).1
  end.
Definition run_ops (self : SignerClient) (l : list (Moment * ClientOp)) : SignerClient :=
  fold_left (λ c '(t, op), run_op t c op) l self.

(** the client's header holds a token for its module created at wall time [at] *)
Definition carries_token (self : SignerClient) (at_sec : Z) : Prop :=
  ∃ jwt, create_jwt at_sec (sc_module_id self) (sc_jwt_secret self) = Ok jwt ∧
    (Ok (sc_client self) : Result string Client) = client_for jwt.

Lemma run_op_client t self op :
  run_op t self op = match refresh_jwt t self with Ok c => c | Err _ => self end.
Proof.
  destruct op; simpl; unfold get_pubkeys, request_signature, generate_proxy_key, post_and_decode;
    by destruct (refresh_jwt t self).
Qed.

Lemma refresh_jwt_ok t self c :
  refresh_jwt t self = Ok c →
  last_jwt_refresh c = last_jwt_refresh self ∧ sc_module_id c = sc_module_id self ∧
  sc_jwt_secret c = sc_jwt_secret self ∧ sc_url c = sc_url self ∧
  ((c = self ∧ instant_ns t - last_jwt_refresh self ≤ SIGNER_JWT_EXPIRATION * NANOS_PER_SEC) ∨
   (carries_token c (wall_sec t) ∧
    SIGNER_JWT_EXPIRATION * NANOS_PER_SEC < instant_ns t - last_jwt_refresh self)).
Proof.
  unfold refresh_jwt. destruct (Z.gtb_spec (instant_ns t - last_jwt_refresh self)
    (SIGNER_JWT_EXPIRATION * NANOS_PER_SEC)) as [Hgt|Hle]; intros H; inv_ok.
  - split_and!; try done. right. split; [|done].
    match goal with Hc : create_jwt _ _ _ = Ok ?j |- _ => exists j end. by split.
  - split_and!; try done. left. split; [done|lia].
Qed.

(** between two moments the clocks advanced by the same amount *)
Definition in_sync (t0 t : Moment) : Prop :=
  instant_ns t - instant_ns t0 = (wall_sec t - wall_sec t0) * NANOS_PER_SEC.

(** The client never sends a stale token.  Take a client made at [t0], any sequence
    of calls, and a call at [t] whose refresh succeeds: the request carries a token
    created at most five minutes before [t] (the two clocks advance together), for the
    module and secret the client was made with.  The first token serves for five minutes;
    after that [last_jwt_refresh] stays at [t0] and every call makes a new token. *)
Theorem signer_client_token_fresh (t0 t : Moment) (url : Url) (secret : Jwt) (id : ModuleId)
    (c0 c : SignerClient) (l : list (Moment * ClientOp)) :
  signer_client_new t0 url secret id = Ok c0 →
  Forall (λ '(t', _), instant_ns t' ≤ instant_ns t) l →
  Forall (in_sync t0) (t :: l.*1) →
  refresh_jwt t (run_ops c0 l) = Ok c →
  ∃ at_sec, carries_token c at_sec ∧ sc_module_id c = id ∧ sc_jwt_secret c = secret ∧
    wall_sec t - at_sec ≤ SIGNER_JWT_EXPIRATION ∧
    (SIGNER_JWT_EXPIRATION < wall_sec t - wall_sec t0 → at_sec = wall_sec t).
Proof.
  intros Hnew Hmono [Hc Hclocks]%Forall_cons Hrefresh.
  assert (carries_token c0 (wall_sec t0) ∧ last_jwt_refresh c0 = instant_ns t0 ∧
          sc_module_id c0 = id ∧ sc_jwt_secret c0 = secret) as Hc0.
  { unfold signer_client_new in Hnew. inv_ok. split_and!; try done.
    match goal with Hc : create_jwt _ _ _ = Ok ?j |- _ => exists j end. by split. }
  (* a client that has not refreshed yet is still [c0] *)
  assert (last_jwt_refresh (run_ops c0 l) = instant_ns t0 ∧
          sc_module_id (run_ops c0 l) = id ∧ sc_jwt_secret (run_ops c0 l) = secret ∧
          (wall_sec t - wall_sec t0 ≤ SIGNER_JWT_EXPIRATION → run_ops c0 l = c0))
    as (Hlast & Hid & Hsecret & Hsame).
  { clear Hnew Hrefresh. unfold run_ops. revert Hmono Hclocks.
    induction l as [|[t' op] l IH] using rev_ind; intros Hmono Hclocks; [naive_solver|].
    apply Forall_app in Hmono as [Hmono [Ht' _]%Forall_cons].
    rewrite fmap_app in Hclocks. apply Forall_app in Hclocks as [Hclocks [Hc' _]%Forall_cons].
    specialize (IH Hmono Hclocks) as (IH1 & IH2 & IH3 & IH4).
    rewrite fold_left_app. simpl. rewrite run_op_client.
    destruct (refresh_jwt t' _) as [c'|e] eqn:E; [|by split_and!].
    apply refresh_jwt_ok in E as (-> & -> & -> & _ & E). split_and!; try done.
    intros Hold. destruct E as [[-> _]|[_ Hlt]]; [by apply IH4|].
    unfold in_sync, SIGNER_JWT_EXPIRATION, NANOS_PER_SEC in *. lia. }
  apply refresh_jwt_ok in Hrefresh as (_ & Hid' & Hsecret' & _ & Hcase).
  unfold in_sync, NANOS_PER_SEC in *.
  destruct Hcase as [[-> Hle]|[Htok Hlt]].
  - exists (wall_sec t0). unfold SIGNER_JWT_EXPIRATION in *. rewrite Hsame by lia.
    split_and!; [naive_solver..|lia|lia].
  - exists (wall_sec t). split_and!; [done|congruence|congruence| |done].
    unfold SIGNER_JWT_EXPIRATION. lia.
Qed.
End SignerClientOps.

(** A module that calls the signer after one and then after seven minutes. *)
Definition sample_moment (s : Z) : Moment :=
  {| instant_ns := s * NANOS_PER_SEC; wall_sec := 1000 + s;
     answer _ := Err {| is_timeout := true; is_connect := false |} |}.
Definition sample_ops : list (Moment * ClientOp) := [(sample_moment 60, OpGetPubkeys)].

Lemma signer_client_token_fresh_witness :
  ∃ c at_sec,
    refresh_jwt (HL := plain_headers) (JL := toy_jwt) (sample_moment 420)
      (match signer_client_new (HL := plain_headers) (JL := toy_jwt) (sample_moment 0)
               "http://signer" "secret" "DA_COMMIT" with
       | Ok c0 => run_ops (UL := plain_urls) (HL := plain_headers) (JL := toy_jwt) c0 sample_ops
       | Err _ => {| sc_url := ""; sc_client := {| default_headers := ∅; client_timeout_secs := 0 |};
                     last_jwt_refresh := 0; sc_module_id := ""; sc_jwt_secret := "" |}
       end) = Ok c ∧
    carries_token (HL := plain_headers) (JL := toy_jwt) c at_sec ∧ at_sec = 1420.
Proof.
  destruct (signer_client_new (HL := plain_headers) (JL := toy_jwt) (sample_moment 0)
              "http://signer" "secret" "DA_COMMIT") as [c0|e] eqn:E0; [|discriminate E0].
  destruct (refresh_jwt (HL := plain_headers) (JL := toy_jwt) (sample_moment 420)
     (run_ops (UL := plain_urls) (HL := plain_headers) (JL := toy_jwt) c0 sample_ops))
     as [c|e] eqn:E.
  2:{ exfalso. revert E. injection E0 as <-. vm_compute. discriminate. }
  destruct (signer_client_token_fresh (UL := plain_urls) (HL := plain_headers) (JL := toy_jwt)
     (sample_moment 0) (sample_moment 420) "http://signer" "secret" "DA_COMMIT" c0 c sample_ops E0)
     as (at_sec & Htok & _ & _ & _ & Hat).
  - repeat constructor; vm_compute; discriminate.
  - repeat constructor; vm_compute; reflexivity.
  - exact E.
  - exists c, at_sec. split; [reflexivity|]. split; [exact Htok|]. apply Hat. reflexivity.
Defined.
