(* ===== verification/Futures.v ===== *)
(** * Concurrent relay calls

    The PBS module starts one future per relay and combines them with two functions of
    the [futures] crate.  [join_all] resolves to the results in the order the futures
    were given, so in the model the joined results are the [list] of results.
    [select_ok] depends on which future finishes first, so it is a class: the functions
    that satisfy its documented contract. *)

From S2P Require Import Prelude.

Class FuturesLib := {
  select_ok : ∀ {E A : Type}, list (Result E A) → Call (Result E A);
}.

(** [select_ok] "panics if the iterator contains no items"; it resolves to the first
    success; "if all futures fail the last error" is returned. *)
Class FuturesCorrect {FL : FuturesLib} := {
  select_ok_empty : ∀ E A, select_ok (@nil (Result E A)) = Panics;
  select_ok_success : ∀ E A (l : list (Result E A)),
    (∃ a, Ok a ∈ l) → ∃ a, Ok a ∈ l ∧ select_ok l = Returns (Ok a);
  select_ok_failure : ∀ E A (l : list (Result E A)),
    l ≠ [] → (∀ a, Ok a ∉ l) → ∃ e, Err e ∈ l ∧ select_ok l = Returns (Err e);
}.

(** The schedule in which the futures finish in the order they were started. *)
Fixpoint first_ok {E A} (last_err : option E) (l : list (Result E A)) : Call (Result E A) :=
  match l with
  | [] => match last_err with Some e => Returns (Err e) | None => Panics end
  | Ok a :: _ => Returns (Ok a)
  | Err e :: l => first_ok (Some e) l
  end.
Definition in_order : FuturesLib := {| select_ok E A l := first_ok None l |}.

Lemma first_ok_success {E A} (l : list (Result E A)) o :
  (∃ a, Ok a ∈ l) → ∃ a, Ok a ∈ l ∧ first_ok o l = Returns (Ok a).
Proof.
  revert o. induction l as [|[a|e] l IH]; intros o [a' Ha']; simpl; [by apply not_elem_of_nil in Ha'| |].
  - exists a. by split; [left|].
  - apply elem_of_cons in Ha' as [?|Ha']; [done|].
    destruct (IH (Some e)) as (a & ? & ?); [by exists a'|]. exists a. by split; [right|].
Qed.
Lemma first_ok_failure {E A} (l : list (Result E A)) e :
  (∀ a, Ok a ∉ l) → ∃ e', e' ∈ e :: (l ≫= λ r, match r with Err e => [e] | _ => [] end) ∧
    first_ok (Some e) l = Returns (Err e').
Proof.
  revert e. induction l as [|[a|e'] l IH]; intros e Hno; simpl.
  - exists e. set_solver.
  - by destruct (Hno a); left.
  - destruct (IH e') as (e'' & Hin & Heq); [intros a ?; apply (Hno a); by right|].
    exists e''. split; [|done]. by right.
Qed.

Lemma in_order_correct : FuturesCorrect (FL := in_order).
Proof.
  split; simpl; [done|intros; by apply first_ok_success|].
  intros E A [|[a|e] l] Hne Hno; [done|by destruct (Hno a); left|]. simpl.
  destruct (first_ok_failure l e) as (e' & Hin & Heq); [intros a ?; apply (Hno a); by right|].
  exists e'. split; [|done].
  apply elem_of_cons in Hin as [->|Hin]; [by left|right].
  apply list_elem_of_bind in Hin as ([a|e''] & Hin & Hl); set_solver.
Qed.

Lemma select_ok_ok {FL : FuturesLib} {FC : FuturesCorrect} {E A} (l : list (Result E A)) a :
  select_ok l = Returns (Ok a) → Ok a ∈ l.
Proof.
  intros H. destruct (decide (Exists (λ r, is_ok r = true) l)) as [Hex|Hno].
  - apply Exists_exists in Hex as (r & Hr & [b ->]%is_ok_true).
    destruct (select_ok_success E A l) as (a' & Hin & Heq); [by exists b|]. congruence.
  - destruct l as [|r l].
    + by rewrite select_ok_empty in H.
    + destruct (select_ok_failure E A (r :: l)) as (e & _ & Heq); [done| |congruence].
      intros b Hb. apply Hno, Exists_exists. by exists (Ok b).
Qed.

(** On at least one future it returns, and succeeds exactly when some future does. *)
Lemma select_ok_returns {FL : FuturesLib} {FC : FuturesCorrect} {E A} (l : list (Result E A)) :
  l ≠ [] → ∃ r, select_ok l = Returns r ∧ ((∃ a, r = Ok a) ↔ ∃ a, Ok a ∈ l).
Proof.
  intros Hne. destruct (decide (Exists (λ r, is_ok r = true) l)) as [Hex|Hno].
  - apply Exists_exists in Hex as (r & Hr & [b ->]%is_ok_true).
    destruct (select_ok_success _ _ l) as (a & Ha & Hs); [by exists b|].
    exists (Ok a). split; [done|]. split; eauto.
  - assert (∀ a, Ok a ∉ l) as Hno'.
    { intros a Ha. apply Hno, Exists_exists. by exists (Ok a). }
    destruct (select_ok_failure _ _ l Hne Hno') as (e & _ & Hs).
    exists (Err e). split; [done|]. split; [by intros [? [=]]|]. intros [a Ha]. by destruct (Hno' a).
Qed.
