(* ===== verification/PbsConfig.v ===== *)
(** * PBS configuration and multiplexers

    Models the [PbsConfig] of [crates/common/src/config/pbs.rs] with its validation, and
    [crates/common/src/config/mux.rs]: the mux table that maps validator keys to their
    own relays and timeouts, and the loaders that fetch those keys from a file, an HTTP
    endpoint, the Lido registry or the SSV API.  Environment variables, files, the RPC
    provider and the HTTP client are the class [ConfigEnv]. *)

From stdpp Require Import pretty.
From S2P Require Import Prelude Bytes Chain Signature PbsTypes Http Relay.

(** ** [PbsConfig] *)

Definition DEFAULT_PBS_PORT : Z := 18550.
Definition GET_HEADER_MS : Z := 950.
Definition GET_PAYLOAD_MS : Z := 4000.
Definition REGISTER_VALIDATOR_MS : Z := 3000.
Definition LATE_IN_SLOT_TIME_MS : Z := 2000.
Definition REGISTER_VALIDATOR_RETRY_LIMIT : Z := 3.
Definition HTTP_TIMEOUT_SECONDS_DEFAULT : Z := 10.
Definition WEI_PER_ETH : Z := 1000000000000000000.
Definition MUX_PATH_ENV : string := "CB_MUX_PATH".

Record PbsConfig := {
  host : string;
  port : Z;
  relay_check : bool;
  wait_all_registrations : bool;
  timeout_get_header_ms : Z;
  timeout_get_payload_ms : Z;
  timeout_register_validator_ms : Z;
  skip_sigverify : bool;
  min_bid_wei : Z;
  late_in_slot_time_ms : Z;
  cfg_extra_validation_enabled : bool;
  rpc_url : option Url;
  http_timeout_seconds : Z;
  register_validator_retry_limit : Z;
}.

(** the values [serde] fills in for missing fields *)
Definition default_pbs_config : PbsConfig := {|
  host := "127.0.0.1";
  port := DEFAULT_PBS_PORT;
  relay_check := true;
  wait_all_registrations := true;
  timeout_get_header_ms := GET_HEADER_MS;
  timeout_get_payload_ms := GET_PAYLOAD_MS;
  timeout_register_validator_ms := REGISTER_VALIDATOR_MS;
  skip_sigverify := false;
  min_bid_wei := 0;
  late_in_slot_time_ms := LATE_IN_SLOT_TIME_MS;
  cfg_extra_validation_enabled := false;
  rpc_url := None;
  http_timeout_seconds := HTTP_TIMEOUT_SECONDS_DEFAULT;
  register_validator_retry_limit := REGISTER_VALIDATOR_RETRY_LIMIT;
|}.

(** [PbsConfig { timeout_get_header_ms, late_in_slot_time_ms, ..self.clone() }] *)
Definition with_header_timeouts (c : PbsConfig) (timeout late : Z) : PbsConfig := {|
  host := host c; port := port c; relay_check := relay_check c;
  wait_all_registrations := wait_all_registrations c;
  timeout_get_header_ms := timeout;
  timeout_get_payload_ms := timeout_get_payload_ms c;
  timeout_register_validator_ms := timeout_register_validator_ms c;
  skip_sigverify := skip_sigverify c; min_bid_wei := min_bid_wei c;
  late_in_slot_time_ms := late;
  cfg_extra_validation_enabled := cfg_extra_validation_enabled c;
  rpc_url := rpc_url c; http_timeout_seconds := http_timeout_seconds c;
  register_validator_retry_limit := register_validator_retry_limit c;
|}.

(** ** Muxes *)

Inductive NORegistry : Type := Lido | SSV.
Inductive MuxKeysLoader : Type :=
| LoaderFile (path : string)
| LoaderHTTP (url : string)
| LoaderRegistry (registry : NORegistry) (node_operator_id : Z).

Record MuxConfig := {
  mux_id : string;
  mux_relays : list RelayConfig;
  validator_pubkeys : list BlsPublicKey;
  loader : option MuxKeysLoader;
  mux_timeout_get_header_ms : option Z;
  mux_late_in_slot_time_ms : option Z;
}.
Record RuntimeMuxConfig := {
  rm_id : string; rm_config : PbsConfig; rm_relays : list RelayClient;
}.

Definition extend_pubkeys (m : MuxConfig) (extra_keys : list BlsPublicKey) : MuxConfig := {|
  mux_id := mux_id m; mux_relays := mux_relays m;
  validator_pubkeys := validator_pubkeys m ++ extra_keys;
  loader := loader m;
  mux_timeout_get_header_ms := mux_timeout_get_header_ms m;
  mux_late_in_slot_time_ms := mux_late_in_slot_time_ms m;
|}.

Record SSVResponse := { ssv_validators : list BlsPublicKey; ssv_total : Z }.

(** An [eyre::Report], as far as callers can tell it apart.  [OutOfFuel] is not an error
    of the code: it is the answer of a loop that the model stopped unrolling. *)
Inductive Report : Type :=
| Message (msg : string)
| ReadFailed (e : HttpReadError)
| OutOfFuel.

(** What the configuration code reads from the outside world. *)
Class ConfigEnv := {
  (** [std::env::var(..).ok()], [std::fs::read_to_string(..).ok()] *)
  env_var : string → option string;
  read_to_string : string → option string;
  (** [provider.get_chain_id()] *)
  rpc_chain_id : Url → Result string Z;
  (** [ClientBuilder::new().timeout(secs).build()] and [client.get(url).send()] *)
  http_client : Z → Result string ();
  http_get : Url → Z → SendOutcome;
  (** [serde_json] on the text and on the bytes of a key list, and of an SSV page *)
  keys_from_str : string → Result string (list BlsPublicKey);
  keys_from_slice : bytes → Result string (list BlsPublicKey);
  ssv_response_from_slice : bytes → Result string SSVResponse;
  (** the registry contract at an address: [getTotalSigningKeyCount(operator)] and
      [getSigningKeys(operator, offset, limit)] *)
  getTotalSigningKeyCount : Url → Address → Z → Result string Z;
  getSigningKeys : Url → Address → Z → Z → Z → Result string bytes;
}.

Definition is_custom (c : Chain) : bool := match c with Custom _ _ _ => true | _ => false end.

#[export] Instance Call_eq_dec {A} `{EqDecision A} : EqDecision (Call A).
Proof. solve_decision. Defined.

Section PbsConfigOps.
Context {CE : ConfigEnv}.

Definition load_optional_env_var (env : string) : option string := env_var env.
Definition load_env_var (env : string) : Result Report string :=
  ok_or (env_var env) (Message (env +:+ " is not set")).

(** [PbsConfig::validate] *)
Definition pbs_config_validate (self : PbsConfig) (chain : Chain) : Result Report () :=
  _ ← ensure (0 <? timeout_get_header_ms self)
        (Message "timeout_get_header_ms must be greater than 0");
  _ ← ensure (0 <? timeout_get_payload_ms self)
        (Message "timeout_get_payload_ms must be greater than 0");
  _ ← ensure (0 <? timeout_register_validator_ms self)
        (Message "timeout_register_validator_ms must be greater than 0");
  _ ← ensure (0 <? late_in_slot_time_ms self)
        (Message "late_in_slot_time_ms must be greater than 0");
  _ ← ensure (timeout_get_header_ms self <? late_in_slot_time_ms self)
        (Message "timeout_get_header_ms must be less than late_in_slot_time_ms");
  _ ← ensure (0 <? register_validator_retry_limit self)
        (Message "register_validator_retry_limit must be greater than 0");
  _ ← ensure (min_bid_wei self <? WEI_PER_ETH) (Message "min bid is too high");
  _ ← (if cfg_extra_validation_enabled self then
         ensure (bool_decide (is_Some (rpc_url self)))
           (Message "rpc_url is required if extra_validation_enabled is true")
       else Ok ());
  match rpc_url self with
  | Some url =>
      if is_custom chain then Ok ()
      else
        chain_id' ← map_err Message (rpc_chain_id url);
        ensure (bool_decide (Returns chain_id' = chain_id chain))
          (Message "Rpc url is for the wrong chain")
  | None => Ok ()
  end.

(** ** Key loaders *)

Definition load_file (path : string) : Result Report string :=
  ok_or (read_to_string path) (Message ("Unable to find mux keys file: " +:+ path)).
Definition get_mux_env (id : string) : string := MUX_PATH_ENV +:+ "_" +:+ id.
Definition get_mux_path (id : string) : string := "/" +:+ id +:+ "-mux_keys.json".

(** [MuxConfig::loader_env] *)
Definition loader_env (m : MuxConfig) : Result Report (option (string * string * string)) :=
  match loader m with
  | None => Ok None
  | Some (LoaderFile path) =>
      file ← load_file path;
      _ ← map_err (λ _, Message "failed to parse mux keys file") (keys_from_str file);
      Ok (Some (get_mux_env (mux_id m), path, get_mux_path (mux_id m)))
  | Some (LoaderHTTP _) => Ok None
  | Some (LoaderRegistry _ _) => Ok None
  end.

(** [config/utils.rs]; [insert] tells whether the key is new *)
Definition remove_duplicate_keys (keys : list BlsPublicKey) : list BlsPublicKey :=
  (fold_left (λ '(unique_keys, key_set) key,
     if bool_decide (key ∈ key_set) then (unique_keys, key_set)
     else (unique_keys ++ [key], {[ key ]} ∪ key_set))
   keys ([], (∅ : gset bytes))).1.

Definition lido_registry_address (chain : Chain) : Result Report Address :=
  match chain with
  | Mainnet => Ok (bytes_of_Zs [0x55; 0x03; 0x26; 0x50; 0xb1; 0x4d; 0xf0; 0x7b; 0x85; 0xbf;
                                0x18; 0xa3; 0xa3; 0xec; 0x8e; 0x0a; 0xf2; 0xe0; 0x28; 0xd5])
  | Holesky => Ok (bytes_of_Zs [0x59; 0x5f; 0x64; 0xdd; 0xc3; 0x85; 0x6a; 0x3b; 0x5f; 0xf4;
                                0xf4; 0xcc; 0x1d; 0x1f; 0xb4; 0xb4; 0x6c; 0xfd; 0x2b; 0xac])
  | Hoodi => Ok (bytes_of_Zs [0x5c; 0xdb; 0xe1; 0x59; 0x0c; 0x08; 0x3b; 0x5a; 0x2a; 0x64;
                              0x42; 0x7f; 0xaa; 0x63; 0xa7; 0xcf; 0xdb; 0x91; 0xfb; 0xb5])
  | Sepolia => Ok (bytes_of_Zs [0x33; 0xd6; 0xe1; 0x50; 0x47; 0xe8; 0x64; 0x4f; 0x8d; 0xdf;
                                0x5c; 0xd0; 0x5d; 0x20; 0x2d; 0xfe; 0x58; 0x7d; 0xa6; 0xe3])
  | _ => Err (Message "Lido registry not supported for chain")
  end.

Definition CALL_BATCH_SIZE : Z := 250.
Definition BLS_PK_LEN : nat := 48.

(** [BlsPublicKey::try_from(chunk)] *)
Definition pubkey_try_from (chunk : bytes) : Result Report BlsPublicKey :=
  if decide (length chunk = BLS_PK_LEN) then Ok chunk else Err (Message "invalid key length").

(** the [while offset < total_keys] loop *)
Fixpoint lido_loop (fuel : nat) (get : Z → Z → Result Report bytes) (total_keys offset : Z)
    (keys : list BlsPublicKey) : Result Report (list BlsPublicKey) :=
  if offset <? total_keys then
    match fuel with
    | O => Err OutOfFuel
    | S fuel =>
        let limit := Z.min CALL_BATCH_SIZE (total_keys - offset) in
        pubkeys ← get offset limit;
        _ ← ensure (length pubkeys mod BLS_PK_LEN =? 0)%nat
              (Message "unexpected number of keys in batch");
        batch ← try_map pubkey_try_from (chunks BLS_PK_LEN pubkeys);
        lido_loop fuel get total_keys (add64 offset limit) (keys ++ batch)
    end
  else Ok keys.

(** enough turns of the loop: one per batch *)
Definition lido_fuel (total_keys : Z) : nat := Z.to_nat (total_keys / CALL_BATCH_SIZE + 1).

Definition fetch_lido_registry_keys (rpc : Url) (chain : Chain) (node_operator_id : Z)
    (http_timeout : Z) : Result Report (list BlsPublicKey) :=
  _ ← map_err Message (http_client http_timeout);
  registry_address ← lido_registry_address chain;
  count ← map_err Message (getTotalSigningKeyCount rpc registry_address node_operator_id);
  total_keys ← (if count <? u64_bound then Ok count else Err (Message "overflow"));
  if total_keys =? 0 then Ok []
  else
    keys ← lido_loop (lido_fuel total_keys)
             (λ offset limit, map_err Message
                (getSigningKeys rpc registry_address node_operator_id offset limit))
             total_keys 0 [];
    _ ← ensure (Zlen keys =? total_keys) (Message "expected a different number of keys");
    Ok keys.

Definition MAX_PER_PAGE : nat := 100.

Definition fetch_ssv_pubkeys_from_url (url : string) (http_timeout : Z)
    : Result Report SSVResponse :=
  _ ← map_err Message (http_client http_timeout);
  response ← map_err (λ e, Message
               (if is_timeout e then "Request to SSV network API timed out"
                else "Error sending request to SSV network API"))
               (http_get url http_timeout);
  body_bytes ← map_err ReadFailed (safe_read_http_response response);
  map_err (λ _, Message "failed to parse SSV response") (ssv_response_from_slice body_bytes).

Definition ssv_url (chain_name : string) (node_operator_id page : Z) : string :=
  "https://api.ssv.network/api/v4/" +:+ chain_name +:+ "/validators/in_operator/"
  +:+ pretty node_operator_id +:+ "?perPage=100&page=" +:+ pretty page.

Fixpoint ssv_loop (fuel : nat) (fetch : Z → Result Report SSVResponse) (page : Z)
    (pubkeys : list BlsPublicKey) : Result Report (list BlsPublicKey) :=
  match fuel with
  | O => Err OutOfFuel
  | S fuel =>
      response ← fetch page;
      let pubkeys := pubkeys ++ ssv_validators response in
      let page := page + 1 in
      if (length (ssv_validators response) <? MAX_PER_PAGE)%nat then
        _ ← ensure (Zlen pubkeys =? ssv_total response)
              (Message "expected a different number of keys");
        Ok pubkeys
      else ssv_loop fuel fetch page pubkeys
  end.

(** The loop asks for pages as long as they are full, so its fuel is a parameter. *)
Definition fetch_ssv_pubkeys (fuel : nat) (chain : Chain) (node_operator_id : Z)
    (http_timeout : Z) : Result Report (list BlsPublicKey) :=
  chain_name ← match chain with
               | Mainnet => Ok "mainnet"%string
               | Holesky => Ok "holesky"%string
               | Hoodi => Ok "hoodi"%string
               | _ => Err (Message "SSV network is not supported for chain")
               end;
  ssv_loop fuel
    (λ page, fetch_ssv_pubkeys_from_url (ssv_url chain_name node_operator_id page) http_timeout)
    1 [].

End PbsConfigOps.

Section MuxOps.
Context {CE : ConfigEnv} {UL : UrlLib} {HL : HeaderLib} {HO : HashOrder string}.
Variable ssv_fuel : nat.

(** [MuxKeysLoader::load] *)
Definition mux_keys_load (l : MuxKeysLoader) (id : string) (chain : Chain)
    (rpc : option Url) (http_timeout : Z) : Result Report (list BlsPublicKey) :=
  keys ← match l with
         | LoaderFile config_path =>
             let path := default config_path (load_optional_env_var (get_mux_env id)) in
             file ← load_file path;
             map_err (λ _, Message "failed to parse mux keys file") (keys_from_str file)
         | LoaderHTTP url =>
             url ← map_err (λ _, Message "failed to parse mux keys URL") (url_parse url);
             _ ← map_err Message (http_client http_timeout);
             response ← map_err (λ _, Message "error sending request") (http_get url http_timeout);
             pubkey_bytes ← map_err ReadFailed (safe_read_http_response response);
             map_err (λ _, Message "failed to fetch mux keys from HTTP endpoint")
               (keys_from_slice pubkey_bytes)
         | LoaderRegistry Lido node_operator_id =>
             rpc ← ok_or rpc
               (Message "Lido registry requires RPC URL to be set in the PBS config");
             fetch_lido_registry_keys rpc chain node_operator_id http_timeout
         | LoaderRegistry SSV node_operator_id =>
             fetch_ssv_pubkeys ssv_fuel chain node_operator_id http_timeout
         end;
  Ok (remove_duplicate_keys keys).

(** the first loop of [validate_and_fill] *)
Definition fill_mux (chain : Chain) (default_pbs : PbsConfig) (mux : MuxConfig)
    : Result Report MuxConfig :=
  _ ← ensure (negb (bool_decide (mux_relays mux = [])))
        (Message ("mux config " +:+ mux_id mux +:+ " must have at least one relay"));
  mux ← match loader mux with
        | Some l =>
            extra_keys ← mux_keys_load l (mux_id mux) chain (rpc_url default_pbs)
                           (http_timeout_seconds default_pbs);
            Ok (extend_pubkeys mux extra_keys)
        | None => Ok mux
        end;
  _ ← ensure (negb (bool_decide (validator_pubkeys mux = [])))
        (Message ("mux config " +:+ mux_id mux +:+ " must have at least one validator pubkey"));
  Ok mux.

(** the second: every key of every mux goes through one [HashSet] *)
Definition insert_unique (unique_pubkeys : gset bytes) (pubkey : BlsPublicKey)
    : Result Report (gset bytes) :=
  if bool_decide (pubkey ∈ unique_pubkeys) then
    Err (Message ("duplicate validator pubkey in muxes: " +:+ hex_encode_prefixed pubkey))
  else Ok ({[ pubkey ]} ∪ unique_pubkeys).

(** the third: the runtime configuration of one mux, then its entries in the table *)
Definition runtime_mux (chain : Chain) (default_pbs : PbsConfig) (mux : MuxConfig)
    : Result Report RuntimeMuxConfig :=
  relay_clients ← map_err Message (try_map relay_client_new (mux_relays mux));
  let config := with_header_timeouts default_pbs
    (default (timeout_get_header_ms default_pbs) (mux_timeout_get_header_ms mux))
    (default (late_in_slot_time_ms default_pbs) (mux_late_in_slot_time_ms mux)) in
  _ ← pbs_config_validate config chain;
  Ok {| rm_id := mux_id mux; rm_config := config; rm_relays := relay_clients |}.

Definition insert_mux (chain : Chain) (default_pbs : PbsConfig)
    (configs : gmap bytes RuntimeMuxConfig) (mux : MuxConfig)
    : Result Report (gmap bytes RuntimeMuxConfig) :=
  runtime_config ← runtime_mux chain default_pbs mux;
  Ok (fold_left (λ configs pubkey, <[pubkey := runtime_config]> configs)
        (validator_pubkeys mux) configs).

(** [PbsMuxes::validate_and_fill] *)
Definition validate_and_fill (muxes : list MuxConfig) (chain : Chain) (default_pbs : PbsConfig)
    : Result Report (gmap bytes RuntimeMuxConfig) :=
  muxes ← try_map (fill_mux chain default_pbs) muxes;
  _ ← try_fold insert_unique ∅ (muxes ≫= validator_pubkeys);
  try_fold (insert_mux chain default_pbs) ∅ muxes.
End MuxOps.

(** ** Validation *)

(** What [validate] guarantees of a configuration, the RPC check apart. *)
Definition pbs_config_valid (c : PbsConfig) : Prop :=
  0 < timeout_get_header_ms c < late_in_slot_time_ms c ∧
  0 < timeout_get_payload_ms c ∧ 0 < timeout_register_validator_ms c ∧
  0 < register_validator_retry_limit c ∧ min_bid_wei c < WEI_PER_ETH ∧
  (cfg_extra_validation_enabled c = true → is_Some (rpc_url c)).

Section ValidateLemmas.
Context {CE : ConfigEnv}.

(** the RPC check: only when there is an RPC url and the chain is a known one *)
Definition rpc_matches_chain (c : PbsConfig) (chain : Chain) : Prop :=
  ∀ url, rpc_url c = Some url → is_custom chain = false →
  ∃ id, rpc_chain_id url = Ok id ∧ chain_id chain = Returns id.

Lemma pbs_config_validate_ok c chain :
  pbs_config_validate c chain = Ok () ↔ pbs_config_valid c ∧ rpc_matches_chain c chain.
Proof.
  unfold pbs_config_validate, pbs_config_valid, rpc_matches_chain.
  split.
  - intros H. inv_ok.
    repeat match goal with H : (_ <? _) = true |- _ => apply Z.ltb_lt in H end.
    split.
    + split_and!; try lia. intros Hex. rewrite Hex in *. inv_ok. by case_bool_decide.
    + intros url Hurl Hcustom. rewrite Hurl, Hcustom in *. inv_ok.
      case_bool_decide; [|done]. eauto.
  - intros [(? & ? & ? & ? & ? & Hex) Hrpc].
    repeat (rewrite (proj2 (Z.ltb_lt _ _)) by lia; simpl).
    assert ((if cfg_extra_validation_enabled c then
         ensure (bool_decide (is_Some (rpc_url c)))
           (Message "rpc_url is required if extra_validation_enabled is true")
       else Ok ()) = Ok ()) as ->.
    { destruct (cfg_extra_validation_enabled c); [|done].
      by rewrite bool_decide_true by auto. }
    simpl. destruct (rpc_url c) as [url|]; [|done]. destruct (is_custom chain) eqn:E; [done|].
    destruct (Hrpc url eq_refl eq_refl) as (id & -> & ->). simpl. by rewrite bool_decide_true.
Qed.
End ValidateLemmas.

(** ** Deduplication *)

(** The loop's accumulator: the keys kept so far and the set of keys seen *)
Lemma remove_duplicate_keys_loop (keys acc : list bytes) (seen : gset bytes) :
  NoDup acc → (∀ k, k ∈ seen ↔ k ∈ acc) →
  let res := (fold_left (λ '(unique_keys, key_set) key,
     if bool_decide (key ∈ key_set) then (unique_keys, key_set)
     else (unique_keys ++ [key], {[ key ]} ∪ key_set)) keys (acc, seen)).1 in
  ∃ kept, res = acc ++ kept ∧ kept `sublist_of` keys ∧ NoDup res ∧
    (∀ k, k ∈ res ↔ k ∈ acc ∨ k ∈ keys).
Proof.
  revert acc seen. induction keys as [|key keys IH]; intros acc seen Hnd Hseen; simpl.
  - exists []. rewrite app_nil_r. split_and!; [done|constructor|done|set_solver].
  - destruct (bool_decide (key ∈ seen)) eqn:E.
    + apply bool_decide_eq_true in E.
      destruct (IH acc seen Hnd Hseen) as (kept & -> & Hsub & Hnd' & Hin).
      exists kept. split_and!; [done|by constructor|done|]. set_solver.
    + apply bool_decide_eq_false in E. rewrite Hseen in E.
      destruct (IH (acc ++ [key]) ({[key]} ∪ seen)) as (kept & -> & Hsub & Hnd' & Hin).
      { apply NoDup_app. split_and!; [done|set_solver|apply NoDup_singleton]. }
      { set_solver. }
      exists (key :: kept). rewrite <- app_assoc in *. simpl in *.
      split_and!; [done|by constructor|done|]. set_solver.
Qed.

(** Deduplication of loaded keys.  The result has the same keys, each once, in the
    order of the input. *)
Theorem remove_duplicate_keys_spec (keys : list BlsPublicKey) :
  remove_duplicate_keys keys `sublist_of` keys ∧ NoDup (remove_duplicate_keys keys) ∧
  (∀ k, k ∈ remove_duplicate_keys keys ↔ k ∈ keys).
Proof.
  destruct (remove_duplicate_keys_loop keys [] ∅) as (kept & Heq & Hsub & Hnd & Hin);
    [constructor|set_solver|].
  unfold remove_duplicate_keys. split_and!; [by rewrite Heq|done|set_solver].
Qed.

(** ** The Lido registry *)

(** [chunks] cuts a concatenation of keys back into the keys. *)
Lemma chunks_fuel_of_concat {A} (n : nat) (ls : list (list A)) fuel :
  (0 < n)%nat → Forall (λ l, length l = n) ls → (length (concat ls) ≤ fuel)%nat →
  chunks_fuel fuel n (concat ls) = ls.
Proof.
  intros Hn Hall. revert fuel. induction Hall as [|l ls Hl Hall IH]; intros fuel Hfuel; simpl.
  { by destruct fuel. }
  simpl in Hfuel. rewrite length_app in Hfuel.
  destruct fuel as [|fuel]; [lia|].
  destruct l as [|a l]; [simpl in Hl; lia|]. simpl.
  change (a :: l ++ concat ls) with ((a :: l) ++ concat ls).
  rewrite take_app_length', drop_app_length' by done.
  f_equal. apply IH. simpl in Hfuel. lia.
Qed.
Lemma chunks_of_concat {A} (n : nat) (ls : list (list A)) :
  (0 < n)%nat → Forall (λ l, length l = n) ls → chunks n (concat ls) = ls.
Proof. intros. by apply chunks_fuel_of_concat. Qed.

Lemma length_concat_same {A} (n : nat) (ls : list (list A)) :
  Forall (λ l, length l = n) ls → length (concat ls) = (n * length ls)%nat.
Proof.
  induction 1 as [|l ls Hl _ IH]; simpl; [lia|]. rewrite length_app, IH, Hl. lia.
Qed.

Lemma try_map_pubkeys ls :
  Forall (λ l, length l = BLS_PK_LEN) ls → try_map pubkey_try_from ls = Ok ls.
Proof.
  intros Hall. apply try_map_ok. induction Hall as [|l ls Hl _ IH]; constructor; [|done].
  unfold pubkey_try_from. by rewrite decide_True.
Qed.

(** the keys a contract with key list [keys] returns for a range *)
Definition registry_serves (keys : list BlsPublicKey) (offset limit : Z) : bytes :=
  concat (take (Z.to_nat limit) (drop (Z.to_nat offset) keys)).

Lemma lido_loop_complete keys (get : Z → Z → Result Report bytes) fuel offset :
  Forall (λ k, length k = BLS_PK_LEN) keys → Zlen keys < u64_bound →
  (∀ offset limit, get offset limit = Ok (registry_serves keys offset limit)) →
  0 ≤ offset ≤ Zlen keys → (Z.to_nat ((Zlen keys - offset + 249) / 250) ≤ fuel)%nat →
  lido_loop fuel get (Zlen keys) offset (take (Z.to_nat offset) keys) = Ok keys.
Proof.
  intros Hlen Hbound Hget. revert offset. unfold Zlen in *.
  induction fuel as [|fuel IH]; intros offset Hoff Hfuel; cbn [lido_loop];
    destruct (Z.ltb_spec offset (Z.of_nat (length keys))) as [Hlt|Hge];
    try (rewrite take_ge by lia; reflexivity).
  { exfalso. assert (1 ≤ (Z.of_nat (length keys) - offset + 249) / 250)
      by (apply Z.div_le_lower_bound; lia). lia. }
  unfold CALL_BATCH_SIZE. set (limit := Z.min 250 (Z.of_nat (length keys) - offset)).
  rewrite Hget. cbn [mbind result_bind]. unfold registry_serves.
  set (batch := take (Z.to_nat limit) (drop (Z.to_nat offset) keys)).
  assert (Forall (λ k, length k = BLS_PK_LEN) batch) as Hbatch
    by (apply Forall_take, Forall_drop, Hlen).
  rewrite (length_concat_same BLS_PK_LEN) by done.
  rewrite (Nat.mul_comm BLS_PK_LEN), Nat.Div0.mod_mul. cbn [Nat.eqb ensure mbind result_bind].
  rewrite chunks_of_concat, try_map_pubkeys by (done || unfold BLS_PK_LEN; lia). simpl.
  rewrite add64_no_overflow by (unfold is_u64; lia).
  replace (take (Z.to_nat offset) keys ++ batch) with (take (Z.to_nat (offset + limit)) keys)
    by (unfold batch; rewrite Z2Nat.inj_add by lia; symmetry; apply take_take_drop).
  apply IH; [lia|].
  assert ((Z.of_nat (length keys) - (offset + limit) + 249) / 250
          ≤ (Z.of_nat (length keys) - offset + 249) / 250 - 1); [|lia].
  replace ((Z.of_nat (length keys) - offset + 249) / 250 - 1)
    with ((Z.of_nat (length keys) - offset + 249 + (-1) * 250) / 250)
    by (rewrite Z.div_add by lia; lia).
  destruct (decide (250 ≤ Z.of_nat (length keys) - offset)) as [?|?].
  - apply Z.div_le_mono; lia.
  - rewrite (Z.div_small (_ - (offset + limit) + 249)) by lia.
    apply Z.div_le_lower_bound; lia.
Qed.

Lemma lido_fuel_enough total : 0 ≤ total → (Z.to_nat ((total + 249) / 250) ≤ lido_fuel total)%nat.
Proof.
  intros. unfold lido_fuel, CALL_BATCH_SIZE. apply Z2Nat.inj_le.
  - apply Z.div_pos; lia.
  - pose proof (Z.div_pos total 250). lia.
  - replace (total / 250 + 1) with ((total + 1 * 250) / 250) by (rewrite Z.div_add; lia).
    apply Z.div_le_mono; lia.
Qed.

(** The Lido registry is read completely.  On a chain with a registry contract that
    reports its number of keys and serves its key list by range, the batched reader
    returns that whole list in order, however long (below [2^64]); in particular its loop
    terminates. *)
Theorem lido_fetch_complete {CE : ConfigEnv} (rpc : Url) (chain : Chain) (op timeout : Z)
    (address : Address) (keys : list BlsPublicKey) :
  http_client timeout = Ok () →
  lido_registry_address chain = Ok address →
  Forall (λ k, length k = BLS_PK_LEN) keys → Zlen keys < u64_bound →
  getTotalSigningKeyCount rpc address op = Ok (Zlen keys) →
  (∀ offset limit, getSigningKeys rpc address op offset limit
                   = Ok (registry_serves keys offset limit)) →
  fetch_lido_registry_keys rpc chain op timeout = Ok keys.
Proof.
  intros Hclient Haddr Hlen Hbound Htotal Hget. unfold fetch_lido_registry_keys.
  rewrite Hclient, Haddr. simpl. rewrite Htotal. simpl.
  rewrite (proj2 (Z.ltb_lt _ _)) by done. simpl.
  destruct (Z.eqb_spec (Zlen keys) 0) as [H0|Hpos].
  { destruct keys; [done|]. unfold Zlen in H0. simpl in H0. lia. }
  assert (0 ≤ Zlen keys) by (unfold Zlen; lia).
  change (@nil (list byte)) with (take (Z.to_nat 0) keys).
  rewrite (lido_loop_complete keys); [..|lia|].
  - simpl. by rewrite Z.eqb_refl.
  - done.
  - done.
  - intros. by rewrite Hget.
  - rewrite Z.sub_0_r. by apply lido_fuel_enough.
Qed.

(** ** The SSV API *)

(** page [page] (from 1) of the validators [vs] *)
Definition ssv_page (vs : list BlsPublicKey) (page : Z) : SSVResponse := {|
  ssv_validators := take MAX_PER_PAGE (drop (MAX_PER_PAGE * Z.to_nat (page - 1)) vs);
  ssv_total := Zlen vs;
|}.

Lemma ssv_loop_complete vs (fetch : Z → Result Report SSVResponse) fuel n :
  (∀ page, 1 ≤ page ≤ Z.of_nat (length vs / MAX_PER_PAGE + 1) →
     fetch page = Ok (ssv_page vs page)) →
  (MAX_PER_PAGE * n ≤ length vs < MAX_PER_PAGE * (n + fuel))%nat →
  ssv_loop fuel fetch (Z.of_nat n + 1) (take (MAX_PER_PAGE * n) vs) = Ok vs.
Proof.
  intros Hfetch. unfold MAX_PER_PAGE in *.
  revert n. induction fuel as [|fuel IH]; intros n Hn; cbn [ssv_loop]; [lia|].
  pose proof (Nat.div_le_lower_bound (length vs) 100 n ltac:(lia) ltac:(lia)).
  rewrite Hfetch by lia. simpl. rewrite Z.add_simpl_r, Nat2Z.id.
  assert (take (100 * n) vs ++ take 100 (drop (100 * n) vs) = take (100 * S n) vs) as Hpage.
  { replace (100 * S n)%nat with (100 * n + 100)%nat by lia. apply take_take_drop. }
  rewrite length_take, length_drop. fold (100 * n)%nat.
  unfold MAX_PER_PAGE. rewrite Hpage.
  destruct (Nat.ltb_spec (100 `min` (length vs - 100 * n)) 100) as [Hlt|Hge].
  - rewrite take_ge by lia. by rewrite Z.eqb_refl.
  - replace (Z.of_nat n + 1 + 1) with (Z.of_nat (S n) + 1) by lia. apply IH. lia.
Qed.

(** The SSV API is read completely.  When the API serves the operator's validators
    in pages of 100 with their true total, the page loop terminates after
    [length vs / 100 + 1] requests and returns them all in order. *)
Theorem ssv_fetch_complete {CE : ConfigEnv} (chain : Chain) (name : string) (op timeout : Z)
    (vs : list BlsPublicKey) (fuel : nat) :
  (chain, name) ∈ [(Mainnet, "mainnet"%string); (Holesky, "holesky"%string);
                   (Hoodi, "hoodi"%string)] →
  (∀ page, 1 ≤ page ≤ Z.of_nat (length vs / MAX_PER_PAGE + 1) →
     fetch_ssv_pubkeys_from_url (ssv_url name op page) timeout = Ok (ssv_page vs page)) →
  (length vs / MAX_PER_PAGE + 1 ≤ fuel)%nat →
  fetch_ssv_pubkeys fuel chain op timeout = Ok vs.
Proof.
  intros Hchain Hfetch Hfuel. unfold fetch_ssv_pubkeys.
  assert (∀ name', name' = name → ssv_loop fuel
    (λ page, fetch_ssv_pubkeys_from_url (ssv_url name' op page) timeout) 1 [] = Ok vs) as Hloop.
  { intros ? ->. apply (ssv_loop_complete vs _ fuel 0); [done|]. simpl. split; [lia|].
    unfold MAX_PER_PAGE in *. pose proof (Nat.div_mod (length vs) 100 ltac:(lia)).
    pose proof (Nat.mod_upper_bound (length vs) 100 ltac:(lia)). lia. }
  repeat (apply elem_of_cons in Hchain as [[= -> ->]|Hchain]; [by apply Hloop|]).
  by apply not_elem_of_nil in Hchain.
Qed.

(** ** A concrete environment

    An operator with 251 keys, served by the registry contract and by the SSV API. *)
Definition sample_key (n : Z) : BlsPublicKey := byte_array 47 x00 ++ [byte_of_Z n].
Definition sample_keys : list BlsPublicKey := sample_key <$> seqZ 0 251.

(** the SSV page whose url is [body] *)
Definition ssv_page_of_url (body : bytes) : Result string SSVResponse :=
  match list_find (λ page, bytes_of_string (ssv_url "mainnet" 7 page) = body) [1; 2; 3] with
  | Some (_, page) => Ok (ssv_page sample_keys page)
  | None => Err "not found"%string
  end.

Definition sample_env : ConfigEnv := {|
  env_var _ := None;
  read_to_string path := if String.eqb path "keys.json" then Some "[]"%string else None;
  rpc_chain_id _ := Ok 1;
  http_client _ := Ok ();
  http_get url _ := Ok {| res_status := 200; res_content_length := None;
                          res_chunks := [Ok (bytes_of_string url)] |};
  keys_from_str _ := Ok [sample_key 1; sample_key 2; sample_key 1];
  keys_from_slice _ := Ok [];
  ssv_response_from_slice := ssv_page_of_url;
  getTotalSigningKeyCount _ _ _ := Ok (Zlen sample_keys);
  getSigningKeys _ _ _ offset limit := Ok (registry_serves sample_keys offset limit);
|}.

Lemma lido_fetch_complete_witness :
  fetch_lido_registry_keys (CE := sample_env) "http://rpc" Holesky 7 10 = Ok sample_keys.
Proof.
  apply (lido_fetch_complete (CE := sample_env) "http://rpc" Holesky 7 10
           (byte_array 0 x00 ++ bytes_of_Zs [0x59; 0x5f; 0x64; 0xdd; 0xc3; 0x85; 0x6a; 0x3b; 0x5f;
              0xf4; 0xf4; 0xcc; 0x1d; 0x1f; 0xb4; 0xb4; 0x6c; 0xfd; 0x2b; 0xac])).
  - reflexivity.
  - reflexivity.
  - apply Forall_fmap, Forall_true. intros n. reflexivity.
  - reflexivity.
  - reflexivity.
  - reflexivity.
Defined.

Lemma ssv_fetch_complete_witness :
  fetch_ssv_pubkeys (CE := sample_env) 3 Mainnet 7 10 = Ok sample_keys.
Proof.
  apply (ssv_fetch_complete (CE := sample_env) Mainnet "mainnet" 7 10 sample_keys 3).
  - by left.
  - intros page Hpage. change (length sample_keys / MAX_PER_PAGE + 1)%nat with 3%nat in Hpage.
    assert (page = 1 ∨ page = 2 ∨ page = 3) as [->|[->| ->]] by lia; vm_compute; reflexivity.
  - vm_compute. lia.
Defined.

(** ** The mux table *)

Lemma insert_unique_fold (keys : list bytes) (seen : gset bytes) s' :
  try_fold insert_unique seen keys = Ok s' →
  NoDup keys ∧ (∀ k, k ∈ keys → k ∉ seen).
Proof.
  revert seen. induction keys as [|k keys IH]; intros seen H; simpl in H.
  { split; [constructor|set_solver]. }
  apply result_bind_ok in H as (seen' & Hk & H). unfold insert_unique in Hk.
  destruct (bool_decide (k ∈ seen)) eqn:E; [done|]. apply bool_decide_eq_false in E.
  injection Hk as <-. apply IH in H as [Hnd Hdisj]. split.
  - constructor; [|done]. intros Hin. set_solver.
  - set_solver.
Qed.

Lemma fold_insert_lookup {V} (keys : list bytes) (v : V) (m : gmap bytes V) k :
  fold_left (λ m k, <[k := v]> m) keys m !! k
  = if bool_decide (k ∈ keys) then Some v else m !! k.
Proof.
  revert m. induction keys as [|k' keys IH]; intros m; cbn [fold_left].
  { by rewrite bool_decide_false by set_solver. }
  rewrite IH. destruct (decide (k ∈ keys)) as [Hin|Hout].
  - by rewrite !bool_decide_true by set_solver.
  - rewrite (bool_decide_false (k ∈ keys)) by done. destruct (decide (k = k')) as [->|Hne].
    + rewrite lookup_insert_eq, bool_decide_true by set_solver. done.
    + rewrite lookup_insert_ne, bool_decide_false by set_solver. done.
Qed.

Section MuxLemmas.
Context {CE : ConfigEnv} {UL : UrlLib} {HL : HeaderLib} {HO : HashOrder string}.
Variable ssv_fuel : nat.
Implicit Types (m : MuxConfig) (chain : Chain) (default_pbs : PbsConfig).

Lemma insert_muxes_lookup chain default_pbs muxes configs configs' :
  NoDup (muxes ≫= validator_pubkeys) →
  (∀ k, k ∈ muxes ≫= validator_pubkeys → configs !! k = None) →
  try_fold (insert_mux chain default_pbs) configs muxes = Ok configs' →
  ∀ key rt, configs' !! key = Some rt ↔
    configs !! key = Some rt ∨
    ∃ m, m ∈ muxes ∧ key ∈ validator_pubkeys m ∧ runtime_mux chain default_pbs m = Ok rt.
Proof.
  revert configs. induction muxes as [|m muxes IH]; intros configs Hnd Hfresh H key rt; simpl in H.
  { injection H as <-. set_solver. }
  rewrite bind_cons in Hnd, Hfresh.
  apply result_bind_ok in H as (configs1 & Hm & H). unfold insert_mux in Hm.
  apply result_bind_ok in Hm as (rt0 & Hrt0 & [= <-]).
  apply NoDup_app in Hnd as (Hnd1 & Hdisj & Hnd).
  rewrite (λ Hfresh, IH _ Hnd Hfresh H).
  2:{ intros k Hk. rewrite fold_insert_lookup, bool_decide_false; [apply Hfresh; set_solver|].
      intros Hk'. by apply (Hdisj k). }
  rewrite fold_insert_lookup. destruct (bool_decide_reflect (key ∈ validator_pubkeys m)) as [Hin|Hout].
  - split.
    + intros [[= <-]|(m' & ? & ? & ?)]; right; [exists m|exists m']; set_solver.
    + intros [Hc|(m' & [->|Hm']%elem_of_cons & Hk & Hrt)].
      * rewrite Hfresh in Hc by set_solver. done.
      * left. congruence.
      * exfalso. apply (Hdisj key Hin). apply list_elem_of_bind. eauto.
  - split.
    + intros [?|(m' & ? & ? & ?)]; [by left|right; exists m'; set_solver].
    + intros [?|(m' & [->|Hm']%elem_of_cons & ? & ?)]; [by left|done|right; eauto].
Qed.

Lemma fill_mux_nonempty chain default_pbs m f :
  fill_mux ssv_fuel chain default_pbs m = Ok f →
  mux_relays f = mux_relays m ∧ mux_relays f ≠ [] ∧ validator_pubkeys f ≠ [] ∧
  mux_id f = mux_id m ∧
  mux_timeout_get_header_ms f = mux_timeout_get_header_ms m ∧
  mux_late_in_slot_time_ms f = mux_late_in_slot_time_ms m ∧
  validator_pubkeys m `prefix_of` validator_pubkeys f.
Proof.
  intros H. unfold fill_mux in H. inv_ok.
  repeat match goal with H : negb (bool_decide _) = true |- _ =>
    apply negb_true_iff, bool_decide_eq_false in H end.
  destruct (loader m); inv_ok; split_and!; try done. by apply prefix_app_r.
Qed.

(** the runtime configuration the source builds for a (filled) mux *)
Definition mux_runtime_spec default_pbs m (rt : RuntimeMuxConfig) : Prop :=
  rm_id rt = mux_id m ∧
  Forall2 (λ c r, relay_client_new c = Ok r) (mux_relays m) (rm_relays rt) ∧
  rm_config rt = with_header_timeouts default_pbs
    (default (timeout_get_header_ms default_pbs) (mux_timeout_get_header_ms m))
    (default (late_in_slot_time_ms default_pbs) (mux_late_in_slot_time_ms m)) ∧
  pbs_config_valid (rm_config rt).

Lemma runtime_mux_spec chain default_pbs m rt :
  runtime_mux chain default_pbs m = Ok rt → mux_runtime_spec default_pbs m rt.
Proof.
  intros H. unfold runtime_mux in H. inv_ok.
  match goal with H : try_map _ _ = Ok _ |- _ => apply try_map_ok in H end.
  match goal with H : pbs_config_validate _ _ = Ok ?u |- _ =>
    destruct u; apply pbs_config_validate_ok in H as [Hvalid _] end.
  by split_and!.
Qed.

Lemma validate_and_fill_ok (muxes : list MuxConfig) chain default_pbs configs :
  validate_and_fill ssv_fuel muxes chain default_pbs = Ok configs →
  ∃ filled,
    Forall2 (λ m f, fill_mux ssv_fuel chain default_pbs m = Ok f) muxes filled ∧
    NoDup (filled ≫= validator_pubkeys) ∧
    (∀ key, is_Some (configs !! key) ↔ ∃ f, f ∈ filled ∧ key ∈ validator_pubkeys f) ∧
    (∀ key rt f, configs !! key = Some rt → f ∈ filled → key ∈ validator_pubkeys f →
       mux_runtime_spec default_pbs f rt ∧ rm_relays rt ≠ []).
Proof.
  intros H. unfold validate_and_fill in H.
  apply result_bind_ok in H as (filled & Hfill & H).
  apply result_bind_ok in H as (seen & Huniq & H).
  apply try_map_ok in Hfill. apply insert_unique_fold in Huniq as [Hnd _].
  pose proof (insert_muxes_lookup _ _ _ _ _ Hnd (λ k _, lookup_empty k) H) as Hlook.
  exists filled. split_and!; [done|done| |].
  - intros key. split.
    + intros [rt [Hrt|(f & ? & ? & _)]%Hlook]; [by rewrite lookup_empty in Hrt|eauto].
    + intros (f & Hf & Hk). pose proof (try_fold_all_ok _ _ _ _ f H Hf) as (c & c' & Hc).
      unfold insert_mux in Hc. apply result_bind_ok in Hc as (rt & Hrt & _).
      exists rt. apply Hlook. right. eauto.
  - intros key rt f [Hrt|(f' & Hf' & Hk' & Hrt)]%Hlook Hf Hk; [by rewrite lookup_empty in Hrt|].
    assert (f' = f) as -> by (by eapply NoDup_bind_unique).
    pose proof (runtime_mux_spec _ _ _ _ Hrt) as Hspec. split; [done|].
    destruct Hspec as (_ & Hrel & _).
    apply list_elem_of_lookup in Hf as [i Hi].
    destruct (Forall2_lookup_r _ _ _ _ _ Hfill Hi) as (m & _ & Hm).
    apply fill_mux_nonempty in Hm as (_ & Hne & _).
    intros Hnil. rewrite Hnil in Hrel. by inversion Hrel.
Qed.

Lemma validate_and_fill_lookup muxes chain default_pbs configs key rt :
  validate_and_fill ssv_fuel muxes chain default_pbs = Ok configs →
  configs !! key = Some rt →
  ∃ f, mux_runtime_spec default_pbs f rt ∧ rm_relays rt ≠ [].
Proof.
  intros (filled & _ & _ & Hdom & Hrt)%validate_and_fill_ok Hk.
  destruct (proj1 (Hdom key) (ex_intro _ rt Hk)) as (f & Hf & Hkey). exists f. by eapply Hrt.
Qed.

(** C27: The mux table.  When the muxes validate, their keys (configured and loaded) are
    pairwise distinct; a validator key is in the table exactly when it belongs to one of
    the muxes, and then it gets that mux's relays (at least one), that mux's two
    [get_header] timeouts where it sets them and every other setting of the default
    configuration; the resulting configuration is valid. *)
Theorem mux_table_spec (muxes : list MuxConfig) chain default_pbs configs :
  validate_and_fill ssv_fuel muxes chain default_pbs = Ok configs →
  ∃ filled,
    Forall2 (λ m f, fill_mux ssv_fuel chain default_pbs m = Ok f) muxes filled ∧
    NoDup (filled ≫= validator_pubkeys) ∧
    (∀ key, is_Some (configs !! key) ↔ ∃ f, f ∈ filled ∧ key ∈ validator_pubkeys f) ∧
    (∀ key rt f, configs !! key = Some rt → f ∈ filled → key ∈ validator_pubkeys f →
       mux_runtime_spec default_pbs f rt ∧ rm_relays rt ≠ []).
Proof. apply validate_and_fill_ok. Qed.
End MuxLemmas.

(** Two muxes: one lists its key, the other loads its keys from a file (with a
    duplicate) and lowers its timeout. *)
Definition sample_muxes : list MuxConfig :=
  [ {| mux_id := "a"; mux_relays := [sample_relay_config]; validator_pubkeys := [sample_key 9];
       loader := None; mux_timeout_get_header_ms := None; mux_late_in_slot_time_ms := None |};
    {| mux_id := "b"; mux_relays := [sample_relay_config]; validator_pubkeys := [];
       loader := Some (LoaderFile "keys.json"); mux_timeout_get_header_ms := Some 500;
       mux_late_in_slot_time_ms := None |} ].
Lemma mux_table_spec_witness :
  ∃ configs filled,
    validate_and_fill (CE := sample_env) (UL := plain_urls) (HL := plain_headers) 0
      sample_muxes Mainnet default_pbs_config = Ok configs ∧
    NoDup (filled ≫= validator_pubkeys) ∧
    (is_Some (configs !! sample_key 2) ↔
     ∃ f, f ∈ filled ∧ sample_key 2 ∈ validator_pubkeys f).
Proof.
  assert (is_ok (validate_and_fill (CE := sample_env) (UL := plain_urls) (HL := plain_headers) 0
    sample_muxes Mainnet default_pbs_config) = true) as Hok by (vm_compute; reflexivity).
  destruct (validate_and_fill 0 sample_muxes Mainnet default_pbs_config) as [configs|e] eqn:E;
    [|discriminate Hok].
  destruct (mux_table_spec 0 sample_muxes Mainnet default_pbs_config configs E)
    as (filled & _ & Hnd & Hin & _).
  exists configs, filled. split; [reflexivity|]. split; [exact Hnd|exact (Hin (sample_key 2))].
Defined.
