(* ===== verification/PbsState.v ===== *)
(** * The state of the PBS module

    Models [crates/pbs/src/state.rs], the runtime configuration [PbsModuleConfig] of
    [crates/common/src/config/pbs.rs] and the event publisher of
    [crates/common/src/pbs/event.rs]. *)

From S2P Require Import Prelude Bytes Text Chain Signature PbsTypes Http Relay SignerClient.
From S2P Require Import PbsConfig.

(** ** Builder events *)

Definition BUILDER_URLS_ENV : string := "CB_BUILDER_URLS".

Record BuilderEventPublisher := { publisher_endpoints : list Url }.

(** [BuilderEventPublisher::new] *)
Definition publisher_new {CE : ConfigEnv} (endpoints : list Url) (http_timeout : Z)
    : Result Report BuilderEventPublisher :=
  _ ← map_err Message (http_client http_timeout);
  Ok {| publisher_endpoints := endpoints |}.

(** [BuilderEventPublisher::new_from_env] *)
Definition publisher_new_from_env {CE : ConfigEnv} {UL : UrlLib}
    : Result Report (option BuilderEventPublisher) :=
  match load_optional_env_var BUILDER_URLS_ENV with
  | Some joined =>
      endpoints ← try_map (λ base,
                    url ← map_err Message (url_parse (string_of_bytes (trim_bytes base)));
                    map_err Message (url_join url BUILDER_EVENTS_PATH))
                  (split_bytes x2c (trim_bytes (bytes_of_string joined)));
      publisher ← publisher_new endpoints HTTP_TIMEOUT_SECONDS_DEFAULT;
      Ok (Some publisher)
  | None => Ok None
  end.

(** [publish]: one detached post per endpoint; failures are only logged *)
Definition publish (p : BuilderEventPublisher) (event : BuilderEvent) : list Effect :=
  (λ endpoint, Published endpoint event) <$> publisher_endpoints p.
Definition n_subscribers (p : BuilderEventPublisher) : nat := length (publisher_endpoints p).

(** ** Runtime configuration and state *)

Record SocketAddr := { sa_ip : string; sa_port : Z }.

Record PbsModuleConfig := {
  chain : Chain;
  endpoint : SocketAddr;
  pmc_pbs_config : PbsConfig;
  relays : list RelayClient;
  all_relays : list RelayClient;
  signer_client : option SignerClient;
  event_publisher : option BuilderEventPublisher;
  muxes : option (gmap bytes RuntimeMuxConfig);
}.

Record PbsState (S : Type) := { config : PbsModuleConfig; data : S }.
Arguments config {S} _.
Arguments data {S} _.

Definition pbs_state_new (c : PbsModuleConfig) : PbsState () := {| config := c; data := () |}.
Definition with_data {S} (self : PbsState ()) (d : S) : PbsState S :=
  {| data := d; config := config self |}.

Section State.
Context {S : Type}.
Implicit Types self : PbsState S.

Definition publish_event self (e : BuilderEvent) : list Effect :=
  match event_publisher (config self) with Some p => publish p e | None => [] end.
Definition pbs_config self : PbsConfig := pmc_pbs_config (config self).
Definition state_all_relays self : list RelayClient := all_relays (config self).
Definition mux_config_and_relays self (pubkey : BlsPublicKey)
    : PbsConfig * list RelayClient * option string :=
  match muxes (config self) ≫= (λ m, m !! pubkey) with
  | Some mux => (rm_config mux, rm_relays mux, Some (rm_id mux))
  | None => (pbs_config self, relays (config self), None)
  end.
Definition extra_validation_enabled self : bool :=
  cfg_extra_validation_enabled (pmc_pbs_config (config self)).
End State.

(** ** All relays, by URL

    The relays used for everything but [get_header]: those of the muxes and the default
    ones, one per URL. *)
Section AllRelays.
Context {HOk : HashOrder bytes} {HOu : HashOrder string}.

Definition insert_relays (m : gmap string RelayClient) (l : list RelayClient)
    : gmap string RelayClient :=
  fold_left (λ m relay, <[relay_url relay := relay]> m) l m.

(** the code of [load_pbs_config] between the relay clients and the [PbsModuleConfig] *)
Definition collect_all_relays (muxes : option (gmap bytes RuntimeMuxConfig))
    (relay_clients : list RelayClient) : list RelayClient :=
  let m := match muxes with
           | Some muxes =>
               fold_left (λ m '(_, mux), insert_relays m (rm_relays mux)) (hash_iter muxes) ∅
           | None => ∅
           end in
  hash_values (insert_relays m relay_clients).

Lemma insert_relays_lookup m l u :
  insert_relays m l !! u =
  match last (filter (λ r, relay_url r = u) l) with Some r => Some r | None => m !! u end.
Proof.
  unfold insert_relays. induction l as [|r l IH] using rev_ind; simpl; [done|].
  rewrite fold_left_app, filter_app. simpl. rewrite filter_cons, filter_nil.
  destruct (decide (relay_url r = u)) as [Hu|Hne].
  - rewrite last_snoc. subst. apply lookup_insert_eq.
  - rewrite app_nil_r. by rewrite lookup_insert_ne.
Qed.

Lemma insert_relays_urls m l :
  map_Forall (λ u r, relay_url r = u) m → map_Forall (λ u r, relay_url r = u) (insert_relays m l).
Proof.
  intros Hm u r. rewrite insert_relays_lookup. destruct (last _) as [r'|] eqn:E; [|apply Hm].
  intros [= <-]. apply last_Some_elem_of, list_elem_of_filter in E. naive_solver.
Qed.
Lemma insert_relays_dom m l u :
  is_Some (insert_relays m l !! u) ↔ is_Some (m !! u) ∨ u ∈ relay_url <$> l.
Proof.
  rewrite insert_relays_lookup. rewrite list_elem_of_fmap.
  destruct (last _) as [r'|] eqn:E.
  - apply last_Some_elem_of, list_elem_of_filter in E. naive_solver.
  - apply last_None in E. split; [naive_solver|]. intros [?|(r & -> & Hr)]; [done|].
    assert (r ∈ filter (λ r', relay_url r' = relay_url r) l) as Hin
      by (by apply list_elem_of_filter). rewrite E in Hin. by apply not_elem_of_nil in Hin.
Qed.

(** the map after the loop over the muxes *)
Definition mux_relay_map (muxes : option (gmap bytes RuntimeMuxConfig)) : gmap string RelayClient :=
  match muxes with
  | Some muxes => fold_left (λ m '(_, mux), insert_relays m (rm_relays mux)) (hash_iter muxes) ∅
  | None => ∅
  end.

Lemma mux_relays_fold (l : list (bytes * RuntimeMuxConfig)) m :
  map_Forall (λ u r, relay_url r = u) m →
  let m' := fold_left (λ m '(_, mux), insert_relays m (rm_relays mux)) l m in
  map_Forall (λ u r, relay_url r = u) m' ∧
  (∀ u, is_Some (m' !! u) ↔ is_Some (m !! u) ∨ ∃ kv, kv ∈ l ∧ u ∈ relay_url <$> rm_relays kv.2) ∧
  (∀ u r, m' !! u = Some r → m !! u = Some r ∨ ∃ kv, kv ∈ l ∧ r ∈ rm_relays kv.2).
Proof.
  revert m. induction l as [|[k mux] l IH]; intros m Hm; simpl.
  { split; [done|]. split; [set_solver|auto]. }
  destruct (IH (insert_relays m (rm_relays mux)) (insert_relays_urls _ _ Hm)) as (H1 & H2 & H3).
  split; [done|]. split.
  - intros u. rewrite H2, insert_relays_dom. set_solver.
  - intros u r [Hr|(kv & ? & ?)]%H3; [|right; exists kv; split; [by right|done]].
    rewrite insert_relays_lookup in Hr. destruct (last _) as [r'|] eqn:E; [|by left].
    injection Hr as <-. apply last_Some_elem_of, list_elem_of_filter in E as [_ E].
    right. exists (k, mux). split; [by left|done].
Qed.

Lemma mux_relay_map_spec muxes :
  map_Forall (λ u r, relay_url r = u) (mux_relay_map muxes) ∧
  (∀ u, is_Some (mux_relay_map muxes !! u) ↔
     ∃ key mux, default ∅ muxes !! key = Some mux ∧ u ∈ relay_url <$> rm_relays mux) ∧
  (∀ u r, mux_relay_map muxes !! u = Some r →
     ∃ key mux, default ∅ muxes !! key = Some mux ∧ r ∈ rm_relays mux).
Proof.
  destruct muxes as [muxes|]; simpl.
  - destruct (mux_relays_fold (hash_iter muxes) ∅ (map_Forall_empty _)) as (H1 & H2 & H3).
    split; [done|]. split.
    + intros u. rewrite H2, lookup_empty. split.
      * intros [[? [=]]|([k mux] & Hin%hash_iter_elem & Hu)]. eauto.
      * intros (k & mux & Hin%hash_iter_elem & Hu). right. by exists (k, mux).
    + intros u r [Hr|([k mux] & Hin%hash_iter_elem & Hr)]%H3; [by rewrite lookup_empty in Hr|eauto].
  - split; [apply map_Forall_empty|]. split.
    + intros u. split; [by intros [? Hu]; rewrite lookup_empty in Hu|].
      intros (? & ? & Hu & _). by rewrite lookup_empty in Hu.
    + intros u r Hu. by rewrite lookup_empty in Hu.
Qed.

(** A map keyed by URL lists its relays in the order of its keys *)
Lemma hash_values_urls (m : gmap string RelayClient) :
  map_Forall (λ u r, relay_url r = u) m → relay_url <$> (hash_iter m).*2 = (hash_iter m).*1.
Proof.
  intros Hm. rewrite <- list_fmap_compose. apply list_fmap_ext. intros i [u r] Hi.
  apply list_elem_of_lookup_2, hash_iter_elem in Hi. simpl. by apply Hm.
Qed.

Lemma collect_all_relays_urls muxes relay_clients u :
  u ∈ relay_url <$> collect_all_relays muxes relay_clients ↔
  u ∈ relay_url <$> relay_clients ∨
  ∃ key mux, default ∅ muxes !! key = Some mux ∧ u ∈ relay_url <$> rm_relays mux.
Proof.
  destruct (mux_relay_map_spec muxes) as (Hurl & Hdom & _).
  pose proof (insert_relays_urls _ relay_clients Hurl) as Hm.
  trans (u ∈ hash_keys (insert_relays (mux_relay_map muxes) relay_clients)).
  - unfold collect_all_relays. fold (mux_relay_map muxes). unfold hash_values, hash_keys.
    by rewrite hash_values_urls.
  - rewrite hash_keys_elem, insert_relays_dom, Hdom. tauto.
Qed.

(** The list of all relays.  It has one relay per URL, covers exactly the URLs of the
    default relays and of the mux relays, and for a URL that is configured both ways it
    keeps the (last) default definition. *)
Theorem all_relays_by_url (muxes : option (gmap bytes RuntimeMuxConfig))
    (relay_clients : list RelayClient) :
  let res := collect_all_relays muxes relay_clients in
  NoDup (relay_url <$> res) ∧
  (∀ u, u ∈ relay_url <$> res ↔
     u ∈ relay_url <$> relay_clients ∨
     ∃ key mux, default ∅ muxes !! key = Some mux ∧ u ∈ relay_url <$> rm_relays mux) ∧
  (∀ r, r ∈ res →
     last (filter (λ r', relay_url r' = relay_url r) relay_clients) = Some r ∨
     (relay_url r ∉ relay_url <$> relay_clients ∧
      ∃ key mux, default ∅ muxes !! key = Some mux ∧ r ∈ rm_relays mux)).
Proof.
  intros res. destruct (mux_relay_map_spec muxes) as (Hurl & Hdom & Hfrom).
  set (m := insert_relays (mux_relay_map muxes) relay_clients).
  assert (res = (hash_iter m).*2) as Hres by done. clearbody res. subst res.
  assert (map_Forall (λ u r, relay_url r = u) m) as Hm by (by apply insert_relays_urls).
  pose proof (hash_values_urls m Hm) as Hkeys. rewrite Hkeys. split_and!.
  - apply hash_iter_nodup.
  - intros u. rewrite <- Hkeys. apply collect_all_relays_urls.
  - intros r ([u r'] & -> & Hin%hash_iter_elem)%list_elem_of_fmap. simpl.
    rewrite (Hm u r' Hin). unfold m in Hin.
    pose proof (insert_relays_lookup (mux_relay_map muxes) relay_clients u) as Hl.
    rewrite Hin in Hl. destruct (last _) as [r|] eqn:E; [by left; rewrite Hl|].
    right. split; [|by eapply Hfrom].
    apply last_None in E. intros (r & -> & Hr)%list_elem_of_fmap.
    assert (r ∈ filter (λ r', relay_url r' = relay_url r) relay_clients) as Hin'
      by (by apply list_elem_of_filter). rewrite E in Hin'. by apply not_elem_of_nil in Hin'.
Qed.
End AllRelays.

(** A state with given relays and a given configuration, and one subscriber. *)
Definition sample_state (rs : list RelayClient) (c : PbsConfig) : PbsState () := pbs_state_new {|
  chain := Holesky; endpoint := {| sa_ip := "127.0.0.1"; sa_port := 18550 |};
  pmc_pbs_config := c; relays := rs; all_relays := rs; signer_client := None;
  event_publisher := Some {| publisher_endpoints := ["http://events/builder_events"%string] |};
  muxes := None |}.
