(* ===== verification/GetHeader.v ===== *)
(** * [get_header]

    Models [crates/pbs/src/mev_boost/get_header.rs] and [crates/pbs/src/utils.rs]: the
    requests to the relays (with timing games), the validation of their answers and the
    choice of the best bid.

    What happens outside the process is a [GetHeaderEnv]: the wall clock, the answer to
    the [k]-th request of each relay, whether the parent block had been stored when that
    request looked for it, and whether its task could be joined.  A relay whose timing
    game never ends keeps the call from returning: [None] below means that no answer was
    produced within the given number of requests per relay. *)

From stdpp Require Import pretty.
From S2P Require Import Prelude Bytes Chain Signature PbsTypes Http Relay PbsConfig PbsState.

(** ** Gas limit ([utils.rs]) *)

Definition GAS_LIMIT_ADJUSTMENT_FACTOR : Z := 1024.
Definition GAS_LIMIT_MINIMUM : Z := 5000.

Definition check_gas_limit (gas_limit parent_gas_limit : Z) : bool :=
  let max_adjustment_delta := parent_gas_limit / GAS_LIMIT_ADJUSTMENT_FACTOR in
  if gas_limit >=? add64 parent_gas_limit max_adjustment_delta then false
  else if gas_limit <=? wrap64 (parent_gas_limit - max_adjustment_delta) then false
  else if gas_limit <? GAS_LIMIT_MINIMUM then false
  else true.

(** ** Validation of an answer *)

(** the parts of an execution-layer block the module reads *)
Record Block := { blk_number : Z; blk_gas_limit : Z }.

Record HeaderData := {
  hd_block_hash : B256; hd_parent_hash : B256; hd_tx_root : B256; hd_value : Z; hd_timestamp : Z;
}.

Definition validate_header_data (header_data : HeaderData) (chain : Chain)
    (expected_parent_hash : B256) (minimum_bid_wei slot : Z) : Result ValidationError () :=
  if bool_decide (hd_block_hash header_data = B256_ZERO) then Err EmptyBlockhash
  else if negb (bool_decide (expected_parent_hash = hd_parent_hash header_data)) then
    Err (ParentHashMismatch expected_parent_hash (hd_parent_hash header_data))
  else if bool_decide (hd_tx_root header_data = EMPTY_TX_ROOT_HASH) then Err EmptyTxRoot
  else if hd_value header_data <? minimum_bid_wei then
    Err (BidTooLow minimum_bid_wei (hd_value header_data))
  else
    let expected_timestamp := timestamp_of_slot_start_sec slot chain in
    if negb (expected_timestamp =? hd_timestamp header_data) then
      Err (TimestampMismatch expected_timestamp (hd_timestamp header_data))
    else Ok ().

Definition extra_validation (parent_block : Block) (signed_header : GetHeaderResponse)
    : Result ValidationError () :=
  if negb (header_block_number signed_header =? add64 (blk_number parent_block) 1) then
    Err (BlockNumberMismatch (blk_number parent_block) (header_block_number signed_header))
  else if negb (check_gas_limit (header_gas_limit signed_header) (blk_gas_limit parent_block)) then
    Err (GasLimit (blk_gas_limit parent_block) (header_gas_limit signed_header))
  else Ok ().

Section ValidateSignature.
Context {TH : TreeHashLib} {BL : BlsLib}.

Definition validate_signature {T} `{TreeHash T} (chain : Chain)
    (expected_relay_pubkey received_relay_pubkey : BlsPublicKey) (message : T)
    (signature : BlsSignature) : Result ValidationError () :=
  if negb (bool_decide (expected_relay_pubkey = received_relay_pubkey)) then
    Err (PubkeyMismatch expected_relay_pubkey received_relay_pubkey)
  else
    map_err Sigverify
      (verify_signed_message chain received_relay_pubkey message signature None
         APPLICATION_BUILDER_DOMAIN).
End ValidateSignature.

(** ** The requests *)

Record RequestContext := { rx_url : Url; rx_timeout_ms : Z; rx_headers : gmap string HeaderValue }.

(** [v_parent_block] is the content of the shared cell when the request reads it. *)
Record ValidationContext := {
  v_skip_sigverify : bool; v_min_bid_wei : Z; v_extra_validation_enabled : bool;
  v_parent_block : option Block;
}.

(** what the [k]-th request of one relay meets *)
Record RelayEnv := {
  re_now : nat → Z;
  re_send : nat → HttpRequest → SendOutcome;
  re_parent_stored : nat → bool;
  re_joined : nat → bool;
}.

Record GetHeaderEnv := {
  ge_now_ms : Z;
  ge_relay : nat → RelayEnv;
  ge_block_by_hash : Url → B256 → Result string (option Block);
}.

(** [serde_json::from_slice::<GetHeaderResponse>] *)
Class HeaderJson := { get_header_from_slice : bytes → Result string GetHeaderResponse }.

Definition as_i64 (x : Z) : Z := if x <? 2 ^ 63 then x else x - 2 ^ 64.
(** [(value / 10^9).try_into::<i64>().unwrap_or_default()] *)
Definition value_gwei (value : Z) : Z :=
  let g := value / 1000000000 in if g <? 2 ^ 63 then g else 0.

(** the requests of a timing game: the timeout of each, until not enough time is left *)
Fixpoint tg_timeouts (fuel : nat) (timeout_left_ms send_freq_ms : Z) : option (list Z) :=
  match fuel with
  | O => None
  | S fuel =>
      if timeout_left_ms >? send_freq_ms then
        rest ← tg_timeouts fuel (saturating_sub timeout_left_ms send_freq_ms) send_freq_ms;
        Some (timeout_left_ms :: rest)
      else Some [timeout_left_ms]
  end.

Section Requests.
Context {TH : TreeHashLib} {BL : BlsLib} {UL : UrlLib} {HO : HashOrder string}.
Context {HJ : HeaderJson} {MH : TreeHash ExecutionPayloadHeaderMessageElectra}.

Definition validate_response (params : GetHeaderParams) (relay : RelayClient) (chain : Chain)
    (validation : ValidationContext) (response : GetHeaderResponse)
    : Result ValidationError () :=
  _ ← match response with
      | Electra res =>
          let header_data := {|
            hd_block_hash := eph_block_hash (hm_header (seph_message res));
            hd_parent_hash := eph_parent_hash (hm_header (seph_message res));
            hd_tx_root := eph_transactions_root (hm_header (seph_message res));
            hd_value := hm_value (seph_message res);
            hd_timestamp := eph_timestamp (hm_header (seph_message res)) |} in
          _ ← validate_header_data header_data chain (ghp_parent_hash params)
                (v_min_bid_wei validation) (ghp_slot params);
          if negb (v_skip_sigverify validation) then
            validate_signature chain (relay_pubkey relay) (hm_pubkey (seph_message res))
              (seph_message res) (seph_signature res)
          else Ok ()
      end;
  if v_extra_validation_enabled validation then
    match v_parent_block validation with
    | Some parent_block => extra_validation parent_block response
    | None => Ok ()
    end
  else Ok ().

Definition send_one_get_header (params : GetHeaderParams) (relay : RelayClient) (chain : Chain)
    (req_config : RequestContext) (validation : ValidationContext)
    (now : Z) (send : HttpRequest → SendOutcome) : Relayed (Z * option GetHeaderResponse) :=
  let start_request_time := now in
  let request := {|
    rq_method := GET; rq_url := rx_url req_config; rq_timeout_ms := rx_timeout_ms req_config;
    rq_headers := <[to_ascii_lowercase HEADER_START_TIME_UNIX_MS :=
                      bytes_of_string (pretty start_request_time)]> (rx_headers req_config);
    rq_body := NoBody |} in
  _ ← tell (Sent (rl_id relay) request);
  match send request with
  | Err err =>
      _ ← tell (RelayStatusCode TIMEOUT_ERROR_CODE_STR GET_HEADER_ENDPOINT_TAG (rl_id relay));
      throw (Reqwest err)
  | Ok res =>
      _ ← tell (RelayLatency GET_HEADER_ENDPOINT_TAG (rl_id relay));
      let code := res_status res in
      _ ← tell (RelayStatusCode (status_str code) GET_HEADER_ENDPOINT_TAG (rl_id relay));
      response_bytes ← lift (read_body res MAX_SIZE_GET_HEADER_RESPONSE);
      if negb (is_success code) then
        throw (RelayResponse (from_utf8_lossy response_bytes) code)
      else if code =? STATUS_NO_CONTENT then mret (start_request_time, None)
      else
        response ← lift (map_err (λ err, JsonDecode err (from_utf8_lossy response_bytes))
                           (get_header_from_slice response_bytes));
        _ ← lift (map_err Validation (validate_response params relay chain validation response));
        mret (start_request_time, Some response)
  end.

(** [send_timed_get_header]; [validation k] is the context the [k]-th request sees *)
Definition send_timed_get_header (fuel : nat) (params : GetHeaderParams) (relay : RelayClient)
    (chain : Chain) (headers : gmap string HeaderValue) (ms_into_slot timeout_left_ms : Z)
    (validation : nat → ValidationContext) (env : RelayEnv)
    : option (Relayed (option GetHeaderResponse)) :=
  match get_header_url relay (ghp_slot params) (ghp_parent_hash params) (ghp_pubkey params) with
  | Err e => Some (throw e)
  | Ok url =>
      let request k timeout :=
        send_one_get_header params relay chain
          {| rx_timeout_ms := timeout; rx_url := url; rx_headers := headers |}
          (validation k) (re_now env k) (re_send env k) in
      let timeout_left_ms :=
        match enable_timing_games (rl_config relay), target_first_request_ms (rl_config relay) with
        | true, Some target_ms =>
            let delay := saturating_sub target_ms ms_into_slot in
            if delay >? 0 then saturating_sub timeout_left_ms delay else timeout_left_ms
        | _, _ => timeout_left_ms
        end in
      match enable_timing_games (rl_config relay), frequency_get_header_ms (rl_config relay) with
      | true, Some send_freq_ms =>
          timeouts ← tg_timeouts fuel timeout_left_ms send_freq_ms;
          let results := imap request timeouts in
          let received :=
            omap (λ '(joined, res),
                    match joined, outcome res with
                    | true, Ok (start_time, Some header) => Some (start_time, Some header)
                    | _, _ => None
                    end) (imap (λ k res, (re_joined env k, res)) results) in
          Some (mkTraced (results ≫= effects)
                  match max_by_key fst received with
                  | Some (_, maybe_header) => Ok maybe_header
                  | None => Err (RelayResponse "no headers received" TIMEOUT_ERROR_CODE)
                  end)
      | _, _ => Some (snd <$> request 0%nat timeout_left_ms)
      end
  end.

(** [fetch_parent_block]: what the task leaves in the cell *)
Definition fetch_parent_block (env : GetHeaderEnv) (rpc : Url) (parent_hash : B256)
    : option Block :=
  match ge_block_by_hash env rpc parent_hash with
  | Ok maybe_block => maybe_block
  | Err _ => None
  end.
End Requests.

Section GetHeader.
Context {TH : TreeHashLib} {BL : BlsLib} {UL : UrlLib} {HL : HeaderLib} {HO : HashOrder string}.
Context {HJ : HeaderJson} {MH : TreeHash ExecutionPayloadHeaderMessageElectra}.
Context {S : Type}.

(** the cell as the [k]-th request of relay [i] finds it *)
Definition parent_block_seen (params : GetHeaderParams) (state : PbsState S) (env : GetHeaderEnv)
    (i k : nat) : option Block :=
  if extra_validation_enabled state then
    match rpc_url (pbs_config state) with
    | Some rpc =>
        if re_parent_stored (ge_relay env i) k
        then fetch_parent_block env rpc (ghp_parent_hash params) else None
    | None => None
    end
  else None.

Definition validation_context (params : GetHeaderParams) (state : PbsState S) (env : GetHeaderEnv)
    (i k : nat) : ValidationContext := {|
  v_skip_sigverify := skip_sigverify (pbs_config state);
  v_min_bid_wei := min_bid_wei (pbs_config state);
  v_extra_validation_enabled := extra_validation_enabled state;
  v_parent_block := parent_block_seen params state env i k;
|}.

(** the budget of the call *)
Definition max_timeout_ms (params : GetHeaderParams) (state : PbsState S) (env : GetHeaderEnv) : Z :=
  let ms := ms_into_slot (ge_now_ms env) (ghp_slot params) (chain (config state)) in
  let pbs_config := (mux_config_and_relays state (ghp_pubkey params)).1.1 in
  Z.min (timeout_get_header_ms pbs_config) (saturating_sub (late_in_slot_time_ms pbs_config) ms).

(** the metrics of one relay's result, and its bid *)
Definition bid_metrics (slot : Z) (relay : RelayClient)
    (res : Relayed (option GetHeaderResponse)) : list Effect :=
  match outcome res with
  | Ok (Some bid) =>
      [RelayLastSlot (rl_id relay) (as_i64 slot);
       RelayHeaderValue (rl_id relay) (value_gwei (header_value bid))]
  | _ => []
  end.
Definition bid_of (res : Relayed (option GetHeaderResponse)) : option GetHeaderResponse :=
  match outcome res with Ok (Some bid) => Some bid | _ => None end.

(** the handles: one call of [send_timed_get_header] per relay *)
Definition relay_results (fuel : nat) (params : GetHeaderParams)
    (send_headers : gmap string HeaderValue) (state : PbsState S) (env : GetHeaderEnv)
    : option (list (Relayed (option GetHeaderResponse))) :=
  let ms := ms_into_slot (ge_now_ms env) (ghp_slot params) (chain (config state)) in
  let relays := (mux_config_and_relays state (ghp_pubkey params)).1.2 in
  mapM id (imap (λ i relay,
    send_timed_get_header fuel params relay (chain (config state)) send_headers ms
      (max_timeout_ms params state env) (validation_context params state env i)
      (ge_relay env i)) relays).

Definition get_header (fuel : nat) (params : GetHeaderParams)
    (req_headers : gmap string HeaderValue) (state : PbsState S) (env : GetHeaderEnv)
    : option (Traced Effect string (option GetHeaderResponse)) :=
  let relays := (mux_config_and_relays state (ghp_pubkey params)).1.2 in
  if max_timeout_ms params state env =? 0 then Some (mret None)
  else
    match get_user_agent_with_version req_headers with
    | Err e => Some (throw e)
    | Ok user_agent =>
        let send_headers := {[ USER_AGENT := user_agent ]} in
        results ← relay_results fuel params send_headers state env;
        let relay_bids := omap bid_of results in
        Some (mkTraced
                ((results ≫= effects)
                 ++ (zip relays results ≫= λ '(relay, res), bid_metrics (ghp_slot params) relay res))
                (Ok (max_by_key header_value relay_bids)))
    end.
End GetHeader.

(** ** The gas limit *)

(** The gas-limit rule.  On 64-bit values the check accepts exactly the limits that
    are at least 5000 and differ from the parent's by less than a 1024th of it, as the
    execution specification requires, as long as the parent's limit plus that delta fits
    64 bits; above that the sum wraps and every limit is rejected. *)
Theorem check_gas_limit_spec (gas_limit parent : Z) :
  is_u64 gas_limit → is_u64 parent →
  check_gas_limit gas_limit parent = true ↔
  Z.abs (gas_limit - parent) < parent / 1024 ∧ 5000 ≤ gas_limit ∧
  parent + parent / 1024 < u64_bound.
Proof.
  unfold is_u64, check_gas_limit, GAS_LIMIT_ADJUSTMENT_FACTOR, GAS_LIMIT_MINIMUM. intros Hg Hp.
  assert (0 ≤ parent / 1024 ≤ parent) as Hd.
  { split; [apply Z.div_pos; lia|]. apply Z.div_le_upper_bound; lia. }
  set (d := parent / 1024) in *.
  assert (d < u64_bound) by lia.
  rewrite (wrap64_id (parent - d)) by (unfold is_u64; lia).
  destruct (decide (parent + d < u64_bound)) as [Hfit|Hwrap].
  - rewrite add64_no_overflow by (unfold is_u64; lia).
    destruct (Z.geb_spec gas_limit (parent + d)), (Z.leb_spec gas_limit (parent - d)),
      (Z.ltb_spec gas_limit 5000); split; try done; lia.
  - assert (add64 parent d = parent + d - u64_bound) as ->.
    { unfold add64, wrap64. symmetry. apply (Z.mod_unique_pos _ _ 1); lia. }
    assert (d ≤ parent / 2) by (apply Z.div_le_compat_l; lia).
    assert (2 * (parent / 2) ≤ parent) by (apply Z.mul_div_le; lia).
    destruct (Z.geb_spec gas_limit (parent + d - u64_bound)),
      (Z.leb_spec gas_limit (parent - d)); split; try done; lia.
Qed.

Lemma check_gas_limit_spec_witness :
  is_u64 30029295 ∧ is_u64 30000000 ∧ check_gas_limit 30029295 30000000 = true.
Proof.
  assert (is_u64 30029295 ∧ is_u64 30000000) as [H1 H2] by (unfold is_u64, u64_bound; lia).
  split_and!; [done..|]. apply (check_gas_limit_spec 30029295 30000000 H1 H2).
  split_and!; vm_compute; congruence.
Defined.

(** ** What an accepted bid satisfies *)

Definition header_timestamp (r : GetHeaderResponse) : Z :=
  match r with Electra d => eph_timestamp (hm_header (seph_message d)) end.
Definition header_message (r : GetHeaderResponse) : ExecutionPayloadHeaderMessageElectra :=
  match r with Electra d => seph_message d end.

Section Acceptable.
Context {TH : TreeHashLib} {BL : BlsLib} {MH : TreeHash ExecutionPayloadHeaderMessageElectra}.

(** The specification of validation: the bid builds on the requested parent for the
    requested slot, carries a block, pays at least the minimum, is signed by the relay's
    configured key (unless verification is off), and matches the parent block when
    extra validation is on and the block is there. *)
Definition acceptable (params : GetHeaderParams) (relay : RelayClient) (chain : Chain)
    (v : ValidationContext) (bid : GetHeaderResponse) : Prop :=
  header_block_hash bid ≠ B256_ZERO ∧
  header_parent_hash bid = ghp_parent_hash params ∧
  header_transactions_root bid ≠ EMPTY_TX_ROOT_HASH ∧
  v_min_bid_wei v ≤ header_value bid ∧
  header_timestamp bid = timestamp_of_slot_start_sec (ghp_slot params) chain ∧
  (v_skip_sigverify v = false →
     header_pubkey bid = relay_pubkey relay ∧
     verify_signed_message chain (relay_pubkey relay) (header_message bid) (header_signature bid)
       None APPLICATION_BUILDER_DOMAIN = Ok ()) ∧
  (v_extra_validation_enabled v = true → ∀ parent, v_parent_block v = Some parent →
     header_block_number bid = add64 (blk_number parent) 1 ∧
     check_gas_limit (header_gas_limit bid) (blk_gas_limit parent) = true).

Lemma validate_header_data_ok hd chain parent min slot :
  validate_header_data hd chain parent min slot = Ok () ↔
  hd_block_hash hd ≠ B256_ZERO ∧ hd_parent_hash hd = parent ∧
  hd_tx_root hd ≠ EMPTY_TX_ROOT_HASH ∧ min ≤ hd_value hd ∧
  hd_timestamp hd = timestamp_of_slot_start_sec slot chain.
Proof.
  unfold validate_header_data.
  repeat case_bool_decide; simpl; try naive_solver.
  destruct (Z.ltb_spec (hd_value hd) min); [naive_solver lia|].
  destruct (Z.eqb_spec (timestamp_of_slot_start_sec slot chain) (hd_timestamp hd)); simpl;
    naive_solver.
Qed.

Lemma validate_signature_ok chain expected received message sig :
  validate_signature chain expected received message sig = Ok () ↔
  received = expected ∧
  verify_signed_message chain expected message sig None APPLICATION_BUILDER_DOMAIN = Ok ().
Proof.
  unfold validate_signature. case_bool_decide; simpl; [|naive_solver].
  subst. rewrite map_err_ok. naive_solver.
Qed.

Lemma extra_validation_ok parent bid :
  extra_validation parent bid = Ok () ↔
  header_block_number bid = add64 (blk_number parent) 1 ∧
  check_gas_limit (header_gas_limit bid) (blk_gas_limit parent) = true.
Proof.
  unfold extra_validation.
  destruct (Z.eqb_spec (header_block_number bid) (add64 (blk_number parent) 1)); simpl;
    destruct (check_gas_limit _ _); simpl; naive_solver.
Qed.

Lemma validate_response_ok params relay chain v bid :
  validate_response params relay chain v bid = Ok () ↔ acceptable params relay chain v bid.
Proof.
  destruct bid as [res]. unfold validate_response, acceptable. simpl.
  split.
  - intros ([] & ([] & Hdata & Hsig)%result_bind_ok & Hextra)%result_bind_ok.
    apply validate_header_data_ok in Hdata as (H1 & H2 & H3 & H4 & H5). simpl in *.
    split_and!; try done.
    + intros Hskip. rewrite Hskip in Hsig. by apply validate_signature_ok in Hsig.
    + intros Hx parent Hparent. rewrite Hx, Hparent in Hextra. by apply extra_validation_ok in Hextra.
  - intros (H1 & H2 & H3 & H4 & H5 & Hsig & Hextra). apply result_bind_ok. exists (). split.
    + apply result_bind_ok. exists (). split; [by apply validate_header_data_ok|].
      destruct (v_skip_sigverify v); [done|]. by apply validate_signature_ok, Hsig.
    + destruct (v_extra_validation_enabled v); [|done].
      destruct (v_parent_block v) as [parent|]; [|done]. by apply extra_validation_ok, Hextra.
Qed.
End Acceptable.

(** ** One request *)

Section RequestLemmas.
Context {TH : TreeHashLib} {BL : BlsLib} {UL : UrlLib} {HO : HashOrder string}.
Context {HJ : HeaderJson} {MH : TreeHash ExecutionPayloadHeaderMessageElectra}.

(** the request was answered with this bid *)
Definition answered_with (send : HttpRequest → SendOutcome) (request : HttpRequest)
    (bid : GetHeaderResponse) : Prop :=
  ∃ res body, send request = Ok res ∧ is_success (res_status res) = true ∧
    res_status res ≠ STATUS_NO_CONTENT ∧
    read_body res MAX_SIZE_GET_HEADER_RESPONSE = Ok body ∧ get_header_from_slice body = Ok bid.

(** the request that is sent at time [now] *)
Definition header_request (rx : RequestContext) (now : Z) : HttpRequest := {|
  rq_method := GET; rq_url := rx_url rx; rq_timeout_ms := rx_timeout_ms rx;
  rq_headers := <[to_ascii_lowercase HEADER_START_TIME_UNIX_MS := bytes_of_string (pretty now)]>
                  (rx_headers rx);
  rq_body := NoBody |}.

(** A request yields a bid exactly when it was answered with it and the bid is
    acceptable; the bid is stamped with the time of the request. *)
Lemma send_one_bid params relay chain rx v now send t bid :
  outcome (send_one_get_header params relay chain rx v now send) = Ok (t, Some bid) ↔
  t = now ∧ answered_with send (header_request rx now) bid ∧ acceptable params relay chain v bid.
Proof.
  unfold send_one_get_header, answered_with. fold (header_request rx now). simpl.
  rewrite <- validate_response_ok. split.
  - destruct (send (header_request rx now)) as [res|err]; simpl; [|done].
    destruct (read_body res MAX_SIZE_GET_HEADER_RESPONSE) as [body|e] eqn:Hbody; simpl; [|done].
    destruct (is_success (res_status res)) eqn:Hsucc; simpl; [|done].
    destruct (Z.eqb_spec (res_status res) STATUS_NO_CONTENT) as [Hno|Hno]; simpl; [done|].
    destruct (get_header_from_slice body) as [bid'|e] eqn:Hparse; simpl; [|done].
    destruct (validate_response params relay chain v bid') as [[]|e] eqn:Hval; simpl; [|done].
    intros [= <- <-]. split; [done|]. split; [|done]. by exists res, body.
  - intros (-> & (res & body & -> & Hsucc & Hno & Hbody & Hparse) & Hval). simpl.
    rewrite Hbody, Hsucc. simpl. rewrite (proj2 (Z.eqb_neq _ _)) by done. simpl.
    rewrite Hparse. simpl. by rewrite Hval.
Qed.

(** The only request it sends *)
Lemma send_one_sent params relay chain rx v now send id request :
  Sent id request ∈ effects (send_one_get_header params relay chain rx v now send) ↔
  id = rl_id relay ∧ request = header_request rx now.
Proof.
  unfold send_one_get_header. fold (header_request rx now).
  split.
  - simpl. destruct (send (header_request rx now)) as [res|err]; simpl.
    + unfold mbind, traced_bind. repeat (case_match; simpl); set_solver.
    + set_solver.
  - intros [-> ->]. unfold mbind at 1, traced_bind at 1. simpl. by left.
Qed.

(** ** Timing games *)

(** With a positive frequency the game ends; its [k]-th request has the time that is
    left after [k] periods *)
Lemma tg_timeouts_ok fuel rem freq :
  0 < freq → 0 ≤ rem → rem / freq < Z.of_nat fuel →
  ∃ l, tg_timeouts fuel rem freq = Some l ∧
    ∀ k t, l !! k = Some t ↔
      t = rem - Z.of_nat k * freq ∧ (k = 0%nat ∨ Z.of_nat k * freq < rem).
Proof.
  intros Hf. revert rem. induction fuel as [|fuel IH]; intros rem Hl Hfuel.
  { pose proof (Z.div_pos rem freq). lia. }
  cbn [tg_timeouts]. destruct (Z.gtb_spec rem freq) as [Hgt|Hle].
  - assert (saturating_sub rem freq = rem - freq) as -> by (unfold saturating_sub; lia).
    destruct (IH (rem - freq)) as (l & Hl' & Hlook); [lia| |].
    { replace (rem - freq) with (rem + (-1) * freq) by lia. rewrite Z.div_add by lia. lia. }
    rewrite Hl'. exists (rem :: l). split; [done|]. intros [|k] t; simpl.
    + split; [intros [= <-]; split; [lia|by left]|intros [-> _]; f_equal; lia].
    + rewrite Hlook. split.
      * intros [-> [->|?]]; split; [lia|right; lia|lia|right; lia].
      * intros [-> [?|?]]; [lia|]. split; [lia|]. destruct k; [by left|right; lia].
  - exists [rem]. split; [done|]. intros [|k] t; simpl.
    + split; [intros [= <-]; split; [lia|by left]|intros [-> _]; f_equal; lia].
    + split; [done|]. intros [_ [?|?]]; [lia|nia].
Qed.

Lemma tg_timeouts_zero_freq fuel rem : 0 < rem → tg_timeouts fuel rem 0 = None.
Proof.
  intros Hl. induction fuel as [|fuel IH]; [done|]. cbn [tg_timeouts].
  rewrite (proj2 (Z.gtb_lt rem 0)) by done.
  assert (saturating_sub rem 0 = rem) as -> by (unfold saturating_sub; lia).
  by rewrite IH.
Qed.

Lemma tg_timeouts_bound fuel rem freq l :
  tg_timeouts fuel rem freq = Some l → 0 ≤ rem → 0 ≤ freq → Forall (λ t, 0 ≤ t ≤ rem) l.
Proof.
  revert rem l. induction fuel as [|fuel IH]; intros rem l H Hl Hf; [done|].
  cbn [tg_timeouts] in H. destruct (Z.gtb_spec rem freq) as [Hgt|Hle].
  - destruct (tg_timeouts fuel _ freq) as [rest|] eqn:E; [|done]. injection H as <-.
    constructor; [lia|]. apply IH in E; [|unfold saturating_sub; lia|done].
    eapply Forall_impl; [done|]. unfold saturating_sub. simpl. lia.
  - injection H as <-. repeat constructor; lia.
Qed.

(** the budget of the first request of a relay *)
Definition first_timeout (relay : RelayClient) (ms_into_slot timeout : Z) : Z :=
  match enable_timing_games (rl_config relay), target_first_request_ms (rl_config relay) with
  | true, Some target_ms =>
      let delay := saturating_sub target_ms ms_into_slot in
      if delay >? 0 then saturating_sub timeout delay else timeout
  | _, _ => timeout
  end.
Lemma first_timeout_bound relay ms timeout :
  0 ≤ timeout → 0 ≤ first_timeout relay ms timeout ≤ timeout.
Proof.
  intros. unfold first_timeout.
  destruct (enable_timing_games (rl_config relay)),
    (target_first_request_ms (rl_config relay)) as [target|]; simpl; try lia.
  destruct (Z.gtb_spec (saturating_sub target ms) 0); unfold saturating_sub in *; lia.
Qed.

(** the timeouts of the requests of one relay *)
Definition request_timeouts (fuel : nat) (relay : RelayClient) (ms timeout : Z) : option (list Z) :=
  match enable_timing_games (rl_config relay), frequency_get_header_ms (rl_config relay) with
  | true, Some freq => tg_timeouts fuel (first_timeout relay ms timeout) freq
  | _, _ => Some [first_timeout relay ms timeout]
  end.

Definition frequency_ok (relay : RelayClient) : Prop :=
  enable_timing_games (rl_config relay) = true →
  from_option (λ f, 0 < f) True (frequency_get_header_ms (rl_config relay)).

Lemma request_timeouts_bound fuel relay ms timeout l :
  request_timeouts fuel relay ms timeout = Some l → 0 ≤ timeout →
  from_option (λ f, 0 ≤ f) True (frequency_get_header_ms (rl_config relay)) →
  Forall (λ t, 0 ≤ t ≤ timeout) l.
Proof.
  intros H Ht Hf. pose proof (first_timeout_bound relay ms timeout Ht) as Hft.
  unfold request_timeouts in H.
  destruct (enable_timing_games (rl_config relay)),
    (frequency_get_header_ms (rl_config relay)) as [freq|]; try (injection H as <-; repeat constructor; lia).
  apply tg_timeouts_bound in H; [|lia|done]. eapply Forall_impl; [done|]. simpl. lia.
Qed.
End RequestLemmas.

(** ** One relay *)

Section RelayLemmas.
Context {TH : TreeHashLib} {BL : BlsLib} {UL : UrlLib} {HO : HashOrder string}.
Context {HJ : HeaderJson} {MH : TreeHash ExecutionPayloadHeaderMessageElectra}.
Variables (fuel : nat) (params : GetHeaderParams) (relay : RelayClient) (chain : Chain).
Variables (headers : gmap string HeaderValue) (ms timeout : Z).
Variables (validation : nat → ValidationContext) (env : RelayEnv).

(** tasks are spawned, hence joined, only in a timing game with repeated requests *)
Definition plays_repeated : bool :=
  enable_timing_games (rl_config relay) &&
  bool_decide (is_Some (frequency_get_header_ms (rl_config relay))).

(** The relay offers [bid] with its [k]-th request: the request was sent, its task was
    joined, the answer was that bid and the bid is acceptable. *)
Definition offers (k : nat) (bid : GetHeaderResponse) : Prop :=
  ∃ url timeouts tm,
    get_header_url relay (ghp_slot params) (ghp_parent_hash params) (ghp_pubkey params) = Ok url ∧
    request_timeouts fuel relay ms timeout = Some timeouts ∧ timeouts !! k = Some tm ∧
    (plays_repeated = true → re_joined env k = true) ∧
    answered_with (re_send env k)
      (header_request {| rx_url := url; rx_timeout_ms := tm; rx_headers := headers |} (re_now env k))
      bid ∧
    acceptable params relay chain (validation k) bid.

Local Notation send_timed :=
  (send_timed_get_header fuel params relay chain headers ms timeout validation env).
Local Notation request url k tm :=
  (send_one_get_header params relay chain
     {| rx_timeout_ms := tm; rx_url := url; rx_headers := headers |}
     (validation k) (re_now env k) (re_send env k)).

(** the list the timing game chooses from *)
Definition received_headers (url : Url) (timeouts : list Z)
    : list (Z * option GetHeaderResponse) :=
  omap (λ '(joined, res),
          match joined, outcome res with
          | true, Ok (start_time, Some header) => Some (start_time, Some header)
          | _, _ => None
          end)
    (imap (λ k res, (re_joined env k, res)) (imap (λ k tm, request url k tm) timeouts)).

Lemma received_headers_elem url timeouts t mh :
  (t, mh) ∈ received_headers url timeouts ↔
  ∃ k tm bid, timeouts !! k = Some tm ∧ re_joined env k = true ∧ mh = Some bid ∧
    outcome (request url k tm) = Ok (t, Some bid).
Proof.
  unfold received_headers. rewrite list_elem_of_omap. split.
  - intros ([joined res] & Hin & Heq).
    apply list_elem_of_lookup in Hin as [k Hk]. rewrite list_lookup_imap in Hk.
    apply fmap_Some in Hk as (res' & Hk & [= -> ->]).
    rewrite list_lookup_imap in Hk. apply fmap_Some in Hk as (tm & Hk & ->).
    destruct (re_joined env k) eqn:Hj; [|done].
    destruct (outcome (request url k tm)) as [[t' [bid|]]|] eqn:Ho; try done.
    injection Heq as <- <-. by exists k, tm, bid.
  - intros (k & tm & bid & Hk & Hj & -> & Ho).
    exists (true, request url k tm). split.
    + apply list_elem_of_lookup. exists k. rewrite list_lookup_imap, list_lookup_imap, Hk. simpl.
      by rewrite Hj.
    + by rewrite Ho.
Qed.

(** The two ways a relay's call runs: a bad URL, or its requests. *)
Lemma send_timed_cases r :
  send_timed = Some r →
  (∃ e, get_header_url relay (ghp_slot params) (ghp_parent_hash params) (ghp_pubkey params) = Err e
        ∧ r = throw e) ∨
  ∃ url timeouts,
    get_header_url relay (ghp_slot params) (ghp_parent_hash params) (ghp_pubkey params) = Ok url ∧
    request_timeouts fuel relay ms timeout = Some timeouts ∧
    effects r = imap (λ k tm, request url k tm) timeouts ≫= effects ∧
    if plays_repeated then
      outcome r = match max_by_key fst (received_headers url timeouts) with
                  | Some (_, mh) => Ok mh
                  | None => Err (RelayResponse "no headers received" TIMEOUT_ERROR_CODE)
                  end
    else ∃ tm, timeouts = [tm] ∧ outcome r = (snd <$> outcome (request url 0%nat tm)).
Proof.
  unfold send_timed_get_header, plays_repeated, request_timeouts.
  destruct (get_header_url _ _ _ _) as [url|e]; [|intros [= <-]; eauto].
  fold (first_timeout relay ms timeout). intros H. right. exists url.
  destruct (enable_timing_games (rl_config relay)); simpl.
  - destruct (frequency_get_header_ms (rl_config relay)) as [freq|]; simpl.
    + destruct (tg_timeouts fuel _ freq) as [timeouts|] eqn:E; [|done]. simpl in H.
      injection H as <-. exists timeouts. split_and!; try done.
    + injection H as <-. exists [first_timeout relay ms timeout]. simpl. rewrite app_nil_r. eauto 10.
  - injection H as <-. exists [first_timeout relay ms timeout]. simpl. rewrite app_nil_r. eauto 10.
Qed.

Lemma offers_request url timeouts k bid :
  get_header_url relay (ghp_slot params) (ghp_parent_hash params) (ghp_pubkey params) = Ok url →
  request_timeouts fuel relay ms timeout = Some timeouts →
  offers k bid ↔
  ∃ tm, timeouts !! k = Some tm ∧ (plays_repeated = true → re_joined env k = true) ∧
    outcome (request url k tm) = Ok (re_now env k, Some bid).
Proof.
  intros Hurl Ht. unfold offers. split.
  - intros (url' & timeouts' & tm & Hurl' & Ht' & Hk & Hj & Ha & Hacc).
    rewrite Hurl in Hurl'. rewrite Ht in Ht'. injection Hurl' as <-. injection Ht' as <-.
    exists tm. split_and!; [done..|]. by apply send_one_bid.
  - intros (tm & ? & ? & (_ & ? & ?)%send_one_bid). exists url, timeouts, tm. auto 10.
Qed.

(** A relay's bid is the one its latest request brought; without a bid, no request
    brought one. *)
Lemma send_timed_bid r :
  send_timed = Some r →
  match bid_of r with
  | Some bid => ∃ k, offers k bid ∧ ∀ k' bid', offers k' bid' → re_now env k' ≤ re_now env k
  | None => ∀ k bid, ¬ offers k bid
  end.
Proof.
  intros [(e & He & ->)|(url & timeouts & Hurl & Ht & _ & Hout)]%send_timed_cases; simpl.
  { intros k bid (url & _ & _ & Hurl & _). congruence. }
  pose proof (λ k bid, offers_request url timeouts k bid Hurl Ht) as Hoff.
  unfold bid_of. destruct plays_repeated eqn:Hrep.
  - rewrite Hout. destruct (max_by_key fst (received_headers url timeouts)) as [[t mh]|] eqn:E.
    + apply max_by_key_some in E. pose proof (last_max_elem _ _ _ E) as Hin.
      apply received_headers_elem in Hin as (k & tm & bid & Hk & Hj & -> & Ho).
      assert (t = re_now env k) as -> by (by apply send_one_bid in Ho as (-> & _)).
      exists k. split; [apply Hoff; eauto|].
      intros k' bid' (tm' & Hk' & Hj' & Ho')%Hoff.
      apply (last_max_ge fst (received_headers url timeouts) (_, Some bid) (_, Some bid') E).
      apply received_headers_elem. eauto 10.
    + apply max_by_key_none in E. intros k bid (tm & Hk & Hj & Ho)%Hoff.
      assert ((re_now env k, Some bid) ∈ received_headers url timeouts) as Hin
        by (apply received_headers_elem; eauto 10).
      rewrite E in Hin. by apply not_elem_of_nil in Hin.
  - destruct Hout as (tm & -> & ->).
    assert (∀ k bid, offers k bid ↔ k = 0%nat ∧ outcome (request url 0%nat tm)
              = Ok (re_now env 0%nat, Some bid)) as Hoff'.
    { intros k bid. rewrite Hoff. split.
      - intros (tm' & Hk & _ & Ho). destruct k as [|k]; [|done]. by simplify_eq/=.
      - intros [-> Ho]. by exists tm. }
    destruct (outcome (request url 0%nat tm)) as [[t [bid|]]|e] eqn:Ho; simpl.
    + exists 0%nat. split; [|intros k' bid' [-> _]%Hoff'; done].
      apply Hoff'. split; [done|]. by apply send_one_bid in Ho as (-> & _).
    + intros k bid [_ [=]]%Hoff'.
    + intros k bid [_ [=]]%Hoff'.
Qed.

Lemma send_timed_sent r id req :
  send_timed = Some r → Sent id req ∈ effects r →
  ∃ k tm url timeouts, request_timeouts fuel relay ms timeout = Some timeouts ∧
    timeouts !! k = Some tm ∧ id = rl_id relay ∧
    req = header_request {| rx_url := url; rx_timeout_ms := tm; rx_headers := headers |} (re_now env k).
Proof.
  intros [(e & He & ->)|(url & timeouts & Hurl & Ht & Heff & _)]%send_timed_cases Hin; simpl in *.
  { by apply not_elem_of_nil in Hin. }
  rewrite Heff in Hin. apply list_elem_of_bind in Hin as (res & Hin & Hk).
  apply list_elem_of_lookup in Hk as [k Hk]. rewrite list_lookup_imap in Hk.
  apply fmap_Some in Hk as (tm & Hk & ->). apply send_one_sent in Hin as [-> ->].
  by exists k, tm, url, timeouts.
Qed.

Lemma send_timed_returns :
  frequency_ok relay → 0 ≤ timeout < Z.of_nat fuel → ∃ r, send_timed = Some r.
Proof.
  intros Hf Ht. unfold send_timed_get_header.
  destruct (get_header_url _ _ _ _) as [url|e]; [|eauto].
  fold (first_timeout relay ms timeout).
  pose proof (first_timeout_bound relay ms timeout ltac:(lia)) as Hb.
  unfold frequency_ok in Hf.
  destruct (enable_timing_games (rl_config relay)); [|eauto].
  destruct (frequency_get_header_ms (rl_config relay)) as [freq|]; [|eauto].
  specialize (Hf eq_refl). simpl in Hf.
  destruct (tg_timeouts_ok fuel (first_timeout relay ms timeout) freq) as (l & -> & _);
    [done|lia| |eauto].
  apply Z.le_lt_trans with (first_timeout relay ms timeout); [|lia].
  apply Z.div_le_upper_bound; nia.
Qed.
End RelayLemmas.

(** ** The whole call *)

Section GetHeaderLemmas.
Context {TH : TreeHashLib} {BL : BlsLib} {UL : UrlLib} {HL : HeaderLib} {HO : HashOrder string}.
Context {HJ : HeaderJson} {MH : TreeHash ExecutionPayloadHeaderMessageElectra}.
Context {S : Type}.
Variables (fuel : nat) (params : GetHeaderParams) (req_headers : gmap string HeaderValue).
Variables (state : PbsState S) (env : GetHeaderEnv).

Definition header_relays : list RelayClient :=
  (mux_config_and_relays state (ghp_pubkey params)).1.2.
Definition slot_ms : Z :=
  ms_into_slot (ge_now_ms env) (ghp_slot params) (chain (config state)).
Definition send_headers_of (ua : HeaderValue) : gmap string HeaderValue := {[ USER_AGENT := ua ]}.

(** relay number [i] offers a bid with its [k]-th request, in this call *)
Definition relay_offers (i k : nat) (bid : GetHeaderResponse) : Prop :=
  ∃ relay ua, header_relays !! i = Some relay ∧
    get_user_agent_with_version req_headers = Ok ua ∧
    offers fuel params relay (chain (config state)) (send_headers_of ua) slot_ms
      (max_timeout_ms params state env) (validation_context params state env i)
      (ge_relay env i) k bid.

Lemma max_timeout_nonneg :
  0 ≤ timeout_get_header_ms (mux_config_and_relays state (ghp_pubkey params)).1.1 →
  0 ≤ max_timeout_ms params state env.
Proof. unfold max_timeout_ms, saturating_sub. lia. Qed.

(** What the call computes when it talks to the relays *)
Lemma get_header_runs t :
  get_header fuel params req_headers state env = Some t →
  max_timeout_ms params state env ≠ 0 →
  (∃ e, get_user_agent_with_version req_headers = Err e ∧ t = throw e) ∨
  ∃ ua results, get_user_agent_with_version req_headers = Ok ua ∧
    outcome t = Ok (max_by_key header_value (omap bid_of results)) ∧
    effects t = (results ≫= effects) ++
      (zip header_relays results ≫= λ '(relay, res), bid_metrics (ghp_slot params) relay res) ∧
    length results = length header_relays ∧
    ∀ i res, results !! i = Some res → ∃ relay, header_relays !! i = Some relay ∧
      send_timed_get_header fuel params relay (chain (config state)) (send_headers_of ua) slot_ms
        (max_timeout_ms params state env) (validation_context params state env i)
        (ge_relay env i) = Some res.
Proof.
  unfold get_header. intros H Hne. rewrite (proj2 (Z.eqb_neq _ _)) in H by done.
  destruct (get_user_agent_with_version req_headers) as [ua|e]; [|injection H as <-; eauto].
  right. exists ua. unfold relay_results in H. fold header_relays slot_ms (send_headers_of ua) in H.
  destruct (mapM _ _) as [results|] eqn:E; [|done]. simpl in H. injection H as <-.
  apply mapM_Some in E. exists results. split_and!; try done.
  - apply Forall2_length in E. by rewrite length_imap in E.
  - intros i res Hi. destruct (Forall2_lookup_r _ _ _ _ _ E Hi) as (o & Ho & Heq).
    rewrite list_lookup_imap in Ho. apply fmap_Some in Ho as (relay & Hrelay & ->). eauto.
Qed.

(** A bid that is returned was offered *)
Lemma get_header_offered t bid :
  get_header fuel params req_headers state env = Some t → outcome t = Ok (Some bid) →
  ∃ i k, relay_offers i k bid.
Proof.
  intros H Hout. destruct (decide (max_timeout_ms params state env = 0)) as [H0|Hne].
  { unfold get_header in H. rewrite H0 in H. simpl in H. injection H as <-. done. }
  destruct (get_header_runs t H Hne) as [(e & _ & ->)|(ua & results & Hua & Hout' & _ & _ & Hres)];
    [done|].
  rewrite Hout in Hout'. injection Hout' as Hmax. symmetry in Hmax.
  apply max_by_key_some, last_max_elem, list_elem_of_omap in Hmax as (res & Hin & Hbid).
  apply list_elem_of_lookup in Hin as [i Hi]. destruct (Hres i res Hi) as (relay & Hr & Hsend).
  pose proof (send_timed_bid _ _ _ _ _ _ _ _ _ _ Hsend) as Hb. rewrite Hbid in Hb.
  destruct Hb as (k & Hk & _). exists i, k, relay, ua. auto.
Qed.

(** C1: The best bid wins.  When [get_header] returns a bid, one of the relays of the
    validator's mux (or a default relay) offered it: the relay answered a request of this
    call with it, the bid builds on the requested parent for the requested slot, is worth
    at least the minimum, carries a valid signature of that relay's configured key unless
    verification is off, and passes the extra checks against the parent block when that
    was available.  It is the bid of that relay's latest answered request, no relay's bid
    is worth more, and relays after it in the list bid strictly less. *)
Theorem get_header_best_bid t bid :
  get_header fuel params req_headers state env = Some t →
  outcome t = Ok (Some bid) →
  ∃ i k, relay_offers i k bid ∧
    (∀ k' bid', relay_offers i k' bid' →
       re_now (ge_relay env i) k' ≤ re_now (ge_relay env i) k) ∧
    (∀ j, i ≠ j → ∀ k' bid', relay_offers j k' bid' →
       ∃ k'' bid'', relay_offers j k'' bid'' ∧
         re_now (ge_relay env j) k' ≤ re_now (ge_relay env j) k'' ∧
         header_value bid'' ≤ header_value bid ∧
         ((i < j)%nat → header_value bid'' < header_value bid)).
Proof.
  intros H Hout. destruct (decide (max_timeout_ms params state env = 0)) as [H0|Hne].
  { unfold get_header in H. rewrite H0 in H. simpl in H. injection H as <-. done. }
  destruct (get_header_runs t H Hne) as [(e & _ & ->)|(ua & results & Hua & Hout' & _ & Hlen & Hres)];
    [done|].
  rewrite Hout in Hout'. injection Hout' as Hmax. symmetry in Hmax.
  apply max_by_key_some in Hmax as (l1 & l2 & Heq & H1 & H2).
  apply omap_app_inv in Heq as (r1 & rest & -> & <- & Hrest).
  apply omap_cons_inv in Hrest as (r1' & res & r2 & -> & Hnone & Hbid & <-).
  set (i := length (r1 ++ r1')).
  assert ((r1 ++ r1' ++ res :: r2) !! i = Some res) as Hi.
  { rewrite app_assoc. by apply list_lookup_middle. }
  destruct (Hres i res Hi) as (relay & Hrelay & Hsend).
  pose proof (send_timed_bid _ _ _ _ _ _ _ _ _ _ Hsend) as Hb. rewrite Hbid in Hb.
  destruct Hb as (k & Hk & Hlast).
  exists i, k. split; [by exists relay, ua|]. split.
  { intros k' bid' (relay' & ua' & Hr' & Hua' & Hoff).
    rewrite Hrelay in Hr'. injection Hr' as <-. rewrite Hua in Hua'. injection Hua' as <-.
    by eapply Hlast. }
  intros j Hij k' bid' (relay' & ua' & Hr' & Hua' & Hoff).
  rewrite Hua in Hua'. injection Hua' as <-.
  apply lookup_lt_Some in Hr' as Hlt. rewrite <- Hlen in Hlt.
  apply lookup_lt_is_Some in Hlt as [resj Hj].
  destruct (Hres j resj Hj) as (relay'' & Hr'' & Hsendj).
  rewrite Hr' in Hr''. injection Hr'' as <-.
  pose proof (send_timed_bid _ _ _ _ _ _ _ _ _ _ Hsendj) as Hbj.
  destruct (bid_of resj) as [bj|] eqn:Ebj; [|by destruct (Hbj k' bid')].
  destruct Hbj as (k'' & Hk'' & Hlast'').
  exists k'', bj. split; [by exists relay', ua|]. split; [eauto|].
  destruct (decide (j < i)%nat) as [Hji|Hji].
  - split; [|lia]. apply H1. apply list_elem_of_omap. exists resj. split; [|done].
    rewrite app_assoc, lookup_app_l in Hj by done.
    apply lookup_app_Some in Hj as [Hj|[_ Hj]]; [by apply list_elem_of_lookup_2 in Hj|].
    exfalso. apply list_elem_of_lookup_2 in Hj.
    eapply Forall_forall in Hnone; [|done]. congruence.
  - assert (header_value bj < header_value bid); [|lia].
    apply H2. apply list_elem_of_omap. exists resj. split; [|done].
    rewrite app_assoc, lookup_app_r in Hj by lia. fold i in Hj.
    destruct (j - i)%nat as [|d] eqn:Ed; [lia|]. simpl in Hj. by apply list_elem_of_lookup_2 in Hj.
Qed.

(** C34: No bid.  A call that finishes returns "no bid" exactly when it is too late in the
    slot to ask (then nothing is sent) or when no relay offered an acceptable bid; with
    header values that can be built it never fails. *)
Theorem get_header_no_bid {HC : HeaderCorrect} t :
  get_header fuel params req_headers state env = Some t →
  (∃ res, outcome t = Ok res) ∧
  (outcome t = Ok None ↔
   max_timeout_ms params state env = 0 ∨ ∀ i k bid, ¬ relay_offers i k bid) ∧
  (max_timeout_ms params state env = 0 → effects t = []).
Proof.
  intros H. destruct (decide (max_timeout_ms params state env = 0)) as [H0|Hne].
  { unfold get_header in H. rewrite H0 in H. simpl in H. injection H as <-. simpl.
    split; [eauto|]. split; [|done]. split; auto. }
  destruct (user_agent_with_version_ok req_headers) as [ua' Hua'].
  destruct (get_header_runs t H Hne) as [(e & He & _)|(ua & results & Hua & Hout & _ & Hlen & Hres)];
    [congruence|].
  split; [rewrite Hout; eauto|]. split; [|done]. rewrite Hout.
  assert (max_by_key header_value (omap bid_of results) = None ↔ ∀ i k bid, ¬ relay_offers i k bid)
    as Hiff.
  { rewrite max_by_key_none. split.
    - intros Hnil i k bid (relay & ua2 & Hr & Hua2 & Hoff).
      rewrite Hua in Hua2. injection Hua2 as <-.
      apply lookup_lt_Some in Hr as Hlt. rewrite <- Hlen in Hlt.
      apply lookup_lt_is_Some in Hlt as [res Hi].
      destruct (Hres i res Hi) as (relay' & Hr' & Hsend).
      rewrite Hr in Hr'. injection Hr' as <-.
      pose proof (send_timed_bid _ _ _ _ _ _ _ _ _ _ Hsend) as Hb.
      destruct (bid_of res) as [b|] eqn:Eb; [|by eapply Hb].
      assert (b ∈ omap bid_of results) as Hin
        by (apply list_elem_of_omap; exists res; split; [by eapply list_elem_of_lookup_2|done]).
      rewrite Hnil in Hin. by apply not_elem_of_nil in Hin.
    - intros Hno. destruct (omap bid_of results) as [|b l] eqn:E; [done|]. exfalso.
      assert (b ∈ omap bid_of results) as Hin by (rewrite E; by left).
      apply list_elem_of_omap in Hin as (res & Hin & Hb).
      apply list_elem_of_lookup in Hin as [i Hi].
      destruct (Hres i res Hi) as (relay & Hr & Hsend).
      pose proof (send_timed_bid _ _ _ _ _ _ _ _ _ _ Hsend) as Hoff. rewrite Hb in Hoff.
      destruct Hoff as (k & Hk & _). apply (Hno i k b). by exists relay, ua. }
  rewrite <- Hiff. split; [intros [= ->]; by right|intros [?| ->]; done].
Qed.

(** C30: The budget.  Every request of a call goes to one of the validator's relays and is
    given no more than the smaller of the configured timeout and the time that is left
    until the call would be late in the slot. *)
Theorem get_header_budget t id req :
  get_header fuel params req_headers state env = Some t →
  Sent id req ∈ effects t →
  0 ≤ timeout_get_header_ms (mux_config_and_relays state (ghp_pubkey params)).1.1 →
  Forall (λ r, from_option (λ f, 0 ≤ f) True (frequency_get_header_ms (rl_config r))) header_relays →
  (∃ relay, relay ∈ header_relays ∧ id = rl_id relay) ∧
  0 ≤ rq_timeout_ms req ≤ timeout_get_header_ms (mux_config_and_relays state (ghp_pubkey params)).1.1 ∧
  (rq_timeout_ms req = 0 ∨
   slot_ms + rq_timeout_ms req
   ≤ late_in_slot_time_ms (mux_config_and_relays state (ghp_pubkey params)).1.1).
Proof.
  intros H Hin Ht Hfreq. pose proof (max_timeout_nonneg Ht) as Hmax.
  destruct (decide (max_timeout_ms params state env = 0)) as [H0|Hne].
  { unfold get_header in H. rewrite H0 in H. simpl in H. injection H as <-.
    by apply not_elem_of_nil in Hin. }
  destruct (get_header_runs t H Hne)
    as [(e & _ & ->)|(ua & results & _ & _ & Heff & _ & Hres)]; [by apply not_elem_of_nil in Hin|].
  rewrite Heff in Hin. apply elem_of_app in Hin as [Hin|Hin].
  - apply list_elem_of_bind in Hin as (res & Hin & Hi).
    apply list_elem_of_lookup in Hi as [i Hi].
    destruct (Hres i res Hi) as (relay & Hr & Hsend).
    destruct (send_timed_sent _ _ _ _ _ _ _ _ _ _ _ _ Hsend Hin)
      as (k & tm & url & timeouts & Htm & Hk & -> & ->).
    apply list_elem_of_lookup_2 in Hr, Hk.
    split; [eauto|]. simpl. rewrite Forall_forall in Hfreq.
    pose proof (request_timeouts_bound _ _ _ _ _ Htm Hmax (Hfreq _ Hr)) as Hb.
    rewrite Forall_forall in Hb. specialize (Hb tm Hk).
    unfold max_timeout_ms, saturating_sub in Hb. fold slot_ms in Hb. lia.
  - exfalso. apply list_elem_of_bind in Hin as ([relay res] & Hin & _).
    unfold bid_metrics in Hin. repeat case_match; set_solver.
Qed.

(** C35: The call returns.  If every relay that plays timing games with repeated requests
    has a positive frequency, the call finishes within [max_timeout_ms] requests per
    relay. *)
Theorem get_header_returns :
  0 ≤ timeout_get_header_ms (mux_config_and_relays state (ghp_pubkey params)).1.1 →
  Forall frequency_ok header_relays →
  max_timeout_ms params state env < Z.of_nat fuel →
  ∃ t, get_header fuel params req_headers state env = Some t.
Proof.
  intros Ht Hall Hfuel. pose proof (max_timeout_nonneg Ht) as Hmax. unfold get_header.
  destruct (Z.eqb_spec (max_timeout_ms params state env) 0); [eauto|].
  destruct (get_user_agent_with_version req_headers) as [ua|e]; [|eauto].
  unfold relay_results. fold header_relays slot_ms (send_headers_of ua).
  assert (∃ results, mapM id (imap (λ i relay,
    send_timed_get_header fuel params relay (chain (config state)) (send_headers_of ua) slot_ms
      (max_timeout_ms params state env) (validation_context params state env i)
      (ge_relay env i)) header_relays) = Some results) as [results ->]; [|simpl; eauto].
  apply mapM_is_Some, Forall_lookup. intros i o Hi. rewrite list_lookup_imap in Hi.
  apply fmap_Some in Hi as (relay & Hr & ->). simpl.
  destruct (send_timed_returns fuel params relay (chain (config state)) (send_headers_of ua)
    slot_ms (max_timeout_ms params state env) (validation_context params state env i)
    (ge_relay env i)) as [r ->]; [|lia|eauto].
  rewrite Forall_lookup in Hall. eauto.
Qed.

(** A timing game with frequency zero never ends.  If one of the validator's relays
    plays timing games with [frequency_get_header_ms = 0] and has time left for its first
    request, the call does not return, whatever the relays answer. *)
Theorem get_header_zero_frequency_diverges i relay :
  header_relays !! i = Some relay →
  enable_timing_games (rl_config relay) = true →
  frequency_get_header_ms (rl_config relay) = Some 0 →
  0 < first_timeout relay slot_ms (max_timeout_ms params state env) →
  0 < max_timeout_ms params state env →
  is_ok (get_user_agent_with_version req_headers) = true →
  is_ok (get_header_url relay (ghp_slot params) (ghp_parent_hash params) (ghp_pubkey params)) = true →
  get_header fuel params req_headers state env = None.
Proof.
  intros Hr Htg Hfreq Hft Hmax [ua Hua]%is_ok_true [url Hurl]%is_ok_true. unfold get_header.
  rewrite (proj2 (Z.eqb_neq _ 0)) by lia. rewrite Hua.
  unfold relay_results. fold header_relays slot_ms (send_headers_of ua).
  destruct (mapM _ _) as [results|] eqn:E; [|done]. exfalso. apply mapM_Some in E.
  assert (imap (λ i relay,
    send_timed_get_header fuel params relay (chain (config state)) (send_headers_of ua) slot_ms
      (max_timeout_ms params state env) (validation_context params state env i)
      (ge_relay env i)) header_relays !! i = Some None) as Hi.
  { rewrite list_lookup_imap, Hr. simpl. f_equal. unfold send_timed_get_header.
    rewrite Hurl. fold (first_timeout relay slot_ms (max_timeout_ms params state env)).
    rewrite Htg, Hfreq. by rewrite tg_timeouts_zero_freq. }
  destruct (Forall2_lookup_l _ _ _ _ _ E Hi) as (r & _ & Hid). done.
Qed.
End GetHeaderLemmas.

(** The requests of a timing game.  A relay that plays with a positive frequency [f]
    and has [T] left for its first request sends requests number [0, 1, ...] as long as
    [k * f < T]; number [k], which follows [k] pauses of [f], has [T - k * f] as its
    timeout, so all of them end at the same deadline.  Nothing else is sent to it. *)
Theorem timing_game_requests {TH : TreeHashLib} {BL : BlsLib} {UL : UrlLib}
    {HO : HashOrder string} {HJ : HeaderJson} {MH : TreeHash ExecutionPayloadHeaderMessageElectra}
    fuel params relay chain headers ms timeout validation env url f :
  get_header_url relay (ghp_slot params) (ghp_parent_hash params) (ghp_pubkey params) = Ok url →
  enable_timing_games (rl_config relay) = true →
  frequency_get_header_ms (rl_config relay) = Some f → 0 < f →
  0 ≤ timeout < Z.of_nat fuel →
  let T := first_timeout relay ms timeout in
  ∃ r, send_timed_get_header fuel params relay chain headers ms timeout validation env = Some r ∧
    ∀ id req, Sent id req ∈ effects r ↔
      id = rl_id relay ∧ ∃ k, (k = 0%nat ∨ Z.of_nat k * f < T) ∧
        req = header_request {| rx_url := url; rx_timeout_ms := T - Z.of_nat k * f;
                                rx_headers := headers |} (re_now env k).
Proof.
  intros Hurl Htg Hf Hpos Ht T.
  pose proof (first_timeout_bound relay ms timeout ltac:(lia)) as Hb. fold T in Hb.
  destruct (tg_timeouts_ok fuel T f) as (l & Hl & Hlook); [done|lia| |].
  { apply Z.le_lt_trans with T; [|lia]. apply Z.div_le_upper_bound; nia. }
  destruct (send_timed_returns fuel params relay chain headers ms timeout validation env)
    as [r Hr]; [unfold frequency_ok; by rewrite Hf|done|].
  exists r. split; [done|].
  destruct (send_timed_cases _ _ _ _ _ _ _ _ _ _ Hr)
    as [(e & He & _)|(url' & timeouts & Hurl' & Htm & Heff & _)]; [congruence|].
  rewrite Hurl in Hurl'. injection Hurl' as <-.
  unfold request_timeouts in Htm. rewrite Htg, Hf in Htm. fold T in Htm.
  rewrite Hl in Htm. injection Htm as <-.
  intros id req. rewrite Heff, list_elem_of_bind. split.
  - intros (res & Hin & Hk). apply list_elem_of_lookup in Hk as [k Hk].
    rewrite list_lookup_imap in Hk. apply fmap_Some in Hk as (tm & Hk & ->).
    apply Hlook in Hk as [-> Hk]. apply send_one_sent in Hin as [-> ->]. eauto.
  - intros (-> & k & Hk & ->). eexists. split; [by apply send_one_sent|].
    apply list_elem_of_lookup. exists k.
    by rewrite list_lookup_imap, (proj2 (Hlook k _) (conj eq_refl Hk)).
Qed.

(** ** A concrete call

    Slot 5 on Holesky, 200 ms into the slot, two relays.  The first answers its request
    with a bid of 10.  The second plays a timing game with one request every 400 ms: its
    first request brings 15, its second 12, its third times out. *)
Module HeaderSample.

Definition relay_with (id : string) (sk : bytes) (tg : bool) (freq : Z) : RelayClient := {|
  rl_id := id;
  rl_client := {| default_headers := ∅; client_timeout_secs := 10 |};
  rl_config := {|
    rc_id := Some id;
    entry := {| re_id := id; re_pubkey := sk_to_pk (BlsLib := toy_bls) sk; re_url := "http://relay" |};
    headers := None; get_params := None; enable_timing_games := tg;
    target_first_request_ms := Some 100; frequency_get_header_ms := Some freq;
    validator_registration_batch_size := None |};
|}.

Definition parent : B256 := byte_array 32 x07.
Definition message_tree_hash : TreeHash ExecutionPayloadHeaderMessageElectra :=
  λ m, eph_block_hash (hm_header m).

Definition unsigned (sk : bytes) (value : Z) : ExecutionPayloadHeaderMessageElectra := {|
  hm_header := {|
    eph_parent_hash := parent; eph_fee_recipient := []; eph_state_root := [];
    eph_receipts_root := []; eph_logs_bloom := []; eph_prev_randao := []; eph_block_number := 8;
    eph_gas_limit := 30000000; eph_gas_used := 0; eph_timestamp := 1695902460;
    eph_extra_data := []; eph_base_fee_per_gas := 7; eph_block_hash := byte_array 32 x09;
    eph_transactions_root := byte_array 32 x0a; eph_withdrawals_root := [];
    eph_blob_gas_used := 0; eph_excess_blob_gas := 0 |};
  hm_blob_kzg_commitments := [];
  hm_execution_requests := {| er_deposits := []; er_withdrawals := []; er_consolidations := [] |};
  hm_value := value;
  hm_pubkey := sk_to_pk (BlsLib := toy_bls) sk;
|}.
Definition signed_bid (sk : bytes) (value : Z) : GetHeaderResponse :=
  Electra {| seph_message := unsigned sk value;
             seph_signature :=
               sign_builder_message (TH := sha256_tree_hash) (BL := toy_bls)
                 (T := ExecutionPayloadHeaderMessageElectra) (H := message_tree_hash)
                 Holesky sk (unsigned sk value) |}.

(** the body of an answer is the value of its bid *)
Definition header_json : HeaderJson := {|
  get_header_from_slice b :=
    match b with
    | [x0a] => Ok (signed_bid [x01] 10)
    | [x0f] => Ok (signed_bid [x02] 15)
    | [x0c] => Ok (signed_bid [x02] 12)
    | _ => Err "not a header"%string
    end |}.

Definition answer_with (b : byte) : SendOutcome :=
  Ok {| res_status := 200; res_content_length := None; res_chunks := [Ok [b]] |}.
Definition now_ms : Z := 1695902460200.
Definition relay_env (answers : nat → SendOutcome) : RelayEnv := {|
  re_now k := now_ms + 400 * Z.of_nat k;
  re_send k _ := answers k;
  re_parent_stored _ := false;
  re_joined _ := true;
|}.
Definition timed_out : SendOutcome := Err {| is_timeout := true; is_connect := false |}.
Definition env : GetHeaderEnv := {|
  ge_now_ms := now_ms;
  ge_relay i := match i with
                | O => relay_env (λ _, answer_with x0a)
                | _ => relay_env (λ k, match k with O => answer_with x0f | 1%nat => answer_with x0c
                                       | _ => timed_out end)
                end;
  ge_block_by_hash _ _ := Err "no rpc"%string;
|}.
Definition state_with (rs : list RelayClient) : PbsState () := pbs_state_new {|
  chain := Holesky; endpoint := {| sa_ip := "127.0.0.1"; sa_port := 18550 |};
  pmc_pbs_config := default_pbs_config; relays := rs; all_relays := rs;
  signer_client := None; event_publisher := None; muxes := None |}.
Definition state : PbsState () :=
  state_with [relay_with "a" [x01] false 400; relay_with "b" [x02] true 400].
Definition params : GetHeaderParams :=
  {| ghp_slot := 5; ghp_parent_hash := parent; ghp_pubkey := byte_array 48 x01 |}.

#[local] Existing Instances plain_urls plain_headers sha256_tree_hash toy_bls header_json
  message_tree_hash.

Definition call (fuel : nat) (state : PbsState ()) := get_header fuel params ∅ state env.

(** the second relay wins with the 12 of its later request *)
Example call_value :
  (t ← call 10 state; bid ← result_ok (outcome t); header_value <$> bid) = Some 12.
Proof. vm_compute. reflexivity. Qed.

(** The call's trace and bid, as the theorems need them *)
Lemma call_bid : ∃ t bid, call 10 state = Some t ∧ outcome t = Ok (Some bid) ∧ header_value bid = 12.
Proof.
  pose proof call_value as H. destruct (call 10 state) as [t|]; [|discriminate H].
  simpl in H. destruct (outcome t) as [[bid|]|e] eqn:Ho; try discriminate H.
  injection H as H. exists t, bid. auto.
Defined.

Lemma get_header_best_bid_witness :
  ∃ bid i k, header_value bid = 12 ∧ relay_offers 10 params ∅ state env i k bid.
Proof.
  destruct call_bid as (t & bid & Hc & Ho & Hv).
  destruct (get_header_best_bid 10 params ∅ state env t bid Hc Ho) as (i & k & Hoff & _).
  exists bid, i, k. split; [exact Hv|exact Hoff].
Defined.

Lemma get_header_no_bid_witness :
  ∃ t, call 10 (state_with []) = Some t ∧ outcome t = Ok None.
Proof.
  destruct (call 10 (state_with [])) as [t|] eqn:E; [|discriminate E].
  exists t. split; [reflexivity|].
  apply (get_header_no_bid (HC := plain_headers_correct) 10 params ∅ (state_with []) env t E).
  right. intros i k bid (relay & ua & Hr & _). discriminate Hr.
Defined.

Lemma get_header_budget_witness :
  ∃ t id req, call 10 state = Some t ∧ Sent id req ∈ effects t ∧ rq_timeout_ms req ≤ 950.
Proof.
  destruct (call 10 state) as [t|] eqn:E; [|discriminate E].
  assert (match effects t with Sent _ _ :: _ => true | _ => false end = true) as Hhead.
  { assert (Some (match effects t with Sent _ _ :: _ => true | _ => false end)
            = (λ t, match effects t with Sent _ _ :: _ => true | _ => false end) <$> call 10 state)
      as Heq by (rewrite E; reflexivity).
    vm_compute in Heq. injection Heq as Heq. exact Heq. }
  destruct (effects t) as [|[id req| | | | | | |] l] eqn:He; try discriminate Hhead.
  exists t, id, req. rewrite He. split; [reflexivity|]. split; [left|].
  apply (get_header_budget 10 params ∅ state env t id req E).
  - rewrite He. left.
  - vm_compute. discriminate.
  - repeat constructor; vm_compute; discriminate.
Defined.

Lemma get_header_returns_witness : ∃ t, call 951 state = Some t.
Proof.
  apply (get_header_returns 951 params ∅ state env).
  - vm_compute. discriminate.
  - repeat constructor; intros _; vm_compute; reflexivity.
  - vm_compute. reflexivity.
Defined.

Lemma get_header_zero_frequency_diverges_witness :
  call 1000 (state_with [relay_with "b" [x02] true 0]) = None.
Proof.
  apply (get_header_zero_frequency_diverges 1000 params ∅ _ env 0%nat (relay_with "b" [x02] true 0));
    vm_compute; reflexivity.
Defined.

Lemma timing_game_requests_witness :
  ∃ r, send_timed_get_header 951 params (relay_with "b" [x02] true 400) Holesky ∅ 200 950
         (validation_context params state env 1) (ge_relay env 1) = Some r ∧
       ∃ req, Sent "b" req ∈ effects r ∧ rq_timeout_ms req = 150.
Proof.
  destruct (timing_game_requests 951 params (relay_with "b" [x02] true 400) Holesky ∅ 200 950
    (validation_context params state env 1) (ge_relay env 1)
    (match get_header_url (relay_with "b" [x02] true 400) 5 parent (byte_array 48 x01) with
     | Ok u => u | Err _ => ""%string end) 400) as (r & Hr & Hsent).
  - vm_compute. reflexivity.
  - reflexivity.
  - reflexivity.
  - reflexivity.
  - split; [discriminate|reflexivity].
  - exists r. split; [exact Hr|]. eexists. split.
    + apply Hsent. split; [reflexivity|]. exists 2%nat. split; [right; vm_compute; reflexivity|].
      reflexivity.
    + vm_compute. reflexivity.
Defined.
End HeaderSample.
