(* ===== verification/SubmitBlock.v ===== *)
(** * [submit_block]

    Models [crates/pbs/src/mev_boost/submit_block.rs]: the blinded block goes to all
    relays at once, each relay is retried with an increasing pause, and the first success
    is the answer.  [AttemptEnv] is what the [k]-th attempt at one relay meets: the answer,
    and the milliseconds [start_request.elapsed()] shows after the pause.  [None] means no
    answer within the given number of attempts per relay. *)

From stdpp Require Import pretty.
From S2P Require Import Prelude Bytes Chain Signature PbsTypes Http Relay Futures PbsConfig.
From S2P Require Import PbsState.

(** an [eyre] report of the PBS crate *)
Inductive PbsReport : Type :=
| ReportMsg (msg : string)
| ReportPbs (e : PbsError).

Record AttemptEnv := {
  ae_send : nat → HttpRequest → SendOutcome;
  ae_elapsed_ms : nat → Z;
}.

(** one call: the attempts at each relay, and how many of the effects of a relay's
    future happened before [select_ok] dropped it *)
Record SubmitEnv := {
  se_now_ms : Z;
  se_relay : nat → AttemptEnv;
  se_progress : nat → nat;
}.

Class SubmitJson := {
  submit_response_from_slice : bytes → Result string SubmitBlindedBlockResponse;
}.

(** ** Validation of the unblinded block *)

Fixpoint check_commitments (i : Z) (expected got : list KzgCommitment) : Result PbsError () :=
  match expected, got with
  | comm :: expected, comm' :: got =>
      if negb (bool_decide (comm = comm')) then
        Err (Validation (KzgMismatch (kzg_commitment_display comm)
                           (kzg_commitment_display comm') i))
      else check_commitments (i + 1) expected got
  | _, _ => Ok ()
  end.

Definition validate_unblinded_block_electra (signed_blinded_block : BlindedBeaconBlockElectra)
    (block_response : PayloadAndBlobsElectra) : Result PbsError () :=
  let bundle := blobs_bundle block_response in
  let expected_commitments := blob_kzg_commitments (bb_body signed_blinded_block) in
  if negb (Zlen expected_commitments =? Zlen (blobs bundle))
     || negb (Zlen expected_commitments =? Zlen (commitments bundle))
     || negb (Zlen expected_commitments =? Zlen (proofs bundle))
  then Err (Validation (KzgCommitments (Zlen expected_commitments) (Zlen (blobs bundle))
                          (Zlen (commitments bundle)) (Zlen (proofs bundle))))
  else check_commitments 0 expected_commitments (commitments bundle).

Section Submit.
Context {UL : UrlLib} {HL : HeaderLib} {HO : HashOrder string} {SJ : SubmitJson}.

(** ** One attempt *)

Definition submit_request (url : Url) (block : SignedBlindedBeaconBlock)
    (headers : gmap string HeaderValue) (timeout_ms : Z) : HttpRequest := {|
  rq_method := POST; rq_url := url; rq_timeout_ms := timeout_ms; rq_headers := headers;
  rq_body := BlindedBlockBody block |}.

Definition send_submit_block (url : Url) (block : SignedBlindedBeaconBlock) (relay : RelayClient)
    (headers : gmap string HeaderValue) (timeout_ms : Z) (api_version : BuilderApiVersion)
    (send : HttpRequest → SendOutcome) : Relayed (option SubmitBlindedBlockResponse) :=
  let request := submit_request url block headers timeout_ms in
  _ ← tell (Sent (rl_id relay) request);
  match send request with
  | Err err =>
      _ ← tell (RelayStatusCode TIMEOUT_ERROR_CODE_STR SUBMIT_BLINDED_BLOCK_ENDPOINT_TAG
                  (rl_id relay));
      throw (Reqwest err)
  | Ok res =>
      _ ← tell (RelayLatency SUBMIT_BLINDED_BLOCK_ENDPOINT_TAG (rl_id relay));
      let code := res_status res in
      _ ← tell (RelayStatusCode (status_str code) SUBMIT_BLINDED_BLOCK_ENDPOINT_TAG (rl_id relay));
      response_bytes ← lift (read_body res MAX_SIZE_SUBMIT_BLOCK_RESPONSE);
      if negb (is_success code) then
        throw (RelayResponse (from_utf8_lossy response_bytes) code)
      else if negb (bool_decide (api_version = V1)) then mret None
      else
        block_response ← lift (map_err (λ err, JsonDecode err (from_utf8_lossy response_bytes))
                                 (submit_response_from_slice response_bytes));
        if negb (bool_decide (blinded_block_hash block = submit_response_block_hash block_response))
        then throw (Validation (BlockHashMismatch (blinded_block_hash block)
                                  (submit_response_block_hash block_response)))
        else
          _ ← match sbb_message block, block_response with
              | BlindedElectra b, Electra r => lift (validate_unblinded_block_electra b r)
              end;
          mret (Some block_response)
  end.

(** ** The retry loop *)

Fixpoint submit_loop (fuel : nat) (url : Url) (block : SignedBlindedBeaconBlock)
    (relay : RelayClient) (headers : gmap string HeaderValue) (timeout_ms : Z)
    (api_version : BuilderApiVersion) (env : AttemptEnv)
    (remaining_timeout_ms : Z) (retry : nat) (backoff : Z)
    : option (Relayed (option SubmitBlindedBlockResponse)) :=
  match fuel with
  | O => None
  | S fuel =>
      let res := send_submit_block url block relay headers remaining_timeout_ms api_version
                   (ae_send env retry) in
      match outcome res with
      | Ok response => Some res
      | Err err =>
          if should_retry err then
            let remaining := saturating_sub timeout_ms (ae_elapsed_ms env retry) in
            if remaining =? 0 then Some (mkTraced (effects res ++ [Slept backoff]) (Err err))
            else
              rest ← submit_loop fuel url block relay headers timeout_ms api_version env
                       remaining (retry + 1) (backoff + 250);
              Some (mkTraced (effects res ++ [Slept backoff] ++ effects rest) (outcome rest))
          else Some res
      end
  end.

Definition submit_block_with_timeout (fuel : nat) (block : SignedBlindedBeaconBlock)
    (relay : RelayClient) (headers : gmap string HeaderValue) (timeout_ms : Z)
    (api_version : BuilderApiVersion) (env : AttemptEnv)
    : option (Relayed (option SubmitBlindedBlockResponse)) :=
  match submit_block_url relay api_version with
  | Err e => Some (throw e)
  | Ok url => submit_loop fuel url block relay headers timeout_ms api_version env timeout_ms 0 250
  end.

(** ** All relays *)

Context {FL : FuturesLib} {S : Type}.

Definition submit_headers (now : Z) (user_agent : HeaderValue) : gmap string HeaderValue :=
  <[USER_AGENT := user_agent]>
    {[ to_ascii_lowercase HEADER_START_TIME_UNIX_MS := bytes_of_string (pretty now) ]}.

Definition submit_results (fuel : nat) (block : SignedBlindedBeaconBlock)
    (send_headers : gmap string HeaderValue) (state : PbsState S) (api_version : BuilderApiVersion)
    (env : SubmitEnv) : option (list (Relayed (option SubmitBlindedBlockResponse))) :=
  mapM id (imap (λ i relay,
    submit_block_with_timeout fuel block relay send_headers
      (timeout_get_payload_ms (pbs_config state)) api_version (se_relay env i))
    (state_all_relays state)).

(** the effects that happened: all futures are dropped when the first one succeeds *)
Definition partial_effects {A} (progress : nat → nat) (results : list (Relayed A)) : list Effect :=
  concat (imap (λ i res, take (progress i) (effects res)) results).

Definition submit_block (fuel : nat) (block : SignedBlindedBeaconBlock)
    (req_headers : gmap string HeaderValue) (state : PbsState S) (api_version : BuilderApiVersion)
    (env : SubmitEnv)
    : option (Call (Traced Effect PbsReport (option SubmitBlindedBlockResponse))) :=
  match get_user_agent_with_version req_headers with
  | Err e => Some (Returns (throw (ReportMsg e)))
  | Ok user_agent =>
      let send_headers := submit_headers (se_now_ms env) user_agent in
      results ← submit_results fuel block send_headers state api_version env;
      Some match select_ok (outcome <$> results) with
           | Panics => Panics
           | Returns r =>
               Returns (mkTraced (partial_effects (se_progress env) results)
                          (map_err ReportPbs r))
           end
  end.
End Submit.

(** ** Validation of the unblinded block *)

Lemma check_commitments_ok i expected got :
  length expected = length got → check_commitments i expected got = Ok () ↔ expected = got.
Proof.
  revert i got. induction expected as [|c expected IH]; intros i [|c' got] Hlen; try done.
  simpl. injection Hlen as Hlen. case_bool_decide as Hc; simpl.
  - rewrite IH by done. subst. split; [by intros ->|by intros [= ->]].
  - split; [done|]. intros [= -> ->]. done.
Qed.

Lemma validate_unblinded_ok block response :
  validate_unblinded_block_electra block response = Ok () ↔
  commitments (blobs_bundle response) = blob_kzg_commitments (bb_body block) ∧
  length (blobs (blobs_bundle response)) = length (blob_kzg_commitments (bb_body block)) ∧
  length (proofs (blobs_bundle response)) = length (blob_kzg_commitments (bb_body block)).
Proof.
  unfold validate_unblinded_block_electra, Zlen.
  set (e := blob_kzg_commitments (bb_body block)). set (b := blobs_bundle response).
  destruct (Z.eqb_spec (Z.of_nat (length e)) (Z.of_nat (length (blobs b)))),
    (Z.eqb_spec (Z.of_nat (length e)) (Z.of_nat (length (commitments b)))),
    (Z.eqb_spec (Z.of_nat (length e)) (Z.of_nat (length (proofs b)))); simpl;
    try (split; [done|intros (Hc & Hb & Hp); rewrite ?Hc in *; lia]).
  rewrite check_commitments_ok by lia. split; [intros ->; split_and!; [done|lia|lia]|by intros (-> & _)].
Qed.

(** what a relay's answer must be for the block that was submitted *)
Definition unblinds (block : SignedBlindedBeaconBlock) (r : SubmitBlindedBlockResponse) : Prop :=
  submit_response_block_hash r = blinded_block_hash block ∧
  match sbb_message block, r with
  | BlindedElectra b, Electra p =>
      commitments (blobs_bundle p) = blob_kzg_commitments (bb_body b) ∧
      length (blobs (blobs_bundle p)) = length (blob_kzg_commitments (bb_body b)) ∧
      length (proofs (blobs_bundle p)) = length (blob_kzg_commitments (bb_body b))
  end.

Section SubmitLemmas.
Context {UL : UrlLib} {HL : HeaderLib} {HO : HashOrder string} {SJ : SubmitJson}.

(** the attempt was answered with success; on the v1 API with this unblinded block *)
Definition submit_answered (send : HttpRequest → SendOutcome) (request : HttpRequest)
    (api_version : BuilderApiVersion) (block : SignedBlindedBeaconBlock)
    (r : option SubmitBlindedBlockResponse) : Prop :=
  ∃ res body, send request = Ok res ∧ is_success (res_status res) = true ∧
    read_body res MAX_SIZE_SUBMIT_BLOCK_RESPONSE = Ok body ∧
    match api_version, r with
    | V1, Some r => submit_response_from_slice body = Ok r ∧ unblinds block r
    | V1, None => False
    | V2, Some _ => False
    | V2, None => True
    end.

Lemma send_submit_ok url block relay headers timeout v send r :
  outcome (send_submit_block url block relay headers timeout v send) = Ok r ↔
  submit_answered send (submit_request url block headers timeout) v block r.
Proof.
  unfold send_submit_block, submit_answered. simpl. split.
  - destruct (send _) as [res|err]; simpl; [|done].
    destruct (read_body res _) as [body|e] eqn:Hbody; simpl; [|done].
    destruct (is_success (res_status res)) eqn:Hs; simpl; [|done].
    destruct v; rewrite ?bool_decide_true, ?bool_decide_false by done; simpl.
    2:{ intros [= <-]. by exists res, body. }
    destruct (submit_response_from_slice body) as [resp|e] eqn:Hp; simpl; [|done].
    case_bool_decide as Hh; simpl; [|done].
    destruct (sbb_message block) as [b] eqn:Hb, resp as [p]; simpl.
    destruct (validate_unblinded_block_electra b p) as [[]|e] eqn:Hv; simpl; [|done].
    intros [= <-]. exists res, body. split_and!; try done. split; [done|].
    rewrite Hb. by apply validate_unblinded_ok.
  - intros (res & body & Hsend & Hs & Hbody & Hr). rewrite Hsend. simpl.
    rewrite Hbody. simpl. rewrite Hs. simpl.
    destruct v, r as [r|]; try done; rewrite ?bool_decide_true, ?bool_decide_false by done; simpl.
    destruct Hr as (Hp & Hh & Hm). rewrite Hp. simpl. rewrite bool_decide_true by done. simpl.
    destruct (sbb_message block) as [b] eqn:Hb, r as [p]. simpl.
    by rewrite (proj2 (validate_unblinded_ok b p) Hm).
Qed.

Lemma send_submit_sent url block relay headers timeout v send id req :
  Sent id req ∈ effects (send_submit_block url block relay headers timeout v send) ↔
  id = rl_id relay ∧ req = submit_request url block headers timeout.
Proof.
  unfold send_submit_block. split.
  - simpl. destruct (send _) as [res|err]; simpl; [|set_solver].
    unfold mbind, traced_bind. repeat (case_match; simpl); set_solver.
  - intros [-> ->]. unfold mbind at 1, traced_bind at 1. simpl. by left.
Qed.

Section Loop.
Variables (url : Url) (block : SignedBlindedBeaconBlock) (relay : RelayClient).
Variables (headers : gmap string HeaderValue) (timeout_ms : Z) (v : BuilderApiVersion).
Variable (env : AttemptEnv).

Local Notation loop fuel := (submit_loop fuel url block relay headers timeout_ms v env).
Local Notation attempt k remaining :=
  (send_submit_block url block relay headers remaining v (ae_send env k)).

(** The pause between attempts is at least the requested one. *)
Definition pauses_as_asked : Prop := ∀ k, 250 * (Z.of_nat k + 1) ≤ ae_elapsed_ms env k.

Lemma submit_loop_returns fuel remaining k :
  pauses_as_asked → timeout_ms ≤ 250 * Z.of_nat (k + fuel) → (0 < fuel)%nat →
  ∃ r, loop fuel remaining k (250 * (Z.of_nat k + 1)) = Some r.
Proof.
  intros Hp. revert remaining k. induction fuel as [|fuel IH]; intros remaining k Ht Hf; [lia|].
  cbn [submit_loop]. destruct (outcome _) as [a|err]; [eauto|].
  destruct (should_retry err); [|eauto].
  destruct (Z.eqb_spec (saturating_sub timeout_ms (ae_elapsed_ms env k)) 0) as [H0|Hne]; [eauto|].
  specialize (Hp k) as Hpk. unfold saturating_sub in *.
  destruct (IH (Z.max 0 (timeout_ms - ae_elapsed_ms env k)) (k + 1)%nat) as [r Hr]; [lia|lia|].
  replace (250 * (Z.of_nat k + 1) + 250) with (250 * (Z.of_nat (k + 1) + 1)) by lia.
  rewrite Hr. simpl. eauto.
Qed.

(** What the loop returns is what its last attempt returned, and every request it sent
    is an attempt with a positive share of the timeout. *)
Lemma submit_loop_spec fuel remaining k backoff r :
  loop fuel remaining k backoff = Some r → 0 < remaining ≤ timeout_ms →
  (∀ j, 0 ≤ ae_elapsed_ms env j) →
  (∃ j rem, (k ≤ j < k + fuel)%nat ∧ 0 < rem ≤ timeout_ms ∧ outcome r = outcome (attempt j rem)) ∧
  (∀ id req, Sent id req ∈ effects r →
     ∃ j rem, (k ≤ j < k + fuel)%nat ∧ 0 < rem ≤ timeout_ms ∧ id = rl_id relay ∧
       req = submit_request url block headers rem).
Proof.
  intros H Hrem Helapsed. revert remaining k backoff r H Hrem.
  induction fuel as [|fuel IH]; intros remaining k backoff r H Hrem; [done|].
  cbn [submit_loop] in H.
  assert (∀ l, l = effects (attempt k remaining) ∨
               l = effects (attempt k remaining) ++ [Slept backoff] →
    ∀ id req, Sent id req ∈ l → ∃ j rem, (k ≤ j < k + S fuel)%nat ∧
      0 < rem ≤ timeout_ms ∧ id = rl_id relay ∧ req = submit_request url block headers rem) as Hsent.
  { intros l [-> | ->] id req Hin; [|apply elem_of_app in Hin as [Hin|Hin]; [|set_solver]];
      apply send_submit_sent in Hin as [-> ->]; exists k, remaining; split_and!; done || lia. }
  destruct (outcome (attempt k remaining)) as [a|err] eqn:Ho.
  { injection H as <-. split; [exists k, remaining; rewrite Ho; split_and!; done || lia|by apply Hsent; left]. }
  destruct (should_retry err).
  2:{ injection H as <-. split; [exists k, remaining; rewrite Ho; split_and!; done || lia|by apply Hsent; left]. }
  destruct (Z.eqb_spec (saturating_sub timeout_ms (ae_elapsed_ms env k)) 0) as [H0|Hne].
  { injection H as <-. split; [exists k, remaining; rewrite Ho; split_and!; done || lia|by apply Hsent; right]. }
  destruct (loop fuel _ (k + 1)%nat (backoff + 250)) as [rest|] eqn:E; [|done].
  cbn [mbind option_bind] in H. apply (inj Some) in H as <-. cbn [effects outcome].
  specialize (Helapsed k).
  apply IH in E as [(j & rem & Hj & Hr & Hout) IH2]; [|unfold saturating_sub in *; lia]. split.
  - exists j, rem. split_and!; done || lia.
  - intros id req [Hin|Hin]%elem_of_app.
    + by apply (Hsent _ (or_introl eq_refl)).
    + apply elem_of_cons in Hin as [?|Hin]; [done|].
      destruct (IH2 id req Hin) as (j' & rem' & ? & ? & ? & ?).
      exists j', rem'. split_and!; done || lia.
Qed.

(** the pauses in a trace, in order *)
Definition pauses (l : list Effect) : list Z :=
  omap (λ e, match e with Slept ms => Some ms | _ => None end) l.
Definition total_pause (l : list Effect) : Z := foldr Z.add 0 (pauses l).

Lemma send_submit_no_pause k remaining : pauses (effects (attempt k remaining)) = [].
Proof.
  unfold send_submit_block. simpl. destruct (ae_send env k _) as [res|err]; [|done].
  unfold mbind, traced_bind. repeat (case_match; simpl); done.
Qed.

(** the number of attempts at a relay that keeps failing *)
Definition max_attempts : nat := Z.to_nat ((timeout_ms + 249) / 250).

(** a relay that fails every attempt at once, in a way that is retried *)
Definition always_retryable : Prop :=
  ∀ k remaining, ∃ e, outcome (attempt k remaining) = Err e ∧ should_retry e = true.

Lemma submit_loop_pauses fuel remaining k r :
  always_retryable → (∀ j, ae_elapsed_ms env j = 250 * (Z.of_nat j + 1)) → 0 < timeout_ms →
  (k < max_attempts)%nat →
  loop fuel remaining k (250 * (Z.of_nat k + 1)) = Some r →
  pauses (effects r) = (λ j, 250 * (Z.of_nat j + 1)) <$> seq k (max_attempts - k).
Proof.
  intros Hfail Hel Hpos. revert remaining k r.
  induction fuel as [|fuel IH]; intros remaining k r Hk H; [done|].
  cbn [submit_loop] in H. destruct (Hfail k remaining) as (e & He & Hre). rewrite He, Hre in H.
  rewrite Hel in H.
  assert (Hn : 250 * (Z.of_nat max_attempts - 1) < timeout_ms ≤ 250 * Z.of_nat max_attempts).
  { unfold max_attempts. rewrite Z2Nat.id by (apply Z.div_pos; lia).
    pose proof (Z.div_mod (timeout_ms + 249) 250). pose proof (Z.mod_pos_bound (timeout_ms + 249) 250).
    lia. }
  destruct (Z.eqb_spec (saturating_sub timeout_ms (250 * (Z.of_nat k + 1))) 0) as [H0|Hne];
    unfold saturating_sub in *.
  - apply (inj Some) in H as <-. cbn [effects]. unfold pauses. rewrite omap_app.
    fold (pauses (effects (attempt k remaining))). rewrite send_submit_no_pause.
    replace (max_attempts - k)%nat with 1%nat by lia. done.
  - replace (250 * (Z.of_nat k + 1) + 250) with (250 * (Z.of_nat (k + 1) + 1)) in H by lia.
    destruct (loop fuel _ (k + 1)%nat (250 * (Z.of_nat (k + 1) + 1))) as [rest|] eqn:E; [|done].
    cbn [mbind option_bind] in H. apply (inj Some) in H as <-. cbn [effects].
    apply IH in E; [|lia]. unfold pauses in *. rewrite !omap_app.
    fold (pauses (effects (attempt k remaining))). rewrite send_submit_no_pause, E.
    replace (max_attempts - k)%nat with (S (max_attempts - (k + 1))) by lia.
    rewrite Nat.add_1_r. done.
Qed.
End Loop.
End SubmitLemmas.

Lemma sum_pauses n :
  foldr Z.add 0 ((λ j, 250 * (Z.of_nat j + 1)) <$> seq 0 n) = 125 * Z.of_nat n * (Z.of_nat n + 1).
Proof.
  induction n as [|n IH]; [done|]. rewrite seq_S, fmap_app, foldr_app. simpl.
  assert (∀ l x, foldr Z.add x l = foldr Z.add 0 l + x) as Hacc.
  { induction l as [|y l IHl]; intros x; simpl; [done|]. rewrite IHl. lia. }
  rewrite Hacc, IH. lia.
Qed.

(** Retrying outlives the timeout.  Against a relay that keeps failing in a retryable
    way, the loop makes one attempt per started 250 ms of [timeout_ms], with pauses of
    250, 500, 750, ... ms: it measures only the last attempt, so in total it pauses
    [125 * n * (n + 1)] ms for [n] attempts, 34 s for the default timeout of 4 s. *)
Theorem submit_retries_outlive_timeout {UL : UrlLib} {HO : HashOrder string} {SJ : SubmitJson}
    fuel block relay headers timeout_ms v env url :
  submit_block_url relay v = Ok url → 0 < timeout_ms →
  always_retryable url block relay headers v env →
  (∀ j, ae_elapsed_ms env j = 250 * (Z.of_nat j + 1)) →
  (max_attempts timeout_ms ≤ fuel)%nat →
  ∃ r, submit_block_with_timeout fuel block relay headers timeout_ms v env = Some r ∧
    let n := Z.of_nat (max_attempts timeout_ms) in
    total_pause (effects r) = 125 * n * (n + 1) ∧
    timeout_ms * (timeout_ms + 250) ≤ 500 * total_pause (effects r).
Proof.
  intros Hurl Hpos Hfail Hel Hfuel. unfold submit_block_with_timeout. rewrite Hurl.
  assert (timeout_ms ≤ 250 * Z.of_nat (max_attempts timeout_ms)) as Hn.
  { unfold max_attempts. rewrite Z2Nat.id by (apply Z.div_pos; lia).
    pose proof (Z.div_mod (timeout_ms + 249) 250).
    pose proof (Z.mod_pos_bound (timeout_ms + 249) 250). lia. }
  destruct (submit_loop_returns url block relay headers timeout_ms v env fuel timeout_ms 0)
    as [r Hr].
  { intros k. rewrite Hel. lia. }
  { simpl. lia. }
  { lia. }
  exists r. simpl in Hr. split; [done|].
  assert (total_pause (effects r)
    = 125 * Z.of_nat (max_attempts timeout_ms) * (Z.of_nat (max_attempts timeout_ms) + 1)) as Htot.
  { unfold total_pause.
    erewrite (submit_loop_pauses url block relay headers timeout_ms v env fuel timeout_ms 0);
      [|done|done|done|lia|exact Hr].
    rewrite Nat.sub_0_r. apply sum_pauses. }
  simpl. split; [done|]. rewrite Htot. nia.
Qed.

Section SubmitTheorems.
Context {UL : UrlLib} {HL : HeaderLib} {HO : HashOrder string} {SJ : SubmitJson}.
Context {FL : FuturesLib} {FC : FuturesCorrect} {S : Type}.
Variables (fuel : nat) (block : SignedBlindedBeaconBlock) (req_headers : gmap string HeaderValue).
Variables (state : PbsState S) (v : BuilderApiVersion) (env : SubmitEnv).

(** relay [i] answered one of the attempts with success *)
Definition relay_delivers (i : nat) (r : option SubmitBlindedBlockResponse) : Prop :=
  ∃ relay ua url k remaining,
    state_all_relays state !! i = Some relay ∧
    get_user_agent_with_version req_headers = Ok ua ∧
    submit_block_url relay v = Ok url ∧
    0 < remaining ≤ timeout_get_payload_ms (pbs_config state) ∧
    submit_answered (ae_send (se_relay env i) k)
      (submit_request url block (submit_headers (se_now_ms env) ua) remaining) v block r.

Lemma submit_results_lookup ua results i res :
  submit_results fuel block (submit_headers (se_now_ms env) ua) state v env = Some results →
  results !! i = Some res →
  ∃ relay, state_all_relays state !! i = Some relay ∧
    submit_block_with_timeout fuel block relay (submit_headers (se_now_ms env) ua)
      (timeout_get_payload_ms (pbs_config state)) v (se_relay env i) = Some res.
Proof.
  intros E%mapM_Some Hi. destruct (Forall2_lookup_r _ _ _ _ _ E Hi) as (o & Ho & Heq).
  rewrite list_lookup_imap in Ho. apply fmap_Some in Ho as (relay & Hr & ->). eauto.
Qed.

(** A call that succeeds selected the result of one relay's loop *)
Lemma submit_block_ok t r :
  submit_block fuel block req_headers state v env = Some (Returns t) →
  0 < timeout_get_payload_ms (pbs_config state) →
  (∀ i j, 0 ≤ ae_elapsed_ms (se_relay env i) j) →
  outcome t = Ok r → ∃ i, relay_delivers i r.
Proof.
  intros H Hpos Hel Hout. unfold submit_block in H.
  destruct (get_user_agent_with_version req_headers) as [ua|e] eqn:Hua.
  2:{ by injection H as <-. }
  destruct (submit_results _ _ _ _ _ _) as [results|] eqn:E; [|done].
  cbn [mbind option_bind] in H. apply (inj Some) in H.
  destruct (select_ok (outcome <$> results)) as [sel|] eqn:Hsel; [|done].
  injection H as <-. cbn [outcome] in Hout. apply map_err_ok in Hout. subst sel.
  apply select_ok_ok, list_elem_of_fmap in Hsel as (res & Hres & Hin).
  apply list_elem_of_lookup in Hin as [i Hi].
  destruct (submit_results_lookup _ _ _ _ E Hi) as (relay & Hrelay & Hloop).
  unfold submit_block_with_timeout in Hloop.
  destruct (submit_block_url relay v) as [url|e] eqn:Hurl; [|by injection Hloop as <-].
  apply submit_loop_spec in Hloop as [(k & remaining & _ & Hrem & Hout) _]; [|lia|done].
  rewrite <- Hres in Hout. symmetry in Hout. apply send_submit_ok in Hout.
  exists i, relay, ua, url, k, remaining. auto.
Qed.

(** Whatever is sent has the block as its body *)
Definition sends_block (e : Effect) : Prop :=
  ∀ id req, e = Sent id req → rq_body req = BlindedBlockBody block.
Lemma submit_loop_sends f url relay headers timeout_ms e rem k b r :
  submit_loop f url block relay headers timeout_ms v e rem k b = Some r → traced_all sends_block r.
Proof.
  revert rem k b r. induction f as [|f IH]; intros rem k b r H; [done|]. cbn [submit_loop] in H.
  assert (traced_all sends_block (send_submit_block url block relay headers rem v (ae_send e k))) as Hone.
  { apply Forall_forall. intros x Hx id req ->. by apply send_submit_sent in Hx as [_ ->]. }
  destruct (outcome _) as [a|err]; [by apply (inj Some) in H as <-|].
  destruct (should_retry err); [|by apply (inj Some) in H as <-].
  destruct (_ =? 0); [apply (inj Some) in H as <-; apply Forall_app; split; [done|constructor; [by intros ? ?|constructor]]|].
  destruct (submit_loop f _ _ _ _ _ _ _ _ _ _) as [rest|] eqn:E; [|done].
  cbn [mbind option_bind] in H. apply (inj Some) in H as <-.
  apply Forall_app. split; [done|]. constructor; [by intros ? ?|by eapply IH].
Qed.
Lemma submit_block_sends t :
  submit_block fuel block req_headers state v env = Some (Returns t) → traced_all sends_block t.
Proof.
  intros H. unfold submit_block in H.
  destruct (get_user_agent_with_version req_headers) as [ua|e]; [|injection H as <-; constructor].
  destruct (submit_results _ _ _ _ _ _) as [results|] eqn:E; [|done]. cbn [mbind option_bind] in H.
  apply (inj Some) in H. destruct (select_ok (outcome <$> results)); [|done]. injection H as <-.
  unfold traced_all, partial_effects. cbn [effects]. apply Forall_concat, Forall_lookup. intros i l Hi.
  rewrite list_lookup_imap in Hi. apply fmap_Some in Hi as (res & Hi & ->). apply Forall_take.
  destruct (submit_results_lookup _ _ _ _ E Hi) as (relay & _ & Hloop).
  unfold submit_block_with_timeout in Hloop.
  destruct (submit_block_url relay v); [by eapply submit_loop_sends|]. injection Hloop as <-. constructor.
Qed.

(** what each version of the API delivers *)
Definition payload_for (r : option SubmitBlindedBlockResponse) : Prop :=
  match v with V1 => ∃ p, r = Some p ∧ unblinds block p | V2 => r = None end.

Lemma relay_delivers_payload i r : relay_delivers i r → payload_for r.
Proof.
  intros (relay & ua & url & k & rem & _ & _ & _ & _ & res' & body & _ & _ & _ & Hr).
  unfold payload_for. destruct v, r as [p|]; try done. exists p. by destruct Hr.
Qed.

(** [select_ok] panics only without relays *)
Lemma submit_block_panics :
  submit_block fuel block req_headers state v env = Some Panics → state_all_relays state = [].
Proof.
  unfold submit_block. destruct (get_user_agent_with_version req_headers) as [ua|e]; [|done].
  destruct (submit_results _ _ _ _ _ _) as [results|] eqn:E; [|done]. cbn [mbind option_bind].
  apply mapM_Some, Forall2_length in E. rewrite length_imap in E.
  destruct results as [|res results]; [by intros _; apply nil_length_inv|].
  destruct (select_ok_returns (outcome <$> res :: results)) as (sel & Hsel & _); [done|].
  by rewrite Hsel.
Qed.

(** C2: A delivered payload is the one that was asked for.  If [submit_block] succeeds,
    a relay answered one of the attempts of this call with success; on the v1 API the
    answer is an unblinded block with the hash of the submitted one, whose blobs bundle
    has exactly the submitted commitments and as many blobs and proofs; on the v2 API the
    answer is empty. *)
Theorem submit_block_delivers t r :
  submit_block fuel block req_headers state v env = Some (Returns t) →
  0 < timeout_get_payload_ms (pbs_config state) →
  (∀ i j, 0 ≤ ae_elapsed_ms (se_relay env i) j) →
  outcome t = Ok r →
  (∃ i, relay_delivers i r) ∧
  match v with V1 => ∃ p, r = Some p ∧ unblinds block p | V2 => r = None end.
Proof.
  intros H Hpos Hel Hout. destruct (submit_block_ok t r H Hpos Hel Hout) as [i Hi].
  split; [eauto|]. exact (relay_delivers_payload i r Hi).
Qed.

End SubmitTheorems.

(** ** A concrete submission

    A block with one blob; the relay answers the first attempt with a server error and
    the second with the payload. *)
Module SubmitSample.

Definition payload_header : ExecutionPayloadHeader := {|
  eph_parent_hash := []; eph_fee_recipient := []; eph_state_root := [];
  eph_receipts_root := []; eph_logs_bloom := []; eph_prev_randao := []; eph_block_number := 8;
  eph_gas_limit := 30000000; eph_gas_used := 0; eph_timestamp := 1695902460;
  eph_extra_data := []; eph_base_fee_per_gas := 7; eph_block_hash := byte_array 32 x09;
  eph_transactions_root := []; eph_withdrawals_root := [];
  eph_blob_gas_used := 0; eph_excess_blob_gas := 0 |}.
Definition commitment : KzgCommitment := byte_array 48 x0c.
Definition block : SignedBlindedBeaconBlock := {|
  sbb_signature := [];
  sbb_message := BlindedElectra {|
    bb_slot := 5; bb_proposer_index := 1; bb_parent_root := []; bb_state_root := [];
    bb_body := {|
      randao_reveal := []; eth1_data := {| e1_deposit_root := []; e1_deposit_count := 0;
                                           e1_block_hash := [] |};
      graffiti := []; proposer_slashings := []; attester_slashings := []; attestations := [];
      deposits := []; voluntary_exits := [];
      sync_aggregate := {| sync_committee_bits := []; sync_committee_signature := [] |};
      execution_payload_header := payload_header; bls_to_execution_changes := [];
      blob_kzg_commitments := [commitment];
      execution_requests := {| er_deposits := []; er_withdrawals := []; er_consolidations := [] |}
    |} |} |}.
Definition payload : SubmitBlindedBlockResponse := Electra {|
  execution_payload := {|
    ep_parent_hash := []; ep_fee_recipient := []; ep_state_root := []; ep_receipts_root := [];
    ep_logs_bloom := []; ep_prev_randao := []; ep_block_number := 8; ep_gas_limit := 30000000;
    ep_gas_used := 0; ep_timestamp := 1695902460; ep_extra_data := []; ep_base_fee_per_gas := 7;
    ep_block_hash := byte_array 32 x09; ep_transactions := []; ep_withdrawals := [];
    ep_blob_gas_used := 0; ep_excess_blob_gas := 0 |};
  blobs_bundle := {| commitments := [commitment]; proofs := [byte_array 48 x0d];
                     blobs := [[x01]] |} |}.

Definition json : SubmitJson := {|
  submit_response_from_slice b :=
    if bool_decide (b = [x01]) then Ok payload else Err "not a payload"%string |}.
Definition respond (code : Z) (body : bytes) : SendOutcome :=
  Ok {| res_status := code; res_content_length := None; res_chunks := [Ok body] |}.
Definition attempts (f : nat → SendOutcome) : AttemptEnv :=
  {| ae_send k _ := f k; ae_elapsed_ms k := 250 * (Z.of_nat k + 1) |}.
Definition env : SubmitEnv := {|
  se_now_ms := 1000;
  se_relay _ := attempts (λ k, match k with O => respond 500 [] | _ => respond 200 [x01] end);
  se_progress _ := 100%nat |}.
Definition state : PbsState () := sample_state [sample_relay] default_pbs_config.

#[local] Existing Instances plain_urls plain_headers json in_order in_order_correct.

Definition call := submit_block 16 block ∅ state V1 env.
Example call_delivers :
  match call with Some (Returns t) => bool_decide (is_Some (result_ok (outcome t)))
  | _ => false end = true.
Proof. vm_compute. reflexivity. Qed.

Lemma submit_block_delivers_witness : ∃ p, unblinds block p.
Proof.
  pose proof call_delivers as Hd.
  destruct call as [[t|]|] eqn:E; try discriminate Hd.
  destruct (outcome t) as [r|e] eqn:Ho; [|discriminate Hd].
  destruct (submit_block_delivers 16 block ∅ state V1 env t r E) as [_ (p & _ & Hp)].
  - reflexivity.
  - intros i j. simpl. lia.
  - exact Ho.
  - exists p. exact Hp.
Defined.


(** Four seconds of timeout, sixteen attempts, 34 seconds of pauses *)
Lemma submit_retries_outlive_timeout_witness :
  ∃ r, submit_block_with_timeout 16 block sample_relay ∅ 4000 V1 (attempts (λ _, respond 500 []))
       = Some r ∧ total_pause (effects r) = 34000.
Proof.
  destruct (submit_retries_outlive_timeout 16 block sample_relay ∅ 4000 V1
    (attempts (λ _, respond 500 [])) "http://abc.xyz//eth/v1/builder/blinded_blocks")
    as (r & Hr & Ht & _).
  - reflexivity.
  - reflexivity.
  - intros k remaining. eexists. split; [reflexivity|reflexivity].
  - reflexivity.
  - vm_compute. lia.
  - exists r. split; [exact Hr|]. rewrite Ht. reflexivity.
Defined.
End SubmitSample.
