(* ===== verification/RegisterValidator.v ===== *)
(** * [register_validator] and [get_status]

    Models [crates/pbs/src/mev_boost/register_validator.rs] and [status.rs].  Each batch
    of registrations is a spawned task; [RegisterEnv] gives, for the [n]-th task, the
    answers its attempts meet and whether the task could be joined. *)

From stdpp Require Import pretty.
From S2P Require Import Prelude Bytes Chain Signature PbsTypes Http Relay Futures PbsConfig.
From S2P Require Import PbsState SubmitBlock.

Record RegisterEnv := {
  ge_start_ms : Z;
  ge_task : nat → AttemptEnv;
  ge_joined : nat → bool;
}.

Section Register.
Context {UL : UrlLib} {HL : HeaderLib} {HO : HashOrder string}.

(** ** One attempt *)

Definition register_request (url : Url) (registrations : list ValidatorRegistration)
    (headers : gmap string HeaderValue) (timeout_ms : Z) : HttpRequest := {|
  rq_method := POST; rq_url := url; rq_timeout_ms := timeout_ms; rq_headers := headers;
  rq_body := RegistrationsBody registrations |}.

Definition send_register_validator (url : Url) (registrations : list ValidatorRegistration)
    (relay : RelayClient) (headers : gmap string HeaderValue) (timeout_ms : Z)
    (send : HttpRequest → SendOutcome) : Relayed () :=
  let request := register_request url registrations headers timeout_ms in
  _ ← tell (Sent (rl_id relay) request);
  match send request with
  | Err err =>
      _ ← tell (RelayStatusCode TIMEOUT_ERROR_CODE_STR REGISTER_VALIDATOR_ENDPOINT_TAG
                  (rl_id relay));
      throw (Reqwest err)
  | Ok res =>
      _ ← tell (RelayLatency REGISTER_VALIDATOR_ENDPOINT_TAG (rl_id relay));
      let code := res_status res in
      _ ← tell (RelayStatusCode (status_str code) REGISTER_VALIDATOR_ENDPOINT_TAG (rl_id relay));
      if negb (is_success code) then
        response_bytes ← lift (read_body res MAX_SIZE_DEFAULT);
        throw (RelayResponse (from_utf8_lossy response_bytes) code)
      else mret ()
  end.

(** ** The retry loop *)

Fixpoint register_loop (fuel : nat) (url : Url) (registrations : list ValidatorRegistration)
    (relay : RelayClient) (headers : gmap string HeaderValue) (timeout_ms retry_limit : Z)
    (env : AttemptEnv) (remaining_timeout_ms : Z) (retry : nat) (backoff : Z)
    : option (Relayed ()) :=
  match fuel with
  | O => None
  | S fuel =>
      let res := send_register_validator url registrations relay headers remaining_timeout_ms
                   (ae_send env retry) in
      match outcome res with
      | Ok _ => Some res
      | Err err =>
          if should_retry err then
            if Z.of_nat (retry + 1) >=? retry_limit then Some res
            else
              let remaining := saturating_sub timeout_ms (ae_elapsed_ms env retry) in
              if remaining =? 0 then Some (mkTraced (effects res ++ [Slept backoff]) (Err err))
              else
                rest ← register_loop fuel url registrations relay headers timeout_ms retry_limit
                         env remaining (retry + 1) (backoff + 250);
                Some (mkTraced (effects res ++ [Slept backoff] ++ effects rest) (outcome rest))
          else Some res
      end
  end.

Definition send_register_validator_with_timeout (fuel : nat)
    (registrations : list ValidatorRegistration) (relay : RelayClient)
    (headers : gmap string HeaderValue) (timeout_ms retry_limit : Z) (env : AttemptEnv)
    : option (Relayed ()) :=
  match register_validator_url relay with
  | Err e => Some (throw e)
  | Ok url => register_loop fuel url registrations relay headers timeout_ms retry_limit env
                timeout_ms 0 250
  end.

(** ** All relays *)

(** the batches sent to one relay; [chunks] panics on a batch size of zero *)
Definition relay_batches (registrations : list ValidatorRegistration) (relay : RelayClient)
    : Call (list (list ValidatorRegistration)) :=
  match validator_registration_batch_size (rl_config relay) with
  | Some batch_size =>
      if batch_size =? 0 then Panics
      else Returns (chunks (Z.to_nat batch_size) registrations)
  | None => Returns [registrations]
  end.

(** the tasks, in the order they are spawned: a relay and one of its batches each *)
Fixpoint register_tasks (registrations : list ValidatorRegistration) (relays : list RelayClient)
    : Call (list (RelayClient * list ValidatorRegistration)) :=
  match relays with
  | [] => Returns []
  | relay :: relays =>
      match relay_batches registrations relay with
      | Panics => Panics
      | Returns batches =>
          match register_tasks registrations relays with
          | Panics => Panics
          | Returns tasks => Returns ((pair relay <$> batches) ++ tasks)
          end
      end
  end.

Context {FL : FuturesLib} {S : Type}.

Definition register_results (fuel : nat) (send_headers : gmap string HeaderValue)
    (state : PbsState S) (env : RegisterEnv)
    (tasks : list (RelayClient * list ValidatorRegistration)) : option (list (Relayed ())) :=
  mapM id (imap (λ n '(relay, batch),
    send_register_validator_with_timeout fuel batch relay send_headers
      (timeout_register_validator_ms (pbs_config state))
      (register_validator_retry_limit (pbs_config state)) (ge_task env n)) tasks).

(** the results of the [JoinHandle]s *)
Definition joined_results (env : RegisterEnv) (results : list (Relayed ()))
    : list (Result () (Result PbsError ())) :=
  imap (λ n res, if ge_joined env n then Ok (outcome res) else Err ()) results.

Definition no_relay_passed : PbsReport :=
  ReportMsg "No relay passed register_validator successfully".

Definition register_validator (fuel : nat) (registrations : list ValidatorRegistration)
    (req_headers : gmap string HeaderValue) (state : PbsState S) (env : RegisterEnv)
    : option (Call (Traced Effect PbsReport ())) :=
  match header_value_from_str (pretty (ge_start_ms env)),
        get_user_agent_with_version req_headers with
  | None, _ => Some (Returns (throw (ReportMsg "invalid header value")))
  | _, Err e => Some (Returns (throw (ReportMsg e)))
  | Some start, Ok user_agent =>
      let send_headers :=
        <[USER_AGENT := user_agent]>
          {[ to_ascii_lowercase HEADER_START_TIME_UNIX_MS := start ]} in
      match register_tasks registrations (state_all_relays state) with
      | Panics => Some Panics
      | Returns tasks =>
          results ← register_results fuel send_headers state env tasks;
          let handles := joined_results env results in
          let finish r := Returns (mkTraced (results ≫= effects) r) in
          Some
            (if wait_all_registrations (pbs_config state) then
               if existsb (λ res, match res with Ok (Ok _) => true | _ => false end) handles
               then finish (Ok ()) else finish (Err no_relay_passed)
             else
               match select_ok handles with
               | Panics => Panics
               | Returns (Err _) => finish (Err (ReportMsg "join error"))
               | Returns (Ok (Ok _)) => finish (Ok ())
               | Returns (Ok (Err _)) => finish (Err no_relay_passed)
               end)
      end
  end.
End Register.

(** ** [get_status] *)

Section Status.
Context {UL : UrlLib} {HL : HeaderLib} {HO : HashOrder string}.

Definition status_request (url : Url) (headers : gmap string HeaderValue) : HttpRequest := {|
  rq_method := GET; rq_url := url; rq_timeout_ms := 30 * 1000; rq_headers := headers;
  rq_body := NoBody |}.

Definition send_relay_check (relay : RelayClient) (headers : gmap string HeaderValue)
    (send : HttpRequest → SendOutcome) : Relayed () :=
  url ← lift (get_status_url relay);
  let request := status_request url headers in
  _ ← tell (Sent (rl_id relay) request);
  match send request with
  | Err err =>
      _ ← tell (RelayStatusCode TIMEOUT_ERROR_CODE_STR STATUS_ENDPOINT_TAG (rl_id relay));
      throw (Reqwest err)
  | Ok res =>
      _ ← tell (RelayLatency STATUS_ENDPOINT_TAG (rl_id relay));
      let code := res_status res in
      _ ← tell (RelayStatusCode (status_str code) STATUS_ENDPOINT_TAG (rl_id relay));
      if negb (is_success code) then
        response_bytes ← lift (read_body res MAX_SIZE_DEFAULT);
        throw (RelayResponse (from_utf8_lossy response_bytes) code)
      else mret ()
  end.

Context {FL : FuturesLib} {S : Type}.

Definition get_status (req_headers : gmap string HeaderValue) (state : PbsState S)
    (send : nat → HttpRequest → SendOutcome) (progress : nat → nat)
    : Call (Traced Effect PbsReport ()) :=
  if negb (relay_check (pbs_config state)) then Returns (mret ())
  else
    match get_user_agent_with_version req_headers with
    | Err e => Returns (throw (ReportMsg e))
    | Ok user_agent =>
        let send_headers := {[ USER_AGENT := user_agent ]} in
        let results := imap (λ i relay, send_relay_check relay send_headers (send i))
                         (state_all_relays state) in
        match select_ok (outcome <$> results) with
        | Panics => Panics
        | Returns r =>
            Returns (mkTraced (partial_effects progress results) (map_err ReportPbs r))
        end
    end.
End Status.

(** ** Batches *)

(** what is right for one relay: its batches are the registrations, cut into non-empty
    pieces of at most the batch size, or all of them at once *)
Definition batches_for (registrations : list ValidatorRegistration) (relay : RelayClient)
    (batches : list (list ValidatorRegistration)) : Prop :=
  concat batches = registrations ∧
  match validator_registration_batch_size (rl_config relay) with
  | Some n => Forall (λ b, 0 < Zlen b ≤ n) batches
  | None => batches = [registrations]
  end.

Definition batch_sizes_typed (relays : list RelayClient) : Prop :=
  Forall (λ r, from_option is_u64 True (validator_registration_batch_size (rl_config r))) relays.

Lemma relay_batches_spec registrations relay batches :
  from_option is_u64 True (validator_registration_batch_size (rl_config relay)) →
  relay_batches registrations relay = Returns batches → batches_for registrations relay batches.
Proof.
  unfold relay_batches, batches_for, is_u64.
  destruct (validator_registration_batch_size (rl_config relay)) as [n|]; simpl; intros Hn H.
  - destruct (Z.eqb_spec n 0); [done|]. injection H as <-. split; [apply chunks_concat; lia|].
    eapply Forall_impl; [apply chunks_sizes; lia|]. unfold Zlen. simpl. lia.
  - injection H as <-. split; [|done]. simpl. apply app_nil_r.
Qed.


(** ** The retry loop *)

Section RegisterLoop.
Context {UL : UrlLib} {HO : HashOrder string}.
Variables (url : Url) (regs : list ValidatorRegistration) (relay : RelayClient).
Variables (headers : gmap string HeaderValue) (timeout_ms retry_limit : Z) (env : AttemptEnv).

Local Notation loop fuel :=
  (register_loop fuel url regs relay headers timeout_ms retry_limit env).
Local Notation attempt k remaining :=
  (send_register_validator url regs relay headers remaining (ae_send env k)).

Lemma send_register_ok k remaining :
  outcome (attempt k remaining) = Ok () ↔
  ∃ res, ae_send env k (register_request url regs headers remaining) = Ok res ∧
    is_success (res_status res) = true.
Proof.
  unfold send_register_validator. simpl. split.
  - destruct (ae_send env k _) as [res|err]; simpl; [|done].
    destruct (is_success (res_status res)) eqn:Hs; simpl; [eauto|].
    by destruct (read_body res MAX_SIZE_DEFAULT).
  - intros (res & -> & Hs). simpl. by rewrite Hs.
Qed.

(** the requests in a trace *)
Definition requests (l : list Effect) : list HttpRequest :=
  omap (λ e, match e with Sent _ req => Some req | _ => None end) l.

Lemma send_register_requests k remaining :
  requests (effects (attempt k remaining)) = [register_request url regs headers remaining].
Proof.
  unfold send_register_validator. simpl. destruct (ae_send env k _) as [res|err]; [|done].
  unfold mbind, traced_bind. repeat (case_match; simpl); done.
Qed.

Lemma register_loop_returns fuel remaining k backoff :
  retry_limit ≤ Z.of_nat (k + fuel) → (0 < fuel)%nat →
  ∃ r, loop fuel remaining k backoff = Some r.
Proof.
  revert remaining k backoff. induction fuel as [|fuel IH]; intros remaining k backoff Hl Hf; [lia|].
  cbn [register_loop]. destruct (outcome _) as [a|err]; [eauto|].
  destruct (should_retry err); [|eauto].
  destruct (Z.geb_spec (Z.of_nat (k + 1)) retry_limit) as [Hge|Hlt]; [eauto|].
  destruct (_ =? 0); [eauto|].
  destruct (IH (saturating_sub timeout_ms (ae_elapsed_ms env k)) (k + 1)%nat (backoff + 250))
    as [r Hr]; [lia|lia|]. rewrite Hr. simpl. eauto.
Qed.

Lemma register_loop_spec fuel remaining k backoff r :
  loop fuel remaining k backoff = Some r →
  (∃ j rem, outcome r = outcome (attempt j rem)) ∧
  Zlen (requests (effects r)) ≤ Z.max 1 (retry_limit - Z.of_nat k) ∧
  Forall (λ req, rq_body req = RegistrationsBody regs) (requests (effects r)).
Proof.
  revert remaining k backoff r. induction fuel as [|fuel IH]; intros remaining k backoff r H; [done|].
  cbn [register_loop] in H.
  pose proof (send_register_requests k remaining) as Hone.
  assert (∀ l, l = effects (attempt k remaining) ∨
               l = effects (attempt k remaining) ++ [Slept backoff] →
    requests l = [register_request url regs headers remaining]) as Hreq.
  { intros l [-> | ->]; [done|]. unfold requests in *. rewrite omap_app, Hone. done. }
  assert (∀ l, requests l = [register_request url regs headers remaining] →
    Zlen (requests l) ≤ Z.max 1 (retry_limit - Z.of_nat k) ∧
    Forall (λ req, rq_body req = RegistrationsBody regs) (requests l)) as Hend.
  { intros l ->. split; [unfold Zlen; simpl; lia|by repeat constructor]. }
  destruct (outcome (attempt k remaining)) as [a|err] eqn:Ho.
  { injection H as <-. split; [exists k, remaining; by rewrite Ho|auto]. }
  destruct (should_retry err); [|injection H as <-; split; [exists k, remaining; by rewrite Ho|auto]].
  destruct (Z.geb_spec (Z.of_nat (k + 1)) retry_limit) as [Hge|Hlt].
  { injection H as <-. split; [exists k, remaining; by rewrite Ho|auto]. }
  destruct (_ =? 0).
  { injection H as <-. split; [exists k, remaining; by rewrite Ho|auto]. }
  destruct (loop fuel _ (k + 1)%nat _) as [rest|] eqn:E; [|done].
  cbn [mbind option_bind] in H. apply (inj Some) in H as <-. cbn [effects outcome].
  apply IH in E as (Hout & Hlen & Hall). split; [done|].
  assert (requests (effects (attempt k remaining) ++ [Slept backoff] ++ effects rest)
          = register_request url regs headers remaining :: requests (effects rest)) as ->.
  { unfold requests in *. rewrite !omap_app, Hone. done. }
  split; [unfold Zlen in *; simpl; lia|by constructor].
Qed.
End RegisterLoop.

Section RegisterTheorems.
Context {UL : UrlLib} {HL : HeaderLib} {HO : HashOrder string}.
Context {FL : FuturesLib} {S : Type}.
Variables (fuel : nat) (regs : list ValidatorRegistration) (req_headers : gmap string HeaderValue).
Variables (state : PbsState S) (env : RegisterEnv).

(** task [n] got a success for one of its attempts: the relay accepted the batch *)
Definition accepted (tasks : list (RelayClient * list ValidatorRegistration)) (n : nat) : Prop :=
  ∃ relay batch url headers k remaining res,
    tasks !! n = Some (relay, batch) ∧ register_validator_url relay = Ok url ∧
    ae_send (ge_task env n) k (register_request url batch headers remaining) = Ok res ∧
    is_success (res_status res) = true.

Lemma register_results_lookup headers tasks results n res :
  register_results fuel headers state env tasks = Some results → results !! n = Some res →
  ∃ relay batch, tasks !! n = Some (relay, batch) ∧
    send_register_validator_with_timeout fuel batch relay headers
      (timeout_register_validator_ms (pbs_config state))
      (register_validator_retry_limit (pbs_config state)) (ge_task env n) = Some res.
Proof.
  intros E%mapM_Some Hn. destruct (Forall2_lookup_r _ _ _ _ _ E Hn) as (o & Ho & Heq).
  rewrite list_lookup_imap in Ho. apply fmap_Some in Ho as ([relay batch] & Hr & ->). eauto.
Qed.

Lemma result_accepted headers tasks results n res :
  register_results fuel headers state env tasks = Some results → results !! n = Some res →
  outcome res = Ok () → accepted tasks n.
Proof.
  intros E Hn Hok. destruct (register_results_lookup _ _ _ _ _ E Hn) as (relay & batch & Ht & Hl).
  unfold send_register_validator_with_timeout in Hl.
  destruct (register_validator_url relay) as [url|e] eqn:Hurl; [|by injection Hl as <-].
  apply register_loop_spec in Hl as ((k & rem & Hout) & _).
  rewrite Hok in Hout. symmetry in Hout. apply send_register_ok in Hout as (r & Hs & Hsucc).
  exists relay, batch, url, headers, k, rem, r. by split_and!.
Qed.

Lemma joined_results_elem results (r : Result PbsError ()) :
  Ok r ∈ joined_results env results ↔
  ∃ n res, results !! n = Some res ∧ ge_joined env n = true ∧ outcome res = r.
Proof.
  unfold joined_results. rewrite list_elem_of_lookup. split.
  - intros (n & Hn). rewrite list_lookup_imap in Hn. apply fmap_Some in Hn as (res & Hn & Heq).
    destruct (ge_joined env n) eqn:Hj; [|done]. injection Heq as ->. eauto.
  - intros (n & res & Hn & Hj & <-). exists n. by rewrite list_lookup_imap, Hn; simpl; rewrite Hj.
Qed.

(** Waiting for all registrations.  In the mode that waits for all relays, a call
    that gets to send succeeds exactly when some task was joined and ended with success,
    and then a relay did answer that task's batch with a success code. *)
Theorem register_wait_all_any_success start ua tasks :
  wait_all_registrations (pbs_config state) = true →
  header_value_from_str (pretty (ge_start_ms env)) = Some start →
  get_user_agent_with_version req_headers = Ok ua →
  register_tasks regs (state_all_relays state) = Returns tasks →
  ∀ c, register_validator fuel regs req_headers state env = Some c →
  ∃ t results, c = Returns t ∧
    register_results fuel (<[USER_AGENT := ua]>
      {[ to_ascii_lowercase HEADER_START_TIME_UNIX_MS := start ]}) state env tasks = Some results ∧
    (outcome t = Ok () ↔
     ∃ n res, results !! n = Some res ∧ ge_joined env n = true ∧ outcome res = Ok ()) ∧
    (outcome t = Ok () → ∃ n, accepted tasks n).
Proof.
  intros Hwait Hstart Hua Htasks c H. unfold register_validator in H.
  rewrite Hstart, Hua, Htasks, Hwait in H.
  destruct (register_results _ _ _ _ _) as [results|] eqn:E; [|done].
  cbn [mbind option_bind] in H. apply (inj Some) in H.
  assert (existsb (λ res, match res with Ok (Ok _) => true | _ => false end)
            (joined_results env results) = true ↔
          ∃ n res, results !! n = Some res ∧ ge_joined env n = true ∧ outcome res = Ok ()) as Hex.
  { rewrite <- joined_results_elem, existsb_exists. split.
    - intros ([[[]|]|] & Hin & Hb); try done. by apply list_elem_of_In.
    - intros Hin. exists (Ok (Ok ())). split; [by apply list_elem_of_In|done]. }
  assert (∀ b, b = true ↔ (∃ n res, results !! n = Some res ∧ ge_joined env n = true
                                     ∧ outcome res = Ok ()) →
    (if b then Returns (mkTraced (results ≫= effects) (Ok ()))
     else Returns (mkTraced (results ≫= effects) (Err no_relay_passed))) = c →
    ∃ t, c = Returns t ∧ (outcome t = Ok () ↔ b = true)) as Hcase.
  { intros [] _ <-; eexists; (split; [done|]); simpl; split; done. }
  destruct (Hcase _ Hex H) as (t & -> & Ht). exists t, results.
  rewrite Ht, Hex. split_and!; [done..|].
  intros (n & res & Hn & _ & Hok). exists n. by eapply result_accepted.
Qed.

(** Registration always finishes.  Each task makes at most [retry_limit] attempts
    (one if the limit is zero), each with its own batch as the body, so with that much
    fuel the results of all tasks exist. *)
Theorem register_attempts_bounded headers tasks :
  Z.max 1 (register_validator_retry_limit (pbs_config state)) ≤ Z.of_nat fuel →
  ∃ results, register_results fuel headers state env tasks = Some results ∧
    ∀ n relay batch, tasks !! n = Some (relay, batch) →
      ∃ res, results !! n = Some res ∧
        Zlen (requests (effects res)) ≤ Z.max 1 (register_validator_retry_limit (pbs_config state)) ∧
        Forall (λ req, rq_body req = RegistrationsBody batch) (requests (effects res)).
Proof.
  intros Hfuel.
  assert (∃ results, register_results fuel headers state env tasks = Some results) as [results E].
  { apply mapM_is_Some, Forall_lookup. intros i o Hi. rewrite list_lookup_imap in Hi.
    apply fmap_Some in Hi as ([relay batch] & Hr & ->). simpl.
    unfold send_register_validator_with_timeout.
    destruct (register_validator_url relay) as [url|e]; [|eauto].
    apply register_loop_returns; simpl; lia. }
  exists results. split; [done|]. intros n relay batch Hn.
  pose proof (Forall2_length _ _ _ (mapM_Some_1 _ _ _ E)) as Hlen. rewrite length_imap in Hlen.
  assert (is_Some (results !! n)) as [res Hres].
  { apply lookup_lt_is_Some. rewrite <- Hlen. by eapply lookup_lt_Some. }
  exists res. split; [done|].
  destruct (register_results_lookup _ _ _ _ _ E Hres) as (relay' & batch' & Hn' & Hl).
  rewrite Hn in Hn'. injection Hn' as <- <-. unfold send_register_validator_with_timeout in Hl.
  destruct (register_validator_url relay) as [url|e]; [|injection Hl as <-; split; [|constructor]].
  - apply register_loop_spec in Hl as (_ & Hlen' & Hall). rewrite Z.sub_0_r in Hlen'. done.
  - unfold Zlen. simpl. lia.
Qed.
End RegisterTheorems.

(** ** [get_status] *)

Section StatusTheorems.
Context {UL : UrlLib} {HL : HeaderLib} {HO : HashOrder string}.
Context {FL : FuturesLib} {S : Type}.

Lemma send_relay_check_ok relay headers send :
  outcome (send_relay_check relay headers send) = Ok () ↔
  ∃ url res, get_status_url relay = Ok url ∧ send (status_request url headers) = Ok res ∧
    is_success (res_status res) = true.
Proof.
  unfold send_relay_check. split.
  - destruct (get_status_url relay) as [url|e]; simpl; [|done].
    destruct (send _) as [res|err] eqn:Hs; simpl; [|done].
    destruct (is_success (res_status res)) eqn:Hsucc; simpl.
    + intros _. exists url, res. by split_and!.
    + by destruct (read_body res MAX_SIZE_DEFAULT).
  - intros (url & res & -> & Hs & Hsucc). simpl. rewrite Hs. simpl. by rewrite Hsucc.
Qed.

(** [select_ok] panics only without relays *)
Lemma get_status_panics {FC : FuturesCorrect} req_headers (state : PbsState S) send progress :
  get_status req_headers state send progress = Panics → state_all_relays state = [].
Proof.
  unfold get_status. destruct (negb _); [done|].
  destruct (get_user_agent_with_version req_headers) as [ua|e]; [|done].
  destruct (state_all_relays state) as [|r rs]; [done|]. cbn zeta.
  match goal with |- context [select_ok ?l] =>
    destruct (select_ok_returns l) as (sel & Hsel & _); [done|] end.
  by rewrite Hsel.
Qed.

(** The status check.  With the relay check off, the answer is success and nothing is
    sent; with it on and at least one relay, the call succeeds exactly when some relay
    answers its status request with a success code, whatever the others do; with no relay
    at all the call panics. *)
Theorem get_status_spec {FC : FuturesCorrect} {HC : HeaderCorrect} (req_headers : gmap string HeaderValue)
    (state : PbsState S) (send : nat → HttpRequest → SendOutcome) (progress : nat → nat) :
  (relay_check (pbs_config state) = false →
   get_status req_headers state send progress = Returns (mret ())) ∧
  (relay_check (pbs_config state) = true → state_all_relays state = [] →
   get_status req_headers state send progress = Panics) ∧
  (relay_check (pbs_config state) = true → state_all_relays state ≠ [] →
   ∃ t ua, get_status req_headers state send progress = Returns t ∧
     get_user_agent_with_version req_headers = Ok ua ∧
     (outcome t = Ok () ↔
      ∃ i relay url res, state_all_relays state !! i = Some relay ∧
        get_status_url relay = Ok url ∧
        send i (status_request url {[ USER_AGENT := ua ]}) = Ok res ∧
        is_success (res_status res) = true)).
Proof.
  unfold get_status. destruct (user_agent_with_version_ok req_headers) as [ua Hua].
  rewrite Hua. split_and!.
  - by intros ->.
  - intros -> ->. simpl. by rewrite select_ok_empty.
  - intros -> Hne. simpl.
    set (results := imap (λ i relay, send_relay_check relay {[ USER_AGENT := ua ]} (send i))
                      (state_all_relays state)).
    assert (∃ sel, select_ok (outcome <$> results) = Returns sel ∧
              ((∃ u, sel = Ok u) ↔ ∃ u, Ok u ∈ outcome <$> results)) as (sel & Hsel & Hiff).
    { apply select_ok_returns. unfold results. by destruct (state_all_relays state). }
    rewrite Hsel. eexists _, ua. split; [done|]. split; [done|]. cbn [outcome].
    rewrite map_err_ok. trans (∃ u, sel = Ok u); [split; [eauto|by intros [[] ->]]|].
    rewrite Hiff. split.
    + intros ([] & (r & Hr & Hin)%list_elem_of_fmap). apply list_elem_of_lookup in Hin as [i Hi].
      unfold results in Hi. rewrite list_lookup_imap in Hi. apply fmap_Some in Hi as (relay & Hi & ->).
      symmetry in Hr. apply send_relay_check_ok in Hr as (url & res & ? & ? & ?). eauto 10.
    + intros (i & relay & url & res & Hi & Hurl & Hs & Hsucc). exists ().
      apply list_elem_of_fmap. exists (send_relay_check relay {[ USER_AGENT := ua ]} (send i)).
      split; [symmetry; apply send_relay_check_ok; eauto|].
      apply list_elem_of_lookup. exists i. unfold results. by rewrite list_lookup_imap, Hi.
Qed.
End StatusTheorems.

(** ** The mode that does not wait *)

Section NoWait.
Context {UL : UrlLib} {HL : HeaderLib} {HO : HashOrder string} {S : Type}.
Variables (fuel : nat) (regs : list ValidatorRegistration) (req_headers : gmap string HeaderValue).
Variables (state : PbsState S) (env : RegisterEnv).

(** The first completion decides.  In the mode that does not wait, [select_ok] runs
    over join handles, and a task that ended with an error is still a handle that
    completed: when the tasks complete in the order they were started and the first one
    failed, the call reports failure even if another relay accepted the registrations. *)
Theorem register_no_wait_first_completion start ua tasks res0 results e :
  wait_all_registrations (pbs_config state) = false →
  header_value_from_str (pretty (ge_start_ms env)) = Some start →
  get_user_agent_with_version req_headers = Ok ua →
  register_tasks regs (state_all_relays state) = Returns tasks →
  register_results fuel (<[USER_AGENT := ua]>
    {[ to_ascii_lowercase HEADER_START_TIME_UNIX_MS := start ]}) state env tasks
    = Some (res0 :: results) →
  ge_joined env 0 = true → outcome res0 = Err e →
  ∃ t, register_validator (FL := in_order) fuel regs req_headers state env = Some (Returns t) ∧
    outcome t = Err no_relay_passed.
Proof.
  intros Hwait Hstart Hua Htasks E Hj He. unfold register_validator.
  rewrite Hstart, Hua, Htasks, E, Hwait. cbn [mbind option_bind].
  unfold joined_results. simpl. rewrite Hj, He. eexists. split; [reflexivity|done].
Qed.

(** Nothing to register.  In the mode that does not wait, if every relay uses batches
    and there are no registrations, no task is started and the call panics in
    [select_ok]. *)
Theorem register_no_wait_empty_panics {FL : FuturesLib} {FC : FuturesCorrect} start ua :
  wait_all_registrations (pbs_config state) = false →
  header_value_from_str (pretty (ge_start_ms env)) = Some start →
  get_user_agent_with_version req_headers = Ok ua →
  Forall (λ r, from_option (λ n, 0 < n) False (validator_registration_batch_size (rl_config r)))
    (state_all_relays state) →
  register_validator fuel [] req_headers state env = Some Panics.
Proof.
  intros Hwait Hstart Hua Hall.
  assert (∀ relays, Forall (λ r, from_option (λ n, 0 < n) False
            (validator_registration_batch_size (rl_config r))) relays →
          register_tasks [] relays = Returns []) as Htasks.
  { induction 1 as [|r relays Hr Hrs IH]; [done|]. simpl. unfold relay_batches.
    destruct (validator_registration_batch_size _) as [n|]; simpl in Hr; [|done].
    rewrite (proj2 (Z.eqb_neq n 0)) by lia. by rewrite IH. }
  unfold register_validator. rewrite Hstart, Hua, Hwait, (Htasks _ Hall). simpl.
  unfold joined_results. simpl. by rewrite select_ok_empty.
Qed.
End NoWait.

(** ** Concrete registrations *)
Module RegisterSample.

Definition registration (n : Z) : ValidatorRegistration := {|
  vr_fee_recipient := []; vr_gas_limit := 30000000; vr_timestamp := n;
  vr_pubkey := byte_array 48 (byte_of_Z n); vr_signature := [] |}.
Definition regs : list ValidatorRegistration := registration <$> seqZ 0 7.
Definition config (wait : bool) : PbsConfig := {|
  host := "127.0.0.1"; port := 18550; relay_check := true; wait_all_registrations := wait;
  timeout_get_header_ms := 950; timeout_get_payload_ms := 4000;
  timeout_register_validator_ms := 3000; skip_sigverify := false; min_bid_wei := 0;
  late_in_slot_time_ms := 2000; cfg_extra_validation_enabled := false; rpc_url := None;
  http_timeout_seconds := 10; register_validator_retry_limit := 3 |}.
(** two relays with a batch size of three: tasks 0-2 are the first's, 3-5 the second's *)
Definition state (wait : bool) : PbsState () :=
  sample_state [sample_relay; sample_relay] (config wait).
(** the first relay rejects, the second accepts *)
Definition env : RegisterEnv := {|
  ge_start_ms := 1000;
  ge_task n := {| ae_send _ _ := Ok {| res_status := if (n <? 3)%nat then 400 else 200;
                                       res_content_length := None; res_chunks := [] |};
                  ae_elapsed_ms k := 250 * (Z.of_nat k + 1) |};
  ge_joined _ := true |}.

#[local] Existing Instances plain_urls plain_headers in_order in_order_correct.

Definition tasks : list (RelayClient * list ValidatorRegistration) :=
  (pair sample_relay <$> chunks 3 regs) ++ (pair sample_relay <$> chunks 3 regs).


Lemma register_attempts_bounded_witness :
  ∃ results, register_results 3 ∅ (state true) env tasks = Some results.
Proof.
  destruct (register_attempts_bounded 3 (state true) env ∅ tasks) as (results & Hr & _).
  - vm_compute. discriminate.
  - exists results. exact Hr.
Defined.

Definition user_agent : HeaderValue := bytes_of_string "commit-boost/0.8.0 ".

Lemma register_wait_all_any_success_witness :
  ∃ t n, register_validator 3 regs ∅ (state true) env = Some (Returns t) ∧
    outcome t = Ok () ∧ accepted env tasks n.
Proof.
  destruct (register_validator 3 regs ∅ (state true) env) as [c|] eqn:E; [|discriminate E].
  destruct (register_wait_all_any_success 3 regs ∅ (state true) env (bytes_of_string "1000")
    user_agent tasks ltac:(reflexivity) ltac:(vm_compute; reflexivity) ltac:(vm_compute; reflexivity)
    ltac:(reflexivity) c E) as (t & results & -> & Hr & Hiff & Hacc).
  assert (outcome t = Ok ()) as Ho.
  { apply Hiff. destruct (results !! 3%nat) as [res|] eqn:Hres.
    - exists 3%nat, res. split; [exact Hres|]. split; [reflexivity|].
      vm_compute in Hr. injection Hr as <-. injection Hres as <-. reflexivity.
    - exfalso. vm_compute in Hr. injection Hr as <-. discriminate Hres. }
  destruct (Hacc Ho) as [n Hn]. exists t, n. split; [reflexivity|]. split; [exact Ho|exact Hn].
Defined.

Lemma register_no_wait_first_completion_witness :
  accepted env tasks 3 ∧
  ∃ t, register_validator 3 regs ∅ (state false) env = Some (Returns t) ∧
    outcome t = Err no_relay_passed.
Proof.
  split.
  { exists sample_relay, (take 3 regs). eexists. exists ∅, 0%nat, 0. eexists.
    split; [reflexivity|]. split; [reflexivity|]. split; reflexivity. }
  destruct (register_results 3 (<[USER_AGENT := user_agent]>
    {[ to_ascii_lowercase HEADER_START_TIME_UNIX_MS := bytes_of_string "1000" ]})
    (state false) env tasks) as [[|res0 results]|] eqn:E; [discriminate E| |discriminate E].
  destruct (outcome res0) as [[]|e] eqn:Ho.
  { exfalso. vm_compute in E. injection E as <- <-. discriminate Ho. }
  apply (register_no_wait_first_completion 3 regs ∅ (state false) env (bytes_of_string "1000")
    user_agent tasks res0 results e);
    [reflexivity|vm_compute; reflexivity|vm_compute; reflexivity|reflexivity|exact E|reflexivity|exact Ho].
Defined.

Lemma register_no_wait_empty_panics_witness :
  register_validator 3 [] ∅ (state false) env = Some Panics.
Proof.
  apply (register_no_wait_empty_panics 3 ∅ (state false) env (bytes_of_string "1000") user_agent);
    [reflexivity|vm_compute; reflexivity|vm_compute; reflexivity|]. repeat constructor.
Defined.

(** the first relay's status check fails, the second's succeeds *)
Definition status_send (n : nat) (_ : HttpRequest) : Result ReqwestError Response :=
  if (n =? 0)%nat then Err {| is_timeout := true; is_connect := false |}
  else Ok {| res_status := 200; res_content_length := None; res_chunks := [] |}.

Lemma get_status_spec_witness :
  ∃ t, get_status ∅ (state true) status_send (λ _, 0%nat) = Returns t ∧ outcome t = Ok ().
Proof.
  destruct (get_status_spec (HC := plain_headers_correct) ∅ (state true) status_send (λ _, 0%nat))
    as (_ & _ & H).
  destruct (H ltac:(reflexivity) ltac:(discriminate)) as (t & ua & Ht & Hua & Hiff).
  exists t. split; [exact Ht|]. apply Hiff. exists 1%nat, sample_relay. eexists. eexists.
  split; [reflexivity|]. split; [reflexivity|]. split; reflexivity.
Defined.
End RegisterSample.
