(* ===== verification/SignerConfig.v ===== *)
(** * Signer and module configuration

    Models [crates/common/src/config/signer.rs] (the signer configuration and the signing
    configuration of each module), the module types of [config/module.rs], [config/log.rs],
    [config/metrics.rs] and [load_jwt_secrets] of [config/utils.rs]. *)

From stdpp Require Import pretty.
From S2P Require Import Prelude Bytes Text Chain Signature Http Relay Commit PbsConfig.
From S2P Require Import PbsState.

(** ** Constants ([config/constants.rs]) *)

Definition CONFIG_ENV : string := "CB_CONFIG".
Definition CHAIN_SPEC_ENV : string := "CB_CHAIN_SPEC".
Definition METRICS_PORT_ENV : string := "CB_METRICS_PORT".
Definition LOGS_DIR_ENV : string := "CB_LOGS_DIR".
Definition LOGS_DIR_DEFAULT : string := "/var/logs/commit-boost".
Definition PBS_MODULE_NAME : string := "pbs".
Definition PBS_ENDPOINT_ENV : string := "CB_PBS_ENDPOINT".
Definition SIGNER_ENDPOINT_ENV : string := "CB_SIGNER_ENDPOINT".
Definition SIGNER_PORT_DEFAULT : Z := 20000.
Definition SIGNER_JWT_AUTH_FAIL_LIMIT_ENV : string := "CB_SIGNER_JWT_AUTH_FAIL_LIMIT".
Definition SIGNER_JWT_AUTH_FAIL_LIMIT_DEFAULT : Z := 3.
Definition SIGNER_JWT_AUTH_FAIL_TIMEOUT_SECONDS_ENV : string :=
  "CB_SIGNER_JWT_AUTH_FAIL_TIMEOUT_SECONDS".
Definition SIGNER_JWT_AUTH_FAIL_TIMEOUT_SECONDS_DEFAULT : Z := 5 * 60.
Definition JWTS_ENV : string := "CB_JWTS".
Definition ADMIN_JWT_ENV : string := "CB_SIGNER_ADMIN_JWT".
Definition DIRK_CERT_ENV : string := "CB_SIGNER_DIRK_CERT_FILE".
Definition DIRK_KEY_ENV : string := "CB_SIGNER_DIRK_KEY_FILE".
Definition DIRK_CA_CERT_ENV : string := "CB_SIGNER_DIRK_CA_CERT_FILE".
Definition DIRK_DIR_SECRETS_ENV : string := "CB_SIGNER_DIRK_SECRETS_DIR".
Definition MODULE_ID_ENV : string := "CB_MODULE_ID".
Definition MODULE_JWT_ENV : string := "CB_SIGNER_JWT".
Definition SIGNER_URL_ENV : string := "CB_SIGNER_URL".
Definition BUILDER_PORT_ENV : string := "CB_BUILDER_PORT".

(** ** Data *)

Inductive ModuleKind : Type := KindCommit | KindEvents.
Record StaticModuleConfig := {
  smc_id : string;
  smc_docker_image : string;
  smc_env : option (gmap string string);
  smc_env_file : option string;
  smc_kind : ModuleKind;
  smc_signing_id : B256;
}.

Inductive ValidatorKeysFormat : Type := Lighthouse | Teku | Lodestar | Prysm | Nimbus.
Inductive SignerLoader : Type :=
| SLFile (key_path : string)
| SLValidatorsDir (keys_path secrets_path : string) (format : ValidatorKeysFormat).
Inductive ProxyStore : Type :=
| PSFile (proxy_dir : string)
| PSERC2335 (keys_path secrets_path : string).

Record DirkHostConfig := { server_name : option string; dh_url : Url; wallets : list string }.
Inductive SignerType : Type :=
| Local (loader : SignerLoader) (store : option ProxyStore)
| Remote (url : Url)
| Dirk (hosts : list DirkHostConfig) (cert_path key_path secrets_path : string)
    (ca_cert_path : option string) (store : option ProxyStore).

Record SignerConfig := {
  sg_host : string;
  sg_port : Z;
  sg_docker_image : string;
  sg_jwt_auth_fail_limit : Z;
  sg_jwt_auth_fail_timeout_seconds : Z;
  sg_inner : SignerType;
}.

Record ModuleSigningConfig := { module_name : string; jwt_secret : string; signing_id : B256 }.

(** the PEM texts of the client identity and of the certificate authority *)
Record DirkConfig := {
  dk_hosts : list DirkHostConfig; dk_client_cert : string * string; dk_secrets_path : string;
  dk_cert_auth : option string;
}.
Record StartSignerConfig := {
  ss_chain : Chain;
  ss_loader : option SignerLoader;
  ss_store : option ProxyStore;
  ss_endpoint : SocketAddr;
  ss_mod_signing_configs : gmap string ModuleSigningConfig;
  ss_admin_secret : string;
  ss_jwt_auth_fail_limit : Z;
  ss_jwt_auth_fail_timeout_seconds : Z;
  ss_dirk : option DirkConfig;
}.

Record MetricsConfig := { mt_enabled : bool; mt_host : string; mt_start_port : Z }.
Record StdoutLogSettings := { so_enabled : bool; so_level : string; so_use_json : bool; so_color : bool }.
Record FileLogSettings := {
  fl_enabled : bool; fl_level : string; fl_use_json : bool; fl_dir_path : string;
  fl_max_files : option Z;
}.
Record LogsSettings := { lg_stdout : StdoutLogSettings; lg_file : FileLogSettings }.
Definition default_stdout_logs : StdoutLogSettings :=
  {| so_enabled := true; so_level := "info"; so_use_json := false; so_color := true |}.
Definition default_file_logs : FileLogSettings :=
  {| fl_enabled := false; fl_level := "info"; fl_use_json := true;
     fl_dir_path := LOGS_DIR_DEFAULT; fl_max_files := None |}.

(** ** Parsers *)

(** [str::parse] of an unsigned integer below a bound: an optional [+], then digits *)
Definition parse_bounded (bound : Z) (s : string) : Result Report Z :=
  match parse_usize s with
  | Some n => if n <? bound then Ok n else Err (Message "number too large to fit in target type")
  | None => Err (Message "invalid digit found in string")
  end.
Definition parse_u32 : string → Result Report Z := parse_bounded (2 ^ 32).
Definition parse_u16 : string → Result Report Z := parse_bounded (2 ^ 16).

(** the crates behind the remaining parsers *)
Class ConfigParsers := {
  (** [str::parse::<SocketAddr>] *)
  parse_socket_addr : string → Result string SocketAddr;
  (** [DockerImage::parse] *)
  docker_image_parses : string → bool;
}.

Section SignerConfigOps.
Context {CE : ConfigEnv} {CP : ConfigParsers}.

(** [ModuleSigningConfig::validate] *)
Definition module_signing_validate (c : ModuleSigningConfig) : Result Report () :=
  if String.eqb (jwt_secret c) "" then Err (Message "JWT secret cannot be empty")
  else if bool_decide (signing_id c = B256_ZERO) then Err (Message "Signing ID cannot be zero")
  else Ok ().

(** [SignerConfig::validate] *)
Definition signer_config_validate (c : SignerConfig) : Result Report () :=
  _ ← ensure (0 <? sg_port c) (Message "Port must be positive");
  _ ← ensure (negb (String.eqb (sg_docker_image c) "")) (Message "Docker image is empty");
  _ ← ensure (docker_image_parses (sg_docker_image c))
        (Message ("Invalid Docker image: " +:+ sg_docker_image c));
  Ok ().

(** [load_jwt_secrets] *)
Definition load_jwt_secrets : Result Report (string * gmap string string) :=
  admin_jwt ← load_env_var ADMIN_JWT_ENV;
  jwt_secrets ← load_env_var JWTS_ENV;
  secrets ← map_err Message (decode_string_to_map jwt_secrets);
  Ok (admin_jwt, secrets).

(** the maps [load_module_signing_configs] builds *)
Record SigningConfigs := {
  mod_signing_configs : gmap string ModuleSigningConfig;
  seen_jwt_secrets : gmap string string;
  seen_signing_ids : gmap bytes string;
}.
Definition no_signing_configs : SigningConfigs :=
  {| mod_signing_configs := ∅; seen_jwt_secrets := ∅; seen_signing_ids := ∅ |}.

(** one turn of its loop *)
Definition load_module_signing_config (jwt_secrets : gmap string string) (acc : SigningConfigs)
    (module : StaticModuleConfig) : Result Report SigningConfigs :=
  let id := smc_id module in
  _ ← ensure (negb (String.eqb id "")) (Message "Module ID cannot be empty");
  _ ← ensure (negb (bool_decide (is_Some (mod_signing_configs acc !! id))))
        (Message ("Duplicate module config detected: ID " +:+ id +:+ " is already used"));
  secret ← ok_or (jwt_secrets !! id) (Message ("JWT secret for module " +:+ id +:+ " is missing"));
  let c := {| module_name := id; jwt_secret := secret; signing_id := smc_signing_id module |} in
  _ ← map_err (λ _, Message ("Invalid signing config for module " +:+ id)) (module_signing_validate c);
  _ ← match seen_jwt_secrets acc !! jwt_secret c with
      | Some existing_module =>
          Err (Message ("Duplicate JWT secret detected for modules " +:+ existing_module
                          +:+ " and " +:+ id))
      | None => Ok ()
      end;
  _ ← match seen_signing_ids acc !! signing_id c with
      | Some existing_module =>
          Err (Message ("Duplicate signing ID detected for modules " +:+ existing_module
                          +:+ " and " +:+ id))
      | None => Ok ()
      end;
  Ok {| mod_signing_configs := <[id := c]> (mod_signing_configs acc);
        seen_jwt_secrets := <[jwt_secret c := id]> (seen_jwt_secrets acc);
        seen_signing_ids := <[signing_id c := id]> (seen_signing_ids acc) |}.

Definition load_module_signing_configs (modules : option (list StaticModuleConfig))
    (jwt_secrets : gmap string string) : Result Report (gmap string ModuleSigningConfig) :=
  modules ← ok_or modules (Message "No modules defined in the config");
  acc ← try_fold (load_module_signing_config jwt_secrets) no_signing_configs modules;
  Ok (mod_signing_configs acc).

(** the file reads of the Dirk branch *)
Definition read_pem (path : string) : Result Report string :=
  ok_or (read_to_string path) (Message "No such file or directory").

(** [StartSignerConfig::load_from_env], on the fields of the loaded [CommitBoostConfig] it
    uses *)
Definition start_signer_config (chain : Chain) (modules : option (list StaticModuleConfig))
    (signer : option SignerConfig) : Result Report StartSignerConfig :=
  '(admin_secret, jwt_secrets) ← load_jwt_secrets;
  configs ← load_module_signing_configs modules jwt_secrets;
  signer_config ← ok_or signer (Message "Signer config is missing");
  endpoint ← match load_optional_env_var SIGNER_ENDPOINT_ENV with
             | Some endpoint => map_err Message (parse_socket_addr endpoint)
             | None => Ok {| sa_ip := sg_host signer_config; sa_port := sg_port signer_config |}
             end;
  limit ← match load_optional_env_var SIGNER_JWT_AUTH_FAIL_LIMIT_ENV with
          | Some limit => parse_u32 limit
          | None => Ok (sg_jwt_auth_fail_limit signer_config)
          end;
  timeout ← match load_optional_env_var SIGNER_JWT_AUTH_FAIL_TIMEOUT_SECONDS_ENV with
            | Some timeout => parse_u32 timeout
            | None => Ok (sg_jwt_auth_fail_timeout_seconds signer_config)
            end;
  match sg_inner signer_config with
  | Local loader store =>
      Ok {| ss_chain := chain; ss_loader := Some loader; ss_endpoint := endpoint;
            ss_mod_signing_configs := configs; ss_admin_secret := admin_secret;
            ss_jwt_auth_fail_limit := limit; ss_jwt_auth_fail_timeout_seconds := timeout;
            ss_store := store; ss_dirk := None |}
  | Dirk hosts cert_path key_path secrets_path ca_cert_path store =>
      let cert_path := default cert_path (env_var DIRK_CERT_ENV) in
      let key_path := default key_path (env_var DIRK_KEY_ENV) in
      let secrets_path := default secrets_path (env_var DIRK_DIR_SECRETS_ENV) in
      let ca_cert_path := match env_var DIRK_CA_CERT_ENV with
                          | Some path => Some path | None => ca_cert_path end in
      _ ← match store with
          | Some (PSERC2335 _ _) => Err (Message "ERC2335 store is not supported with Dirk signer")
          | _ => Ok ()
          end;
      cert ← read_pem cert_path;
      key ← read_pem key_path;
      cert_auth ← match ca_cert_path with
                  | Some path => pem ← read_pem path; Ok (Some pem)
                  | None => Ok None
                  end;
      Ok {| ss_chain := chain; ss_endpoint := endpoint; ss_mod_signing_configs := configs;
            ss_admin_secret := admin_secret; ss_jwt_auth_fail_limit := limit;
            ss_jwt_auth_fail_timeout_seconds := timeout; ss_loader := None; ss_store := store;
            ss_dirk := Some {| dk_hosts := hosts; dk_client_cert := (cert, key);
                               dk_secrets_path := secrets_path; dk_cert_auth := cert_auth |} |}
  | Remote _ => Err (Message "Remote signer configured")
  end.

(** [ModuleMetricsConfig::load_from_env] *)
Definition metrics_load_from_env : Result Report (option Z) :=
  match load_optional_env_var METRICS_PORT_ENV with
  | Some port => p ← parse_u16 port; Ok (Some p)
  | None => Ok None
  end.
End SignerConfigOps.

Lemma parse_u16_pretty (n : Z) : 0 ≤ n < 2 ^ 16 → parse_u16 (pretty n) = Ok n.
Proof.
  intros Hn. unfold parse_u16, parse_bounded.
  rewrite parse_usize_pretty by (unfold is_u64, u64_bound; lia). by rewrite (proj2 (Z.ltb_lt _ _)) by lia.
Qed.

(** ** Signing configurations are unambiguous *)

(** [idx] finds the entry of [m] that has a given value of the field [f] *)
Definition indexes {A K} `{Countable K} (f : A → K) (m : gmap string A) (idx : gmap K string) : Prop :=
  ∀ k id, idx !! k = Some id ↔ ∃ c, m !! id = Some c ∧ f c = k.

Lemma indexes_empty {A K} `{Countable K} (f : A → K) : indexes f ∅ ∅.
Proof. intros k id. rewrite lookup_empty. set_solver. Qed.
Lemma indexes_insert {A K} `{Countable K} (f : A → K) m idx id c :
  indexes f m idx → m !! id = None → idx !! f c = None →
  indexes f (<[id := c]> m) (<[f c := id]> idx).
Proof.
  intros Hidx Hm Hi k id'. destruct (decide (id' = id)) as [->|Hid].
  - rewrite lookup_insert_eq, lookup_insert_Some, (Hidx k id), Hm. naive_solver.
  - rewrite lookup_insert_Some, (lookup_insert_ne m) by done. rewrite (Hidx k id'). split; [naive_solver|].
    intros (c' & Hc' & <-). right. split; [|eauto]. intros Hk.
    assert (idx !! f c = Some id') as Hx by (apply Hidx; eauto). congruence.
Qed.
(** So the field tells the entries apart *)
Lemma indexes_inj {A K} `{Countable K} (f : A → K) m idx id id' c c' :
  indexes f m idx → m !! id = Some c → m !! id' = Some c' → f c = f c' → id = id'.
Proof.
  intros Hidx Hc Hc' Heq.
  assert (idx !! f c = Some id ∧ idx !! f c = Some id') by (split; apply Hidx; eauto).
  naive_solver congruence.
Qed.

(** what the loop maintains: the table pairs the modules seen so far with their secret
    and signing id, and the two other maps index it *)
Definition signing_inv (jwt_secrets : gmap string string) (seen : list StaticModuleConfig)
    (acc : SigningConfigs) : Prop :=
  (∀ id c, mod_signing_configs acc !! id = Some c ↔
     ∃ m, m ∈ seen ∧ smc_id m = id ∧ jwt_secrets !! id = Some (jwt_secret c) ∧
       c = {| module_name := id; jwt_secret := jwt_secret c; signing_id := smc_signing_id m |}) ∧
  indexes jwt_secret (mod_signing_configs acc) (seen_jwt_secrets acc) ∧
  indexes signing_id (mod_signing_configs acc) (seen_signing_ids acc) ∧
  NoDup (smc_id <$> seen) ∧
  Forall (λ m, smc_id m ≠ ""%string ∧ smc_signing_id m ≠ B256_ZERO ∧
               is_Some (jwt_secrets !! smc_id m) ∧ jwt_secrets !! smc_id m ≠ Some ""%string) seen.

Lemma signing_inv_init js : signing_inv js [] no_signing_configs.
Proof.
  unfold signing_inv, no_signing_configs. simpl.
  split_and!; auto using indexes_empty; try constructor.
  all: rewrite ?lookup_empty in *; set_solver.
Qed.

Lemma module_signing_validate_ok c :
  module_signing_validate c = Ok () → jwt_secret c ≠ ""%string ∧ signing_id c ≠ B256_ZERO.
Proof.
  unfold module_signing_validate. destruct (String.eqb_spec (jwt_secret c) ""); [done|].
  case_bool_decide; done.
Qed.

(** What one turn of the loop checked and stored *)
Lemma load_module_signing_config_ok js acc m acc' :
  load_module_signing_config js acc m = Ok acc' →
  ∃ secret, js !! smc_id m = Some secret ∧ secret ≠ ""%string ∧ smc_signing_id m ≠ B256_ZERO ∧
    smc_id m ≠ ""%string ∧ mod_signing_configs acc !! smc_id m = None ∧
    seen_jwt_secrets acc !! secret = None ∧ seen_signing_ids acc !! smc_signing_id m = None ∧
    acc' = {| mod_signing_configs := <[smc_id m := {| module_name := smc_id m; jwt_secret := secret;
                signing_id := smc_signing_id m |}]> (mod_signing_configs acc);
              seen_jwt_secrets := <[secret := smc_id m]> (seen_jwt_secrets acc);
              seen_signing_ids := <[smc_signing_id m := smc_id m]> (seen_signing_ids acc) |}.
Proof.
  intros H. unfold load_module_signing_config in H.
  apply result_bind_ok in H as ([] & Hid & H). apply ensure_ok in Hid.
  apply result_bind_ok in H as ([] & Hdup & H). apply ensure_ok in Hdup.
  apply result_bind_ok in H as (secret & Hs & H). apply ok_or_ok in Hs.
  apply result_bind_ok in H as ([] & Hv & H). apply map_err_ok, module_signing_validate_ok in Hv.
  simpl in *. destruct Hv as [Hv1 Hv2].
  apply result_bind_ok in H as ([] & Hj & H). destruct (seen_jwt_secrets acc !! secret) eqn:E1; [done|].
  apply result_bind_ok in H as ([] & Hg & H).
  destruct (seen_signing_ids acc !! smc_signing_id m) eqn:E2; [done|].
  injection H as <-. exists secret. split_and!; try done.
  - apply negb_true_iff in Hid. by apply String.eqb_neq.
  - apply negb_true_iff, bool_decide_eq_false in Hdup. by apply eq_None_not_Some.
Qed.

(** A module that is not in the table has not been seen *)
Lemma signing_inv_fresh js seen acc m :
  signing_inv js seen acc → mod_signing_configs acc !! smc_id m = None →
  ∀ m', m' ∈ seen → smc_id m' ≠ smc_id m.
Proof.
  intros (H1 & _ & _ & _ & Hall) Hnew m' Hm' Heq. rewrite Forall_forall in Hall.
  destruct (Hall m' Hm') as (_ & _ & [s' Hs'] & _). rewrite Heq in Hs'.
  assert (is_Some (mod_signing_configs acc !! smc_id m)) as [? Hx]; [|congruence].
  exists {| module_name := smc_id m; jwt_secret := s'; signing_id := smc_signing_id m' |}.
  apply H1. exists m'. by split_and!.
Qed.

Lemma signing_inv_step js seen acc m acc' :
  signing_inv js seen acc → load_module_signing_config js acc m = Ok acc' →
  signing_inv js (seen ++ [m]) acc'.
Proof.
  intros Hinv H. apply load_module_signing_config_ok in H
    as (secret & Hs & Hs0 & Hz & Hid & Hnew & Hj & Hg & ->).
  pose proof (signing_inv_fresh _ _ _ _ Hinv Hnew) as Hfresh.
  destruct Hinv as (H1 & H2 & H3 & Hnd & Hall).
  unfold signing_inv. simpl. split_and!.
  - intros id' c'. rewrite lookup_insert_Some, H1. setoid_rewrite elem_of_app.
    setoid_rewrite list_elem_of_singleton. split.
    + intros [[<- <-]|[Hne (m' & Hm' & Heq)]]; [exists m; naive_solver|exists m'; naive_solver].
    + intros (m' & [Hm'| ->] & <- & Hjs & Hc').
      * right. split; [intros Heq; by apply (Hfresh m')|]. by exists m'.
      * left. split; [done|]. rewrite Hc'. congruence.
  - by apply (indexes_insert jwt_secret _ _ _
      {| module_name := smc_id m; jwt_secret := secret; signing_id := smc_signing_id m |}).
  - by apply (indexes_insert signing_id _ _ _
      {| module_name := smc_id m; jwt_secret := secret; signing_id := smc_signing_id m |}).
  - rewrite fmap_app. apply NoDup_app. split_and!; [done| |apply NoDup_singleton].
    intros x (m' & -> & Hm')%list_elem_of_fmap Hx. simpl in Hx.
    apply list_elem_of_singleton in Hx. by apply (Hfresh m').
  - apply Forall_app. split; [done|]. constructor; [|constructor]. rewrite Hs.
    split_and!; [done|done|eauto|congruence].
Qed.

Lemma signing_inv_fold js modules seen acc acc' :
  signing_inv js seen acc → try_fold (load_module_signing_config js) acc modules = Ok acc' →
  signing_inv js (seen ++ modules) acc'.
Proof.
  revert seen acc. induction modules as [|m modules IH]; intros seen acc Hinv H.
  { injection H as <-. by rewrite app_nil_r. }
  apply result_bind_ok in H as (acc1 & Hm & H). change (m :: modules) with ([m] ++ modules). rewrite app_assoc.
  eapply IH; [|done]. by eapply signing_inv_step.
Qed.

Lemma load_module_signing_configs_inv js ms configs :
  load_module_signing_configs (Some ms) js = Ok configs →
  ∃ acc, configs = mod_signing_configs acc ∧ signing_inv js ms acc.
Proof.
  intros H. unfold load_module_signing_configs in H. simpl in H.
  apply result_bind_ok in H as (acc & Hacc & [= <-]). exists acc. split; [done|].
  by apply (signing_inv_fold _ _ [] _ _ (signing_inv_init js)) in Hacc.
Qed.

(** Modules that can be told apart are accepted *)
Record tell_apart (js : gmap string string) (ms : list StaticModuleConfig) : Prop := {
  ta_ids : NoDup (smc_id <$> ms);
  ta_signing_ids : NoDup (smc_signing_id <$> ms);
  ta_each m : m ∈ ms → smc_id m ≠ ""%string ∧ smc_signing_id m ≠ B256_ZERO ∧
    is_Some (js !! smc_id m) ∧ js !! smc_id m ≠ Some ""%string;
  ta_secrets m m' : m ∈ ms → m' ∈ ms → js !! smc_id m = js !! smc_id m' → smc_id m = smc_id m';
}.

Lemma load_module_signing_config_accepts js seen m acc :
  tell_apart js (seen ++ [m]) → signing_inv js seen acc →
  is_ok (load_module_signing_config js acc m) = true.
Proof.
  intros [Hids Hsids Heach Hsecrets] (H1 & H2 & H3 & _).
  destruct (Heach m ltac:(set_solver)) as (Hid & Hz & [secret Hs] & Hne).
  rewrite fmap_app in Hids. rewrite fmap_app in Hsids. apply NoDup_app in Hids as (_ & Hids & _), Hsids as (_ & Hsids & _).
  assert (∀ m', m' ∈ seen → smc_id m' ≠ smc_id m ∧ smc_signing_id m' ≠ smc_signing_id m) as Hnew.
  { intros m' Hm'. split; intros Heq.
    - apply (Hids (smc_id m')); [by apply list_elem_of_fmap_2|]. rewrite Heq. set_solver.
    - apply (Hsids (smc_signing_id m')); [by apply list_elem_of_fmap_2|]. rewrite Heq. set_solver. }
  unfold load_module_signing_config. apply String.eqb_neq in Hid. rewrite Hid. simpl.
  assert (mod_signing_configs acc !! smc_id m = None) as ->.
  { apply eq_None_not_Some. intros [c (m' & Hm' & Heq & _)%H1]. by destruct (Hnew m' Hm'). }
  rewrite bool_decide_false by (by intros []). simpl. rewrite Hs. simpl. unfold module_signing_validate. simpl.
  destruct (String.eqb_spec secret ""); [congruence|]. rewrite bool_decide_false by done. simpl.
  destruct (seen_jwt_secrets acc !! secret) as [id'|] eqn:Hj.
  { apply H2 in Hj as (c & (m' & Hm' & <- & Hjs & _)%H1 & <-). destruct (Hnew m' Hm') as [Hid' _].
    destruct Hid'. apply Hsecrets; [set_solver|set_solver|congruence]. }
  destruct (seen_signing_ids acc !! smc_signing_id m) as [id'|] eqn:Hg; [|done].
  apply H3 in Hg as (c & (m' & Hm' & _ & _ & Hc)%H1 & Hsid). destruct (Hnew m' Hm') as [_ []].
  rewrite Hc in Hsid. done.
Qed.
Lemma load_module_signing_configs_accepts js ms : tell_apart js ms →
  is_ok (load_module_signing_configs (Some ms) js) = true.
Proof.
  intros Hms. unfold load_module_signing_configs. simpl.
  assert (is_ok (try_fold (load_module_signing_config js) no_signing_configs ms) = true) as Hok;
    [|by destruct (try_fold _ _ ms)].
  induction ms as [|m ms IH] using rev_ind; [done|]. rewrite try_fold_app.
  assert (tell_apart js ms) as Hinit.
  { destruct Hms as [H1 H2 H3 H4]. rewrite fmap_app in H1. rewrite fmap_app in H2.
    apply NoDup_app in H1 as [H1 _], H2 as [H2 _]. split; [done|done|intros; apply H3; set_solver|].
    intros; apply H4; [set_solver..|done]. }
  specialize (IH Hinit). destruct (try_fold _ _ ms) as [acc|] eqn:Hacc; [|done].
  apply (signing_inv_fold _ _ [] _ _ (signing_inv_init js)) in Hacc. simpl in *.
  pose proof (load_module_signing_config_accepts js ms m acc Hms Hacc) as Hm.
  by destruct (load_module_signing_config js acc m).
Qed.

(** Signing configurations are unambiguous.  When they load, there is one for each
    module of the configuration and no other; it has the module's own signing id, which is
    not zero, and the secret the environment gives for that module, which is not empty; no
    two modules have the same id, secret or signing id. *)
Theorem module_signing_configs_unique (modules : list StaticModuleConfig)
    (jwt_secrets : gmap string string) (configs : gmap string ModuleSigningConfig) :
  load_module_signing_configs (Some modules) jwt_secrets = Ok configs →
  NoDup (smc_id <$> modules) ∧
  (∀ m, m ∈ modules → ∃ secret, jwt_secrets !! smc_id m = Some secret ∧ secret ≠ ""%string ∧
     smc_signing_id m ≠ B256_ZERO ∧
     configs !! smc_id m = Some {| module_name := smc_id m; jwt_secret := secret;
                                   signing_id := smc_signing_id m |}) ∧
  (∀ id, is_Some (configs !! id) → id ∈ smc_id <$> modules) ∧
  (∀ id id' c c', configs !! id = Some c → configs !! id' = Some c' →
     jwt_secret c = jwt_secret c' ∨ signing_id c = signing_id c' → id = id').
Proof.
  intros (acc & -> & H1 & H2 & H3 & Hnd & Hall)%load_module_signing_configs_inv. split_and!.
  - done.
  - intros m Hm. rewrite Forall_forall in Hall. destruct (Hall m Hm) as (Hid & Hz & [s Hs] & Hne).
    exists s. split_and!; [done|congruence|done|]. apply H1. exists m. by split_and!.
  - intros id [c (m & Hm & <- & _)%H1]. by apply list_elem_of_fmap_2.
  - intros id id' c c' Hc Hc' [Heq|Heq].
    + by eapply (indexes_inj jwt_secret).
    + by eapply (indexes_inj signing_id).
Qed.

Definition sample_module (id : string) (signing : byte) : StaticModuleConfig := {|
  smc_id := id; smc_docker_image := "img"; smc_env := None; smc_env_file := None;
  smc_kind := KindCommit; smc_signing_id := byte_array 32 signing |}.
Definition sample_secrets : gmap string string :=
  {[ "A"%string := "secret-a"%string; "B"%string := "secret-b"%string ]}.

Lemma module_signing_configs_unique_witness :
  ∃ configs, load_module_signing_configs (Some [sample_module "A" x01; sample_module "B" x02])
               sample_secrets = Ok configs ∧
    ∀ id id' c c', configs !! id = Some c → configs !! id' = Some c' →
      jwt_secret c = jwt_secret c' ∨ signing_id c = signing_id c' → id = id'.
Proof.
  assert (is_ok (load_module_signing_configs (Some [sample_module "A" x01; sample_module "B" x02])
                   sample_secrets) = true) as Hok by (vm_compute; reflexivity).
  destruct (load_module_signing_configs (Some [sample_module "A" x01; sample_module "B" x02])
              sample_secrets) as [configs|e] eqn:E; [|discriminate Hok].
  exists configs. split; [reflexivity|].
  exact (proj2 (proj2 (proj2 (module_signing_configs_unique _ _ _ E)))).
Defined.

(** Sharing a secret, or leaving one out, is refused. *)
Example signing_configs_refused :
  is_ok (load_module_signing_configs (Some [sample_module "A" x01; sample_module "B" x02])
           {[ "A"%string := "s"%string; "B"%string := "s"%string ]}) = false ∧
  is_ok (load_module_signing_configs (Some [sample_module "A" x01; sample_module "B" x01])
           sample_secrets) = false ∧
  is_ok (load_module_signing_configs (Some [sample_module "C" x01]) sample_secrets) = false ∧
  is_ok (load_module_signing_configs None sample_secrets) = false.
Proof. vm_compute. repeat split. Qed.
