(* ===== verification/Config.v ===== *)
(** * Loading the configuration

    Models [crates/common/src/config/mod.rs], the loaders of [config/pbs.rs] and
    [config/module.rs], and [LogsSettings::from_env_config].  The TOML decoder is the class
    [ConfigToml]; it gives the structures the [serde] derives describe. *)

From S2P Require Import Prelude Bytes Text Jwt Chain Signature PbsTypes Http Relay Commit.
From S2P Require Import SignerClient PbsConfig PbsState SignerConfig.

Record StaticPbsConfig := {
  sp_docker_image : string; sp_pbs_config : PbsConfig; with_signer : bool;
}.

Record CommitBoostConfig := {
  cb_chain : Chain;
  cb_relays : list RelayConfig;
  cb_pbs : StaticPbsConfig;
  cb_muxes : option (list MuxConfig);
  cb_modules : option (list StaticModuleConfig);
  cb_signer : option SignerConfig;
  cb_metrics : option MetricsConfig;
  cb_logs : LogsSettings;
}.
(** the same, before the chain is resolved *)
Record HelperConfig := {
  hc_chain : ChainLoader;
  hc_relays : list RelayConfig;
  hc_pbs : StaticPbsConfig;
  hc_muxes : option (list MuxConfig);
  hc_modules : option (list StaticModuleConfig);
  hc_signer : option SignerConfig;
  hc_metrics : option MetricsConfig;
  hc_logs : LogsSettings;
}.
(** the [StubConfig]s local to [load_pbs_custom_config] and to the module loaders; a
    module entry that does not decode as the caller's type is [None] *)
Record PbsStub (T : Type) := {
  ps_chain : Chain; ps_relays : list RelayConfig; ps_static : StaticPbsConfig; ps_extra : T;
  ps_muxes : option (list MuxConfig);
}.
Record ModuleStub (T : Type) := {
  ms_chain : Chain; ms_modules : list (option (StaticModuleConfig * T));
}.
Arguments ps_chain {T} _.
Arguments ps_relays {T} _.
Arguments ps_static {T} _.
Arguments ps_extra {T} _.
Arguments ps_muxes {T} _.
Arguments ms_chain {T} _.
Arguments ms_modules {T} _.

Class ConfigToml := {
  commit_boost_from_toml : string → Result string CommitBoostConfig;
  helper_from_toml : string → Result string HelperConfig;
  chain_from_toml : string → Result string ChainLoader;
}.

Section ConfigOps.
Context {CE : ConfigEnv} {CP : ConfigParsers} {CT : ConfigToml} {SR : SpecReader}.

(** [load_from_file] and [load_file_from_env] ([config/utils.rs]) *)
Definition load_from_file {A} (from_str : string → Result string A) (path : string)
    : Result Report A :=
  config_file ← ok_or (read_to_string path) (Message ("Unable to find config file: " +:+ path));
  map_err (λ _, Message "could not deserialize toml from string") (from_str config_file).
Definition load_file_from_env {A} (from_str : string → Result string A) (env : string)
    : Result Report A :=
  path ← load_env_var env;
  load_from_file from_str path.

Definition commit_boost_from_file (path : string) : Result Report CommitBoostConfig :=
  load_from_file commit_boost_from_toml path.

(** [CommitBoostConfig::from_env_path] *)
Definition from_env_path : Result Report CommitBoostConfig :=
  helper_config ← load_file_from_env helper_from_toml CONFIG_ENV;
  chain ← map_err (λ _, Message "invalid chain spec")
            (chain_from_env (load_optional_env_var CHAIN_SPEC_ENV) (hc_chain helper_config));
  Ok {| cb_chain := chain; cb_relays := hc_relays helper_config; cb_pbs := hc_pbs helper_config;
        cb_muxes := hc_muxes helper_config; cb_modules := hc_modules helper_config;
        cb_signer := hc_signer helper_config; cb_metrics := hc_metrics helper_config;
        cb_logs := hc_logs helper_config |}.

(** [CommitBoostConfig::chain_spec_file] *)
Definition chain_spec_file (path : string) : option string :=
  match load_from_file chain_from_toml path with
  | Ok (LoaderPath _ path) => Some path
  | _ => None
  end.

(** [CommitBoostConfig::validate] *)
Definition commit_boost_validate (c : CommitBoostConfig) : Result Report () :=
  _ ← pbs_config_validate (sp_pbs_config (cb_pbs c)) (cb_chain c);
  match cb_signer c with
  | Some signer => signer_config_validate signer
  | None => Ok ()
  end.

(** [StartSignerConfig::load_from_env] *)
Definition start_signer_load_from_env : Result Report StartSignerConfig :=
  config ← from_env_path;
  start_signer_config (cb_chain config) (cb_modules config) (cb_signer config).

(** [LogsSettings::from_env_config] *)
Definition logs_from_env_config : Result Report LogsSettings :=
  config ← from_env_path;
  Ok match load_optional_env_var LOGS_DIR_ENV with
     | Some log_dir =>
         {| lg_stdout := lg_stdout (cb_logs config);
            lg_file := let f := lg_file (cb_logs config) in
              {| fl_enabled := fl_enabled f; fl_level := fl_level f; fl_use_json := fl_use_json f;
                 fl_dir_path := log_dir; fl_max_files := fl_max_files f |} |}
     | None => cb_logs config
     end.
End ConfigOps.

Section PbsLoaders.
Context {CE : ConfigEnv} {CP : ConfigParsers} {CT : ConfigToml} {SR : SpecReader}.
Context {UL : UrlLib} {HL : HeaderLib} {JL : JwtLib} {HO : HashOrder string} {HOk : HashOrder bytes}.
Variable ssv_fuel : nat.

(** the endpoint: from the environment if set, else the default host and port *)
Definition pbs_endpoint (c : PbsConfig) : Result Report SocketAddr :=
  match load_optional_env_var PBS_ENDPOINT_ENV with
  | Some endpoint => map_err Message (parse_socket_addr endpoint)
  | None => Ok {| sa_ip := host c; sa_port := port c |}
  end.

Definition fill_muxes (muxes : option (list MuxConfig)) (chain : Chain) (c : PbsConfig)
    : Result Report (option (gmap bytes RuntimeMuxConfig)) :=
  match muxes with
  | Some muxes => mux_configs ← validate_and_fill ssv_fuel muxes chain c; Ok (Some mux_configs)
  | None => Ok None
  end.

Definition load_pbs_config : Result Report PbsModuleConfig :=
  config ← from_env_path;
  _ ← commit_boost_validate config;
  _ ← ensure (negb (bool_decide (cb_relays config = [])))
        (Message "At least one relay must be configured to run the PBS service");
  endpoint ← pbs_endpoint (sp_pbs_config (cb_pbs config));
  muxes ← fill_muxes (cb_muxes config) (cb_chain config) (sp_pbs_config (cb_pbs config));
  relay_clients ← map_err Message (try_map relay_client_new (cb_relays config));
  maybe_publisher ← publisher_new_from_env;
  Ok {| chain := cb_chain config; endpoint := endpoint;
        pmc_pbs_config := sp_pbs_config (cb_pbs config); relays := relay_clients;
        all_relays := collect_all_relays muxes relay_clients; signer_client := None;
        event_publisher := maybe_publisher; muxes := muxes |}.

(** [load_pbs_custom_config::<T>] *)
Definition load_pbs_custom_config {T} (t : Moment) (from_str : string → Result string (PbsStub T))
    : Result Report (PbsModuleConfig * T) :=
  cb_config ← load_file_from_env from_str CONFIG_ENV;
  let pbs_config := sp_pbs_config (ps_static cb_config) in
  _ ← pbs_config_validate pbs_config (ps_chain cb_config);
  endpoint ← pbs_endpoint pbs_config;
  muxes ← fill_muxes (ps_muxes cb_config) (ps_chain cb_config) pbs_config;
  relay_clients ← map_err Message (try_map relay_client_new (ps_relays cb_config));
  maybe_publisher ← publisher_new_from_env;
  signer ← (if with_signer (ps_static cb_config) then
              module_jwt ← load_env_var MODULE_JWT_ENV;
              url ← load_env_var SIGNER_URL_ENV;
              signer_server_url ← map_err Message (url_parse url);
              client ← map_err Message (signer_client_new t signer_server_url module_jwt PBS_MODULE_NAME);
              Ok (Some client)
            else Ok None);
  Ok ({| chain := ps_chain cb_config; endpoint := endpoint; pmc_pbs_config := pbs_config;
         relays := relay_clients; all_relays := collect_all_relays muxes relay_clients;
         signer_client := signer; event_publisher := maybe_publisher; muxes := muxes |},
      ps_extra cb_config).

(** ** Module loaders *)

(** the first module with the id among those that decode as the caller's type *)
Definition find_module {T} (modules : list (option (StaticModuleConfig * T))) (id : string)
    : Result Report (StaticModuleConfig * T) :=
  let matches := omap Datatypes.id modules in
  _ ← ensure (negb (bool_decide (length matches = 0%nat)))
        (Message "Failed to find matching config type");
  ok_or (snd <$> list_find (λ m, smc_id m.1 = id) matches)
    (Message ("failed to find module for " +:+ id)).

Record StartCommitModuleConfig (T : Type) := {
  scm_id : string; scm_chain : Chain; scm_signer_client : SignerClient; scm_extra : T;
}.
Record StartBuilderModuleConfig (T : Type) := {
  sbm_id : string; sbm_chain : Chain; sbm_server_port : Z; sbm_extra : T;
}.

Definition load_commit_module_config {T} (t : Moment)
    (from_str : string → Result string (ModuleStub T)) : Result Report (StartCommitModuleConfig T) :=
  module_id ← load_env_var MODULE_ID_ENV;
  module_jwt ← load_env_var MODULE_JWT_ENV;
  url ← load_env_var SIGNER_URL_ENV;
  signer_server_url ← map_err Message (url_parse url);
  cb_config ← load_file_from_env from_str CONFIG_ENV;
  module_config ← find_module (ms_modules cb_config) module_id;
  client ← map_err Message (signer_client_new t signer_server_url module_jwt module_id);
  Ok {| scm_id := smc_id module_config.1; scm_chain := ms_chain cb_config;
        scm_signer_client := client; scm_extra := module_config.2 |}.

Definition load_builder_module_config {T} (from_str : string → Result string (ModuleStub T))
    : Result Report (StartBuilderModuleConfig T) :=
  module_id ← load_env_var MODULE_ID_ENV;
  port ← load_env_var BUILDER_PORT_ENV;
  builder_events_port ← parse_u16 port;
  cb_config ← load_file_from_env from_str CONFIG_ENV;
  module_config ← find_module (ms_modules cb_config) module_id;
  Ok {| sbm_id := smc_id module_config.1; sbm_chain := ms_chain cb_config;
        sbm_server_port := builder_events_port; sbm_extra := module_config.2 |}.
End PbsLoaders.

(** ** What a loaded configuration guarantees *)

Section Loaded.
Context {CE : ConfigEnv} {CP : ConfigParsers} {CT : ConfigToml} {SR : SpecReader}.
Context {UL : UrlLib} {HL : HeaderLib} {JL : JwtLib} {HO : HashOrder string} {HOk : HashOrder bytes}.
Variable ssv_fuel : nat.

(** What [load_pbs_config] ran through *)
Lemma load_pbs_config_ok c :
  load_pbs_config ssv_fuel = Ok c →
  ∃ cfg, from_env_path = Ok cfg ∧ commit_boost_validate cfg = Ok () ∧ cb_relays cfg ≠ [] ∧
    chain c = cb_chain cfg ∧ pmc_pbs_config c = sp_pbs_config (cb_pbs cfg) ∧
    fill_muxes ssv_fuel (cb_muxes cfg) (chain c) (pmc_pbs_config c) = Ok (muxes c) ∧
    Forall2 (λ rc r, relay_client_new rc = Ok r) (cb_relays cfg) (relays c) ∧
    all_relays c = collect_all_relays (muxes c) (relays c).
Proof.
  intros H. unfold load_pbs_config in H.
  apply result_bind_ok in H as (cfg & Hcfg & H).
  apply result_bind_ok in H as ([] & Hval & H).
  apply result_bind_ok in H as ([] & Hrel & H). apply ensure_ok, negb_true_iff, bool_decide_eq_false in Hrel.
  apply result_bind_ok in H as (ep & _ & H).
  apply result_bind_ok in H as (mx & Hmx & H).
  apply result_bind_ok in H as (rs & Hrs & H). apply map_err_ok, try_map_ok in Hrs.
  apply result_bind_ok in H as (pub & _ & [= <-]). exists cfg. by split_and!.
Qed.

Lemma relays_nonempty (rcs : list RelayConfig) rs :
  Forall2 (λ rc r, relay_client_new rc = Ok r) rcs rs → rcs ≠ [] → rs ≠ [].
Proof. intros H Hne ->. by inversion H; subst. Qed.

(** The full list of relays covers the default ones *)
Lemma all_relays_cover rcs c :
  Forall2 (λ rc r, relay_client_new rc = Ok r) rcs (relays c) → rcs ≠ [] →
  all_relays c = collect_all_relays (muxes c) (relays c) →
  relays c ≠ [] ∧ all_relays c ≠ [] ∧
  (∀ r, r ∈ relays c → relay_url r ∈ relay_url <$> all_relays c).
Proof.
  intros Hrel Hne Hall. pose proof (relays_nonempty _ _ Hrel Hne) as Hrs.
  assert (∀ r, r ∈ relays c → relay_url r ∈ relay_url <$> all_relays c) as Hcov.
  { intros r Hr. rewrite Hall. apply collect_all_relays_urls. left. by apply list_elem_of_fmap_2. }
  split_and!; [done| |done].
  destruct (relays c) as [|r rs] eqn:E; [done|]. intros Hnil.
  specialize (Hcov r ltac:(by left)). rewrite Hnil in Hcov. by apply not_elem_of_nil in Hcov.
Qed.
(** A loaded configuration has relays *)
Lemma load_pbs_config_relays c :
  load_pbs_config ssv_fuel = Ok c →
  relays c ≠ [] ∧ all_relays c ≠ [] ∧
  (∀ r, r ∈ relays c → relay_url r ∈ relay_url <$> all_relays c).
Proof. intros (cfg & _ & _ & Hne & _ & _ & _ & Hrel & Hall)%load_pbs_config_ok. by eapply all_relays_cover. Qed.
(** One loaded for a custom service has them when its file does: they are not checked *)
Lemma load_pbs_custom_config_ok {T} t (from_str : string → Result string (PbsStub T)) c extra :
  load_pbs_custom_config ssv_fuel t from_str = Ok (c, extra) →
  ∃ text stub, from_str text = Ok stub ∧ extra = ps_extra stub ∧ pbs_config_valid (pmc_pbs_config c) ∧
    Forall2 (λ rc r, relay_client_new rc = Ok r) (ps_relays stub) (relays c) ∧
    all_relays c = collect_all_relays (muxes c) (relays c).
Proof.
  unfold load_pbs_custom_config, load_file_from_env, load_from_file. intros H.
  apply result_bind_ok in H as (stub & Hstub & H). apply result_bind_ok in Hstub as (path & _ & Hstub).
  apply result_bind_ok in Hstub as (text & _ & Hstub). apply map_err_ok in Hstub.
  apply result_bind_ok in H as ([] & Hval & H). apply pbs_config_validate_ok in Hval as [Hvalid _].
  apply result_bind_ok in H as (ep & _ & H).
  apply result_bind_ok in H as (mx & _ & H).
  apply result_bind_ok in H as (rs & Hrs & H). apply map_err_ok, try_map_ok in Hrs.
  apply result_bind_ok in H as (pub & _ & H).
  apply result_bind_ok in H as (signer & _ & [= <- <-]). by exists text, stub.
Qed.
(** And its default configuration is valid *)
Lemma load_pbs_config_valid c :
  load_pbs_config ssv_fuel = Ok c → pbs_config_valid (pmc_pbs_config c).
Proof.
  intros (cfg & _ & Hval & _ & _ & -> & _)%load_pbs_config_ok.
  unfold commit_boost_validate in Hval. apply result_bind_ok in Hval as ([] & Hval & _).
  by apply pbs_config_validate_ok in Hval as [Hvalid _].
Qed.

(** C29: A configuration that loads can serve every validator.  For every validator key
    the state selects at least one relay and a valid configuration: its [get_header]
    timeout is positive and below the late-in-slot threshold, so a request at the start
    of a slot has a positive budget; signature verification and the minimum bid are those
    of the default configuration.  All relays are reachable from the full relay list. *)
Theorem loaded_config_serves (c : PbsModuleConfig) (pubkey : BlsPublicKey) :
  load_pbs_config ssv_fuel = Ok c →
  let '(cfg, rs, _) := mux_config_and_relays (pbs_state_new c) pubkey in
  rs ≠ [] ∧ pbs_config_valid cfg ∧
  0 < Z.min (timeout_get_header_ms cfg) (saturating_sub (late_in_slot_time_ms cfg) 0) ∧
  skip_sigverify cfg = skip_sigverify (pmc_pbs_config c) ∧
  min_bid_wei cfg = min_bid_wei (pmc_pbs_config c) ∧
  cfg_extra_validation_enabled cfg = cfg_extra_validation_enabled (pmc_pbs_config c) ∧
  all_relays c ≠ [] ∧ (∀ r, r ∈ rs → relay_url r ∈ relay_url <$> all_relays c).
Proof.
  intros H. pose proof (load_pbs_config_relays _ H) as (Hrs & Hall_ne & Hcov1).
  pose proof (load_pbs_config_valid _ H) as Hvalid.
  apply load_pbs_config_ok in H as (cfg & _ & _ & _ & _ & Hpbs & Hmux & _ & Hall).
  pose proof (collect_all_relays_urls (muxes c) (relays c)) as Hcov. rewrite <- Hall in Hcov.
  assert (∀ cfg, pbs_config_valid cfg →
    0 < Z.min (timeout_get_header_ms cfg) (saturating_sub (late_in_slot_time_ms cfg) 0)) as Hbudget.
  { intros cfg' (Ht & _). unfold saturating_sub. lia. }
  unfold mux_config_and_relays. simpl.
  destruct (muxes c) as [mx|] eqn:Emx; simpl; [|by split_and!; auto].
  destruct (mx !! pubkey) as [rt|] eqn:Ert; simpl; [|by split_and!; auto].
  unfold fill_muxes in Hmux. destruct (cb_muxes cfg) as [ms|]; [|done].
  apply result_bind_ok in Hmux as (mx' & Hfill & [= ->]).
  destruct (validate_and_fill_lookup _ _ _ _ _ _ _ Hfill Ert) as (f & Hspec & Hne').
  destruct Hspec as (_ & _ & Hcfg' & Hvalid').
  split_and!; auto; try (rewrite Hcfg'; done). intros r Hr. apply Hcov. right.
  exists pubkey, rt. split; [done|]. by apply list_elem_of_fmap_2.
Qed.
End Loaded.

(** ** A concrete configuration: two muxes and one default relay, from the environment *)
Module ConfigSample.

Definition sample_pbs_toml : HelperConfig := {|
  hc_chain := LoaderKnown KMainnet; hc_relays := [sample_relay_config];
  hc_pbs := {| sp_docker_image := "pbs"; sp_pbs_config := default_pbs_config; with_signer := false |};
  hc_muxes := Some sample_muxes; hc_modules := None; hc_signer := None; hc_metrics := None;
  hc_logs := {| lg_stdout := default_stdout_logs; lg_file := default_file_logs |} |}.

Definition file_env : ConfigEnv := {|
  env_var name := if String.eqb name CONFIG_ENV then Some "cb.toml"%string
                  else if String.eqb name BUILDER_URLS_ENV then Some "http://events/"%string
                  else None;
  read_to_string path := if String.eqb path "cb.toml" then Some "toml"%string
                         else if String.eqb path "keys.json" then Some "[]"%string else None;
  rpc_chain_id _ := Ok 1; http_client _ := Ok ();
  http_get _ _ := Err {| is_timeout := true; is_connect := false |};
  keys_from_str _ := Ok [sample_key 1; sample_key 2; sample_key 1];
  keys_from_slice _ := Ok []; ssv_response_from_slice _ := Err "unused"%string;
  getTotalSigningKeyCount _ _ _ := Ok 0; getSigningKeys _ _ _ _ _ := Ok [];
|}.
Definition plain_parsers : ConfigParsers := {|
  parse_socket_addr s := Ok {| sa_ip := s; sa_port := 1 |}; docker_image_parses _ := true |}.
Definition sample_toml : ConfigToml := {|
  commit_boost_from_toml _ := Err "unused"%string;
  helper_from_toml s := if String.eqb s "toml" then Ok sample_pbs_toml else Err "bad toml"%string;
  chain_from_toml _ := Ok (LoaderKnown KMainnet) |}.
#[local] Existing Instances file_env plain_parsers sample_toml no_spec_reader plain_urls plain_headers.

Lemma loaded_config_serves_witness :
  ∃ c, load_pbs_config 0 = Ok c ∧ all_relays c ≠ [] ∧
    match mux_config_and_relays (pbs_state_new c) (sample_key 2) with
    | (cfg, rs, id) => rs ≠ [] ∧ timeout_get_header_ms cfg = 500 ∧ id = Some "b"%string
    end.
Proof.
  assert (match load_pbs_config 0 with
          | Ok c => let '(cfg, _, id) := mux_config_and_relays (pbs_state_new c) (sample_key 2) in
                    (timeout_get_header_ms cfg =? 500) && bool_decide (id = Some "b"%string)
          | Err _ => false end = true) as Hok by (vm_compute; reflexivity).
  destruct (load_pbs_config 0) as [c|e] eqn:E; [|discriminate Hok]. exists c.
  pose proof (loaded_config_serves 0 c (sample_key 2) E) as H.
  destruct (mux_config_and_relays (pbs_state_new c) (sample_key 2)) as [[cfg rs] id].
  apply andb_true_iff in Hok as [Ht Hid]. apply Z.eqb_eq in Ht. apply bool_decide_eq_true in Hid.
  destruct H as (Hrs & _ & _ & _ & _ & _ & Hall & _).
  split; [reflexivity|]. split; [exact Hall|]. split; [exact Hrs|]. split; [exact Ht|exact Hid].
Defined.
End ConfigSample.
