(* ===== verification/Logging.v ===== *)
(** * Logging

    Models [initialize_tracing_log] and [format_crates_filter] of [crates/common/src/utils.rs],
    with which every binary starts: the layers that are registered, by the log settings of the
    configuration.  A layer is where it writes, how it formats and what it lets through.  The
    parser of filters, the opening of the log directory and the registration are the interface
    [LogLib]; each of them makes the function panic when it fails. *)

From S2P Require Import Prelude Bytes Text Jwt Chain Http Relay PbsConfig SignerConfig.

(** a file that is rotated every day, in a directory, by the prefix of its name *)
Record RollingFile := { rf_dir : string; rf_prefix : string; rf_max_files : option Z }.
Inductive LogWriter : Type := ToStdout | ToFile (file : RollingFile).

Class LogLib := {
  EnvFilter : Type;
  (** [EnvFilter::from_str] *)
  env_filter_parse : string → option EnvFilter;
  (** [rolling::Builder::build] *)
  rolling_build : RollingFile → option ();
  (** whether no subscriber is registered yet *)
  subscriber_free : bool;
}.

Section Logging.
Context {CL : CaseLib} {LL : LogLib}.

Record LogLayer := { ly_writer : LogWriter; ly_ansi : bool; ly_json : bool; ly_filter : EnvFilter }.

Definition crates_filter_text (default_level crates_level : string) : string :=
  default_level +:+ ",cb_signer=" +:+ crates_level +:+ ",cb_pbs=" +:+ crates_level
  +:+ ",cb_common=" +:+ crates_level +:+ ",cb_metrics=" +:+ crates_level.
Definition format_crates_filter (default_level crates_level : string) : Call EnvFilter :=
  unwrap (env_filter_parse (crates_filter_text default_level crates_level)).

(** the layer on the standard output *)
Definition stdout_layer (config : StdoutLogSettings) : Call (list LogLayer) :=
  if so_enabled config then
    call_bind (format_crates_filter "INFO" (so_level config)) (λ filter,
    Returns [{| ly_writer := ToStdout; ly_ansi := so_color config; ly_json := so_use_json config;
                ly_filter := filter |}])
  else Returns [].
(** the layer on a file *)
Definition file_layer (module_id : string) (config : FileLogSettings) : Call (list LogLayer) :=
  if fl_enabled config then
    let file_appender := {| rf_dir := fl_dir_path config; rf_prefix := to_lowercase module_id;
                            rf_max_files := fl_max_files config |} in
    call_bind (unwrap (rolling_build file_appender)) (λ _,
    call_bind (format_crates_filter "INFO" (fl_level config)) (λ filter,
    Returns [{| ly_writer := ToFile file_appender; ly_ansi := false; ly_json := fl_use_json config;
                ly_filter := filter |}]))
  else Returns [].

(** the registered layers; the guards of the source keep their writers alive *)
Definition initialize_tracing_log (module_id : string) (settings : LogsSettings) : Call (list LogLayer) :=
  call_bind (stdout_layer (lg_stdout settings)) (λ stdout,
  call_bind (file_layer module_id (lg_file settings)) (λ file,
  call_bind (unwrap (if subscriber_free then Some () else None)) (λ _,
  Returns (stdout ++ file)))).

(** What is registered: one layer per enabled output, and nothing else *)
Lemma initialize_tracing_log_layers module_id settings layers :
  initialize_tracing_log module_id settings = Returns layers →
  ly_writer <$> layers =
    (if so_enabled (lg_stdout settings) then [ToStdout] else []) ++
    (if fl_enabled (lg_file settings) then
       [ToFile {| rf_dir := fl_dir_path (lg_file settings); rf_prefix := to_lowercase module_id;
                  rf_max_files := fl_max_files (lg_file settings) |}] else []).
Proof.
  unfold initialize_tracing_log, stdout_layer, file_layer, format_crates_filter, unwrap.
  destruct (so_enabled _), (fl_enabled _); simpl;
    repeat (case_match; simpl; try done); intros [= <-]; done.
Qed.
(** It starts when every enabled output has a level that parses and a directory that opens *)
Lemma initialize_tracing_log_starts module_id settings :
  subscriber_free = true →
  (so_enabled (lg_stdout settings) = true → is_Some (env_filter_parse (crates_filter_text "INFO" (so_level (lg_stdout settings))))) →
  (fl_enabled (lg_file settings) = true → is_Some (env_filter_parse (crates_filter_text "INFO" (fl_level (lg_file settings))))) →
  (∀ file, is_Some (rolling_build file)) →
  ∃ layers, initialize_tracing_log module_id settings = Returns layers.
Proof.
  intros Hfree Hout Hfile Hopen.
  unfold initialize_tracing_log, stdout_layer, file_layer, format_crates_filter. rewrite Hfree.
  destruct (so_enabled _), (fl_enabled _); simpl;
    try destruct (Hout eq_refl) as [? ->]; simpl;
    try (match goal with |- context [rolling_build ?f] => destruct (Hopen f) as [? ->] end); simpl;
    try destruct (Hfile eq_refl) as [? ->]; simpl; by eexists.
Qed.
End Logging.

(** levels as [tracing] names them, and a directory that opens *)
Definition plain_logs : LogLib := {|
  EnvFilter := string;
  env_filter_parse s :=
    if existsb (λ level, String.eqb s (crates_filter_text "INFO" level)) ["error"; "warn"; "info"; "debug"; "trace"]%string
    then Some s else None;
  rolling_build _ := Some (); subscriber_free := true |}.

(** A level that does not parse stops the binary *)
Example unknown_level_panics :
  initialize_tracing_log (CL := ascii_case) (LL := plain_logs) "PBS"
    {| lg_stdout := default_stdout_logs; lg_file := default_file_logs |} ≠ Panics ∧
  initialize_tracing_log (CL := ascii_case) (LL := plain_logs) "PBS"
    {| lg_stdout := {| so_enabled := true; so_level := "verbose"; so_use_json := false; so_color := true |};
       lg_file := default_file_logs |} = Panics.
Proof. split; [discriminate|reflexivity]. Qed.
