(* ===== verification/PbsRoutes.v ===== *)
(** * The PBS server

    Models [crates/pbs/src/api.rs] (the [BuilderApi] trait with its default methods),
    [routes/*.rs] (the handlers and the router), [error.rs] and [mev_boost/reload.rs].
    The trait is the class [BuilderApi]: the handlers are written against it, as the
    generic handlers of the source are, and [default_builder_api] is [DefaultBuilderApi],
    the methods of [mev_boost].  The state shared by the handlers is a read-write cell: a
    handler takes one snapshot when it starts, and only a successful reload writes. *)

From S2P Require Import Prelude Bytes Text Jwt Chain Signature PbsTypes Http Relay.
From S2P Require Import SignerClient Futures PbsConfig PbsState GetHeader SubmitBlock.
From S2P Require Import RegisterValidator SignerConfig Config.

(** ** Errors returned to the beacon node *)

Inductive PbsClientError : Type := NoResponse | NoPayload | Internal.

Definition BAD_GATEWAY : Z := 502.
Definition INTERNAL_SERVER_ERROR : Z := 500.

Definition client_error_status (e : PbsClientError) : Z :=
  match e with
  | NoResponse => BAD_GATEWAY
  | NoPayload => BAD_GATEWAY
  | Internal => INTERNAL_SERVER_ERROR
  end.

(** what is sent back *)
Inductive ResponseBody : Type :=
| EmptyBody
| TextBody (s : string)
| JsonHeader (h : GetHeaderResponse)
| JsonBlock (b : SubmitBlindedBlockResponse).
Record Answer := { an_status : Z; an_body : ResponseBody }.

(** [impl IntoResponse for PbsClientError] *)
Definition client_error_response (e : PbsClientError) : Answer :=
  let msg := match e with
             | NoResponse => "no response from relays"%string
             | NoPayload => "no payload from relays"%string
             | Internal => "internal server error"%string
             end in
  {| an_status := client_error_status e; an_body := TextBody msg |}.
(** a handler's result as axum sends it *)
Definition into_response (r : Result PbsClientError Answer) : Answer :=
  match r with Ok a => a | Err e => client_error_response e end.

(** ** The builder API *)

(** A method may not return ([None]), panic, or return with the effects it had. *)
Notation Method_ E A := (option (Call (Traced Effect E A))) (only parsing).

Class BuilderApi (S : Type) := {
  api_get_header : GetHeaderParams → gmap string HeaderValue → PbsState S →
    Method_ PbsReport (option GetHeaderResponse);
  api_get_status : gmap string HeaderValue → PbsState S → Method_ PbsReport ();
  api_submit_block : SignedBlindedBeaconBlock → gmap string HeaderValue → PbsState S →
    BuilderApiVersion → Method_ PbsReport (option SubmitBlindedBlockResponse);
  api_register_validator : list ValidatorRegistration → gmap string HeaderValue → PbsState S →
    Method_ PbsReport ();
  api_reload : PbsState S → Result Report (PbsState S);
}.

(** [mev_boost::reload] *)
Definition reload {CE : ConfigEnv} {CP : ConfigParsers} {CT : ConfigToml} {SR : SpecReader}
    {UL : UrlLib} {HL : HeaderLib} {HO : HashOrder string} {HOk : HashOrder bytes} {S}
    (ssv_fuel : nat) (state : PbsState S) : Result Report (PbsState S) :=
  pbs_config ← load_pbs_config ssv_fuel;
  let new_state := with_data (pbs_state_new pbs_config) (data state) in
  Ok new_state.

(** What one run of each method sees of the outside world. *)
Record ApiEnv := {
  ap_header : GetHeaderEnv;
  ap_submit : SubmitEnv;
  ap_register : RegisterEnv;
  ap_status : nat → HttpRequest → SendOutcome;
  ap_status_progress : nat → nat;
}.

(** the default methods of the trait, that is [DefaultBuilderApi] *)
Definition default_builder_api {CE : ConfigEnv} {CP : ConfigParsers} {CT : ConfigToml}
    {SR : SpecReader} {UL : UrlLib} {HL : HeaderLib} {HO : HashOrder string} {HOk : HashOrder bytes}
    {TH : TreeHashLib} {BL : BlsLib} {HJ : HeaderJson}
    {MH : TreeHash ExecutionPayloadHeaderMessageElectra} {SJ : SubmitJson} {FL : FuturesLib} {S}
    (fuel ssv_fuel : nat) (env : ApiEnv) : BuilderApi S := {|
  api_get_header params req_headers state :=
    (λ t, Returns (traced_map_err ReportMsg t)) <$>
      get_header fuel params req_headers state (ap_header env);
  api_get_status req_headers state :=
    Some (get_status req_headers state (ap_status env) (ap_status_progress env));
  api_submit_block block req_headers state v :=
    submit_block fuel block req_headers state v (ap_submit env);
  api_register_validator regs req_headers state :=
    register_validator fuel regs req_headers state (ap_register env);
  api_reload := reload ssv_fuel;
|}.

(** ** Handlers *)

Definition beacon_node_status (code tag : string) : list Effect := [BeaconNodeStatus code tag].

(** the rest of a handler, after its call to the API *)
Definition after {E A} (before : list Effect) (call : Method_ E A)
    (k : Result E A → list Effect * Result PbsClientError Answer)
    : Method_ PbsClientError Answer :=
  match call with
  | None => None
  | Some Panics => Some Panics
  | Some (Returns t) =>
      let '(effs, answer) := k (outcome t) in
      Some (Returns (mkTraced (before ++ effects t ++ effs) answer))
  end.

Section Handlers.
Context {S : Type} {Api : BuilderApi S}.

Definition handle_get_header (state : PbsState S) (req_headers : gmap string HeaderValue)
    (params : GetHeaderParams) : Method_ PbsClientError Answer :=
  after (publish_event state (EvGetHeaderRequest params))
    (api_get_header params req_headers state)
    (λ r, match r with
          | Ok res =>
              let published := publish_event state (EvGetHeaderResponse res) in
              match res with
              | Some max_bid =>
                  (published ++ beacon_node_status "200" GET_HEADER_ENDPOINT_TAG,
                   Ok {| an_status := STATUS_OK; an_body := JsonHeader max_bid |})
              | None =>
                  (published ++ beacon_node_status "204" GET_HEADER_ENDPOINT_TAG,
                   Ok {| an_status := STATUS_NO_CONTENT; an_body := EmptyBody |})
              end
          | Err _ =>
              let err := NoPayload in
              (beacon_node_status (status_str (client_error_status err)) GET_HEADER_ENDPOINT_TAG,
               Err err)
          end).

Definition handle_get_status (state : PbsState S) (req_headers : gmap string HeaderValue)
    : Method_ PbsClientError Answer :=
  after (publish_event state EvGetStatusEvent)
    (api_get_status req_headers state)
    (λ r, match r with
          | Ok _ =>
              (publish_event state EvGetStatusResponse
                 ++ beacon_node_status "200" STATUS_ENDPOINT_TAG,
               Ok {| an_status := STATUS_OK; an_body := EmptyBody |})
          | Err _ =>
              let err := NoResponse in
              (beacon_node_status (status_str (client_error_status err)) STATUS_ENDPOINT_TAG,
               Err err)
          end).

Definition handle_submit_block_impl (state : PbsState S) (req_headers : gmap string HeaderValue)
    (signed_blinded_block : SignedBlindedBeaconBlock) (api_version : BuilderApiVersion)
    : Method_ PbsClientError Answer :=
  let block_hash := blinded_block_hash signed_blinded_block in
  after (publish_event state (EvSubmitBlockRequest signed_blinded_block api_version))
    (api_submit_block signed_blinded_block req_headers state api_version)
    (λ r, match r with
          | Ok (Some block_response) =>
              (publish_event state (EvSubmitBlockResponseV1 block_response)
                 ++ beacon_node_status "200" SUBMIT_BLINDED_BLOCK_ENDPOINT_TAG,
               Ok {| an_status := STATUS_OK; an_body := JsonBlock block_response |})
          | Ok None =>
              (publish_event state EvSubmitBlockResponseV2
                 ++ beacon_node_status "202" SUBMIT_BLINDED_BLOCK_ENDPOINT_TAG,
               Ok {| an_status := STATUS_ACCEPTED; an_body := TextBody "" |})
          | Err _ =>
              let err := NoPayload in
              (publish_event state (EvMissedPayload block_hash)
                 ++ beacon_node_status (status_str (client_error_status err))
                      SUBMIT_BLINDED_BLOCK_ENDPOINT_TAG,
               Err err)
          end).
Definition handle_submit_block_v1 (state : PbsState S) (req_headers : gmap string HeaderValue)
    (block : SignedBlindedBeaconBlock) := handle_submit_block_impl state req_headers block V1.
Definition handle_submit_block_v2 (state : PbsState S) (req_headers : gmap string HeaderValue)
    (block : SignedBlindedBeaconBlock) := handle_submit_block_impl state req_headers block V2.

Definition handle_register_validator (state : PbsState S) (req_headers : gmap string HeaderValue)
    (registrations : list ValidatorRegistration) : Method_ PbsClientError Answer :=
  after (publish_event state (EvRegisterValidatorRequest registrations))
    (api_register_validator registrations req_headers state)
    (λ r, match r with
          | Err _ =>
              let err := NoResponse in
              (publish_event state EvRegisterValidatorResponse
                 ++ beacon_node_status (status_str (client_error_status err))
                      REGISTER_VALIDATOR_ENDPOINT_TAG,
               Err err)
          | Ok _ =>
              (beacon_node_status "200" REGISTER_VALIDATOR_ENDPOINT_TAG,
               Ok {| an_status := STATUS_OK; an_body := EmptyBody |})
          end).

(** [handle_reload]: the effects, the answer, and the state written to the cell, if any *)
Definition handle_reload (prev_state : PbsState S)
    : Traced Effect PbsClientError Answer * option (PbsState S) :=
  let started := publish_event prev_state EvReloadEvent in
  match api_reload prev_state with
  | Ok new_state =>
      (mkTraced (started ++ publish_event prev_state EvReloadResponse
                   ++ beacon_node_status "200" RELOAD_ENDPOINT_TAG)
         (Ok {| an_status := STATUS_OK; an_body := TextBody "OK" |}),
       Some new_state)
  | Err _ =>
      let err := Internal in
      (mkTraced (started ++ beacon_node_status (status_str (client_error_status err))
                              RELOAD_ENDPOINT_TAG) (Err err),
       None)
  end.
End Handlers.

(** ** The router *)

Inductive Route : Type :=
| RGetHeader | RGetStatus | RRegisterValidator | RSubmitBlockV1 | RSubmitBlockV2 | RReload
| RExtra (path : string).

Definition GET_HEADER_PATH : string := "/header/{slot}/{parent_hash}/{pubkey}".
(** axum's [DefaultBodyLimit] *)
Definition DEFAULT_BODY_LIMIT : Z := 2 * 1024 * 1024.

Record RouteSpec := { rt_method : Method; rt_path : string; rt_body_limit : Z; rt_handler : Route }.

(** [create_app_router], with the extra routes of a custom API *)
Definition create_app_router (extra_routes : option (list (Method * string))) : list RouteSpec :=
  let nest (prefix : string) (r : Method * string * Z * Route) :=
    let '(m, path, limit, h) := r in
    {| rt_method := m; rt_path := prefix +:+ path; rt_body_limit := limit; rt_handler := h |} in
  let v1_builder_routes :=
    [(GET, GET_HEADER_PATH, DEFAULT_BODY_LIMIT, RGetHeader);
     (GET, GET_STATUS_PATH, DEFAULT_BODY_LIMIT, RGetStatus);
     (POST, REGISTER_VALIDATOR_PATH, MAX_SIZE_REGISTER_VALIDATOR_REQUEST, RRegisterValidator);
     (POST, SUBMIT_BLOCK_PATH, MAX_SIZE_SUBMIT_BLOCK_RESPONSE, RSubmitBlockV1)] in
  let v2_builder_routes :=
    [(POST, SUBMIT_BLOCK_PATH, MAX_SIZE_SUBMIT_BLOCK_RESPONSE, RSubmitBlockV2)] in
  let v1_builder_router := nest BUILDER_V1_API_PATH <$> v1_builder_routes in
  let v2_builder_router := nest BUILDER_V2_API_PATH <$> v2_builder_routes in
  let reload_router := [nest "" (POST, RELOAD_PATH, DEFAULT_BODY_LIMIT, RReload)] in
  let builder_api := v1_builder_router ++ v2_builder_router ++ reload_router in
  match extra_routes with
  | Some extra_routes =>
      builder_api ++ ((λ '(m, path), nest "" (m, path, DEFAULT_BODY_LIMIT, RExtra path)) <$> extra_routes)
  | None => builder_api
  end.

(** ** The running server

    A request that has been routed and whose body has been extracted.  Requests run
    concurrently: a request starts by cloning the shared state and finishes later; other
    requests, reloads among them, may start and finish in between. *)
Inductive PbsRequest : Type :=
| QGetHeader (params : GetHeaderParams)
| QGetStatus
| QRegisterValidator (regs : list ValidatorRegistration)
| QSubmitBlock (v : BuilderApiVersion) (block : SignedBlindedBeaconBlock)
| QReload.

Definition request_tag (q : PbsRequest) : string :=
  match q with
  | QGetHeader _ => GET_HEADER_ENDPOINT_TAG
  | QGetStatus => STATUS_ENDPOINT_TAG
  | QRegisterValidator _ => REGISTER_VALIDATOR_ENDPOINT_TAG
  | QSubmitBlock _ _ => SUBMIT_BLINDED_BLOCK_ENDPOINT_TAG
  | QReload => RELOAD_ENDPOINT_TAG
  end.

Section Server.
Context {S : Type}.

(** the handlers that only read the state *)
Definition keep (m : Method_ PbsClientError Answer)
    : option (Call (Traced Effect PbsClientError Answer * option (PbsState S))) :=
  match m with
  | None => None
  | Some Panics => Some Panics
  | Some (Returns t) => Some (Returns (t, None))
  end.
Lemma keep_returns m t w : keep m = Some (Returns (t, w)) → m = Some (Returns t) ∧ w = None.
Proof. by destruct m as [[]|]; intros [=]; subst. Qed.
Lemma keep_panics m : keep m = Some Panics → m = Some Panics.
Proof. by destruct m as [[]|]. Qed.

(** the handler a request is routed to, on the snapshot it took, with the state it writes
    back *)
Definition handle {Api : BuilderApi S} (q : PbsRequest) (req_headers : gmap string HeaderValue)
    (snapshot : PbsState S)
    : option (Call (Traced Effect PbsClientError Answer * option (PbsState S))) :=
  match q with
  | QGetHeader params => keep (handle_get_header snapshot req_headers params)
  | QGetStatus => keep (handle_get_status snapshot req_headers)
  | QRegisterValidator regs => keep (handle_register_validator snapshot req_headers regs)
  | QSubmitBlock V1 block => keep (handle_submit_block_v1 snapshot req_headers block)
  | QSubmitBlock V2 block => keep (handle_submit_block_v2 snapshot req_headers block)
  | QReload => Some (Returns (handle_reload snapshot))
  end.

Record InFlight := {
  if_request : PbsRequest; if_headers : gmap string HeaderValue; if_snapshot : PbsState S }.
(** the shared cell, the requests being handled, the answers given so far *)
Record Server := {
  sv_state : PbsState S;
  sv_pending : list InFlight;
  sv_answers : list (InFlight * Answer);
}.

Variable api_run : BuilderApi S → Prop.

(** a request that has arrived and taken its snapshot *)
Definition start_request (sv : Server) (q : PbsRequest) (hs : gmap string HeaderValue) : Server := {|
  sv_state := sv_state sv;
  sv_pending := {| if_request := q; if_headers := hs; if_snapshot := sv_state sv |} :: sv_pending sv;
  sv_answers := sv_answers sv |}.

(** Any request may start at any time; any pending request may finish, in any order, with
    any run of the API the outside world allows; a handler that panics only loses its own
    request. *)
Inductive server_step : Server → Server → Prop :=
| StartRequest sv q hs : server_step sv (start_request sv q hs)
| FinishRequest sv (Api : BuilderApi S) p1 f p2 t written :
    api_run Api →
    sv_pending sv = p1 ++ f :: p2 →
    handle (Api := Api) (if_request f) (if_headers f) (if_snapshot f) = Some (Returns (t, written)) →
    server_step sv {|
      sv_state := default (sv_state sv) written;
      sv_pending := p1 ++ p2;
      sv_answers := (f, into_response (outcome t)) :: sv_answers sv |}
| PanicRequest sv (Api : BuilderApi S) p1 f p2 :
    api_run Api →
    sv_pending sv = p1 ++ f :: p2 →
    handle (Api := Api) (if_request f) (if_headers f) (if_snapshot f) = Some Panics →
    server_step sv {|
      sv_state := sv_state sv; sv_pending := p1 ++ p2; sv_answers := sv_answers sv |}.

Definition server_start (state : PbsState S) : Server :=
  {| sv_state := state; sv_pending := []; sv_answers := [] |}.
End Server.
Arguments InFlight : clear implicits.
Arguments Server : clear implicits.

(** ** What the beacon node is told *)

Section HandlerTheorems.
Context {S : Type} {Api : BuilderApi S}.

Lemma after_returns {E A} before (call : Method_ E A) k t :
  after before call k = Some (Returns t) ↔
  ∃ r, call = Some (Returns r) ∧ effects t = before ++ effects r ++ (k (outcome r)).1 ∧
    outcome t = (k (outcome r)).2.
Proof.
  unfold after. split.
  - destruct call as [[r|]|]; [|done..]. destruct (k (outcome r)) as [effs answer] eqn:E'.
    intros [= <-]. exists r. simpl. by rewrite E'.
  - intros (r & -> & He & Ho). destruct (k (outcome r)) as [effs answer]. simpl in *.
    destruct t. simpl in *. by subst.
Qed.
Lemma after_panics {E A} before (call : Method_ E A) k :
  after before call k = Some Panics ↔ call = Some Panics.
Proof.
  unfold after. destruct call as [[r|]|]; [|done..]. by destruct (k (outcome r)).
Qed.

(** how a handler's own effects end *)
Definition reports (q : PbsRequest) (t : Traced Effect PbsClientError Answer) : Prop :=
  last (effects t) =
  Some (BeaconNodeStatus (status_str (an_status (into_response (outcome t)))) (request_tag q)).

Lemma after_reports {E A} q before (call : Method_ E A) k t :
  (∀ r, ∃ effs, (k r).1 = effs ++ [BeaconNodeStatus
     (status_str (an_status (into_response (k r).2))) (request_tag q)]) →
  after before call k = Some (Returns t) → reports q t.
Proof.
  intros Hk (r & _ & He & Ho)%after_returns. unfold reports. rewrite He, Ho.
  destruct (Hk (outcome r)) as [effs ->]. by rewrite !app_assoc, last_snoc.
Qed.

Lemma status_codes :
  status_str STATUS_OK = "200"%string ∧ status_str STATUS_NO_CONTENT = "204"%string ∧
  status_str STATUS_ACCEPTED = "202"%string.
Proof. repeat split; vm_compute; reflexivity. Qed.

(** a list of effects that ends with the status metric *)
Ltac ends_with_status :=
  destruct status_codes as (H200 & H204 & H202); cbn [fst snd into_response an_status request_tag];
  rewrite ?H200, ?H204, ?H202; cbn [client_error_response an_status];
  unfold beacon_node_status; first [by eexists | by exists []].

(** What is counted is what is answered.  Whatever the API behind them, the last thing
    every handler does before answering is to count the answer, under its own endpoint and
    with the very status code the beacon node receives; only a reload writes the shared
    state, and only when its answer is 200. *)
Theorem handlers_report_answer q hs (snapshot : PbsState S) t written :
  handle q hs snapshot = Some (Returns (t, written)) →
  reports q t ∧ an_status (into_response (outcome t)) ∈ [200; 202; 204; 500; 502] ∧
  (is_Some written ↔ q = QReload ∧ an_status (into_response (outcome t)) = 200).
Proof.
  intros H.
  destruct q as [params| |regs|[] block|]; cbn [handle] in H;
    [apply keep_returns in H as [H ->]; split;
      [eapply after_reports; [|exact H]; intros r;
       cbv beta; destruct r as [r|]; try destruct r; ends_with_status
      |apply after_returns in H as (r & _ & _ & ->);
       split; [destruct (outcome r) as [r'|]; try destruct r'; set_solver
              |split; [by intros []|by intros [? _]]]]..|].
  unfold handle_reload in H. destruct (api_reload snapshot) as [st|e]; injection H as <- <-;
    (split; [unfold reports, beacon_node_status; cbn [effects]; rewrite ?app_assoc, last_snoc;
             cbn [outcome into_response an_status]; by rewrite ?(proj1 status_codes)|]);
    (split; [set_solver|]); split.
  - done.
  - eauto.
  - by intros [].
  - by intros [_ ?].
Qed.
End HandlerTheorems.

(** ** What the handlers rely on

    The promises of a builder API to the server, about the states it accepts: it does not
    panic on requests for headers, status and payloads, a payload it returns unblinds the
    submitted block, and a reload gives another acceptable state whose data has what [keeps]
    asks of the old data. *)
Class ApiPromises {S} (Api : BuilderApi S) (accepts : PbsState S → Prop) (keeps : relation S) := {
  get_header_no_panic params hs st :
    accepts st → api_get_header params hs st ≠ Some Panics;
  get_status_no_panic hs st : accepts st → api_get_status hs st ≠ Some Panics;
  submit_block_no_panic block hs st v :
    accepts st → api_submit_block block hs st v ≠ Some Panics;
  submit_block_payload block hs st v t r :
    accepts st → api_submit_block block hs st v = Some (Returns t) → outcome t = Ok r →
    payload_for block v r;
  reload_accepts st st' :
    accepts st → api_reload st = Ok st' → accepts st' ∧ keeps (data st) (data st');
}.

(** the states that load: there is a relay to ask and time to wait for it *)
Definition servable {S} (st : PbsState S) : Prop :=
  all_relays (config st) ≠ [] ∧ relays (config st) ≠ [] ∧ pbs_config_valid (pbs_config st).

Section DefaultApi.
Context {CE : ConfigEnv} {CP : ConfigParsers} {CT : ConfigToml} {SR : SpecReader}.
Context {UL : UrlLib} {HL : HeaderLib} {HO : HashOrder string} {HOk : HashOrder bytes}.
Context {TH : TreeHashLib} {BL : BlsLib} {HJ : HeaderJson}.
Context {MH : TreeHash ExecutionPayloadHeaderMessageElectra} {SJ : SubmitJson}.
Context {FL : FuturesLib} {FC : FuturesCorrect} {S : Type}.

Lemma reload_servable ssv_fuel (st st' : PbsState S) :
  reload ssv_fuel st = Ok st' →
  servable st' ∧ data st' = data st ∧ load_pbs_config ssv_fuel = Ok (config st').
Proof.
  intros H. unfold reload in H. apply result_bind_ok in H as (c & Hc & [= <-]).
  destruct (load_pbs_config_relays _ _ Hc) as (H & H0 & _).
  pose proof (load_pbs_config_valid _ _ Hc) as Hv.
  split; [exact (conj H0 (conj H Hv))|done].
Qed.

#[export] Instance default_api_promises fuel ssv_fuel env :
  (∀ i j, 0 ≤ ae_elapsed_ms (se_relay (ap_submit env) i) j) →
  ApiPromises (default_builder_api fuel ssv_fuel env) (servable (S := S)) eq.
Proof.
  intros Hclock. split.
  - intros params hs st _. simpl. by destruct (get_header _ _ _ _ _).
  - intros hs st (Hne & _) [= H]. by apply get_status_panics in H.
  - intros block hs st v (Hne & _) H. by apply submit_block_panics in H.
  - intros block hs st v t r (_ & _ & Hv) H Ho.
    destruct (submit_block_ok _ _ _ _ _ _ t r H ltac:(apply Hv) Hclock Ho) as [i Hi].
    by eapply relay_delivers_payload.
  - intros st st' _ (? & ? & _)%reload_servable. done.
Qed.
End DefaultApi.

Section Promises.
Context {S : Type} {Api : BuilderApi S} {accepts : PbsState S → Prop} {keeps : relation S}.
Context {AP : ApiPromises Api accepts keeps}.

(** The answer to a submitted block.  A block response (status 200) is only given on the
    v1 API and carries a payload that unblinds the submitted block; an empty acceptance
    (202) only on the v2 API; in every other case the answer is 502 and each subscriber is
    told that the payload of this very block was missed. *)
Theorem submit_answer v block hs (snapshot : PbsState S) t :
  accepts snapshot →
  handle_submit_block_impl snapshot hs block v = Some (Returns t) →
  (∃ p, v = V1 ∧ unblinds block p ∧
     outcome t = Ok {| an_status := 200; an_body := JsonBlock p |}) ∨
  (v = V2 ∧ outcome t = Ok {| an_status := 202; an_body := TextBody "" |}) ∨
  (an_status (into_response (outcome t)) = 502 ∧
   ∀ publisher ep, event_publisher (config snapshot) = Some publisher →
     ep ∈ publisher_endpoints publisher →
     Published ep (EvMissedPayload (blinded_block_hash block)) ∈ effects t).
Proof.
  intros Hok (r & Hr & He & Ho)%after_returns.
  destruct (outcome r) as [res|e] eqn:Hres.
  - pose proof (submit_block_payload _ _ _ _ _ _ Hok Hr Hres) as Hp. unfold payload_for in Hp.
    destruct v.
    + destruct Hp as (p & -> & Hp). left. by exists p.
    + subst res. right; left. by rewrite Ho.
  - right; right. rewrite Ho. split; [done|]. intros publisher ep Hpub Hep. rewrite He. simpl.
    apply elem_of_app; right. apply elem_of_app; right. apply elem_of_app; left.
    unfold publish_event. rewrite Hpub. by apply (list_elem_of_fmap_2 (λ ep, Published ep _)).
Qed.

(** a block response answers the submission, on the v1 API, of a block it unblinds *)
Definition answers_block (q : PbsRequest) (p : SubmitBlindedBlockResponse) : Prop :=
  ∃ block, q = QSubmitBlock V1 block ∧ unblinds block p.

Lemma handle_json_block q hs snapshot t w p :
  accepts snapshot → handle q hs snapshot = Some (Returns (t, w)) →
  an_body (into_response (outcome t)) = JsonBlock p → answers_block q p.
Proof.
  intros Hok H Hbody.
  destruct q as [params| |regs|[] block|]; cbn [handle] in H;
    try (apply keep_returns in H as [H _]; apply after_returns in H as (r & Hr & _ & Ho);
         rewrite Ho in Hbody;
         destruct (outcome r) as [res|] eqn:Hres; simpl in Hbody; try done).
  - by destruct res.
  - pose proof (submit_block_payload _ _ _ _ _ _ Hok Hr Hres) as (p' & -> & Hp).
    injection Hbody as <-. by exists block.
  - pose proof (submit_block_payload _ _ _ _ _ _ Hok Hr Hres) as Hp. by rewrite Hp in Hbody.
  - unfold handle_reload in H. by destruct (api_reload snapshot); injection H as <- <-.
Qed.

Lemma handle_panics q hs snapshot :
  accepts snapshot → handle q hs snapshot = Some Panics → ∃ regs, q = QRegisterValidator regs.
Proof.
  intros Hok H.
  destruct q as [params| |regs|[] block|]; cbn [handle] in H; [| |eauto|..|done];
    apply keep_panics, after_panics in H.
  - by apply get_header_no_panic in H.
  - by apply get_status_no_panic in H.
  - by apply submit_block_no_panic in H.
  - by apply submit_block_no_panic in H.
Qed.

Lemma handle_written q hs snapshot t st :
  accepts snapshot → handle q hs snapshot = Some (Returns (t, Some st)) →
  accepts st ∧ keeps (data snapshot) (data st).
Proof.
  intros Hok H.
  destruct q as [params| |regs|[] block|]; cbn [handle] in H; try by apply keep_returns in H as [_ ?].
  unfold handle_reload in H. destruct (api_reload snapshot) as [st'|e] eqn:E; [|done].
  injection H as _ <-. by apply (reload_accepts _ _ Hok).
Qed.
End Promises.

Section ServerTheorems.
Context {S : Type} (accepts : PbsState S → Prop) (keeps : relation S) {PK : PreOrder keeps}.
Context (api_run : BuilderApi S → Prop).
Hypothesis run_promises : ∀ Api, api_run Api → ApiPromises Api accepts keeps.

(** what every reachable server satisfies *)
Definition server_inv (d : S) (sv : Server S) : Prop :=
  let good st := accepts st ∧ keeps d (data st) in
  good (sv_state sv) ∧ Forall (λ f, good (if_snapshot f)) (sv_pending sv) ∧
  Forall (λ fa, ∀ p, an_body fa.2 = JsonBlock p → answers_block (if_request fa.1) p) (sv_answers sv).

Lemma server_inv_step d sv sv' :
  server_inv d sv → server_step api_run sv sv' → server_inv d sv'.
Proof.
  intros (Hst & Hpend & Hans) Hstep.
  destruct Hstep as [sv q hs|sv Api p1 f p2 t w Hrun Hp Hh|sv Api p1 f p2 Hrun Hp Hh].
  - split; [exact Hst|]. split; [by constructor|done].
  - rewrite Hp in Hpend. apply Forall_app in Hpend as [Hp1 Hp2].
    apply Forall_cons in Hp2 as [Hf Hp2]. unfold server_inv. simpl.
    pose proof (run_promises Api Hrun) as AP.
    split; [|split; [by apply Forall_app|constructor; [|done]]].
    2:{ intros p Hbody. by eapply handle_json_block; [apply Hf|exact Hh|]. }
    destruct w as [st|]; [|done]. destruct Hf as [Hf Hd].
    apply (handle_written _ _ _ _ _ Hf) in Hh as [? Hk]. split; [done|]. by etrans.
  - rewrite Hp in Hpend. apply Forall_app in Hpend as [Hp1 Hp2].
    apply Forall_cons in Hp2 as [Hf Hp2]. unfold server_inv. simpl.
    split; [done|]. split; [by apply Forall_app|done].
Qed.
#[local] Hint Resolve server_inv_step : commit_boost.

Lemma server_inv_reachable st0 sv :
  accepts st0 → rtc (server_step api_run) (server_start st0) sv → server_inv (data st0) sv.
Proof.
  intros H0 Hrtc. cut (server_inv (data st0) (server_start st0)).
  - induction Hrtc; [done|]. eauto with commit_boost.
  - by repeat split.
Qed.
End ServerTheorems.

(** ** The default server *)

Section DefaultServer.
Context {UL : UrlLib} {HL : HeaderLib} {HO : HashOrder string} {HOk : HashOrder bytes}.
Context {TH : TreeHashLib} {BL : BlsLib} {HJ : HeaderJson}.
Context {MH : TreeHash ExecutionPayloadHeaderMessageElectra} {SJ : SubmitJson}.
Context {FL : FuturesLib} {FC : FuturesCorrect} {S : Type}.

(** a run of the default methods: the relays, the clock and the configuration files are
    whatever they are at that moment; time does not run backwards *)
Definition default_run (Api : BuilderApi S) : Prop :=
  ∃ (CE : ConfigEnv) (CP : ConfigParsers) (CT : ConfigToml) (SR : SpecReader) fuel ssv_fuel env,
    (∀ i j, 0 ≤ ae_elapsed_ms (se_relay (ap_submit env) i) j) ∧
    Api = default_builder_api fuel ssv_fuel env.

Lemma default_run_promises Api : default_run Api → ApiPromises Api (servable (S := S)) eq.
Proof. intros (CE & CP & CT & SR & fuel & ssv_fuel & env & Hc & ->). by apply default_api_promises. Qed.

End DefaultServer.

(** ** Reloading *)

Section Reload.
Context {CE : ConfigEnv} {CP : ConfigParsers} {CT : ConfigToml} {SR : SpecReader}.
Context {UL : UrlLib} {HL : HeaderLib} {HO : HashOrder string} {HOk : HashOrder bytes}.
Context {TH : TreeHashLib} {BL : BlsLib} {HJ : HeaderJson}.
Context {MH : TreeHash ExecutionPayloadHeaderMessageElectra} {SJ : SubmitJson}.
Context {FL : FuturesLib} {S : Type}.
#[local] Existing Instance default_builder_api.

(** A reload is all or nothing.  If the configuration loads, the new configuration
    replaces the old one, the data of the old state is kept and the answer is 200; if not,
    nothing is written, the answer is 500, and no response event is published.  Both are
    announced to the subscribers of the previous configuration. *)
Theorem reload_all_or_nothing fuel ssv_fuel env (prev : PbsState S) :
  let '(t, written) := handle_reload (Api := default_builder_api fuel ssv_fuel env) prev in
  match load_pbs_config ssv_fuel with
  | Ok c => written = Some {| config := c; data := data prev |} ∧
            an_status (into_response (outcome t)) = 200 ∧
            effects t = publish_event prev EvReloadEvent ++ publish_event prev EvReloadResponse
                          ++ [BeaconNodeStatus "200" RELOAD_ENDPOINT_TAG]
  | Err _ => written = None ∧ an_status (into_response (outcome t)) = 500 ∧
             effects t = publish_event prev EvReloadEvent
                           ++ [BeaconNodeStatus "500" RELOAD_ENDPOINT_TAG]
  end.
Proof.
  unfold handle_reload, default_builder_api, reload. cbn [api_reload].
  destruct (load_pbs_config ssv_fuel) as [c|e]; simpl; [done|].
  split_and!; [done..|]. unfold beacon_node_status. by do 3 f_equal.
Qed.
End Reload.

(** ** A concrete server: a submission that outlives a reload *)
Module ServerSample.
Import ConfigSample.

Definition api_env : ApiEnv := {|
  ap_header := HeaderSample.env; ap_submit := SubmitSample.env; ap_register := RegisterSample.env;
  ap_status := RegisterSample.status_send; ap_status_progress _ := 0%nat |}.
#[local] Existing Instances file_env plain_parsers sample_toml no_spec_reader plain_urls plain_headers
  sha256_tree_hash toy_bls HeaderSample.header_json HeaderSample.message_tree_hash
  SubmitSample.json in_order in_order_correct.

Definition api : BuilderApi () := default_builder_api 16 0 api_env.
#[local] Existing Instance api.

Lemma api_promises : ApiPromises api (servable (S := ())) eq.
Proof. apply default_api_promises. intros i j. simpl. lia. Qed.
Lemma api_runs : default_run api.
Proof. do 6 eexists. exists api_env. split; [|reflexivity]. intros i j. simpl. lia. Qed.
Lemma sample_servable : servable SubmitSample.state.
Proof.
  repeat split; try discriminate; vm_compute; try reflexivity; try discriminate.
Qed.

Definition answered (code : Z) (m : option (Call (Traced Effect PbsClientError Answer))) : bool :=
  match m with
  | Some (Returns t) => an_status (into_response (outcome t)) =? code
  | _ => false
  end.

Example sample_answers :
  answered 200 (handle_get_header HeaderSample.state ∅ HeaderSample.params) = true ∧
  answered 200 (handle_submit_block_v1 SubmitSample.state ∅ SubmitSample.block) = true ∧
  answered 202 (handle_submit_block_v2 SubmitSample.state ∅ SubmitSample.block) = true ∧
  answered 200 (handle_register_validator (RegisterSample.state true) ∅ RegisterSample.regs) = true ∧
  answered 502 (handle_register_validator (RegisterSample.state false) ∅ RegisterSample.regs) = true ∧
  answered 200 (handle_get_status (RegisterSample.state true) ∅) = true.
Proof. vm_compute. repeat split. Qed.

Lemma handlers_report_answer_witness :
  ∃ t w, handle QReload ∅ SubmitSample.state = Some (Returns (t, w)) ∧ reports QReload t ∧
    (is_Some w ↔ an_status (into_response (outcome t)) = 200).
Proof.
  destruct (handle_reload SubmitSample.state) as [t w] eqn:E. exists t, w.
  assert (handle QReload ∅ SubmitSample.state = Some (Returns (t, w))) as H.
  { unfold handle. rewrite E. reflexivity. }
  destruct (handlers_report_answer _ _ _ _ _ H) as (Hr & _ & Hw).
  split; [exact H|]. split; [exact Hr|]. split.
  - intros Hs. exact (proj2 (proj1 Hw Hs)).
  - intros Hc. apply Hw. split; [reflexivity|exact Hc].
Defined.

Lemma submit_answer_witness :
  ∃ t p, handle_submit_block_impl SubmitSample.state ∅ SubmitSample.block V1 = Some (Returns t) ∧
    unblinds SubmitSample.block p ∧ outcome t = Ok {| an_status := 200; an_body := JsonBlock p |}.
Proof.
  pose proof (proj1 (proj2 sample_answers)) as H. unfold handle_submit_block_v1 in H.
  destruct (handle_submit_block_impl SubmitSample.state ∅ SubmitSample.block V1) as [[t|]|] eqn:E;
    try discriminate H.
  simpl in H. apply Z.eqb_eq in H.
  destruct (submit_answer (AP := api_promises) V1 SubmitSample.block ∅ SubmitSample.state t
    sample_servable E) as [(p & _ & Hp & Ho)|[[Hv _]|[H5 _]]].
  - exists t, p. split; [reflexivity|]. split; [exact Hp|exact Ho].
  - discriminate Hv.
  - rewrite H5 in H. discriminate H.
Defined.

(** the server after a submission and a reload started, and the reload finished *)
Definition submission : InFlight () := {|
  if_request := QSubmitBlock V1 SubmitSample.block; if_headers := ∅;
  if_snapshot := SubmitSample.state |}.
Definition reloading : InFlight () := {|
  if_request := QReload; if_headers := ∅; if_snapshot := SubmitSample.state |}.
Definition started : Server () := {|
  sv_state := SubmitSample.state; sv_pending := [reloading; submission]; sv_answers := [] |}.
Definition after_reload : Server () := {|
  sv_state := default SubmitSample.state (handle_reload SubmitSample.state).2;
  sv_pending := [submission];
  sv_answers := [(reloading, into_response (outcome (handle_reload SubmitSample.state).1))] |}.

Lemma after_reload_reachable :
  rtc (server_step default_run) (server_start SubmitSample.state) after_reload.
Proof.
  eapply rtc_l; [apply (StartRequest _ _ (QSubmitBlock V1 SubmitSample.block) ∅)|].
  eapply rtc_l; [apply (StartRequest _ _ QReload ∅)|].
  apply (rtc_l _ started after_reload); [|apply rtc_refl].
  apply (FinishRequest default_run started api [] reloading [submission]
    (handle_reload SubmitSample.state).1 (handle_reload SubmitSample.state).2).
  - apply api_runs.
  - reflexivity.
  - change (Some (Returns (handle_reload SubmitSample.state)) =
      Some (Returns ((handle_reload SubmitSample.state).1, (handle_reload SubmitSample.state).2))).
    by rewrite <- surjective_pairing.
Qed.

End ServerSample.
