(* ===== verification/PbsWire.v ===== *)
(** * The PBS service as a proxy of messages

    Joins the handlers of [PbsRoutes] with the JSON of [PbsJson]: the bodies of the requests
    from the beacon node are read with [serde_json], those to the relays are written with it,
    and so are the answers in both directions.  The theorems say that the service hands on
    what it was given: a bid, a signed blinded block and an unblinded payload arrive as their
    authors wrote them, whatever the order of the fields in their documents. *)

From S2P Require Import Prelude Bytes Text Serde PlainSerde Jwt Chain Signature PbsTypes PbsJson Http Relay.
From S2P Require Import SignerClient Futures PbsConfig PbsState GetHeader SubmitBlock.
From S2P Require Import RegisterValidator SignerConfig Config PbsRoutes.

Section Wire.
Context {SL : SerdeLib} {HX : HexLib} {JT : JsonText}.

(** [serde_json::from_slice] in [get_header.rs] and [submit_block.rs] *)
#[export] Instance header_wire : HeaderJson :=
  {| get_header_from_slice := from_slice get_header_response_wire |}.
#[export] Instance submit_wire : SubmitJson :=
  {| submit_response_from_slice := from_slice submit_response_wire |}.

(** the extractor [Json<SignedBlindedBeaconBlock>] of the handler *)
Definition extract_block (body : bytes) : Result string SignedBlindedBeaconBlock :=
  from_slice signed_blinded_block_wire body.
(** [.json(&signed_blinded_block)] *)
Definition block_body (req : HttpRequest) : option bytes :=
  match rq_body req with BlindedBlockBody b => Some (to_vec signed_blinded_block_wire b) | _ => None end.
(** [impl IntoResponse] of the answers *)
Definition answer_bytes (a : Answer) : bytes :=
  match an_body a with
  | EmptyBody => []
  | TextBody s => bytes_of_string s
  | JsonHeader h => to_vec get_header_response_wire h
  | JsonBlock b => to_vec submit_response_wire b
  end.

(** a document that [a] was written as: the fields of its objects in any order *)
Definition written {A} (w : Wire A) (a : A) (body : bytes) : Prop :=
  ∃ j, wf w a ∧ same_json (to_json w a) j ∧ json_read body = Ok j.

Context {SC : SerdeCorrect} {HC : HexCorrect} {JC : JsonTextCorrect}.

Lemma written_read {A} (w : Wire A) {Hw : Lawful w} a body :
  written w a body → from_slice w body = Ok a.
Proof.
  intros (j & Ha & Hj & Hb). apply from_slice_ok. exists j. split; [done|].
  eapply wire_order; [done|]. by apply wire_roundtrip.
Qed.
(** What was read from a body, is of the widths of its type; if the body was written from a
    value it is that value, and it can be written and read again *)
Lemma read_on {A} (w : Wire A) {Hw : Lawful w} a body :
  from_slice w body = Ok a →
  typed w a ∧ ∀ b, written w b body → b = a ∧ from_slice w (to_vec w a) = Ok b.
Proof.
  intros H. split.
  - apply from_slice_ok in H as (j & _ & Hj). by eapply wire_typed.
  - intros b Hb. pose proof (written_read w b body Hb) as Hr. destruct Hb as (j & Hb & _).
    assert (b = a) as <- by congruence. split; [done|]. by apply from_slice_to_vec.
Qed.

Context {CE : ConfigEnv} {CP : ConfigParsers} {CT : ConfigToml} {SR : SpecReader}.
Context {UL : UrlLib} {HL : HeaderLib} {HO : HashOrder string} {HOk : HashOrder bytes}.
Context {TH : TreeHashLib} {BL : BlsLib} {MH : TreeHash ExecutionPayloadHeaderMessageElectra}.
Context {FL : FuturesLib} {FC : FuturesCorrect} {S : Type}.

Lemma publish_sends_nothing (state : PbsState S) event id req : Sent id req ∉ publish_event state event.
Proof.
  unfold publish_event, publish. destruct (event_publisher (config state)) as [p|]; [|by intros ?%not_elem_of_nil].
  by intros (? & ? & _)%list_elem_of_fmap.
Qed.

(** C3: A bid passes through.  When the handler of [get_header] answers with a bid, one of
    the validator's relays answered a request of this call with a body from which that bid
    was read.  The numbers, hashes, keys and signature of the bid have the widths of their
    types.  If the relay had written a header within the limits of the preset, in whatever
    order of fields, then the bid is that header and the beacon node reads exactly that
    header from the answer. *)
Theorem bid_passes_through fuel ssv_fuel env (state : PbsState S) hs params t ans bid :
  handle_get_header (Api := default_builder_api fuel ssv_fuel env) state hs params = Some (Returns t) →
  outcome t = Ok ans → an_body ans = JsonHeader bid →
  ∃ i k relay request res body,
    header_relays params state !! i = Some relay ∧
    re_send (ge_relay (ap_header env) i) k request = Ok res ∧
    read_body res MAX_SIZE_GET_HEADER_RESPONSE = Ok body ∧
    get_header_from_slice body = Ok bid ∧
    (is_u64 (header_block_number bid) ∧ is_u64 (header_gas_limit bid) ∧ is_u256 (header_value bid) ∧
     length (header_block_hash bid) = 32%nat ∧ length (header_parent_hash bid) = 32%nat ∧
     length (header_pubkey bid) = 48%nat ∧ length (header_signature bid) = 96%nat) ∧
    ∀ header, written get_header_response_wire header body →
      header = bid ∧ from_slice get_header_response_wire (answer_bytes ans) = Ok header.
Proof.
  intros (r & Hr & _ & Ho)%after_returns Hout Hbody. rewrite Hout in Ho.
  cbn [api_get_header default_builder_api] in Hr. apply fmap_Some in Hr as (t' & Ht' & [= ->]).
  cbn [outcome traced_map_err] in Ho.
  destruct (outcome t') as [[bid'|]|e] eqn:E; simpl in Ho; try done; injection Ho as ->; [|done].
  injection Hbody as ->.
  destruct (get_header_offered _ _ _ _ _ _ _ Ht' E) as (i & k & relay & ua & Hrelay & _ & Hoff).
  destruct Hoff as (url & timeouts & tm & _ & _ & _ & _ & Hans & _).
  destruct Hans as (res & body & Hsend & _ & _ & Hread & Hparse).
  eexists i, k, relay, _, res, body. split; [done|]. split; [exact Hsend|]. split; [done|]. split; [done|].
  destruct (read_on get_header_response_wire bid body Hparse) as [Hty Hw]. split; [|exact Hw].
  destruct bid as [d]. cbn in Hty. cbn.
  destruct Hty as ((Hh & _ & _ & Hv & Hpk & _) & Hs & _). destruct_and!. auto 10.
Qed.

(** C4: A submitted block passes through, and so does its payload.  A beacon node that wrote
    a signed blinded block within the limits of the preset, in whatever order of fields, has
    it read as that block; every request that is then sent to a relay has a body from which
    the relay reads exactly that block; and an unblinded payload that comes back unblinds the
    block, was read from the answer of a relay, and, if the relay had written it within the
    limits, is read by the beacon node as the relay wrote it. *)
Theorem block_passes_through fuel ssv_fuel env (state : PbsState S) hs block text t :
  written signed_blinded_block_wire block text →
  servable state → (∀ i j, 0 ≤ ae_elapsed_ms (se_relay (ap_submit env) i) j) →
  extract_block text = Ok block ∧
  (handle_submit_block_v1 (Api := default_builder_api fuel ssv_fuel env) state hs block = Some (Returns t) →
   (∀ id req, Sent id req ∈ effects t →
      ∃ body, block_body req = Some body ∧ from_slice signed_blinded_block_wire body = Ok block) ∧
   ∀ ans payload, outcome t = Ok ans → an_body ans = JsonBlock payload →
     unblinds block payload ∧
     ∃ i k request res body,
       ae_send (se_relay (ap_submit env) i) k request = Ok res ∧
       read_body res MAX_SIZE_SUBMIT_BLOCK_RESPONSE = Ok body ∧
       submit_response_from_slice body = Ok payload ∧
       ∀ p, written submit_response_wire p body →
         p = payload ∧ from_slice submit_response_wire (answer_bytes ans) = Ok p).
Proof.
  intros Hw (_ & _ & Hv) Hclock. pose proof (written_read signed_blinded_block_wire _ _ Hw) as Hread.
  split; [done|]. intros (r & Hr & He & Ho)%after_returns. cbn [api_submit_block default_builder_api] in Hr.
  destruct Hw as (j & Hwf & _). split.
  - intros id req Hin. rewrite He in Hin.
    assert (rq_body req = BlindedBlockBody block) as Hb.
    { pose proof (submit_block_sends _ _ _ _ _ _ _ Hr) as Hall. unfold traced_all in Hall.
      rewrite Forall_forall in Hall. apply elem_of_app in Hin as [Hin|[Hin|Hin]%elem_of_app].
      - by apply publish_sends_nothing in Hin.
      - by eapply Hall.
      - exfalso. destruct (outcome r) as [[]|]; simpl in Hin;
          (apply elem_of_app in Hin as [Hin|Hin]; [by apply publish_sends_nothing in Hin|set_solver]). }
    unfold block_body. rewrite Hb. eexists. split; [done|].
    exact (from_slice_to_vec signed_blinded_block_wire block Hwf).
  - intros ans payload Hout Hbody. rewrite Hout in Ho.
    destruct (outcome r) as [[p|]|e] eqn:E; simpl in Ho; try done; injection Ho as ->; [|done].
    injection Hbody as ->.
    destruct (submit_block_ok _ _ _ _ _ _ _ _ Hr ltac:(apply Hv) Hclock E) as [i Hi].
    pose proof (relay_delivers_payload _ _ _ _ _ _ _ Hi) as (p & [= <-] & Hu). split; [done|].
    destruct Hi as (relay & ua & url & k & rem & _ & _ & _ & _ & res & body & Hsend & _ & Hrd & Hp & _).
    eexists i, k, _, res, body. split; [exact Hsend|]. split; [done|]. split; [done|].
    exact (proj2 (read_on submit_response_wire payload body Hp)).
Qed.
End Wire.

(** ** A concrete slot

    A relay whose answer to [get_header] has its fields [data] and [version] in this order,
    and a beacon node that submits the block of the bid. *)
Module WireSample.
Import ConfigSample.

#[local] Existing Instances file_env plain_parsers sample_toml no_spec_reader plain_urls plain_headers
  sha256_tree_hash sized_bls HeaderSample.message_tree_hash in_order in_order_correct
  plain_serde plain_serde_correct plain_hex plain_hex_correct.

Definition h32 (b : byte) : B256 := byte_array 32 b.
Definition secret : bytes := [x05].
Definition relay_key : BlsPublicKey := sk_to_pk (BlsLib := sized_bls) secret.
Definition exec_header : ExecutionPayloadHeader := {|
  eph_parent_hash := HeaderSample.parent; eph_fee_recipient := byte_array 20 x01; eph_state_root := h32 x02;
  eph_receipts_root := h32 x03; eph_logs_bloom := byte_array 256 x00; eph_prev_randao := h32 x04;
  eph_block_number := 8; eph_gas_limit := 30000000; eph_gas_used := 21000; eph_timestamp := 1695902460;
  eph_extra_data := [xca; xfe]; eph_base_fee_per_gas := 7; eph_block_hash := h32 x09;
  eph_transactions_root := h32 x0a; eph_withdrawals_root := h32 x0b; eph_blob_gas_used := 0;
  eph_excess_blob_gas := 0 |}.
Definition no_requests : ExecutionRequests :=
  {| er_deposits := []; er_withdrawals := []; er_consolidations := [] |}.
Definition message : ExecutionPayloadHeaderMessageElectra := {|
  hm_header := exec_header; hm_blob_kzg_commitments := []; hm_execution_requests := no_requests;
  hm_value := 1000; hm_pubkey := relay_key |}.
Definition bid : GetHeaderResponse := Electra {|
  seph_message := message;
  seph_signature := sign_builder_message (T := ExecutionPayloadHeaderMessageElectra)
                      (H := HeaderSample.message_tree_hash) Holesky secret message |}.
Definition sync : SyncAggregate :=
  {| sync_committee_bits := replicate 512 true; sync_committee_signature := byte_array 96 x03 |}.
Definition body : BlindedBeaconBlockBodyElectra := {|
  randao_reveal := byte_array 96 x02;
  eth1_data := {| e1_deposit_root := h32 x03; e1_deposit_count := 0; e1_block_hash := h32 x04 |};
  graffiti := h32 x05; proposer_slashings := []; attester_slashings := []; attestations := [];
  deposits := []; voluntary_exits := []; sync_aggregate := sync; execution_payload_header := exec_header;
  bls_to_execution_changes := []; blob_kzg_commitments := []; execution_requests := no_requests |}.
Definition block : SignedBlindedBeaconBlock := {|
  sbb_signature := byte_array 96 x01;
  sbb_message := BlindedElectra {|
    bb_slot := 5; bb_proposer_index := 1; bb_parent_root := h32 x01; bb_state_root := h32 x02;
    bb_body := body |} |}.
Definition payload : SubmitBlindedBlockResponse := Electra {|
  execution_payload := {|
    ep_parent_hash := HeaderSample.parent; ep_fee_recipient := byte_array 20 x01; ep_state_root := h32 x02;
    ep_receipts_root := h32 x03; ep_logs_bloom := byte_array 256 x00; ep_prev_randao := h32 x04;
    ep_block_number := 8; ep_gas_limit := 30000000; ep_gas_used := 21000; ep_timestamp := 1695902460;
    ep_extra_data := [xca; xfe]; ep_base_fee_per_gas := 7; ep_block_hash := h32 x09;
    ep_transactions := [[x02; xf8]];
    ep_withdrawals := [{| w_index := 1; w_validator_index := 2; w_address := byte_array 20 x03; w_amount := 4 |}];
    ep_blob_gas_used := 0; ep_excess_blob_gas := 0 |};
  blobs_bundle := {| commitments := []; proofs := []; blobs := [] |} |}.

(** the documents on the network, by a byte each; others by [plain_json_text] *)
Definition swapped (j : Json) : Json :=
  match j with JObject m => JObject (rev m) | _ => j end.
Definition bid_document : Json := swapped (to_json get_header_response_wire bid).
Definition block_document : Json := swapped (to_json signed_blinded_block_wire block).
Definition payload_document : Json := swapped (to_json submit_response_wire payload).
Definition network : JsonText := {|
  json_text j := x00 :: json_text (JsonText := plain_json_text) j;
  json_read b :=
    match b with
    | x01 :: _ => Ok bid_document
    | x02 :: _ => Ok block_document
    | x03 :: _ => Ok payload_document
    | _ :: b => json_read (JsonText := plain_json_text) b
    | [] => Err "no document"%string
    end;
  error_text := error_text (JsonText := plain_json_text);
|}.
#[local] Existing Instance network.
#[local] Instance network_correct : JsonTextCorrect.
Proof. intros j Hj. exact (plain_json_text_correct j Hj). Qed.

Lemma swapped_same j : same_json j (swapped j).
Proof.
  destruct j; try constructor. eapply same_object; [apply Permutation_rev|].
  generalize (rev fields). intros l. induction l; constructor; [|done]. split; [done|constructor].
Qed.
Create HintDb wire_sample.
Ltac within_limits :=
  first [solve [eauto 2 with wire_sample]|hnf];
  lazymatch goal with
  | |- _ ∧ _ => split; within_limits
  | |- True => exact I
  | |- Forall _ _ => first [apply Forall_nil_2|apply Forall_cons_2; within_limits]
  | |- _ = _ => vm_compute; reflexivity
  | |- _ => vm_compute; discriminate
  end.
Lemma exec_header_within : wf payload_header_wire exec_header.
Proof. within_limits. Qed.
Lemma sync_within : wf sync_aggregate_wire sync.
Proof. within_limits. Qed.
#[local] Hint Resolve exec_header_within sync_within : wire_sample.
Lemma body_within : wf blinded_body_wire body.
Proof. within_limits. Qed.
#[local] Hint Resolve body_within : wire_sample.
Lemma bid_written : written get_header_response_wire bid [x01].
Proof. exists bid_document. split; [within_limits|]. split; [apply swapped_same|done]. Qed.
Lemma block_written : written signed_blinded_block_wire block [x02].
Proof. exists block_document. split; [within_limits|]. split; [apply swapped_same|done]. Qed.
Lemma payload_written : written submit_response_wire payload [x03].
Proof. exists payload_document. split; [within_limits|]. split; [apply swapped_same|done]. Qed.

Definition relay : RelayClient := {|
  rl_id := "r"; rl_client := {| default_headers := ∅; client_timeout_secs := 10 |};
  rl_config := {|
    rc_id := None; entry := {| re_id := "r"; re_pubkey := relay_key; re_url := "http://abc.xyz/" |};
    headers := None; get_params := None; enable_timing_games := false; target_first_request_ms := None;
    frequency_get_header_ms := None; validator_registration_batch_size := None |} |}.
Definition state : PbsState () := HeaderSample.state_with [relay].
Definition env : ApiEnv := {|
  ap_header := {|
    ge_now_ms := HeaderSample.now_ms; ge_relay _ := HeaderSample.relay_env (λ _, HeaderSample.answer_with x01);
    ge_block_by_hash _ _ := Err "no rpc"%string |};
  ap_submit := {| se_now_ms := 1000; se_relay _ := SubmitSample.attempts (λ _, SubmitSample.respond 200 [x03]);
                  se_progress _ := 100%nat |};
  ap_register := RegisterSample.env; ap_status := RegisterSample.status_send;
  ap_status_progress _ := 0%nat |}.
#[local] Instance api : BuilderApi () := default_builder_api 16 0 env.

Definition answer_of (m : option (Call (Traced Effect PbsClientError Answer))) : option Answer :=
  match m with Some (Returns t) => result_ok (outcome t) | _ => None end.
Example header_answer :
  answer_of (handle_get_header state ∅ HeaderSample.params)
  = Some {| an_status := 200; an_body := JsonHeader bid |}.
Proof. vm_compute. reflexivity. Qed.
Example block_answer :
  answer_of (handle_submit_block_v1 state ∅ block) = Some {| an_status := 200; an_body := JsonBlock payload |}.
Proof. vm_compute. reflexivity. Qed.
Lemma answer_of_some m a : answer_of m = Some a → ∃ t, m = Some (Returns t) ∧ outcome t = Ok a.
Proof.
  destruct m as [[t|]|]; try done. intros H. exists t. split; [done|]. simpl in H.
  destruct (outcome t); [by injection H as ->|done].
Qed.

Lemma bid_passes_through_witness :
  ∃ t ans, handle_get_header state ∅ HeaderSample.params = Some (Returns t) ∧ outcome t = Ok ans ∧
    from_slice get_header_response_wire (answer_bytes ans) = Ok bid.
Proof.
  destruct (answer_of_some _ _ header_answer) as (t & Ht & Ho). exists t. eexists. split; [exact Ht|].
  split; [exact Ho|].
  destruct (bid_passes_through 16 0 env state ∅ HeaderSample.params t _ bid Ht Ho eq_refl)
    as (i & k & r & request & res & body & _ & Hsend & Hread & _ & _ & Hw).
  injection Hsend as <-. assert (Ok [x01] = (Ok body : Result PbsError bytes)) as Hb.
  { rewrite <- Hread. reflexivity. }
  injection Hb as <-. exact (proj2 (Hw bid bid_written)).
Defined.

Lemma block_passes_through_witness :
  extract_block [x02] = Ok block ∧
  ∃ t ans, handle_submit_block_v1 state ∅ block = Some (Returns t) ∧ outcome t = Ok ans ∧
    from_slice submit_response_wire (answer_bytes ans) = Ok payload ∧
    ∀ id req, Sent id req ∈ effects t →
      ∃ body, block_body req = Some body ∧ from_slice signed_blinded_block_wire body = Ok block.
Proof.
  destruct (answer_of_some _ _ block_answer) as (t & Ht & Ho).
  destruct (block_passes_through 16 0 env state ∅ block [x02] t block_written) as [Hx H].
  { repeat split; try discriminate; vm_compute; try reflexivity; try discriminate. }
  { intros i j. simpl. lia. }
  destruct (H Ht) as [Hsent Hp]. split; [exact Hx|]. exists t. eexists. split; [exact Ht|].
  split; [exact Ho|]. split; [|exact Hsent].
  destruct (Hp _ payload Ho eq_refl) as (_ & i & k & request & res & body & Hsend & Hread & _ & Hw).
  injection Hsend as <-. assert (Ok [x03] = (Ok body : Result PbsError bytes)) as Hb.
  { rewrite <- Hread. reflexivity. }
  injection Hb as <-. exact (proj2 (Hw payload payload_written)).
Defined.
End WireSample.
