(* ===== verification/PbsService.v ===== *)
(** * Starting the PBS service

    Models [PbsService::run] of [crates/pbs/src/service.rs] with its check of the service's own
    status, [main] of [bin/pbs.rs], and the metrics server ([crates/metrics/src/provider.rs])
    that every service starts beside its own. *)

From stdpp Require Import pretty.
From S2P Require Import Prelude Bytes Text Chain Signature PbsTypes Http Relay Futures PbsConfig PbsState.
From S2P Require Import GetHeader SubmitBlock RegisterValidator SignerConfig Config Logging PbsRoutes.

(** ** The metrics server *)

(** the [Registry] is what gathering and encoding it gives *)
Record MetricsProvider := {
  mp_network : Chain;
  mp_server_port : Z;
  mp_registry : Result string bytes;
}.
Definition metrics_provider_new (network : Chain) (port : Z) (registry : Result string bytes)
    : MetricsProvider :=
  {| mp_network := network; mp_server_port := port; mp_registry := registry |}.
Definition from_registry {CE : ConfigEnv} (network : Chain) (registry : Result string bytes)
    : Result Report (option MetricsProvider) :=
  config ← metrics_load_from_env;
  Ok (option_map (λ port, metrics_provider_new network port registry) config).
(** [load_and_run]: the provider whose server is spawned, if one is configured *)
Definition load_and_run {CE : ConfigEnv} (network : Chain) (registry : Result string bytes)
    : Result Report (option MetricsProvider) :=
  from_registry network registry.

Inductive MetricsBody : Type := MetricsText (b : bytes) | MetricsEmpty.
Definition handle_metrics (registry : Result string bytes) : Z * MetricsBody :=
  match registry with
  | Ok buffer => (STATUS_OK, MetricsText buffer)
  | Err _ => (INTERNAL_SERVER_ERROR, MetricsEmpty)
  end.
(** the router of [run], where [bind] opens the port *)
Definition metrics_serve (self : MetricsProvider) (method : Method) (path : string) : option (Z * MetricsBody) :=
  match method with
  | GET => if String.eqb path "/metrics" then Some (handle_metrics (mp_registry self))
           else if String.eqb path "/status" then Some (STATUS_OK, MetricsEmpty)
           else None
  | _ => None
  end.

(** ** [PbsService::run] *)

Section Service.
Context {UL : UrlLib} {S : Type}.

(** what the start meets: whether the address can be bound, whether the request for its own
    status gets through, with which headers *)
Record StartEnv := {
  sn_bind : SocketAddr → Result Report ();
  sn_connect : Url → Result Report ();
  sn_headers : gmap string HeaderValue;
}.

(** a service that refused to start, or one that serves and has answered its own request *)
Inductive Start : Type :=
| Refused (e : Report)
| Serving (sv : Server S).

Definition socket_text (a : SocketAddr) : string := sa_ip a +:+ ":" +:+ pretty (sa_port a).
Definition status_url (a : SocketAddr) : string :=
  "http://" +:+ socket_text a +:+ BUILDER_V1_API_PATH +:+ GET_STATUS_PATH.

(** [sv] is the server when its own request arrives: it accepts others from the moment it is
    bound.  [None]: the request is not answered, and the start waits for it. *)
Definition pbs_service_run {Api : BuilderApi S} (env : StartEnv) (state : PbsState S) (sv : Server S)
    : option Start :=
  let addr := endpoint (config state) in
  match (_ ← sn_bind env addr; url ← map_err Message (url_parse (status_url addr)); sn_connect env url) with
  | Err e => Some (Refused e)
  | Ok _ =>
      let f := {| if_request := QGetStatus; if_headers := sn_headers env; if_snapshot := sv_state sv |} in
      match handle QGetStatus (sn_headers env) (sv_state sv) with
      | None => None
      | Some Panics => Some (Refused (Message "connection closed before message completed"))
      | Some (Returns (t, _)) =>
          let status := into_response (outcome t) in
          if is_success (an_status status) then
            Some (Serving {| sv_state := sv_state sv; sv_pending := sv_pending sv;
                             sv_answers := (f, status) :: sv_answers sv |})
          else Some (Refused (Message "PBS server failed to start. Are the relays properly configured?"))
      end
  end.
End Service.

(** [main] of [bin/pbs.rs]: the metrics server that is spawned and the state the service is
    started with *)
Definition pbs_main {CE : ConfigEnv} {CP : ConfigParsers} {CT : ConfigToml} {SR : SpecReader}
    {UL : UrlLib} {HL : HeaderLib} {HO : HashOrder string} {HOk : HashOrder bytes} {CL : CaseLib} {LL : LogLib}
    (ssv_fuel : nat) (registry : Result string bytes) : Call (Result Report (option MetricsProvider * PbsState ())) :=
  match logs_from_env_config with
  | Err e => Returns (Err e)
  | Ok logs =>
      call_bind (initialize_tracing_log PBS_MODULE_NAME logs) (λ _,
      Returns (pbs_config ← load_pbs_config ssv_fuel;
               metrics ← load_and_run (chain pbs_config) registry;
               let state := pbs_state_new pbs_config in
               Ok (metrics, state)))
  end.

(** ** A start is a run of the server *)

Section StartTheorems.
Context {CE : ConfigEnv} {CP : ConfigParsers} {CT : ConfigToml} {SR : SpecReader}.
Context {UL : UrlLib} {HL : HeaderLib} {HC : HeaderCorrect} {HO : HashOrder string} {HOk : HashOrder bytes}.
Context {TH : TreeHashLib} {BL : BlsLib} {HJ : HeaderJson}.
Context {MH : TreeHash ExecutionPayloadHeaderMessageElectra} {SJ : SubmitJson}.
Context {FL : FuturesLib} {FC : FuturesCorrect} {CL : CaseLib} {LL : LogLib}.

(** some relay of the state answers its status request with a success code *)
Definition some_relay_up {S} (env : ApiEnv) (hs : gmap string HeaderValue) (state : PbsState S) : Prop :=
  ∃ i relay url ua res, state_all_relays state !! i = Some relay ∧ get_status_url relay = Ok url ∧
    get_user_agent_with_version hs = Ok ua ∧
    ap_status env i (status_request url {[ USER_AGENT := ua ]}) = Ok res ∧
    is_success (res_status res) = true.

(** The answer to a status request, on a state that loaded *)
Lemma status_answered {S} fuel ssv_fuel env hs (state : PbsState S) :
  servable state →
  ∃ t, handle (Api := default_builder_api fuel ssv_fuel env) QGetStatus hs state = Some (Returns (t, None)) ∧
    (is_success (an_status (into_response (outcome t))) = true ↔
     relay_check (pbs_config state) = false ∨ some_relay_up env hs state).
Proof.
  intros (Hall & _). cbn [handle]. unfold handle_get_status, api_get_status, default_builder_api.
  destruct (get_status_spec hs state (ap_status env) (ap_status_progress env)) as (Hoff & _ & Hon).
  destruct (relay_check (pbs_config state)) eqn:Hcheck.
  - destruct (Hon eq_refl Hall) as (t & ua & Hget & Hua & Hiff). rewrite Hget. cbn [after].
    destruct (outcome t) as [[]|e]; cbn [keep]; (eexists; split; [reflexivity|]); cbn; split; try done.
    + intros _. right. destruct (proj1 Hiff eq_refl) as (i & relay & url & res & H).
      exists i, relay, url, ua, res. naive_solver.
    + intros [|(i & relay & url & ua' & res & ? & ? & Hua' & ?)]; [done|].
      rewrite Hua in Hua'. injection Hua' as <-. discriminate (proj2 Hiff ltac:(naive_solver)).
  - rewrite (Hoff eq_refl). eexists. split; [reflexivity|]. cbn. split; [by left|done].
Qed.

(** C14: The PBS binary either refuses to start or runs a server.  Once its configuration has
    loaded and its address is bound and reachable, the check of its own status is answered; the
    start succeeds exactly when the relay check is off or some relay of the configuration then
    in force answers, and the server that goes on is one that the step relation of the server
    reaches from the loaded configuration. *)
Theorem pbs_start_checked fuel ssv_fuel registry metrics state senv env sv url :
  pbs_main ssv_fuel registry = Returns (Ok (metrics, state)) →
  rtc (server_step default_run) (server_start state) sv →
  (∀ i j, 0 ≤ ae_elapsed_ms (se_relay (ap_submit env) i) j) →
  sn_bind senv (endpoint (config state)) = Ok () →
  url_parse (status_url (endpoint (config state))) = Ok url → sn_connect senv url = Ok () →
  ∃ start, pbs_service_run (Api := default_builder_api fuel ssv_fuel env) senv state sv = Some start ∧
    ((∃ sv', start = Serving sv') ↔
     relay_check (pbs_config (sv_state sv)) = false ∨ some_relay_up env (sn_headers senv) (sv_state sv)) ∧
    ∀ sv', start = Serving sv' → rtc (server_step default_run) (server_start state) sv'.
Proof.
  intros Hmain Hsteps Hclock Hbind Hurl Hconn.
  assert (servable state) as Hst.
  { unfold pbs_main in Hmain. destruct logs_from_env_config as [logs|]; [|done].
    destruct (initialize_tracing_log _ _); [|done]. apply Returns_inj in Hmain.
    apply result_bind_ok in Hmain as (c & Hc & Hmain). apply result_bind_ok in Hmain as (_ & _ & [= _ <-]).
    destruct (load_pbs_config_relays _ _ Hc) as (? & ? & _). by pose proof (load_pbs_config_valid _ _ Hc). }
  destruct (server_inv_reachable _ _ _ default_run_promises _ _ Hst Hsteps) as ([Hnow _] & _).
  destruct (status_answered fuel ssv_fuel env (sn_headers senv) _ Hnow) as (t & Hh & Hiff).
  unfold pbs_service_run.
  assert ((_ ← sn_bind senv (endpoint (config state));
           url ← map_err Message (url_parse (status_url (endpoint (config state)))); sn_connect senv url) = Ok ())
    as -> by (rewrite Hbind; simpl; by rewrite Hurl).
  rewrite Hh.
  destruct (is_success _); eexists; (split; [reflexivity|]); split.
  - rewrite <- Hiff. split; [done|by eexists].
  - intros sv' [= <-].
    set (f := {| if_request := QGetStatus; if_headers := sn_headers senv; if_snapshot := sv_state sv |}).
    set (sv1 := {| sv_state := sv_state sv; sv_pending := f :: sv_pending sv; sv_answers := sv_answers sv |}).
    apply (rtc_r _ sv1); [apply (rtc_r _ sv); [exact Hsteps|apply StartRequest]|].
    apply (FinishRequest default_run sv1 (default_builder_api fuel ssv_fuel env) [] f (sv_pending sv) t None);
      [|reflexivity|exact Hh].
    by exists CE, CP, CT, SR, fuel, ssv_fuel, env.
  - rewrite <- Hiff. split; [by intros [sv' [=]]|done].
  - done.
Qed.
End StartTheorems.

(** ** Concrete starts: relays that answer, and relays that do not *)
Module StartSample.
Import ConfigSample.
#[local] Existing Instances file_env plain_parsers sample_toml no_spec_reader plain_urls plain_headers
  plain_headers_correct sha256_tree_hash toy_bls HeaderSample.header_json HeaderSample.message_tree_hash
  SubmitSample.json in_order in_order_correct ascii_case plain_logs.

Definition start_env : StartEnv := {| sn_bind _ := Ok (); sn_connect _ := Ok (); sn_headers := ∅ |}.
Definition relays_answer (code : Z) : ApiEnv := {|
  ap_header := HeaderSample.env; ap_submit := SubmitSample.env; ap_register := RegisterSample.env;
  ap_status _ _ := Ok {| res_status := code; res_content_length := None; res_chunks := [] |};
  ap_status_progress _ := 0%nat |}.
Definition starts (code : Z) : option bool :=
  match pbs_main 0 (Ok []) with
  | Returns (Ok (_, state)) =>
      match pbs_service_run (Api := default_builder_api 16 0 (relays_answer code)) start_env state
              (server_start state) with
      | Some (Serving _) => Some true
      | Some (Refused _) => Some false
      | None => None
      end
  | _ => None
  end.

Example starts_with_relays : starts 200 = Some true ∧ starts 503 = Some false.
Proof. split; vm_compute; reflexivity. Qed.

Lemma pbs_start_checked_witness :
  ∃ metrics state sv', pbs_main 0 (Ok []) = Returns (Ok (metrics, state)) ∧
    pbs_service_run (Api := default_builder_api 16 0 (relays_answer 200)) start_env state (server_start state)
    = Some (Serving sv') ∧ rtc (server_step default_run) (server_start state) sv'.
Proof.
  assert (starts 200 = Some true) as Hs by (vm_compute; reflexivity). unfold starts in Hs.
  destruct (pbs_main 0 (Ok [])) as [[[metrics state]|e]|] eqn:E; [|discriminate Hs..].
  destruct (pbs_start_checked 16 0 (Ok []) metrics state start_env (relays_answer 200) (server_start state)
    (status_url (endpoint (config state)))) as (start & Hrun & _ & Hreach);
    [exact E|apply rtc_refl|intros i j; cbn; lia|reflexivity|reflexivity|reflexivity|].
  rewrite Hrun in Hs. destruct start as [e|sv']; [discriminate Hs|].
  exists metrics, state, sv'. split; [reflexivity|]. split; [exact Hrun|apply Hreach; reflexivity].
Defined.

(** the metrics server answers its two routes *)
Example metrics_routes :
  metrics_serve {| mp_network := Mainnet; mp_server_port := 10000; mp_registry := Ok [x61] |} GET "/metrics"
  = Some (200, MetricsText [x61]) ∧
  metrics_serve {| mp_network := Mainnet; mp_server_port := 10000; mp_registry := Err "gather"%string |} GET "/metrics"
  = Some (500, MetricsEmpty).
Proof. split; reflexivity. Qed.
End StartSample.
