(* ===== verification/Process.v ===== *)
(** * Around the services

    What the processes do beside their service: the clock readings and the wait for a signal
    of [crates/common/src/utils.rs], the [select!] at the end of [main] in [bin/pbs.rs] and
    [bin/signer.rs], and the middleware of [crates/pbs/src/routes/router.rs] that logs a
    request and notices one that is given up. *)

From S2P Require Import Prelude Bytes Text PbsConfig.

(** ** The clock

    [SystemTime::now().duration_since(UNIX_EPOCH)]: nanoseconds, or nothing when the clock is
    set before 1970.  [as u64] truncates. *)

Definition utcnow_sec (since_epoch : option Z) : Call Z :=
  call_bind (unwrap since_epoch) (λ ns, Returns (ns / 1000000000)).
Definition utcnow_ms (since_epoch : option Z) : Call Z :=
  call_bind (unwrap since_epoch) (λ ns, Returns (wrap64 (ns / 1000000))).
Definition utcnow_us (since_epoch : option Z) : Call Z :=
  call_bind (unwrap since_epoch) (λ ns, Returns (wrap64 (ns / 1000))).
Definition utcnow_ns (since_epoch : option Z) : Call Z :=
  call_bind (unwrap since_epoch) (λ ns, Returns (wrap64 ns)).

(** the first second the nanoseconds of which do not fit: in the year 2554 *)
Definition NANOS_OVERFLOW_SEC : Z := 18446744074.
(** Until then the four readings are of one instant, each exact in its unit *)
Lemma utcnow_agree ns :
  0 ≤ ns < u64_bound →
  ∃ s ms us, utcnow_sec (Some ns) = Returns s ∧ utcnow_ms (Some ns) = Returns ms ∧
    utcnow_us (Some ns) = Returns us ∧ utcnow_ns (Some ns) = Returns ns ∧
    ms / 1000 = s ∧ us / 1000 = ms ∧ ns / 1000 = us.
Proof.
  intros Hns. exists (ns / 1000000000), (ns / 1000000), (ns / 1000). unfold utcnow_ms, utcnow_us, utcnow_ns. simpl.
  rewrite !wrap64_id; [|done|split; [by apply Z.div_pos; lia|apply Z.div_lt_upper_bound; unfold u64_bound in *; lia]..].
  split_and!; try done; by rewrite Z.div_div by lia.
Qed.
(** And later the nanoseconds start again from zero while the seconds go on *)
Lemma utcnow_ns_wraps :
  utcnow_sec (Some u64_bound) = Returns (NANOS_OVERFLOW_SEC - 1) ∧ utcnow_ns (Some u64_bound) = Returns 0.
Proof. done. Qed.

(** ** Signals and the end of a binary *)

Inductive Signal : Type := SigInt | SigTerm.
(** the two listeners are set up or fail; then the first signal ends the wait *)
Definition wait_for_signal (sigint sigterm : Result Report ()) (s : Signal) : Result Report () :=
  _ ← sigint; _ ← sigterm; match s with SigInt => Ok () | SigTerm => Ok () end.

(** which branch of [select!] is taken *)
Inductive Stop : Type :=
| ServerEnded (r : Result Report ())
| Waited (r : Result Report ()).
Inductive Line : Type :=
| LogError (e : Report) (msg : string)
| LogInfo (msg : string)
| Stderr (e : Report) (msg : string).
(** the end of [main], with the message for a service that stopped *)
Definition main_select (stopped : string) (s : Stop) : list Line * Result Report () :=
  (match s with
   | ServerEnded (Err e) => [LogError e stopped; Stderr e stopped]
   | ServerEnded (Ok _) => []
   | Waited _ => [LogInfo "shutting down"]
   end, Ok ()).
Definition pbs_select : Stop → list Line * Result Report () := main_select "PBS service unexpectedly stopped".
Definition signer_select : Stop → list Line * Result Report () := main_select "signing server unexpectedly stopped".

(** However it ends, the process ends well: a service that stops with an error, or listeners
    for signals that cannot be set up, leave the exit status of a shutdown *)
Lemma main_exits_well stopped s : (main_select stopped s).2 = Ok ().
Proof. done. Qed.
Lemma main_error_printed stopped s e :
  Stderr e stopped ∈ (main_select stopped s).1 ↔ s = ServerEnded (Err e).
Proof.
  split; [|by intros ->; simpl; set_solver]. destruct s as [[[]|e']|r]; simpl.
  - intros H. by apply not_elem_of_nil in H.
  - intros H. apply elem_of_cons in H as [H|H%list_elem_of_singleton]; [done|]. by injection H as ->.
  - intros H%list_elem_of_singleton. done.
Qed.

(** ** The tracing middleware *)

Record RequestWatcher := { observed : bool }.
Definition watcher_new : RequestWatcher := {| observed := false |}.
Definition watcher_observe (_ : RequestWatcher) : RequestWatcher := {| observed := true |}.
(** [Drop] *)
Definition watcher_drop (w : RequestWatcher) : list string := if observed w then [] else ["client timed out"%string].

(** a handler runs to its end, or its task is dropped or unwound at an [await] *)
Inductive Life (A : Type) : Type := Finished (a : A) | GivenUp | Unwound.
Arguments Finished {A} a.
Arguments GivenUp {A}.
Arguments Unwound {A}.

(** what is logged, and the response if there is one; locals are dropped on every way out *)
Definition tracing_middleware {A} (next : Life A) : list string * Life A :=
  let watcher := watcher_new in
  match next with
  | Finished response => (["start request"; "end request"]%string ++ watcher_drop (watcher_observe watcher), Finished response)
  | GivenUp => (["start request"%string] ++ watcher_drop watcher, GivenUp)
  | Unwound => (["start request"%string] ++ watcher_drop watcher, Unwound)
  end.
(** The response passes unchanged, and the warning is logged exactly when there is none: also
    for a handler that panicked, although no client timed out *)
Lemma tracing_transparent {A} (next : Life A) :
  (tracing_middleware next).2 = next ∧
  ("client timed out"%string ∈ (tracing_middleware next).1 ↔ ∀ a, next ≠ Finished a).
Proof.
  split; [by destruct next|]. destruct next as [a| |]; simpl.
  - split; [|by intros H; destruct (H a)]. intros H. exfalso. revert H. apply (bool_decide_unpack _). reflexivity.
  - split; [done|]. intros _. right. left.
  - split; [done|]. intros _. right. left.
Qed.
