(* ===== verification/Metrics.v ===== *)
(** * The metrics of the PBS service

    Models [crates/pbs/src/metrics.rs]: the counters, gauges and the histogram that the calls of
    [mev_boost] and the handlers update.  In the other files an update is an effect; here
    [observe] is what it does to the registry.  The theorem says that the counter of the answers
    to the beacon node counts the answers the server gave, in every interleaving. *)

From stdpp Require Import pretty.
From S2P Require Import Prelude Bytes Text Jwt Chain Signature PbsTypes Http Relay SignerClient Futures PbsConfig PbsState.
From S2P Require Import GetHeader SubmitBlock RegisterValidator SignerConfig Config PbsRoutes.

(** ** The registry *)

(** the metrics by their labels; of a histogram, the number of observations *)
Record PbsMetrics := {
  RELAY_STATUS_CODE : gmap (string * string * string) Z;
  RELAY_LATENCY : gmap (string * string) Z;
  RELAY_LAST_SLOT : gmap string Z;
  RELAY_HEADER_VALUE : gmap string Z;
  BEACON_NODE_STATUS : gmap (string * string) Z;
}.
Definition no_metrics : PbsMetrics :=
  {| RELAY_STATUS_CODE := ∅; RELAY_LATENCY := ∅; RELAY_LAST_SLOT := ∅; RELAY_HEADER_VALUE := ∅;
     BEACON_NODE_STATUS := ∅ |}.

(** [with_label_values(..).inc()], on an [AtomicU64] *)
Definition counter_inc {K} `{Countable K} (labels : K) (m : gmap K Z) : gmap K Z :=
  <[labels := add64 (default 0 (m !! labels)) 1]> m.
Definition observe (e : Effect) (m : PbsMetrics) : PbsMetrics :=
  match e with
  | RelayStatusCode code endpoint relay_id =>
      {| RELAY_STATUS_CODE := counter_inc (code, endpoint, relay_id) (RELAY_STATUS_CODE m);
         RELAY_LATENCY := RELAY_LATENCY m; RELAY_LAST_SLOT := RELAY_LAST_SLOT m;
         RELAY_HEADER_VALUE := RELAY_HEADER_VALUE m; BEACON_NODE_STATUS := BEACON_NODE_STATUS m |}
  | RelayLatency endpoint relay_id =>
      {| RELAY_STATUS_CODE := RELAY_STATUS_CODE m;
         RELAY_LATENCY := counter_inc (endpoint, relay_id) (RELAY_LATENCY m);
         RELAY_LAST_SLOT := RELAY_LAST_SLOT m; RELAY_HEADER_VALUE := RELAY_HEADER_VALUE m;
         BEACON_NODE_STATUS := BEACON_NODE_STATUS m |}
  | RelayLastSlot relay_id slot =>
      {| RELAY_STATUS_CODE := RELAY_STATUS_CODE m; RELAY_LATENCY := RELAY_LATENCY m;
         RELAY_LAST_SLOT := <[relay_id := slot]> (RELAY_LAST_SLOT m);
         RELAY_HEADER_VALUE := RELAY_HEADER_VALUE m; BEACON_NODE_STATUS := BEACON_NODE_STATUS m |}
  | RelayHeaderValue relay_id gwei =>
      {| RELAY_STATUS_CODE := RELAY_STATUS_CODE m; RELAY_LATENCY := RELAY_LATENCY m;
         RELAY_LAST_SLOT := RELAY_LAST_SLOT m;
         RELAY_HEADER_VALUE := <[relay_id := gwei]> (RELAY_HEADER_VALUE m);
         BEACON_NODE_STATUS := BEACON_NODE_STATUS m |}
  | BeaconNodeStatus code endpoint =>
      {| RELAY_STATUS_CODE := RELAY_STATUS_CODE m; RELAY_LATENCY := RELAY_LATENCY m;
         RELAY_LAST_SLOT := RELAY_LAST_SLOT m; RELAY_HEADER_VALUE := RELAY_HEADER_VALUE m;
         BEACON_NODE_STATUS := counter_inc (code, endpoint) (BEACON_NODE_STATUS m) |}
  | Sent _ _ | Slept _ | Published _ _ => m
  end.

(** an effect that is not an answer to the beacon node *)
Definition internal (e : Effect) : bool :=
  match e with BeaconNodeStatus _ _ => false | _ => true end.
Definition observe_all (l : list Effect) (m : PbsMetrics) : PbsMetrics := foldl (λ m e, observe e m) m l.

Lemma observe_internal e m : internal e = true → BEACON_NODE_STATUS (observe e m) = BEACON_NODE_STATUS m.
Proof. by destruct e. Qed.
Lemma observe_all_internal l m :
  Forall (λ e, internal e = true) l → BEACON_NODE_STATUS (observe_all l m) = BEACON_NODE_STATUS m.
Proof.
  intros Hl. revert m. induction Hl as [|e l He Hl IH]; intros m; [done|].
  unfold observe_all in *. simpl. by rewrite IH, observe_internal.
Qed.

(** ** The methods of the API do not count answers *)

(** an API whose methods only have internal effects *)
Class ApiQuiet {S} (Api : BuilderApi S) := {
  quiet_get_header params hs st t :
    api_get_header params hs st = Some (Returns t) → traced_all (λ e, internal e = true) t;
  quiet_get_status hs st t :
    api_get_status hs st = Some (Returns t) → traced_all (λ e, internal e = true) t;
  quiet_submit_block block hs st v t :
    api_submit_block block hs st v = Some (Returns t) → traced_all (λ e, internal e = true) t;
  quiet_register_validator regs hs st t :
    api_register_validator regs hs st = Some (Returns t) → traced_all (λ e, internal e = true) t;
}.

Section Quiet.
Context {TH : TreeHashLib} {BL : BlsLib} {UL : UrlLib} {HL : HeaderLib} {HO : HashOrder string}.
Context {HJ : HeaderJson} {MH : TreeHash ExecutionPayloadHeaderMessageElectra} {SJ : SubmitJson}.
Context {FL : FuturesLib} {S : Type}.
Notation quiet := (traced_all (λ e, internal e = true)) (only parsing).

Lemma mapM_id_all {A} (P : A → Prop) (l : list (option A)) rs :
  mapM id l = Some rs → (∀ r, Some r ∈ l → P r) → Forall P rs.
Proof.
  intros H%mapM_Some Hl. apply Forall_lookup. intros i r Hi.
  destruct (Forall2_lookup_r _ _ _ _ _ H Hi) as (o & Ho & E). apply Hl.
  change (o = Some r) in E. subst o. by eapply list_elem_of_lookup_2.
Qed.
Lemma bind_effects_quiet {E A} (rs : list (Traced Effect E A)) :
  Forall quiet rs → Forall (λ e, internal e = true) (rs ≫= effects).
Proof. induction 1 as [|r rs Hr _ IH]; simpl; [done|]. by apply Forall_app. Qed.
Lemma partial_effects_quiet {A} progress (rs : list (Relayed A)) :
  Forall quiet rs → Forall (λ e, internal e = true) (partial_effects progress rs).
Proof.
  intros H. unfold partial_effects. apply Forall_concat, Forall_lookup. intros i l.
  rewrite list_lookup_imap. intros (r & Hr & ->)%fmap_Some. apply Forall_take.
  by apply (Forall_lookup_1 _ _ _ _ H Hr).
Qed.

Lemma send_one_quiet params relay chain rc v now send :
  quiet (send_one_get_header params relay chain rc v now send).
Proof. unfold send_one_get_header. traced_each done. Qed.
Lemma send_submit_quiet url block relay hs timeout v send :
  quiet (send_submit_block url block relay hs timeout v send).
Proof. unfold send_submit_block. traced_each done. Qed.
Lemma send_register_quiet url regs relay hs timeout send :
  quiet (send_register_validator url regs relay hs timeout send).
Proof. unfold send_register_validator. traced_each done. Qed.
Lemma send_check_quiet relay hs send : quiet (send_relay_check relay hs send).
Proof. unfold send_relay_check. traced_each done. Qed.

Lemma send_timed_quiet fuel params relay chain hs ms left validation env r :
  send_timed_get_header fuel params relay chain hs ms left validation env = Some r → quiet r.
Proof.
  unfold send_timed_get_header. destruct (get_header_url _ _ _ _) as [url|e]; [|intros [= <-]; constructor].
  repeat case_match; try (intros <-%(inj Some); apply traced_all_fmap, send_one_quiet).
  all: destruct (tg_timeouts _ _ _) as [ts|]; [|done]; intros [= <-]; unfold traced_all; cbn [effects].
  all: apply bind_effects_quiet, Forall_lookup; intros k r'; rewrite list_lookup_imap.
  all: intros (t & _ & ->)%fmap_Some; apply send_one_quiet.
Qed.
Lemma submit_loop_quiet fuel url block relay hs timeout v env left retry backoff r :
  submit_loop fuel url block relay hs timeout v env left retry backoff = Some r → quiet r.
Proof.
  revert left retry backoff r. induction fuel as [|fuel IH]; intros left retry backoff r; [done|].
  cbn [submit_loop]. pose proof (send_submit_quiet url block relay hs left v (ae_send env retry)) as Hs.
  unfold traced_all in *. set (res := send_submit_block _ _ _ _ _ _ _) in *. clearbody res. cbn zeta.
  repeat case_match; intros Hr; simplify_eq; try done; cbn [effects].
  - apply Forall_app. split; [done|by repeat constructor].
  - destruct (submit_loop _ _ _ _ _ _ _ _ _ _ _) as [rest|] eqn:E; [|done]. simplify_eq/=.
    apply Forall_app. split; [done|]. constructor; [done|]. by eapply IH.
Qed.
Lemma register_loop_quiet fuel url regs relay hs timeout limit env left retry backoff r :
  register_loop fuel url regs relay hs timeout limit env left retry backoff = Some r → quiet r.
Proof.
  revert left retry backoff r. induction fuel as [|fuel IH]; intros left retry backoff r; [done|].
  cbn [register_loop]. pose proof (send_register_quiet url regs relay hs left (ae_send env retry)) as Hs.
  unfold traced_all in *. set (res := send_register_validator _ _ _ _ _ _) in *. clearbody res. cbn zeta.
  repeat case_match; intros Hr; simplify_eq; try done; cbn [effects].
  - apply Forall_app. split; [done|by repeat constructor].
  - destruct (register_loop _ _ _ _ _ _ _ _ _ _ _) as [rest|] eqn:E; [|done]. simplify_eq/=.
    apply Forall_app. split; [done|]. constructor; [done|]. by eapply IH.
Qed.

Lemma relay_results_quiet fuel params hs (state : PbsState S) env rs :
  relay_results fuel params hs state env = Some rs → Forall quiet rs.
Proof.
  unfold relay_results. intros H. apply (mapM_id_all _ _ _ H). intros r Hr.
  apply list_elem_of_lookup_1 in Hr as [i Hi]. rewrite list_lookup_imap in Hi.
  apply fmap_Some in Hi as (relay & _ & E). symmetry in E. by apply send_timed_quiet in E.
Qed.
Lemma submit_results_quiet fuel block hs (state : PbsState S) v env rs :
  submit_results fuel block hs state v env = Some rs → Forall quiet rs.
Proof.
  unfold submit_results. intros H. apply (mapM_id_all _ _ _ H). intros r Hr.
  apply list_elem_of_lookup_1 in Hr as [i Hi]. rewrite list_lookup_imap in Hi.
  apply fmap_Some in Hi as (relay & _ & E). unfold submit_block_with_timeout in E.
  destruct (submit_block_url _ _); [by eapply submit_loop_quiet|]. injection E as ->. constructor.
Qed.
Lemma register_results_quiet fuel hs (state : PbsState S) env tasks rs :
  register_results fuel hs state env tasks = Some rs → Forall quiet rs.
Proof.
  unfold register_results. intros H. apply (mapM_id_all _ _ _ H). intros r Hr.
  apply list_elem_of_lookup_1 in Hr as [i Hi]. rewrite list_lookup_imap in Hi.
  apply fmap_Some in Hi as ([relay batch] & _ & E). unfold send_register_validator_with_timeout in E.
  destruct (register_validator_url _); [by eapply register_loop_quiet|]. injection E as ->. constructor.
Qed.

Lemma get_header_quiet fuel params hs (state : PbsState S) env t :
  get_header fuel params hs state env = Some t → quiet t.
Proof.
  unfold get_header. destruct (_ =? 0); [intros [= <-]; constructor|].
  destruct (get_user_agent_with_version hs); [|intros [= <-]; constructor].
  destruct (relay_results _ _ _ _ _) as [rs|] eqn:E; [|done]. intros [= <-]. unfold traced_all. cbn [effects].
  apply Forall_app. split; [by eapply bind_effects_quiet, relay_results_quiet|].
  apply Forall_forall. intros e ([relay res] & He & _)%list_elem_of_bind.
  unfold bid_metrics in He. destruct (outcome res) as [[bid|]|]; set_unfold; naive_solver.
Qed.
Lemma get_status_quiet hs (state : PbsState S) send progress t :
  get_status hs state send progress = Returns t → quiet t.
Proof.
  unfold get_status. destruct (negb _); [intros [= <-]; constructor|].
  destruct (get_user_agent_with_version hs) as [ua|]; [|intros [= <-]; constructor]. cbn zeta.
  destruct (select_ok _); [|done]. intros [= <-]. apply partial_effects_quiet, Forall_lookup.
  intros i r. rewrite list_lookup_imap. intros (relay & _ & ->)%fmap_Some. apply send_check_quiet.
Qed.
Lemma submit_block_quiet fuel block hs (state : PbsState S) v env t :
  submit_block fuel block hs state v env = Some (Returns t) → quiet t.
Proof.
  unfold submit_block. destruct (get_user_agent_with_version hs) as [ua|]; [|intros [= <-]; constructor].
  cbn zeta. destruct (submit_results _ _ _ _ _ _) as [rs|] eqn:E; [|done]. simpl.
  destruct (select_ok _); [|done]. intros [= <-]. by eapply partial_effects_quiet, submit_results_quiet.
Qed.
Lemma register_validator_quiet fuel regs hs (state : PbsState S) env t :
  register_validator fuel regs hs state env = Some (Returns t) → quiet t.
Proof.
  unfold register_validator. destruct (header_value_from_str _); [|intros [= <-]; constructor].
  destruct (get_user_agent_with_version hs) as [ua|]; [|intros [= <-]; constructor]. cbn zeta.
  destruct (register_tasks _ _) as [tasks|]; [|done].
  destruct (register_results _ _ _ _ _) as [rs|] eqn:E; [|done]. simpl.
  repeat case_match; intros Ht; simplify_eq; by eapply bind_effects_quiet, register_results_quiet.
Qed.

#[export] Instance default_api_quiet {CE : ConfigEnv} {CP : ConfigParsers} {CT : ConfigToml} {SR : SpecReader}
    {HOk : HashOrder bytes} fuel ssv_fuel env :
  ApiQuiet (default_builder_api (S := S) fuel ssv_fuel env).
Proof.
  split; cbn [default_builder_api api_get_header api_get_status api_submit_block api_register_validator].
  - intros params hs st t H. apply fmap_Some in H as (t' & H & [= ->]). by apply get_header_quiet in H.
  - intros hs st t [= H]. by apply get_status_quiet in H.
  - intros block hs st v t H. by apply submit_block_quiet in H.
  - intros regs hs st t H. by apply register_validator_quiet in H.
Qed.
End Quiet.

(** ** What a handler counts *)

(** a trace that is internal but for one answer, with the status code that is sent *)
Definition counts_once (q : PbsRequest) (t : Traced Effect PbsClientError Answer) : Prop :=
  filter (λ e, internal e = false) (effects t)
  = [BeaconNodeStatus (status_str (an_status (into_response (outcome t)))) (request_tag q)].

Lemma filter_internal l : Forall (λ e, internal e = true) l → filter (λ e, internal e = false) l = [].
Proof. induction 1 as [|e l He _ IH]; [done|]. rewrite filter_cons_False; [done|congruence]. Qed.

Section Counts.
Context {S : Type}.

Lemma publish_internal (st : PbsState S) e : Forall (λ e, internal e = true) (publish_event st e).
Proof.
  unfold publish_event. destruct (event_publisher (config st)); [|constructor].
  unfold publish. apply Forall_fmap. by apply Forall_true.
Qed.

Lemma after_counts {E A} q before (call : Method_ E A) k t :
  Forall (λ e, internal e = true) before →
  (∀ r, call = Some (Returns r) → traced_all (λ e, internal e = true) r) →
  (∀ r, ∃ effs, Forall (λ e, internal e = true) effs ∧
     (k r).1 = effs ++ [BeaconNodeStatus (status_str (an_status (into_response (k r).2))) (request_tag q)]) →
  after before call k = Some (Returns t) → counts_once q t.
Proof.
  intros Hb Hcall Hk (r & Hr & He & Ho)%after_returns. unfold counts_once. rewrite He, Ho, !filter_app.
  destruct (Hk (outcome r)) as (effs & Hi & ->). rewrite filter_app.
  rewrite (filter_internal before), (filter_internal effs), (filter_internal (effects r)) by (done || by apply Hcall).
  done.
Qed.

(** the effects of a handler after its call: events, then the status *)
Ltac events_then_status :=
  destruct status_codes as (H200 & H204 & H202); cbn [fst snd into_response an_status request_tag];
  rewrite ?H200, ?H204, ?H202; cbn [client_error_response an_status]; unfold beacon_node_status;
  first [by eexists; split; [apply publish_internal|] | by exists []].

Lemma handle_counts {Api : BuilderApi S} {AQ : ApiQuiet Api} q hs (st : PbsState S) t w :
  handle q hs st = Some (Returns (t, w)) → counts_once q t.
Proof.
  destruct q as [params| |regs|[] block|]; cbn [handle]; intros H;
    try (apply keep_returns in H as [H _];
         eapply after_counts; [..|exact H]; [apply publish_internal| |
           intros r; cbv beta; destruct r as [r|]; try destruct r; events_then_status]).
  - intros r. apply quiet_get_header.
  - intros r. apply quiet_get_status.
  - intros r. apply quiet_register_validator.
  - intros r. apply quiet_submit_block.
  - intros r. apply quiet_submit_block.
  - unfold handle_reload in H. destruct (api_reload st) as [st'|e]; injection H as <- <-; unfold counts_once;
      cbn [effects outcome into_response an_status request_tag]; unfold beacon_node_status;
      rewrite ?filter_app, !(filter_internal (publish_event _ _)) by apply publish_internal;
      cbn [app]; by rewrite ?(proj1 status_codes).
Qed.
End Counts.

(** ** The server with its metrics *)

Section Metered.
Context {S : Type} (api_run : BuilderApi S → Prop).

Record Metered := { me_server : Server S; me_metrics : PbsMetrics }.

(** Requests in progress update the metrics of relays at any time; the answer is counted by
    the last effect of the handler. *)
Inductive metered_step : Metered → Metered → Prop :=
| MeterRelay m e :
    internal e = true →
    metered_step m {| me_server := me_server m; me_metrics := observe e (me_metrics m) |}
| MeterStart m q hs :
    metered_step m {| me_server := start_request (me_server m) q hs; me_metrics := me_metrics m |}
| MeterFinish m (Api : BuilderApi S) p1 f p2 t written :
    api_run Api →
    sv_pending (me_server m) = p1 ++ f :: p2 →
    handle (Api := Api) (if_request f) (if_headers f) (if_snapshot f) = Some (Returns (t, written)) →
    metered_step m {|
      me_server := {| sv_state := default (sv_state (me_server m)) written; sv_pending := p1 ++ p2;
                      sv_answers := (f, into_response (outcome t)) :: sv_answers (me_server m) |};
      me_metrics := observe_all (filter (λ e, internal e = false) (effects t)) (me_metrics m) |}
| MeterPanic m (Api : BuilderApi S) p1 f p2 :
    api_run Api →
    sv_pending (me_server m) = p1 ++ f :: p2 →
    handle (Api := Api) (if_request f) (if_headers f) (if_snapshot f) = Some Panics →
    metered_step m {|
      me_server := {| sv_state := sv_state (me_server m); sv_pending := p1 ++ p2;
                      sv_answers := sv_answers (me_server m) |};
      me_metrics := me_metrics m |}.

Definition metered_start (st : PbsState S) : Metered :=
  {| me_server := server_start st; me_metrics := no_metrics |}.

(** the answers with a status code at an endpoint *)
Definition answers_with (code endpoint : string) (answers : list (InFlight S * Answer)) : list (InFlight S * Answer) :=
  filter (λ fa, status_str (an_status fa.2) = code ∧ request_tag (if_request fa.1) = endpoint) answers.
Definition answered_count (code endpoint : string) (m : Metered) : Z :=
  Z.of_nat (length (answers_with code endpoint (sv_answers (me_server m)))).

Hypothesis run_quiet : ∀ Api, api_run Api → ApiQuiet Api.

Lemma metered_step_counts m m' code endpoint :
  metered_step m m' →
  default 0 (BEACON_NODE_STATUS (me_metrics m) !! (code, endpoint)) = wrap64 (answered_count code endpoint m) →
  default 0 (BEACON_NODE_STATUS (me_metrics m') !! (code, endpoint)) = wrap64 (answered_count code endpoint m').
Proof.
  intros Hstep Hm. destruct Hstep as [m e He|m q hs|m Api p1 f p2 t w Hrun Hp Hh|m Api p1 f p2 Hrun Hp Hh];
    try done; cbn [me_metrics].
  { by rewrite observe_internal. }
  pose proof (run_quiet Api Hrun) as AQ. rewrite (handle_counts _ _ _ _ _ Hh).
  unfold answered_count, answers_with in *. cbn [me_server sv_answers observe_all foldl observe BEACON_NODE_STATUS].
  unfold counter_inc. set (code' := status_str _). set (tag := request_tag _).
  destruct (decide (code' = code ∧ tag = endpoint)) as [[<- <-]|Hne].
  - rewrite lookup_insert_eq, filter_cons_True by done. simpl. rewrite Hm. unfold add64, wrap64.
    rewrite Z.add_mod_idemp_l by done. f_equal. lia.
  - rewrite lookup_insert_ne by naive_solver. by rewrite filter_cons_False.
Qed.
Lemma metered_step_server m m' :
  metered_step m m' → rtc (server_step api_run) (me_server m) (me_server m').
Proof.
  intros [| |? ? ? ? ? ? ? ? ? ?|? ? ? ? ? ? ? ?]; [apply rtc_refl|apply rtc_once..].
  - constructor.
  - by eapply FinishRequest.
  - by eapply PanicRequest.
Qed.

Lemma metered_reachable st0 m :
  rtc metered_step (metered_start st0) m →
  rtc (server_step api_run) (server_start st0) (me_server m) ∧
  ∀ code endpoint, default 0 (BEACON_NODE_STATUS (me_metrics m) !! (code, endpoint))
                   = wrap64 (answered_count code endpoint m).
Proof.
  revert m. apply rtc_ind_r; [split; [apply rtc_refl|done]|]. intros m m' _ Hstep [Hrun Hcount]. split.
  - etrans; [exact Hrun|by apply metered_step_server].
  - intros code endpoint. by eapply metered_step_counts.
Qed.
End Metered.

Section DefaultMetrics.
Context {UL : UrlLib} {HL : HeaderLib} {HO : HashOrder string} {HOk : HashOrder bytes}.
Context {TH : TreeHashLib} {BL : BlsLib} {HJ : HeaderJson}.
Context {MH : TreeHash ExecutionPayloadHeaderMessageElectra} {SJ : SubmitJson} {FL : FuturesLib} {S : Type}.

Lemma default_run_quiet (Api : BuilderApi S) : default_run Api → ApiQuiet Api.
Proof. intros (CE & CP & CT & SR & fuel & ssv_fuel & env & _ & ->). apply default_api_quiet. Qed.

(** C26: The metrics tell the truth.  However requests, reloads and the updates of the relay metrics
    interleave, for every status code and endpoint the counter [BEACON_NODE_STATUS] is, modulo
    2^64, the number of answers with that code that the server gave at that endpoint; a request
    whose handler panicked is not counted, and neither is one still in progress.  The server
    itself runs as it does without its metrics. *)
Theorem answers_counted (st0 : PbsState S) m :
  rtc (metered_step default_run) (metered_start st0) m →
  rtc (server_step default_run) (server_start st0) (me_server m) ∧
  ∀ code endpoint, default 0 (BEACON_NODE_STATUS (me_metrics m) !! (code, endpoint))
                   = wrap64 (answered_count code endpoint m).
Proof. apply (metered_reachable default_run default_run_quiet). Qed.
End DefaultMetrics.

(** ** Concrete metrics: a reload that is answered while a submission is pending *)
Module MetricsSample.
Import ConfigSample ServerSample.
#[local] Existing Instances file_env plain_parsers sample_toml no_spec_reader plain_urls plain_headers
  sha256_tree_hash toy_bls HeaderSample.header_json HeaderSample.message_tree_hash
  SubmitSample.json in_order in_order_correct.

Definition metered_reload : Metered (S := ()) := {|
  me_server := after_reload;
  me_metrics := observe_all (filter (λ e, internal e = false)
                               (effects (handle_reload (Api := api) SubmitSample.state).1)) no_metrics |}.

Lemma metered_reload_reachable :
  rtc (metered_step default_run) (metered_start SubmitSample.state) metered_reload.
Proof.
  eapply rtc_l; [apply (MeterStart _ _ (QSubmitBlock V1 SubmitSample.block) ∅)|].
  eapply rtc_l; [apply (MeterStart _ _ QReload ∅)|].
  apply (rtc_l _ {| me_server := started; me_metrics := no_metrics |} metered_reload); [|apply rtc_refl].
  apply (MeterFinish default_run {| me_server := started; me_metrics := no_metrics |} api [] reloading [submission]
    (handle_reload (Api := api) SubmitSample.state).1 (handle_reload (Api := api) SubmitSample.state).2).
  - apply ServerSample.api_runs.
  - reflexivity.
  - change (Some (Returns (handle_reload (Api := api) SubmitSample.state)) =
      Some (Returns ((handle_reload (Api := api) SubmitSample.state).1,
                     (handle_reload (Api := api) SubmitSample.state).2))).
    by rewrite <- surjective_pairing.
Qed.

Lemma answers_counted_witness :
  answered_count "200" "reload" metered_reload = 1 ∧
  default 0 (BEACON_NODE_STATUS (me_metrics metered_reload) !! ("200", "reload")%string) = 1.
Proof.
  assert (answered_count "200" "reload" metered_reload = 1) as H1 by (vm_compute; reflexivity).
  split; [exact H1|].
  destruct (answers_counted SubmitSample.state metered_reload metered_reload_reachable) as [_ Hcount].
  rewrite Hcount, H1. reflexivity.
Defined.
End MetricsSample.
