(* ===== verification/LocalManager.v ===== *)
(** * The local signing manager

    Models [crates/signer/src/manager/local.rs], the proxy signers of
    [crates/common/src/signer/types.rs] and the errors of [crates/signer/src/error.rs].
    The manager owns its maps, so an operation maps a manager to the manager it leaves
    behind.  Random keys are arguments; what the manager asks of the proxy store is the
    class [ProxyStoreOps].  BLS and ECDSA proxies differ only in their key type, so proxies
    are indexed by their [EncryptionScheme], as delegations are. *)

From S2P Require Import Prelude Bytes Text Jwt Chain Signature Http Relay Commit PbsConfig.
From S2P Require Import SignerConfig.

(** ** Errors *)

Inductive SignerModuleError {EC : EcdsaLib} : Type :=
| Unauthorized
| SignerError (e : EcdsaError)
| UnknownConsensusSigner (pubkey : bytes)
| UnknownProxySigner (proxy : bytes)
| DirkCommunicationError (msg : string)
| DirkNotSupported
| ModuleIdNotFound
| SignerInternal (msg : string)
| RateLimited (remaining_ns : Z)
| RequestError (msg : string).

(** the status codes of [impl IntoResponse for SignerModuleError] *)
Definition signer_error_status {EC : EcdsaLib} (e : SignerModuleError) : Z :=
  match e with
  | Unauthorized => 401
  | UnknownConsensusSigner _ => 404
  | UnknownProxySigner _ => 404
  | DirkCommunicationError _ => 502
  | DirkNotSupported => 400
  | SignerInternal _ => 500
  | SignerError _ => 400
  | ModuleIdNotFound => 404
  | RateLimited _ => 429
  | RequestError _ => 400
  end.

(** ** Data *)

Section Manager.
Context {TH : TreeHashLib} {BL : BlsLib} {EC : EcdsaLib}.

(** the key type behind a scheme, and the identity it signs as *)
Definition scheme_signer (S : EncryptionScheme) : Type :=
  match S with Bls => BlsSigner | Ecdsa => EcdsaSigner end.
Definition signer_id {S} : scheme_signer S → bytes :=
  match S with Bls => bls_signer_pubkey | Ecdsa => ecdsa_signer_address end.

(** [BlsProxySigner] and [EcdsaProxySigner] *)
Record ProxySigner (S : EncryptionScheme) := {
  px_signer : scheme_signer S; px_delegation : SignedProxyDelegation S;
}.
Arguments px_signer {S} _.
Arguments px_delegation {S} _.
Definition proxy_id {S} (p : ProxySigner S) : bytes := signer_id (px_signer p).

Record ProxySigners := {
  bls_signers : gmap bytes (ProxySigner Bls); ecdsa_signers : gmap bytes (ProxySigner Ecdsa);
}.
Definition no_proxies : ProxySigners := {| bls_signers := ∅; ecdsa_signers := ∅ |}.

Record LocalSigningManager := {
  lm_chain : Chain;
  lm_proxy_store : option ProxyStore;
  consensus_signers : gmap bytes BlsSigner;
  proxy_signers : ProxySigners;
  proxy_pubkeys_bls : gmap string (list BlsPublicKey);
  proxy_addresses_ecdsa : gmap string (list Address);
}.

(** the two halves of the proxy maps *)
Definition signers_of (m : LocalSigningManager) (S : EncryptionScheme) : gmap bytes (ProxySigner S) :=
  match S with Bls => bls_signers (proxy_signers m) | Ecdsa => ecdsa_signers (proxy_signers m) end.
Definition keys_of (m : LocalSigningManager) (S : EncryptionScheme) : gmap string (list bytes) :=
  match S with Bls => proxy_pubkeys_bls m | Ecdsa => proxy_addresses_ecdsa m end.

(** What the manager asks of the store, on the file system it writes to. *)
Class ProxyStoreOps := {
  Disk : Type;
  store_proxy : ∀ S, ProxyStore → ModuleId → ProxySigner S → Disk → Disk * Result Report ();
  load_proxies : ProxyStore → Disk →
    Result Report (ProxySigners * gmap string (list BlsPublicKey) * gmap string (list Address));
}.

(** ** Operations *)

Context {PS : ProxyStoreOps}.

Definition local_manager_new (chain : Chain) (proxy_store : option ProxyStore) (disk : Disk)
    : Result Report LocalSigningManager :=
  let manager := {| lm_chain := chain; lm_proxy_store := proxy_store; consensus_signers := ∅;
                    proxy_signers := no_proxies; proxy_pubkeys_bls := ∅;
                    proxy_addresses_ecdsa := ∅ |} in
  match proxy_store with
  | Some store =>
      '(proxies, bls, ecdsa) ← load_proxies store disk;
      Ok {| lm_chain := chain; lm_proxy_store := proxy_store; consensus_signers := ∅;
            proxy_signers := proxies; proxy_pubkeys_bls := bls; proxy_addresses_ecdsa := ecdsa |}
  | None => Ok manager
  end.

Definition add_consensus_signer (m : LocalSigningManager) (signer : BlsSigner)
    : LocalSigningManager :=
  {| lm_chain := lm_chain m; lm_proxy_store := lm_proxy_store m;
     consensus_signers := <[bls_signer_pubkey signer := signer]> (consensus_signers m);
     proxy_signers := proxy_signers m; proxy_pubkeys_bls := proxy_pubkeys_bls m;
     proxy_addresses_ecdsa := proxy_addresses_ecdsa m |}.

(** [map.entry(module_id).or_default().push(key)] *)
Definition push_key (keys : gmap string (list bytes)) (module_id : ModuleId) (key : bytes)
    : gmap string (list bytes) :=
  <[module_id := default [] (keys !! module_id) ++ [key]]> keys.

(** the writes to the maps of [add_proxy_signer_bls] and [add_proxy_signer_ecdsa] *)
Definition insert_proxy {S} (m : LocalSigningManager) (proxy : ProxySigner S) (module_id : ModuleId)
    : LocalSigningManager :=
  match S return ProxySigner S → LocalSigningManager with
  | Bls => λ proxy,
      {| lm_chain := lm_chain m; lm_proxy_store := lm_proxy_store m;
         consensus_signers := consensus_signers m;
         proxy_signers := {| bls_signers := <[proxy_id proxy := proxy]> (bls_signers (proxy_signers m));
                             ecdsa_signers := ecdsa_signers (proxy_signers m) |};
         proxy_pubkeys_bls := push_key (proxy_pubkeys_bls m) module_id (proxy_id proxy);
         proxy_addresses_ecdsa := proxy_addresses_ecdsa m |}
  | Ecdsa => λ proxy,
      {| lm_chain := lm_chain m; lm_proxy_store := lm_proxy_store m;
         consensus_signers := consensus_signers m;
         proxy_signers := {| bls_signers := bls_signers (proxy_signers m);
                             ecdsa_signers :=
                               <[proxy_id proxy := proxy]> (ecdsa_signers (proxy_signers m)) |};
         proxy_pubkeys_bls := proxy_pubkeys_bls m;
         proxy_addresses_ecdsa := push_key (proxy_addresses_ecdsa m) module_id (proxy_id proxy) |}
  end proxy.

(** [add_proxy_signer_bls] and [add_proxy_signer_ecdsa]: the proxy is stored first, and
    the maps change only if that succeeded *)
Definition add_proxy_signer {S} (m : LocalSigningManager) (disk : Disk) (proxy : ProxySigner S)
    (module_id : ModuleId) : LocalSigningManager * Disk * Result Report () :=
  match lm_proxy_store m with
  | Some store =>
      match store_proxy S store module_id proxy disk with
      | (disk, Ok _) => (insert_proxy m proxy module_id, disk, Ok ())
      | (disk, Err e) => (m, disk, Err e)
      end
  | None => (insert_proxy m proxy module_id, disk, Ok ())
  end.

Definition sign_consensus (m : LocalSigningManager) (pubkey : BlsPublicKey) (object_root : B256)
    (module_signing_id : option B256) : Result SignerModuleError BlsSignature :=
  signer ← ok_or (consensus_signers m !! pubkey) (UnknownConsensusSigner pubkey);
  Ok (bls_signer_sign signer (lm_chain m) object_root module_signing_id).

Definition sign_proxy_bls (m : LocalSigningManager) (pubkey : BlsPublicKey) (object_root : B256)
    (module_signing_id : option B256) : Result SignerModuleError BlsSignature :=
  bls_proxy ← ok_or (bls_signers (proxy_signers m) !! pubkey) (UnknownProxySigner pubkey);
  Ok (bls_signer_sign (px_signer (S := Bls) bls_proxy) (lm_chain m) object_root module_signing_id).

Definition sign_proxy_ecdsa (m : LocalSigningManager) (address : Address) (object_root : B256)
    (module_signing_id : option B256) : Result SignerModuleError EcdsaSignature :=
  ecdsa_proxy ← ok_or (ecdsa_signers (proxy_signers m) !! address) (UnknownProxySigner address);
  map_err SignerError
    (ecdsa_signer_sign (px_signer (S := Ecdsa) ecdsa_proxy) (lm_chain m) object_root module_signing_id).

(** [create_proxy_bls] and [create_proxy_ecdsa]; [signer] is the random key *)
Definition create_proxy {S} (m : LocalSigningManager) (disk : Disk) (signer : scheme_signer S)
    (module_id : ModuleId) (delegator : BlsPublicKey)
    : LocalSigningManager * Disk * Result SignerModuleError (SignedProxyDelegation S) :=
  let message := {| delegator := delegator; proxy := signer_id signer |} : ProxyDelegation S in
  match sign_consensus m delegator (tree_hash_root message) None with
  | Err e => (m, disk, Err e)
  | Ok signature =>
      let delegation := {| spd_signature := signature; spd_message := message |} in
      let proxy_signer := {| px_signer := signer; px_delegation := delegation |} in
      match add_proxy_signer m disk proxy_signer module_id with
      | (m, disk, Ok _) => (m, disk, Ok delegation)
      | (m, disk, Err _) => (m, disk, Err (SignerInternal "failed to store proxy"))
      end
  end.
Definition create_proxy_bls := create_proxy (S := Bls).
Definition create_proxy_ecdsa := create_proxy (S := Ecdsa).

Context {HO : HashOrder bytes}.

Definition consensus_pubkeys (m : LocalSigningManager) : list BlsPublicKey :=
  hash_keys (consensus_signers m).
Definition has_consensus (m : LocalSigningManager) (pubkey : BlsPublicKey) : bool :=
  bool_decide (is_Some (consensus_signers m !! pubkey)).
(** [has_proxy_bls_for_module] and [has_proxy_ecdsa_for_module] *)
Definition has_proxy_for_module (S : EncryptionScheme) (m : LocalSigningManager) (key : bytes)
    (module_id : ModuleId) : bool :=
  match keys_of m S !! module_id with
  | Some keys => bool_decide (key ∈ keys)
  | None => false
  end.
(** [get_delegation_bls] and [get_delegation_ecdsa] *)
Definition get_delegation (S : EncryptionScheme) (m : LocalSigningManager) (key : bytes)
    : Result SignerModuleError (SignedProxyDelegation S) :=
  ok_or (px_delegation <$> signers_of m S !! key) (UnknownProxySigner key).

(** [entry.proxy_bls.push(key)] and [entry.proxy_ecdsa.push(key)] *)
Definition push_proxy (S : EncryptionScheme) (key : bytes) (e : ConsensusProxyMap)
    : ConsensusProxyMap :=
  match S with
  | Bls => {| cpm_consensus := cpm_consensus e; proxy_bls := proxy_bls e ++ [key];
              proxy_ecdsa := proxy_ecdsa e |}
  | Ecdsa => {| cpm_consensus := cpm_consensus e; proxy_bls := proxy_bls e;
                proxy_ecdsa := proxy_ecdsa e ++ [key] |}
  end.

(** one turn of the loops of [get_consensus_proxy_maps] *)
Definition attach_proxy (S : EncryptionScheme) (m : LocalSigningManager)
    (keys : list ConsensusProxyMap) (key : bytes) : Result SignerModuleError (list ConsensusProxyMap) :=
  delegation ← get_delegation S m key;
  let delegator := delegator (spd_message delegation) in
  '(i, _) ← ok_or (list_find (λ x, cpm_consensus x = delegator) keys)
              (UnknownConsensusSigner delegator);
  Ok (alter (push_proxy S key) i keys).

Definition get_consensus_proxy_maps (m : LocalSigningManager) (module_id : ModuleId)
    : Result SignerModuleError (list ConsensusProxyMap) :=
  let consensus := consensus_pubkeys m in
  let proxy_bls := default [] (proxy_pubkeys_bls m !! module_id) in
  let proxy_ecdsa := default [] (proxy_addresses_ecdsa m !! module_id) in
  let keys := consensus_proxy_map_new <$> consensus in
  keys ← try_fold (attach_proxy Bls m) keys proxy_bls;
  try_fold (attach_proxy Ecdsa m) keys proxy_ecdsa.

Definition available_proxy_signers (m : LocalSigningManager) : nat :=
  (size (bls_signers (proxy_signers m)) + size (ecdsa_signers (proxy_signers m)))%nat.
End Manager.
Arguments px_signer {BL EC S} _.
Arguments px_delegation {BL EC S} _.

(** ** The invariant of the manager *)

Section ManagerTheorems.
Context {TH : TreeHashLib} {BL : BlsLib} {BC : BlsCorrect} {EC : EcdsaLib} {PS : ProxyStoreOps}.
Implicit Types m : LocalSigningManager.

Definition proxy_delegator {S} (p : ProxySigner S) : BlsPublicKey :=
  delegator (spd_message (px_delegation p)).

(** a proxy signs as the key its delegation names, and the delegation is signed by its
    delegator *)
Definition proxy_wf {S} (c : Chain) (key : bytes) (p : ProxySigner S) : Prop :=
  proxy_id p = key ∧ proxy (spd_message (px_delegation p)) = key ∧
  delegation_validate (px_delegation p) c = Ok ().

(** keys are filed under their own identity, and every key a module has is a known one *)
Definition manager_wf m : Prop :=
  (∀ pk s, consensus_signers m !! pk = Some s → bls_signer_pubkey s = pk) ∧
  (∀ S key p, signers_of m S !! key = Some p → proxy_wf (lm_chain m) key p) ∧
  (∀ S id keys key, keys_of m S !! id = Some keys → key ∈ keys → is_Some (signers_of m S !! key)).

(** every delegator is one of the manager's consensus keys *)
Definition delegators_known m : Prop :=
  ∀ S key p, signers_of m S !! key = Some p → is_Some (consensus_signers m !! proxy_delegator p).

Lemma insert_proxy_signers {S} m (p : ProxySigner S) id S' key p' :
  signers_of (insert_proxy m p id) S' !! key = Some p' →
  signers_of m S' !! key = Some p' ∨
  ∃ Heq : S = S', key = proxy_id p ∧ p' = eq_rect S ProxySigner p S' Heq.
Proof.
  destruct S, S'; simpl; auto; intros [[<- <-]|[_ ?]]%lookup_insert_Some; auto;
    right; by exists eq_refl.
Qed.
Lemma insert_proxy_signers_kept {S} m (p : ProxySigner S) id S' key :
  is_Some (signers_of m S' !! key) → is_Some (signers_of (insert_proxy m p id) S' !! key).
Proof. destruct S, S'; simpl; auto; intros ?; by apply lookup_insert_is_Some'; right. Qed.
#[local] Hint Resolve insert_proxy_signers_kept : commit_boost.
Lemma insert_proxy_signer {S} m (p : ProxySigner S) id :
  signers_of (insert_proxy m p id) S !! proxy_id p = Some p.
Proof. destruct S; apply lookup_insert_eq. Qed.
Lemma insert_proxy_keys {S} m (p : ProxySigner S) id :
  keys_of (insert_proxy m p id) S = push_key (keys_of m S) id (proxy_id p) ∧
  ∀ S', S' ≠ S → keys_of (insert_proxy m p id) S' = keys_of m S'.
Proof. by destruct S; split; try done; intros []. Qed.
Lemma insert_proxy_frame {S} m (p : ProxySigner S) id :
  consensus_signers (insert_proxy m p id) = consensus_signers m ∧
  lm_chain (insert_proxy m p id) = lm_chain m ∧
  lm_proxy_store (insert_proxy m p id) = lm_proxy_store m.
Proof. by destruct S. Qed.

Lemma push_key_elem keys id key id' l k :
  push_key keys id key !! id' = Some l → k ∈ l →
  (id' = id ∧ k = key) ∨ ∃ l', keys !! id' = Some l' ∧ k ∈ l'.
Proof.
  unfold push_key. intros [[<- <-]|[_ Hl]]%lookup_insert_Some Hk; [|eauto].
  apply elem_of_app in Hk as [Hk|Hk%list_elem_of_singleton]; [|auto].
  destruct (keys !! id) as [l'|]; [eauto|by apply not_elem_of_nil in Hk].
Qed.

Lemma insert_proxy_wf {S} m (p : ProxySigner S) id :
  manager_wf m → proxy_wf (lm_chain m) (proxy_id p) p → manager_wf (insert_proxy m p id).
Proof.
  intros (H1 & H2 & H3) Hp. destruct (insert_proxy_frame m p id) as (Hc & Hch & _).
  split_and!.
  - by rewrite Hc.
  - intros S' key p'. rewrite Hch. intros [?|(<- & -> & ->)]%insert_proxy_signers; auto.
  - intros S' id' keys key Hk Hin.
    destruct (insert_proxy_keys m p id) as [HkS HkS'].
    destruct (decide (S' = S)) as [->|Hne].
    + rewrite HkS in Hk. destruct (push_key_elem _ _ _ _ _ _ Hk Hin) as [[-> ->]|(l' & Hl & Hin')].
      * rewrite insert_proxy_signer. eauto.
      * eauto with commit_boost.
    + rewrite HkS' in Hk by done. eauto with commit_boost.
Qed.

(** A delegation the manager has just signed is valid *)
Lemma sign_consensus_delegation {S} m (d : ProxyDelegation S) signature :
  manager_wf m → sign_consensus m (delegator d) (tree_hash_root d) None = Ok signature →
  delegation_validate {| spd_message := d; spd_signature := signature |} (lm_chain m) = Ok ().
Proof.
  intros (H1 & _ & _) H. apply result_bind_ok in H as ([sk] & Hs%ok_or_ok & [= <-]).
  unfold delegation_validate. cbn [spd_message spd_signature].
  rewrite <- (H1 _ _ Hs). apply commit_boost_sign_verifies.
Qed.

(** What a call to create a proxy did *)
Lemma create_proxy_cases {S} m disk (signer : scheme_signer S) id dl m' disk' r :
  create_proxy m disk signer id dl = (m', disk', r) →
  (consensus_signers m !! dl = None ∧ m' = m ∧ disk' = disk ∧ r = Err (UnknownConsensusSigner dl)) ∨
  (m' = m ∧ is_Some (lm_proxy_store m) ∧ ∃ e, r = Err (SignerInternal e)) ∨
  ∃ d, r = Ok d ∧ is_Some (consensus_signers m !! dl) ∧
    spd_message d = {| delegator := dl; proxy := signer_id signer |} ∧
    sign_consensus m dl (tree_hash_root (spd_message d)) None = Ok (spd_signature d) ∧
    m' = insert_proxy m {| px_signer := signer; px_delegation := d |} id.
Proof.
  unfold create_proxy. destruct (sign_consensus m dl _ None) as [signature|e] eqn:E.
  - set (d := {| spd_message := _; spd_signature := signature |}).
    assert (is_Some (consensus_signers m !! dl)) as Hdl.
    { unfold sign_consensus in E. apply result_bind_ok in E as (s & Hs%ok_or_ok & _). eauto. }
    unfold add_proxy_signer. destruct (lm_proxy_store m) as [store|].
    + destruct (store_proxy S store id _ disk) as [disk'' [[]|e]]; intros [= <- <- <-].
      * right; right. by exists d.
      * right; left. split_and!; eauto.
    + intros [= <- <- <-]. right; right. by exists d.
  - intros [= <- <- <-]. left. unfold sign_consensus in E.
    destruct (consensus_signers m !! dl); [done|]. by injection E as <-.
Qed.

Lemma create_proxy_wf {S} m disk (signer : scheme_signer S) id dl m' disk' r :
  manager_wf m → create_proxy m disk signer id dl = (m', disk', r) → manager_wf m'.
Proof.
  intros Hwf [(_ & -> & _)|[(-> & _)|(d & _ & _ & Hmsg & Hsig & ->)]]%create_proxy_cases; [done..|].
  apply insert_proxy_wf; [done|]. unfold proxy_wf, proxy_id. cbn [px_signer px_delegation].
  rewrite Hmsg. split_and!; [done..|].
  destruct d as [msg sg]. cbn [spd_message spd_signature] in *. subst msg.
  by apply (sign_consensus_delegation m {| delegator := dl; proxy := signer_id signer |}).
Qed.

Lemma add_consensus_wf m s : manager_wf m → manager_wf (add_consensus_signer m s).
Proof.
  intros (H1 & H2 & H3). split_and!.
  - simpl. intros pk s' [[<- <-]|[_ ?]]%lookup_insert_Some; auto.
  - intros []; [apply (H2 Bls)|apply (H2 Ecdsa)].
  - intros []; [apply (H3 Bls)|apply (H3 Ecdsa)].
Qed.
#[local] Hint Resolve add_consensus_wf create_proxy_wf : commit_boost.

(** ** Histories of a manager *)

Inductive manager_step : LocalSigningManager * Disk → LocalSigningManager * Disk → Prop :=
| StepAddConsensus m disk s : manager_step (m, disk) (add_consensus_signer m s, disk)
| StepCreateProxy S m disk (signer : scheme_signer S) id dl m' disk' r :
    create_proxy m disk signer id dl = (m', disk', r) → manager_step (m, disk) (m', disk').

Lemma manager_step_wf st st' : manager_step st st' → manager_wf st.1 → manager_wf st'.1.
Proof. destruct 1; simpl; eauto with commit_boost. Qed.

Lemma manager_step_known st st' :
  manager_step st st' → delegators_known st.1 → delegators_known st'.1.
Proof.
  destruct 1 as [m disk s|S m disk signer id dl m' disk' r H]; simpl; intros Hk S' key p.
  - intros Hp. apply lookup_insert_is_Some'. right. destruct S'; exact (Hk _ key p Hp).
  - apply create_proxy_cases in H as [(_ & -> & _)|[(-> & _)|(d & _ & Hdl & Hmsg & _ & ->)]];
      [apply Hk..|].
    destruct (insert_proxy_frame m {| px_signer := signer; px_delegation := d |} id) as (-> & _).
    intros [Hp|(<- & _ & ->)]%insert_proxy_signers; [by eapply Hk|]. simpl. unfold proxy_delegator.
    cbn [px_delegation]. by rewrite Hmsg.
Qed.
#[local] Hint Resolve manager_step_wf manager_step_known : commit_boost.

Lemma manager_new_wf c disk m :
  local_manager_new c None disk = Ok m → manager_wf m ∧ delegators_known m.
Proof.
  intros [= <-]. split; [split_and!|]; [|intros []..|intros []]; simpl; intros *;
    by rewrite lookup_empty.
Qed.

Lemma manager_reachable st st' :
  rtc manager_step st st' → manager_wf st.1 ∧ delegators_known st.1 →
  manager_wf st'.1 ∧ delegators_known st'.1.
Proof.
  induction 1 as [|st st' st'' Hstep _ IH]; [done|]. intros [].
  apply IH. eauto with commit_boost.
Qed.

End ManagerTheorems.

Section ProxyTheorems.
Context {TH : TreeHashLib} {BL : BlsLib} {BC : BlsCorrect} {EC : EcdsaLib} {ECC : EcdsaCorrect}.
Context {PS : ProxyStoreOps} {HO : HashOrder bytes}.
Implicit Types m : LocalSigningManager.

(** Creating a proxy.  If the delegator is not one of the manager's keys, the call fails
    with [UnknownConsensusSigner] and changes nothing; if the store fails, the manager is
    unchanged; otherwise the returned delegation names the delegator and the new key and
    validates on the manager's chain, the new key is registered for this module (and for no
    other), its delegation can be looked up, and no consensus key changes.  Without a store
    the call succeeds for every known delegator. *)
Theorem create_proxy_spec {S} m disk (signer : scheme_signer S) id dl m' disk' r :
  manager_wf m → create_proxy m disk signer id dl = (m', disk', r) →
  (consensus_signers m !! dl = None ∧ m' = m ∧ disk' = disk ∧ r = Err (UnknownConsensusSigner dl)) ∨
  (is_Some (lm_proxy_store m) ∧ m' = m ∧ ∃ e, r = Err (SignerInternal e)) ∨
  ∃ d, r = Ok d ∧ delegator (spd_message d) = dl ∧ proxy (spd_message d) = signer_id signer ∧
    delegation_validate d (lm_chain m) = Ok () ∧
    has_proxy_for_module S m' (signer_id signer) id = true ∧
    get_delegation S m' (signer_id signer) = Ok d ∧
    (∀ S' id', (S', id') ≠ (S, id) → keys_of m' S' !! id' = keys_of m S' !! id') ∧
    consensus_signers m' = consensus_signers m.
Proof.
  intros Hwf Hc. pose proof (create_proxy_wf _ _ _ _ _ _ _ _ Hwf Hc) as Hwf'.
  apply create_proxy_cases in Hc as [?|[(-> & Hst & He)|(d & -> & Hdl & Hmsg & Hsig & ->)]];
    [by left|right; left; by split_and!|]. right; right. exists d.
  set (p := {| px_signer := signer; px_delegation := d |}) in *.
  destruct (insert_proxy_keys m p id) as [HkS HkS'].
  pose proof (insert_proxy_signer m p id) as Hsp. change (proxy_id p) with (signer_id signer) in *.
  destruct Hwf' as (_ & H2 & _). destruct (insert_proxy_frame m p id) as (Hcs & Hch & _).
  destruct (H2 S _ p Hsp) as (_ & _ & Hval). rewrite Hch in Hval.
  rewrite Hmsg. split_and!; try done.
  - unfold has_proxy_for_module. rewrite HkS. unfold push_key. rewrite lookup_insert_eq.
    apply bool_decide_eq_true. set_solver.
  - unfold get_delegation. by rewrite Hsp.
  - intros S' id' Hne. destruct (decide (S' = S)) as [->|]; [|by rewrite HkS'].
    rewrite HkS. apply lookup_insert_ne. congruence.
Qed.

Lemma sign_consensus_verifies m key root id s :
  manager_wf m → sign_consensus m key root (Some id) = Ok s →
  verify_proposer_commitment_signature_bls (lm_chain m) key root s id = Ok ().
Proof.
  intros (H1 & _) H. apply result_bind_ok in H as ([sk] & Hs%ok_or_ok & [= <-]).
  rewrite <- (H1 _ _ Hs). apply verify_sign_message.
Qed.
Lemma sign_proxy_bls_verifies m key root id s :
  manager_wf m → sign_proxy_bls m key root (Some id) = Ok s →
  verify_proposer_commitment_signature_bls (lm_chain m) key root s id = Ok ().
Proof.
  intros (_ & H2 & _) H. apply result_bind_ok in H as (p & Hp%ok_or_ok & [= <-]).
  destruct (H2 Bls key p Hp) as (<- & _). unfold proxy_id. destruct (px_signer p) as [sk].
  apply verify_sign_message.
Qed.
Lemma sign_proxy_ecdsa_verifies m key root id s :
  manager_wf m → sign_proxy_ecdsa m key root (Some id) = Ok s →
  verify_proposer_commitment_signature_ecdsa (lm_chain m) key root s id = Ok ().
Proof.
  intros (_ & H2 & _) H. apply result_bind_ok in H as (p & Hp%ok_or_ok & H). apply map_err_ok in H.
  destruct (H2 Ecdsa key p Hp) as (<- & _). by apply (ecdsa_sign_verifies (T := bytes)).
Qed.

(** ** The key listing *)

(** the proxy [key] was delegated by [pk] *)
Definition delegated_by m (S : EncryptionScheme) (pk key : bytes) : Prop :=
  proxy_delegator <$> signers_of m S !! key = Some pk.
#[export] Instance delegated_by_dec m S pk key : Decision (delegated_by m S pk key).
Proof. unfold delegated_by. apply _. Defined.

(** the entry of a consensus key, after some of the module's proxies were attached *)
Definition render m (done : EncryptionScheme → list bytes) (pk : BlsPublicKey) : ConsensusProxyMap :=
  {| cpm_consensus := pk; proxy_bls := filter (delegated_by m Bls pk) (done Bls);
     proxy_ecdsa := filter (delegated_by m Ecdsa pk) (done Ecdsa) |}.

Definition push_done (done : EncryptionScheme → list bytes) (S : EncryptionScheme) (key : bytes)
    (S' : EncryptionScheme) : list bytes :=
  if decide (S' = S) then done S' ++ [key] else done S'.

Lemma render_push m done S key pk :
  render m (push_done done S key) pk =
  if decide (delegated_by m S pk key) then push_proxy S key (render m done pk)
  else render m done pk.
Proof.
  destruct S; unfold render, push_done; simpl; case_decide as Hd; unfold push_proxy; simpl;
    f_equal; rewrite filter_app, filter_cons; (try rewrite decide_True by done);
    (try rewrite decide_False by done); rewrite filter_nil, ?app_nil_r; done.
Qed.

Lemma attach_render m S done cs key pk :
  NoDup cs → pk ∈ cs → delegated_by m S pk key →
  attach_proxy S m (render m done <$> cs) key = Ok (render m (push_done done S key) <$> cs).
Proof.
  intros Hnd Hpk Hdel. unfold delegated_by in Hdel. apply fmap_Some in Hdel as (p & Hp & ->).
  unfold attach_proxy, get_delegation. rewrite Hp. cbn [fmap option_fmap option_map ok_or mbind result_bind].
  fold (proxy_delegator p).
  apply list_elem_of_lookup in Hpk as [i Hi].
  rewrite (proj2 (list_find_Some (λ x, cpm_consensus x = proxy_delegator p)
    (render m done <$> cs) i (render m done (proxy_delegator p)))).
  2:{ split; [by rewrite list_lookup_fmap, Hi|]. split; [done|].
      intros j y Hj Hlt Heq. rewrite list_lookup_fmap in Hj. apply fmap_Some in Hj as (pk' & Hj & ->).
      simpl in Heq. subst pk'. pose proof (NoDup_lookup _ _ _ _ Hnd Hi Hj). lia. }
  simpl. f_equal. apply list_eq. intros j. rewrite list_lookup_fmap.
  destruct (decide (i = j)) as [<-|Hij].
  - rewrite list_lookup_alter_eq, list_lookup_fmap, Hi. simpl. rewrite render_push, decide_True; [done|].
    unfold delegated_by. by rewrite Hp.
  - rewrite list_lookup_alter_ne, list_lookup_fmap by done.
    destruct (cs !! j) as [pk'|] eqn:Hj; [|done]. simpl. rewrite render_push, decide_False; [done|].
    unfold delegated_by. rewrite Hp. intros [= Heq]. subst pk'.
    by pose proof (NoDup_lookup _ _ _ _ Hnd Hi Hj).
Qed.

(** A whole loop *)
Lemma attach_all m S cs l done :
  NoDup cs → (∀ key, key ∈ l → ∃ pk, pk ∈ cs ∧ delegated_by m S pk key) →
  try_fold (attach_proxy S m) (render m done <$> cs) l =
  Ok (render m (λ S', if decide (S' = S) then done S' ++ l else done S') <$> cs).
Proof.
  intros Hnd. revert done. induction l as [|key l IH]; intros done Hall.
  - simpl. f_equal. apply list_fmap_ext. intros _ pk _. unfold render.
    f_equal; case_decide; by rewrite ?app_nil_r.
  - destruct (Hall key) as (pk & Hpk & Hdel); [by left|].
    cbn [try_fold]. rewrite (attach_render m S done cs key pk Hnd Hpk Hdel).
    cbn [mbind result_bind]. rewrite IH by (intros; apply Hall; by right).
    f_equal. apply list_fmap_ext. intros _ pk' _. unfold render, push_done.
    f_equal; case_decide; by rewrite <- ?app_assoc.
Qed.

(** A proxy whose delegator has no entry stops the loop *)
Lemma attach_unknown m S done cs key pk :
  pk ∉ cs → delegated_by m S pk key →
  attach_proxy S m (render m done <$> cs) key = Err (UnknownConsensusSigner pk).
Proof.
  intros Hpk Hdel. unfold delegated_by in Hdel. apply fmap_Some in Hdel as (p & Hp & ->).
  unfold attach_proxy, get_delegation. rewrite Hp. cbn [fmap option_fmap option_map ok_or mbind result_bind].
  fold (proxy_delegator p).
  rewrite (proj2 (list_find_None (λ x, cpm_consensus x = proxy_delegator p) (render m done <$> cs)));
    [done|].
  apply Forall_fmap, Forall_forall. intros pk' Hpk' Heq. simpl in Heq. by subst pk'.
Qed.
Lemma attach_first_unknown m S cs l done :
  NoDup cs → (∀ key, key ∈ l → ∃ pk, delegated_by m S pk key) →
  (∀ key, key ∈ l → ∃ pk, pk ∈ cs ∧ delegated_by m S pk key) ∨
  ∃ key pk, key ∈ l ∧ delegated_by m S pk key ∧ pk ∉ cs ∧
    try_fold (attach_proxy S m) (render m done <$> cs) l = Err (UnknownConsensusSigner pk).
Proof.
  intros Hnd. revert done. induction l as [|key l IH]; intros done Hall.
  { left. intros key Hkey. by apply not_elem_of_nil in Hkey. }
  destruct (Hall key) as [pk Hdel]; [by left|]. cbn [try_fold].
  destruct (decide (pk ∈ cs)) as [Hpk|Hpk].
  - rewrite (attach_render m S done cs key pk Hnd Hpk Hdel). cbn [mbind result_bind].
    destruct (IH (push_done done S key)) as [Hk|(key' & pk' & Hin & ? & ? & ?)].
    + intros; apply Hall; by right.
    + left. intros key' [->|Hin]%elem_of_cons; eauto.
    + right. exists key', pk'. split; [by right|done].
  - right. exists key, pk. rewrite (attach_unknown m S done cs key pk Hpk Hdel).
    split; [by left|done].
Qed.

(** The key listing of a module.  It has one entry per consensus key of the manager, and
    the entry of a key lists exactly the module's own proxies that this key delegated, BLS
    and ECDSA, in the order they were created; it fails exactly when a proxy of the module
    was delegated by a key that is not loaded, and then it names that key. *)
Theorem proxy_maps_spec m id :
  manager_wf m →
  let keys S := default [] (keys_of m S !! id) in
  match get_consensus_proxy_maps m id with
  | Ok l =>
      cpm_consensus <$> l = consensus_pubkeys m ∧
      (∀ e, e ∈ l → proxy_bls e = filter (delegated_by m Bls (cpm_consensus e)) (keys Bls) ∧
                    proxy_ecdsa e = filter (delegated_by m Ecdsa (cpm_consensus e)) (keys Ecdsa)) ∧
      ∀ S key, key ∈ keys S → ∃ pk, delegated_by m S pk key ∧ is_Some (consensus_signers m !! pk)
  | Err e =>
      ∃ S key pk, key ∈ keys S ∧ delegated_by m S pk key ∧ consensus_signers m !! pk = None ∧
        e = UnknownConsensusSigner pk
  end.
Proof.
  intros (_ & _ & H3) keys.
  assert (NoDup (consensus_pubkeys m)) as Hnd by apply hash_iter_nodup.
  assert (∀ pk, pk ∈ consensus_pubkeys m ↔ is_Some (consensus_signers m !! pk)) as Hcs
    by (intros; apply hash_keys_elem).
  assert (∀ S key, key ∈ keys S → ∃ pk, delegated_by m S pk key) as Hreg.
  { intros S key. unfold keys. destruct (keys_of m S !! id) as [l|] eqn:E; simpl.
    - intros Hin. destruct (H3 S id l key E Hin) as [p Hp]. exists (proxy_delegator p).
      unfold delegated_by. by rewrite Hp.
    - intros Hin. by apply not_elem_of_nil in Hin. }
  set (done0 := λ S : EncryptionScheme, @nil bytes).
  assert (consensus_proxy_map_new <$> consensus_pubkeys m = render m done0 <$> consensus_pubkeys m)
    as Hinit by done.
  assert (∀ pk, pk ∉ consensus_pubkeys m → consensus_signers m !! pk = None) as Hnone.
  { intros pk Hpk. rewrite Hcs in Hpk. by apply eq_None_not_Some. }
  unfold get_consensus_proxy_maps. rewrite Hinit.
  change (default [] (proxy_pubkeys_bls m !! id)) with (keys Bls).
  change (default [] (proxy_addresses_ecdsa m !! id)) with (keys Ecdsa).
  destruct (attach_first_unknown m Bls _ (keys Bls) done0 Hnd (Hreg Bls))
    as [Hb|(key & pk & Hin & Hdel & Hpk & ->)]; [|exists Bls, key, pk; auto].
  rewrite (attach_all m Bls _ (keys Bls) done0 Hnd Hb). cbn [mbind result_bind].
  set (done1 := λ S', if decide (S' = Bls) then _ else _).
  destruct (attach_first_unknown m Ecdsa _ (keys Ecdsa) done1 Hnd (Hreg Ecdsa))
    as [He|(key & pk & Hin & Hdel & Hpk & ->)]; [|exists Ecdsa, key, pk; auto].
  rewrite (attach_all m Ecdsa _ (keys Ecdsa) done1 Hnd He). split_and!.
  - rewrite <- list_fmap_compose. by apply list_fmap_id.
  - intros e (pk & -> & _)%list_elem_of_fmap. done.
  - intros [] key Hin; [destruct (Hb key Hin) as (pk & Hpk & ?)|destruct (He key Hin) as (pk & Hpk & ?)];
      exists pk; by rewrite <- Hcs.
Qed.
End ProxyTheorems.

(** ** A concrete manager: two validators, two modules, no store *)
#[export] Hint Resolve add_consensus_wf create_proxy_wf insert_proxy_wf
  sign_consensus_verifies sign_proxy_bls_verifies sign_proxy_ecdsa_verifies : commit_boost.

Module ManagerSample.

#[local] Existing Instances sha256_tree_hash toy_bls toy_ecdsa toy_bls_correct toy_ecdsa_correct.
(** a store that is never written and always empty *)
Definition no_store : ProxyStoreOps := {|
  Disk := (); store_proxy _ _ _ _ d := (d, Err (Message "read-only"));
  load_proxies _ _ := Ok (no_proxies, ∅, ∅) |}.
#[local] Existing Instance no_store.
Definition disk0 : @Disk toy_bls toy_ecdsa no_store := tt.

Definition key (b : byte) : bytes := sk_to_pk (BlsLib := toy_bls) [b].
Definition validator (b : byte) : BlsSigner := BlsLocal (BL := toy_bls) [b].
Definition empty_manager : LocalSigningManager := {|
  lm_chain := Hoodi; lm_proxy_store := None; consensus_signers := ∅; proxy_signers := no_proxies;
  proxy_pubkeys_bls := ∅; proxy_addresses_ecdsa := ∅ |}.
Definition m0 : LocalSigningManager :=
  add_consensus_signer (add_consensus_signer empty_manager (validator x01)) (validator x02).
Definition create (S : EncryptionScheme) (m : LocalSigningManager) (signer : scheme_signer S)
    (id : string) (dl : byte) : LocalSigningManager :=
  (create_proxy m disk0 signer id (key dl)).1.1.
Definition m1 : LocalSigningManager :=
  create Ecdsa (create Bls (create Bls m0 (BlsLocal (BL := toy_bls) [x11]) "A" x01)
                  (BlsLocal (BL := toy_bls) [x12]) "B" x01)
    (EcdsaLocal (EC := toy_ecdsa) [x13]) "A" x02.

Lemma m1_reachable : rtc manager_step (empty_manager, disk0) (m1, disk0).
Proof.
  assert (∀ S m (signer : scheme_signer S) id dl,
    manager_step (m, disk0) (create S m signer id dl, disk0)) as Hcreate.
  { intros S m signer id dl. unfold create.
    destruct (create_proxy m disk0 signer id (key dl)) as [[m' d'] r] eqn:E.
    destruct d'. by econstructor. }
  do 2 (eapply rtc_l; [apply StepAddConsensus|]).
  eapply rtc_l; [apply (Hcreate Bls)|]. eapply rtc_l; [apply (Hcreate Bls)|].
  eapply rtc_l; [apply (Hcreate Ecdsa)|]. apply rtc_refl.
Qed.

Lemma m1_wf : manager_wf m1.
Proof.
  apply (manager_reachable (empty_manager, disk0) (m1, disk0) m1_reachable).
  by apply (manager_new_wf Hoodi disk0).
Qed.


Lemma create_proxy_spec_witness :
  ∃ m' d, create_proxy (S := Bls) m1 disk0 (BlsLocal (BL := toy_bls) [x14]) "C" (key x02) = (m', disk0, Ok d) ∧
    delegation_validate d Hoodi = Ok () ∧ has_proxy_for_module Bls m' (key x14) "C" = true.
Proof.
  assert (is_ok (create_proxy (S := Bls) m1 disk0 (BlsLocal (BL := toy_bls) [x14]) "C" (key x02)).2 = true)
    as Hok by (vm_compute; reflexivity).
  destruct (create_proxy (S := Bls) m1 disk0 (BlsLocal (BL := toy_bls) [x14]) "C" (key x02))
    as [[m' d'] r] eqn:E. simpl in Hok.
  destruct d'. destruct (create_proxy_spec _ _ _ _ _ _ _ _ m1_wf E)
    as [(_ & _ & _ & ->)|[(_ & _ & e & ->)|(d & -> & _ & _ & Hv & Hh & _)]];
    [discriminate Hok|discriminate Hok|].
  exists m', d. split; [reflexivity|]. split; [exact Hv|exact Hh].
Defined.

(** module A sees both validators, one with its BLS proxy, the other with its ECDSA proxy *)
Example listing_A :
  match get_consensus_proxy_maps m1 "A" with
  | Ok l => map (λ e, (cpm_consensus e, proxy_bls e, proxy_ecdsa e)) l
  | Err _ => []
  end = [(key x02, [], [ec_address (EcdsaLib := toy_ecdsa) [x13]]); (key x01, [key x11], [])].
Proof. vm_compute. reflexivity. Qed.

Lemma proxy_maps_spec_witness :
  ∃ l, get_consensus_proxy_maps m1 "A" = Ok l ∧ cpm_consensus <$> l = consensus_pubkeys m1.
Proof.
  pose proof (proxy_maps_spec m1 "A" m1_wf) as H.
  destruct (get_consensus_proxy_maps m1 "A") as [l|e] eqn:E.
  - exists l. split; [reflexivity|exact (proj1 H)].
  - exfalso. vm_compute in E. discriminate E.
Defined.
End ManagerSample.
