(* ===== verification/FileSystem.v ===== *)
(** * A file system

    What the signer stores and loads lies in directories of the machine it runs on.  The file
    system is a finite map from resolved paths to nodes, with the operations of [std::fs] that
    the sources use; writes can fail and then leave what they had written ([DiskFaults]).
    [holds] says which files lie below a directory and [adds] what a loop over a directory
    listing contributes, whatever the order of the listing. *)

From S2P Require Import Prelude Bytes Text Relay PbsConfig.

(** ** Paths and the file system *)

(** The components of a resolved path, innermost first.  There are no symbolic links, and a
    relative path starts at the root of the tree. *)
Notation Path := (list string).
Inductive Node : Type := FileNode (content : bytes) | DirNode.
#[export] Instance Node_eq_dec : EqDecision Node.
Proof. solve_decision. Defined.
Notation Tree := (gmap Path Node).

Definition push_component (p : Path) (c : string) : Path :=
  if String.eqb c "" || String.eqb c "." then p
  else if String.eqb c ".." then tail p
  else c :: p.
Definition is_absolute (s : string) : bool := bool_decide (head (bytes_of_string s) = Some x2f).
(** [Path::join]: an absolute argument replaces the path *)
Definition path_join (p : Path) (s : string) : Path :=
  fold_left push_component (split x2f s) (if is_absolute s then [] else p).
Definition path_of (s : string) : Path := path_join [] s.

Definition is_dir (t : Tree) (p : Path) : bool :=
  match p with [] => true | _ => bool_decide (t !! p = Some DirNode) end.
Definition file_content (t : Tree) (p : Path) : option bytes :=
  match t !! p with Some (FileNode content) => Some content | _ => None end.
Definition is_file (t : Tree) (p : Path) : bool := bool_decide (is_Some (file_content t p)).

(** the entries of a directory *)
Definition child_of (p : Path) (x : Path * Node) : option (string * Node) :=
  match x with
  | (name :: p', node) => if decide (p' = p) then Some (name, node) else None
  | ([], _) => None
  end.
Definition children (t : Tree) (p : Path) : gmap string Node :=
  list_to_map (omap (child_of p) (map_to_list t)).

(** a computation that changes the file system and can fail *)
Definition Fs (A : Type) : Type := Tree → Tree * Result Report A.
#[export] Instance fs_ret : MRet Fs := λ A a t, (t, Ok a).
#[export] Instance fs_bind : MBind Fs := λ A B f m t,
  match m t with (t, Ok a) => f a t | (t, Err e) => (t, Err e) end.
Definition fs_lift {A} (r : Result Report A) : Fs A := λ t, (t, r).

(** the operations that fail, and where a failing write stops *)
Class DiskFaults := {
  mkdir_fails : Path → bool;
  create_fails : Path → bool;
  write_stops : Path → bytes → option nat;
}.

(** a disk without faults *)
Class DiskReliable {DF : DiskFaults} := {
  mkdir_works : ∀ p, mkdir_fails p = false;
  create_works : ∀ p, create_fails p = false;
  write_works : ∀ p c, write_stops p c = None;
}.

Section FileSystem.
Context {DF : DiskFaults} {HO : HashOrder string}.

(** [std::fs::read_dir], in the order the system lists the entries *)
Definition read_dir (t : Tree) (p : Path) : Result Report (list string) :=
  if is_dir t p then Ok (hash_keys (children t p)) else Err (Message "failed reading dir").

Definition read_file (t : Tree) (p : Path) : Result Report bytes :=
  ok_or (file_content t p) (Message "No such file or directory").
(** [std::fs::read_to_string] *)
Definition read_text (t : Tree) (p : Path) : Result Report bytes :=
  b ← read_file t p;
  _ ← ensure (utf8_valid b) (Message "stream did not contain valid UTF-8");
  Ok b.

(** [std::fs::create_dir_all] *)
Fixpoint create_dir_all (p : Path) : Fs () := λ t,
  match p with
  | [] => (t, Ok ())
  | _ :: parent =>
      match t !! p with
      | Some DirNode => (t, Ok ())
      | Some (FileNode _) => (t, Err (Message "File exists"))
      | None =>
          match create_dir_all parent t with
          | (t, Ok _) =>
              if mkdir_fails p then (t, Err (Message "mkdir failed"))
              else (<[p := DirNode]> t, Ok ())
          | (t, Err e) => (t, Err e)
          end
      end
  end.

(** [File::create] truncates a file that is there *)
Definition file_create (p : Path) : Fs () := λ t,
  match p with
  | [] => (t, Err (Message "Is a directory"))
  | _ :: parent =>
      if negb (is_dir t parent) || is_dir t p || create_fails p then
        (t, Err (Message "create failed"))
      else (<[p := FileNode []]> t, Ok ())
  end.
Definition write_all (p : Path) (content : bytes) : Fs () := λ t,
  match write_stops p content with
  | None => (<[p := FileNode content]> t, Ok ())
  | Some n => (<[p := FileNode (take n content)]> t, Err (Message "write failed"))
  end.
(** [if let Some(parent) = path.parent() { create_dir_all(parent)? }] *)
Definition create_parent (p : Path) : Fs () :=
  match p with [] => mret () | _ :: parent => create_dir_all parent end.
End FileSystem.

(** ** Lemmas: paths *)

(** a name that is one component of a path *)
Definition plain_name (s : string) : Prop :=
  s ≠ ""%string ∧ s ≠ "."%string ∧ s ≠ ".."%string ∧ x2f ∉ bytes_of_string s.

Lemma path_join_plain p s : plain_name s → path_join p s = s :: p.
Proof.
  intros (H1 & H2 & H3 & Hsep). unfold path_join, split.
  rewrite split_bytes_no_sep by done. cbn [fmap list_fmap fold_left].
  rewrite string_of_bytes_of_string. unfold push_component.
  rewrite (proj2 (String.eqb_neq s "")), (proj2 (String.eqb_neq s ".")),
    (proj2 (String.eqb_neq s "..")) by done. simpl.
  unfold is_absolute. rewrite bool_decide_false; [done|].
  destruct (bytes_of_string s); [done|]. intros [= ->]. set_solver.
Qed.
Lemma hex_value_lower b : is_Some (hex_value b) → lower_byte b = b.
Proof.
  unfold hex_value, lower_byte, in_range. intros [v Hb].
  destruct (65 <=? Z_of_byte b) eqn:E1, (Z_of_byte b <=? 90) eqn:E2; try done.
  apply Z.leb_le in E1, E2. exfalso. revert Hb.
  destruct (48 <=? Z_of_byte b), (Z_of_byte b <=? 57) eqn:E3, (97 <=? Z_of_byte b) eqn:E4; simpl;
    try done; try apply Z.leb_le in E3; try apply Z.leb_le in E4; lia.
Qed.
Lemma hex_text_chars l b :
  b ∈ bytes_of_string (hex_encode_prefixed l) → is_Some (hex_value b) ∨ b = x78.
Proof.
  rewrite hex_encode_prefixed_bytes. pose proof (hex_bytes l) as Hall. rewrite Forall_forall in Hall.
  intros [->|[->|Hb]%elem_of_cons]%elem_of_cons; [left; vm_compute; eauto|by right|auto].
Qed.

(** ** Lemmas: the file system *)

Lemma child_of_some p x name node :
  child_of p x = Some (name, node) ↔ x = (name :: p, node).
Proof. destruct x as [[|n q] node']; simpl; [naive_solver|]. case_decide; naive_solver. Qed.
Lemma child_of_nodup p (l : list (Path * Node)) : NoDup l.*1 → NoDup (omap (child_of p) l).*1.
Proof.
  induction l as [|x l IH]; intros Hl; [constructor|]. rewrite fmap_cons in Hl.
  apply NoDup_cons in Hl as [Hx Hl].
  change (NoDup (match child_of p x with
                 | Some y => y :: omap (child_of p) l | None => omap (child_of p) l end).*1).
  destruct (child_of p x) as [[n node]|] eqn:E; [|auto]. apply child_of_some in E as ->.
  rewrite fmap_cons. apply NoDup_cons. split; [|auto].
  intros ([n' node'] & Hn & (x' & Hin & ->%child_of_some)%list_elem_of_omap)%list_elem_of_fmap.
  simpl in Hn. subst n'.
  apply Hx. apply list_elem_of_fmap. by exists (n :: p, node').
Qed.
Lemma children_lookup t p name : children t p !! name = t !! (name :: p).
Proof.
  apply option_eq. intros node. unfold children.
  rewrite <- elem_of_list_to_map by (apply child_of_nodup, NoDup_fst_map_to_list).
  rewrite list_elem_of_omap. setoid_rewrite child_of_some. split.
  - intros (x & Hin & ->). by apply elem_of_map_to_list.
  - intros Ht. eexists. split; [|done]. by apply elem_of_map_to_list.
Qed.

(** every node lies in a directory *)
Definition tree_wf (t : Tree) : Prop :=
  t !! ([] : Path) = None ∧ ∀ name p, is_Some (t !! (name :: p)) → is_dir t p = true.

Lemma is_dir_lookup t p : p ≠ [] → is_dir t p = true ↔ t !! p = Some DirNode.
Proof. destruct p; [done|]. intros _. simpl. apply bool_decide_eq_true. Qed.
Lemma is_dir_insert_dir t p q : is_dir t q = true → is_dir (<[p := DirNode]> t) q = true.
Proof.
  destruct q as [|n q]; [done|]. intros H%is_dir_lookup; [|done].
  apply is_dir_lookup; [done|]. apply lookup_insert_Some.
  destruct (decide (p = n :: q)); naive_solver.
Qed.

Lemma dirs_above t p q : tree_wf t → is_dir t p = true → q `suffix_of` p → is_dir t q = true.
Proof.
  intros [_ Hwf] Hd [k ->]. revert Hd. induction k as [|a k IH]; [done|]. intros Hd.
  apply IH, (Hwf a). apply is_dir_lookup in Hd; eauto.
Qed.

Lemma fs_bind_ok {A B} (m : Fs A) (f : A → Fs B) t t' b :
  (m ≫= f) t = (t', Ok b) ↔ ∃ t1 a, m t = (t1, Ok a) ∧ f a t1 = (t', Ok b).
Proof. unfold mbind, fs_bind. destruct (m t) as [t1 [a|e]]; naive_solver. Qed.

Section FsLemmas.
Context {DF : DiskFaults}.

(** a tree that has grown: it has the nodes [t] had, and the others satisfy [new] *)
Definition grown (t t' : Tree) (new : Path → Node → Prop) : Prop :=
  ∀ q node, t' !! q = Some node ↔ t !! q = Some node ∨ (t !! q = None ∧ new q node).

(** the directories above (and including) a path *)
Definition dirs_of (p : Path) (q : Path) (node : Node) : Prop :=
  node = DirNode ∧ q ≠ [] ∧ q `suffix_of` p.

Lemma create_dir_all_ok p t t' :
  tree_wf t → create_dir_all p t = (t', Ok ()) →
  tree_wf t' ∧ is_dir t' p = true ∧ grown t t' (dirs_of p).
Proof.
  revert t t'. induction p as [|n p IH]; intros t t' Hwf H.
  { injection H as <-. split_and!; [done|done|]. intros q node. split; [auto|].
    intros [?|(_ & _ & Hq & Hs)]; [done|]. by apply suffix_nil_inv in Hs. }
  cbn [create_dir_all] in H. destruct (t !! (n :: p)) as [[?|]|] eqn:E; [done| |].
  { injection H as <-. split_and!; [done|by apply is_dir_lookup|]. intros q node. split; [auto|].
    intros [?|(Hq0 & -> & Hq & Hs)]; [done|]. exfalso.
    assert (is_dir t q = true) as Hd%is_dir_lookup; [|congruence|done].
    eapply dirs_above; [done| |done]. by apply is_dir_lookup. }
  destruct (create_dir_all p t) as [t1 [[]|]] eqn:E1; [|done].
  destruct (mkdir_fails (n :: p)); [done|]. injection H as <-.
  destruct (IH _ _ Hwf E1) as (Hwf1 & Hd & Hg).
  assert (t1 !! (n :: p) = None) as Hnone.
  { apply eq_None_not_Some. intros [node [Hx|(_ & _ & _ & Hs)]%Hg]; [congruence|].
    apply suffix_length in Hs. simpl in Hs. lia. }
  split_and!.
  - split; [by rewrite lookup_insert_ne; [apply Hwf1|]|].
    intros name p' Hsome. apply is_dir_insert_dir.
    rewrite lookup_insert_is_Some in Hsome. destruct Hsome as [[= -> ->]|[_ Hs]]; [done|].
    by eapply Hwf1.
  - apply is_dir_lookup; [done|]. apply lookup_insert_eq.
  - intros q node. rewrite lookup_insert_Some, (Hg q node). unfold dirs_of. split.
    + intros [[<- <-]|[Hne [?|(? & -> & ? & ?)]]]; [right|by left|right];
        split_and!; auto using suffix_cons_r.
    + intros [Hx|(Hx & -> & Hq & Hs)].
      * right. split; [intros <-; congruence|auto].
      * destruct (decide (n :: p = q)) as [<-|Hne]; [by left|]. right. split; [done|].
        right. split_and!; auto. destruct Hs as [[|a k] Hk]; simpl in Hk; [congruence|].
        injection Hk as -> Hk. by exists k.
Qed.

(** writing [content] to the file [name] of the directory [d], which is created if need be *)
Definition put (t t' : Tree) (d : Path) (name : string) (content : bytes) : Prop :=
  ∀ q node, t' !! q = Some node ↔
    (q = name :: d ∧ node = FileNode content) ∨
    (q ≠ name :: d ∧ (t !! q = Some node ∨ (t !! q = None ∧ dirs_of d q node))).

Context {DR : DiskReliable}.

Lemma create_dir_all_runs p t :
  (∀ q c, q `suffix_of` p → t !! q ≠ Some (FileNode c)) → ∃ t', create_dir_all p t = (t', Ok ()).
Proof.
  intros Hno. induction p as [|n p IH]; [by eexists|]. cbn [create_dir_all].
  destruct (t !! (n :: p)) as [[c|]|] eqn:E; [by destruct (Hno (n :: p) c)|by eexists|].
  destruct IH as [t' ->]. { intros q c Hs. apply Hno. by apply suffix_cons_r. }
  rewrite mkdir_works. by eexists.
Qed.

Lemma put_file_runs d name content t :
  tree_wf t → (∀ q c, q `suffix_of` d → t !! q ≠ Some (FileNode c)) →
  t !! (name :: d) ≠ Some DirNode →
  ∃ t1 t2 t3, create_dir_all d t = (t1, Ok ()) ∧ file_create (name :: d) t1 = (t2, Ok ()) ∧
    write_all (name :: d) content t2 = (t3, Ok ()) ∧ tree_wf t3 ∧ put t t3 d name content.
Proof.
  intros Hwf Hno Hnd. destruct (create_dir_all_runs d t Hno) as [t1 H1].
  destruct (create_dir_all_ok _ _ _ Hwf H1) as ([Hnil Hwf1] & Hd & Hg).
  assert (is_dir t1 (name :: d) = false) as Hnew.
  { apply not_true_is_false. intros [Hx|(_ & _ & _ & Hs)]%is_dir_lookup%Hg; [done| |done].
    apply suffix_length in Hs. simpl in Hs. lia. }
  exists t1, (<[name :: d := FileNode []]> t1), (<[name :: d := FileNode content]> t1).
  split_and!; [done| | | |].
  - unfold file_create. by rewrite Hd, Hnew, create_works.
  - unfold write_all. rewrite write_works. by rewrite insert_insert_eq.
  - split; [by rewrite lookup_insert_ne|]. intros n' p Hsome.
    assert (is_dir t1 p = true) as Hp.
    { rewrite lookup_insert_is_Some in Hsome. destruct Hsome as [[= -> ->]|[_ Hs]]; [done|].
      by eapply Hwf1. }
    destruct p as [|a p]; [done|]. apply is_dir_lookup; [done|].
    rewrite lookup_insert_ne by (intros Heq; rewrite <- Heq in Hp; congruence).
    by apply is_dir_lookup.
  - intros q node. rewrite lookup_insert_Some, (Hg q node). naive_solver.
Qed.
End FsLemmas.

(** ** Lemmas: loops over directory listings *)

(** [run] adds the elements of [l] to its accumulator, in some order *)
Section Adds.
Context {E A B : Type} (add : A → B → A).
Definition adds (run : A → Result E A) (l : list B) : Prop :=
  ∃ l', l' ≡ₚ l ∧ ∀ acc, run acc = Ok (fold_left add l' acc).

#[export] Instance adds_proper run : Proper ((≡ₚ) ==> iff) (adds run).
Proof. intros l1 l2 Hl. unfold adds. by setoid_rewrite Hl. Qed.
Lemma adds_none : adds Ok [].
Proof. by exists []. Qed.
Lemma adds_none_run (run : A → Result E A) : (∀ acc, run acc = Ok acc) → adds run [].
Proof. intros H. by exists []. Qed.
Lemma adds_one b (run : A → Result E A) : (∀ acc, run acc = Ok (add acc b)) → adds run [b].
Proof. intros H. by exists [b]. Qed.
Lemma adds_seq run1 run2 l1 l2 :
  adds run1 l1 → adds run2 l2 → adds (λ acc, run1 acc ≫= run2) (l1 ++ l2).
Proof.
  intros (k1 & Hk1 & H1) (k2 & Hk2 & H2). exists (k1 ++ k2). split; [by rewrite Hk1, Hk2|].
  intros acc. rewrite H1. simpl. by rewrite H2, fold_left_app.
Qed.
Lemma adds_loop {X} (step : A → X → Result E A) (h : X → list B) xs :
  (∀ x, x ∈ xs → adds (λ acc, step acc x) (h x)) → adds (λ acc, try_fold step acc xs) (xs ≫= h).
Proof.
  induction xs as [|x xs IH]; intros Hstep; [apply adds_none|].
  simpl. apply (adds_seq (λ acc, step acc x)); set_solver.
Qed.
End Adds.

Lemma list3_inj {A} (a b c a' b' c' : A) : [a; b; c] = [a'; b'; c'] → a = a' ∧ b = b' ∧ c = c'.
Proof. by intros [= -> -> ->]. Qed.

(** Grouping a list by a key *)
Lemma group_by_perm {A K} `{EqDecision K} (f : A → K) (keys : list K) (l : list A) :
  NoDup keys → (∀ x, x ∈ l → f x ∈ keys) → keys ≫= (λ k, filter (λ x, f x = k) l) ≡ₚ l.
Proof.
  intros Hnd. revert l. induction Hnd as [|k keys Hk Hnd IH]; intros l Hl.
  { destruct l as [|x l]; [done|]. exfalso. by apply (not_elem_of_nil (f x)), Hl; left. }
  simpl. etrans; [|apply (filter_app_complement (λ x, f x = k) l)]. f_equiv.
  rewrite <- (IH (filter (λ x, f x ≠ k) l)).
  - apply reflexive_eq, Forall_bind_ext, Forall_forall. intros k' Hk'.
    symmetry. apply list_filter_filter_l. intros x <- Heq. by rewrite Heq in Hk'.
  - intros x [Hne Hx]%list_elem_of_filter. apply Hl in Hx. set_solver.
Qed.

Lemma NoDup_fmap_finer {A K K'} (f : A → K) (g : A → K') (l : list A) :
  (∀ x y, g x = g y → f x = f y) → NoDup (f <$> l) → NoDup (g <$> l).
Proof.
  intros Hfg. induction l as [|x l IH]; [constructor|]. rewrite !fmap_cons, !NoDup_cons.
  intros [Hx Hl]. split; [|auto]. intros (y & Hy%Hfg & Hin)%list_elem_of_fmap. apply Hx.
  rewrite Hy. by apply list_elem_of_fmap_2.
Qed.
Lemma filter_unique {A K} `{EqDecision K} (f : A → K) (l : list A) x :
  NoDup (f <$> l) → x ∈ l → filter (λ y, f y = f x) l = [x].
Proof.
  induction l as [|y l IH]; intros Hnd Hx; [by apply not_elem_of_nil in Hx|].
  rewrite fmap_cons in Hnd. apply NoDup_cons in Hnd as [Hy Hnd].
  apply elem_of_cons in Hx as [->|Hx].
  - rewrite filter_cons_True by done. f_equal. apply elem_of_nil_inv.
    intros z [Heq Hz]%list_elem_of_filter. apply Hy. rewrite <- Heq. by apply list_elem_of_fmap_2.
  - rewrite filter_cons_False; [auto|]. intros Heq. apply Hy. rewrite Heq. by apply list_elem_of_fmap_2.
Qed.

(** What lies above a path below [d] is below [d] or above it *)
Lemma suffix_app_cases {A} (q k d : list A) :
  q `suffix_of` k ++ d → (∃ k', q = k' ++ d ∧ k' `suffix_of` k) ∨ q `suffix_of` d.
Proof.
  induction k as [|a k IH]; intros Hs; [by right|]. destruct Hs as [[|b j] Hj]; simpl in Hj.
  - left. by exists (a :: k).
  - injection Hj as _ Hj. destruct IH as [(k' & -> & Hk)|?]; [by exists j| |by right].
    left. exists k'. split; [done|]. by apply suffix_cons_r.
Qed.
Lemma suffix_app_inv {A} (q k d : list A) : q ++ d `suffix_of` k ++ d ↔ q `suffix_of` k.
Proof.
  split; intros [j Hj]; exists j.
  - rewrite app_assoc in Hj. by apply app_inv_tail in Hj.
  - by rewrite Hj, app_assoc.
Qed.

(** ** A directory that holds given files *)

Section Holds.
Context {DF : DiskFaults} {DR : DiskReliable}.
Implicit Types (fs : list (Path * bytes)) (dir d : Path) (t : Tree).

(** below [dir] the tree has the files [fs], the directories these lie in, and nothing else *)
Definition holds dir fs t : Prop :=
  tree_wf t ∧ is_dir t dir = true ∧
  ∀ q node, q ≠ [] → t !! (q ++ dir) = Some node ↔
    (∃ c, (q, c) ∈ fs ∧ node = FileNode c) ∨
    (node = DirNode ∧ ∃ name d c, (name :: d, c) ∈ fs ∧ q `suffix_of` d).

Lemma holds_empty dir t :
  tree_wf t → is_dir t dir = true → (∀ q, q ≠ [] → t !! (q ++ dir) = None) → holds dir [] t.
Proof.
  intros Hwf Hd Hno. split_and!; [done|done|]. intros q node Hq. rewrite Hno by done. set_solver.
Qed.

(** Nothing above a directory is a file *)
Lemma no_file_above t dir q c :
  tree_wf t → is_dir t dir = true → q `suffix_of` dir → t !! q ≠ Some (FileNode c).
Proof.
  intros Hwf Hd Hs Ht. pose proof (dirs_above _ _ _ Hwf Hd Hs) as Hq.
  destruct q; [by rewrite (proj1 Hwf) in Ht|]. apply is_dir_lookup in Hq; [congruence|done].
Qed.

(** The entries of a directory below [dir] *)
Lemma holds_listing {HO : HashOrder string} dir fs t p :
  holds dir fs t → is_dir t (p ++ dir) = true →
  ∃ names, read_dir t (p ++ dir) = Ok names ∧ NoDup names ∧
    ∀ name, name ∈ names ↔ (∃ c, (name :: p, c) ∈ fs) ∨
                            ∃ name' d c, (name' :: d, c) ∈ fs ∧ name :: p `suffix_of` d.
Proof.
  intros (_ & _ & Hr) Hd. exists (hash_keys (children t (p ++ dir))). unfold read_dir. rewrite Hd.
  split_and!; [done|apply hash_iter_nodup|]. intros name. rewrite hash_keys_elem, children_lookup.
  change (name :: p ++ dir) with ((name :: p) ++ dir). split.
  - intros [node [(c & ? & _)|(_ & ? & ? & ? & ?)]%Hr]; [by eauto|by eauto 6|done].
  - intros [[c Hin]|(n' & d & c & Hin & Hs)].
    + exists (FileNode c). apply Hr; eauto.
    + exists DirNode. apply Hr; [done|]. right. eauto 6.
Qed.
Lemma holds_dir dir fs t q :
  holds dir fs t → q ≠ [] →
  is_dir t (q ++ dir) = true ↔ ∃ name d c, (name :: d, c) ∈ fs ∧ q `suffix_of` d.
Proof.
  intros (_ & _ & Hr) Hq. rewrite is_dir_lookup by (by destruct q). rewrite Hr by done. naive_solver.
Qed.
Lemma holds_file dir fs t q c :
  holds dir fs t → q ≠ [] → (q, c) ∈ fs → file_content t (q ++ dir) = Some c.
Proof.
  intros (_ & _ & Hr) Hq Hin. unfold file_content.
  assert (t !! (q ++ dir) = Some (FileNode c)) as -> by (apply Hr; eauto). done.
Qed.

Context (n : nat) (fs : list (Path * bytes)) (Hlen : ∀ q c, (q, c) ∈ fs → length q = S n).

Lemma holds_no_file dir t q d c :
  holds dir fs t → length d = n → q `suffix_of` d ++ dir → t !! q ≠ Some (FileNode c).
Proof.
  intros (Hwf & Hd & Hr) Hn [(k & -> & Hk)|Hs]%suffix_app_cases Ht; [|by eapply no_file_above].
  destruct (decide (k = [])) as [->|Hne]; [by eapply (no_file_above _ dir)|].
  apply Hr in Ht as [(c' & Hin & _)|[? _]]; [|done|done].
  apply Hlen in Hin. apply suffix_length in Hk. lia.
Qed.

Lemma holds_put dir t name d c :
  holds dir fs t → length d = n → name :: d ∉ fs.*1 →
  ∃ t1 t2 t3, create_dir_all (d ++ dir) t = (t1, Ok ()) ∧
    file_create (name :: d ++ dir) t1 = (t2, Ok ()) ∧
    write_all (name :: d ++ dir) c t2 = (t3, Ok ()) ∧
    put t t3 (d ++ dir) name c ∧ holds dir (fs ++ [(name :: d, c)]) t3.
Proof.
  intros Hh Hn Hnew. pose proof Hh as (Hwf & Hd & Hr).
  assert (∀ q d' c', (d', c') ∈ fs → q `suffix_of` tail d' → q ≠ name :: d) as Hshort.
  { intros q d' c' Hin%Hlen Hs ->. apply suffix_length in Hs. destruct d'; simpl in *; lia. }
  destruct (put_file_runs (d ++ dir) name c t) as (t1 & t2 & t3 & H1 & H2 & H3 & Hwf3 & Hput).
  - done.
  - intros q c' Hq. by eapply holds_no_file.
  - change (name :: d ++ dir) with ((name :: d) ++ dir).
    intros [(c' & _ & ?)|(_ & n' & d' & c' & Hin & Hs)]%Hr; [done| |done]. by eapply Hshort.
  - exists t1, t2, t3. split_and!; [done..| |].
    { apply Hput. }
    split_and!; [done| |].
    + destruct (decide (dir = [])) as [->|Hne]; [done|]. apply is_dir_lookup in Hd; [|done].
      apply is_dir_lookup; [done|]. apply Hput. right. split; [|by left].
      intros Heq%(f_equal length). simpl in Heq. rewrite length_app in Heq. lia.
    + intros q node Hq. rewrite (Hput (q ++ dir) node), (Hr q node Hq).
      unfold dirs_of. rewrite suffix_app_inv. change (name :: d ++ dir) with ((name :: d) ++ dir).
      assert (q ++ dir = (name :: d) ++ dir ↔ q = name :: d) as Heq.
      { split; [apply app_inv_tail|congruence]. }
      rewrite Heq. setoid_rewrite elem_of_app. setoid_rewrite list_elem_of_singleton. split.
      * intros [[-> ->]|[Hne [[(c' & Hin & ->)|(-> & n' & d' & c' & Hin & Hs)]|(_ & -> & _ & Hs)]]];
          [left; by eauto|left; by eauto|right; by eauto 8|right; by eauto 8].
      * intros [(c' & [Hin|[= -> ->]] & ->)|(-> & n' & d' & c' & [Hin|[= -> -> ->]] & Hs)].
        -- right. split; [intros ->; apply Hnew, list_elem_of_fmap; by exists (name :: d, c')|].
           by eauto 6.
        -- by left.
        -- right. split; [by eapply Hshort|]. by eauto 8.
        -- right. split; [intros ->; apply suffix_length in Hs; simpl in Hs; lia|].
           destruct (t !! (q ++ dir)) as [[c'|]|] eqn:E.
           ++ exfalso. eapply (holds_no_file dir t _ d c'); [done|done| |done]. by apply suffix_app_inv.
           ++ left. apply Hr in E; [|done]. destruct E as [(? & _ & ?)|[_ E]]; [done|]. by right.
           ++ right. split_and!; [done|done|by destruct q|done].
Qed.
End Holds.
