(* ===== verification/ProxyStore.v ===== *)
(** * The proxy store

    Models [crates/common/src/signer/store.rs]: the two formats in which the signer keeps
    proxy keys between runs (a plain file per proxy, and ERC-2335 keystores with their
    passwords and signatures beside them), and the key loading of [signer/loader.rs] that
    they use.  JSON and the keystore encryption are the classes [ProxyJson] and [KeystoreLib].
    [disk_store] is the instance of the interface [ProxyStoreOps] that the manager is written
    against.  The second half shows that the plain store gives back what was stored. *)

From S2P Require Import Prelude Bytes Text Jwt Chain Signature PbsTypes Http Relay Commit.
From S2P Require Import PbsConfig SignerConfig LocalManager FileSystem.

(** ** What the store reads and writes *)

Definition PROXY_DIR_ENV : string := "CB_PROXY_STORE_DIR".
Definition PROXY_DIR_KEYS_ENV : string := "CB_PROXY_KEYS_DIR".
Definition PROXY_DIR_SECRETS_ENV : string := "CB_PROXY_SECRETS_DIR".

Section Store.
Context {TH : TreeHashLib} {BL : BlsLib} {EC : EcdsaLib}.

Definition signer_secret {S} : scheme_signer S → bytes :=
  match S with Bls => bls_signer_secret | Ecdsa => ecdsa_signer_secret end.
(** [BlsSigner::new_from_bytes] and [EcdsaSigner::new_from_bytes] *)
Definition signer_new_from_bytes (S : EncryptionScheme) (b : bytes) : Result Report (scheme_signer S) :=
  match S with
  | Bls => map_err (λ _, Message "invalid BLS key") (bls_signer_new_from_bytes b)
  | Ecdsa => map_err (λ _, Message "invalid ECDSA key") (ecdsa_signer_new_from_bytes b)
  end.

Record KeyAndDelegation (S : EncryptionScheme) := {
  kd_secret : bytes; kd_delegation : SignedProxyDelegation S;
}.

(** [serde_json] on stored proxies and delegations, and the EIP-55 text of an address *)
Class ProxyJson := {
  kd_to_vec : ∀ S, KeyAndDelegation S → Result string bytes;
  kd_from_str : ∀ S, bytes → Result string (KeyAndDelegation S);
  delegation_to_vec : SignedProxyDelegation Bls → Result string bytes;
  eip55 : Address → string;
}.

(** a keystore file; [uuid] and the fields of its [crypto] part that depend on the key *)
Record JsonKeystore := {
  ks_salt : bytes; ks_iv : bytes; ks_checksum : bytes; ks_cipher_text : bytes;
  ks_uuid : bytes; ks_pubkey : string; ks_description : option string;
}.
(** the [eth2_keystore] crate; [decrypt_keypair] gives the serialized secret key *)
Class KeystoreLib := {
  ks_encrypt : bytes → bytes → bytes → bytes → Result string (bytes * bytes);
  ks_decrypt : bytes → JsonKeystore → Result string bytes;
  decrypt_keypair : JsonKeystore → bytes → Result string bytes;
  ks_to_string : JsonKeystore → Result string bytes;
  ks_from_json : bytes → Result string JsonKeystore;
}.

(** the random bytes one stored keystore draws *)
Record Draw := { dr_password : bytes; dr_salt : bytes; dr_iv : bytes; dr_uuid : bytes }.

Context {DF : DiskFaults} {HO : HashOrder string} {PJ : ProxyJson} {KS : KeystoreLib} {HX : HexLib}.

(** [to_string] of a public key and of an address *)
Definition display_id (S : EncryptionScheme) (id : bytes) : string :=
  match S with Bls => hex_encode_prefixed id | Ecdsa => eip55 id end.
(** [FixedBytes::<n>::from_str] *)
Definition fixed_bytes_from_str (n : nat) (s : string) : Result Report bytes :=
  b ← map_err Message (hex_decode s);
  _ ← ensure (bool_decide (length b = n)) (Message "invalid string length");
  Ok b.

(** [ProxyStore::init_from_env] *)
Definition proxy_store_init_from_env {CE : ConfigEnv} (self : ProxyStore) : Result Report ProxyStore :=
  Ok match self with
     | PSFile proxy_dir => PSFile (default proxy_dir (result_ok (load_env_var PROXY_DIR_ENV)))
     | PSERC2335 keys_path secrets_path =>
         PSERC2335 (default keys_path (result_ok (load_env_var PROXY_DIR_KEYS_ENV)))
                   (default secrets_path (result_ok (load_env_var PROXY_DIR_SECRETS_ENV)))
     end.

(** ** Storing *)

(** the [File] case of [store_proxy_bls] and [store_proxy_ecdsa] *)
Definition store_file {S} (proxy_dir : string) (module_id : ModuleId) (proxy : ProxySigner S) : Fs () :=
  let file_path := path_join (path_join (path_join (path_of proxy_dir) module_id)
                                (scheme_display S)) (display_id S (proxy_id proxy)) in
  let to_store := {| kd_secret := signer_secret (px_signer proxy);
                     kd_delegation := px_delegation proxy |} in
  content ← fs_lift (map_err Message (kd_to_vec S to_store));
  _ ← create_parent file_path;
  _ ← file_create file_path;
  write_all file_path content.

Definition store_erc2335_key {S} (draw : Draw) (module_id : ModuleId)
    (delegation : SignedProxyDelegation S) (secret : bytes) (keys_path secrets_path : string) : Fs () :=
  let proxy_delegation := display_id S (proxy (spd_message delegation)) in
  let password := bytes_of_string (hex_encode (dr_password draw)) in
  let dir_of base := path_join (path_join (path_join (path_of base)
                       (hex_encode_prefixed (delegator (spd_message delegation)))) module_id)
                       (scheme_display S) in
  let pass_path := dir_of secrets_path in
  _ ← create_dir_all pass_path;
  let pass_path := path_join pass_path proxy_delegation in
  _ ← file_create pass_path;
  _ ← write_all pass_path password;
  let sig_path := dir_of keys_path in
  _ ← create_dir_all sig_path;
  let sig_path := path_join sig_path (proxy_delegation +:+ ".sig") in
  _ ← file_create sig_path;
  _ ← write_all sig_path (bytes_of_string (hex_encode_prefixed (spd_signature delegation)));
  '(cipher_text, checksum) ← fs_lift (map_err (λ _, Message "Error encrypting key")
                               (ks_encrypt secret password (dr_salt draw) (dr_iv draw)));
  let keystore := {| ks_salt := dr_salt draw; ks_iv := dr_iv draw; ks_checksum := checksum;
                     ks_cipher_text := cipher_text; ks_uuid := dr_uuid draw;
                     ks_pubkey := hex_encode (proxy (spd_message delegation));
                     ks_description := Some proxy_delegation |} in
  let json_path := dir_of keys_path in
  _ ← create_dir_all json_path;
  let json_path := path_join json_path (proxy_delegation +:+ ".json") in
  _ ← file_create json_path;
  json ← fs_lift (map_err Message (ks_to_string keystore));
  write_all json_path json.

(** [store_proxy_bls] and [store_proxy_ecdsa] *)
Definition store_proxy_on {S} (draw : Draw) (self : ProxyStore) (module_id : ModuleId)
    (proxy : ProxySigner S) : Fs () :=
  match self with
  | PSFile proxy_dir => store_file proxy_dir module_id proxy
  | PSERC2335 keys_path secrets_path =>
      store_erc2335_key draw module_id (px_delegation proxy) (signer_secret (px_signer proxy))
        keys_path secrets_path
  end.

Definition store_proxy_bls_delegation (self : ProxyStore) (module_id : ModuleId)
    (delegation : SignedProxyDelegation Bls) : Fs () :=
  let base_path := match self with PSFile proxy_dir => proxy_dir | PSERC2335 keys_path _ => keys_path end in
  let file_path := path_join (path_join (path_join (path_join (path_of base_path) "delegations")
                     module_id) "bls") (hex_encode_prefixed (proxy (spd_message delegation)) +:+ ".sig") in
  content ← fs_lift (map_err Message (delegation_to_vec delegation));
  _ ← create_parent file_path;
  _ ← file_create file_path;
  write_all file_path content.

(** ** Loading *)

(** the three maps under construction *)
Record Loaded := {
  ld_proxies : ProxySigners;
  ld_bls : gmap string (list BlsPublicKey);
  ld_ecdsa : gmap string (list Address);
}.
Definition nothing_loaded : Loaded := {| ld_proxies := no_proxies; ld_bls := ∅; ld_ecdsa := ∅ |}.

(** [signers.insert(key, proxy)] and [map.entry(module_id).or_default().push(key)] *)
Definition add_loaded {S} (acc : Loaded) (module_id : ModuleId) (proxy : ProxySigner S) : Loaded :=
  match S return ProxySigner S → Loaded with
  | Bls => λ proxy,
      {| ld_proxies := {| bls_signers := <[proxy_id proxy := proxy]> (bls_signers (ld_proxies acc));
                          ecdsa_signers := ecdsa_signers (ld_proxies acc) |};
         ld_bls := push_key (ld_bls acc) module_id (proxy_id proxy); ld_ecdsa := ld_ecdsa acc |}
  | Ecdsa => λ proxy,
      {| ld_proxies := {| bls_signers := bls_signers (ld_proxies acc);
                          ecdsa_signers :=
                            <[proxy_id proxy := proxy]> (ecdsa_signers (ld_proxies acc)) |};
         ld_bls := ld_bls acc; ld_ecdsa := push_key (ld_ecdsa acc) module_id (proxy_id proxy) |}
  end proxy.

(** one entry of a [bls] or [ecdsa] directory of the [File] store *)
Definition load_file_entry (S : EncryptionScheme) (t : Tree) (module_id : ModuleId) (dir : Path)
    (acc : Loaded) (name : string) : Result Report Loaded :=
  let path := name :: dir in
  if is_file t path then
    file_content ← read_text t path;
    key_and_delegation ← map_err Message (kd_from_str S file_content);
    signer ← signer_new_from_bytes S (kd_secret S key_and_delegation);
    Ok (add_loaded acc module_id {| px_signer := signer;
                                    px_delegation := kd_delegation S key_and_delegation |})
  else Ok acc.
Definition load_file_scheme (S : EncryptionScheme) (t : Tree) (module_id : ModuleId)
    (module_path : Path) (acc : Loaded) : Result Report Loaded :=
  let path := path_join module_path (scheme_display S) in
  if is_dir t path then
    entries ← read_dir t path;
    try_fold (load_file_entry S t module_id path) acc entries
  else Ok acc.
Definition load_file_module (t : Tree) (proxy_dir : Path) (acc : Loaded) (name : string)
    : Result Report Loaded :=
  let module_path := name :: proxy_dir in
  if is_dir t module_path && utf8_valid (bytes_of_string name) then
    acc ← load_file_scheme Bls t name module_path acc;
    load_file_scheme Ecdsa t name module_path acc
  else Ok acc.

(** [load_one] and [load_ecdsa_signer] of [signer/loader.rs] *)
Definition load_one (t : Tree) (ks_path pw_path : Path) : Result Report (scheme_signer Bls) :=
  json ← map_err (λ _, Message "failed reading json") (read_file t ks_path);
  keystore ← map_err (λ _, Message "failed reading json") (ks_from_json json);
  password ← map_err (λ _, Message "Failed to read password") (read_file t pw_path);
  key ← map_err (λ _, Message "failed decrypting keypair") (decrypt_keypair keystore password);
  signer_new_from_bytes Bls key.
Definition load_ecdsa_signer (t : Tree) (keys_path secrets_path : Path)
    : Result Report (scheme_signer Ecdsa) :=
  json ← read_file t keys_path;
  keystore ← map_err Message (ks_from_json json);
  password ← read_file t secrets_path;
  decrypted ← map_err (λ _, Message "Error decrypting ECDSA keystore") (ks_decrypt password keystore);
  signer_new_from_bytes Ecdsa decrypted.
Definition load_signer (S : EncryptionScheme) : Tree → Path → Path → Result Report (scheme_signer S) :=
  match S with Bls => load_one | Ecdsa => load_ecdsa_signer end.

(** [path.extension() == "json"] and [name.trim_end_matches(".json")] *)
Definition json_suffix : bytes := bytes_of_string ".json".
Definition strip_json (l : bytes) : option bytes :=
  let n := (length l - length json_suffix)%nat in
  if bool_decide (drop n l = json_suffix) then Some (take n l) else None.
(** the extension is what follows the last dot, unless the name starts with that dot *)
Definition has_json_extension (name : string) : bool :=
  match strip_json (bytes_of_string name) with Some (_ :: _) => true | _ => false end.
Fixpoint trim_json_fuel (fuel : nat) (l : bytes) : bytes :=
  match fuel with
  | O => l
  | S fuel => match strip_json l with Some l => trim_json_fuel fuel l | None => l end
  end.
Definition trim_end_json (name : string) : string :=
  let l := bytes_of_string name in string_of_bytes (trim_json_fuel (length l) l).

(** one entry of a [bls] or [ecdsa] directory of the [ERC2335] store; the names are read
    with [to_string_lossy] *)
Definition load_erc_entry (S : EncryptionScheme) (t : Tree) (consensus_pubkey : BlsPublicKey)
    (module_id : ModuleId) (secrets_path dir : Path) (acc : Loaded) (entry : string)
    : Result Report Loaded :=
  let path := entry :: dir in
  if negb (is_file t path) || negb (has_json_extension entry) then Ok acc
  else
    let name := trim_end_json (from_utf8_lossy (bytes_of_string entry)) in
    signer ← load_signer S t path
               (path_join (path_join (path_join (path_join secrets_path
                  (hex_encode_prefixed consensus_pubkey)) module_id) (scheme_display S)) name);
    match read_text t (path_join dir (name +:+ ".sig")) with
    | Err _ => Ok acc
    | Ok sig =>
        delegation_signature ← fixed_bytes_from_str 96 (string_of_bytes sig);
        Ok (add_loaded acc module_id
              {| px_signer := signer;
                 px_delegation :=
                   {| spd_message := {| delegator := consensus_pubkey; proxy := signer_id signer |};
                      spd_signature := delegation_signature |} |})
    end.
Definition load_erc_scheme (S : EncryptionScheme) (t : Tree) (consensus_pubkey : BlsPublicKey)
    (module_id : ModuleId) (secrets_path module_path : Path) (acc : Loaded) : Result Report Loaded :=
  let path := path_join module_path (scheme_display S) in
  match read_dir t path with
  | Ok entries =>
      try_fold (load_erc_entry S t consensus_pubkey module_id secrets_path path) acc entries
  | Err _ => Ok acc
  end.
Definition load_erc_module (t : Tree) (consensus_pubkey : BlsPublicKey) (secrets_path dir : Path)
    (acc : Loaded) (name : string) : Result Report Loaded :=
  let module_path := name :: dir in
  let module_id := from_utf8_lossy (bytes_of_string name) in
  if is_dir t module_path then
    acc ← load_erc_scheme Bls t consensus_pubkey module_id secrets_path module_path acc;
    load_erc_scheme Ecdsa t consensus_pubkey module_id secrets_path module_path acc
  else Ok acc.
Definition load_erc_consensus (t : Tree) (keys_path secrets_path : Path) (acc : Loaded) (name : string)
    : Result Report Loaded :=
  let consensus_key_path := name :: keys_path in
  match fixed_bytes_from_str 48 (from_utf8_lossy (bytes_of_string name)) with
  | Err _ => Ok acc
  | Ok consensus_pubkey =>
      if is_dir t consensus_key_path then
        entries ← read_dir t consensus_key_path;
        try_fold (load_erc_module t consensus_pubkey secrets_path consensus_key_path) acc entries
      else Ok acc
  end.

(** [ProxyStore::load_proxies] *)
Definition load_proxies_from (self : ProxyStore) (t : Tree) : Result Report Loaded :=
  match self with
  | PSFile proxy_dir =>
      entries ← read_dir t (path_of proxy_dir);
      try_fold (load_file_module t (path_of proxy_dir)) nothing_loaded entries
  | PSERC2335 keys_path secrets_path =>
      entries ← read_dir t (path_of keys_path);
      try_fold (load_erc_consensus t (path_of keys_path) (path_of secrets_path)) nothing_loaded entries
  end.

(** ** The interface of the manager *)

(** the file system and the random bytes that are still to be drawn *)
Record Host := { h_tree : Tree; h_draws : nat → Draw; h_next : nat }.

#[export] Instance disk_store : ProxyStoreOps := {|
  Disk := Host;
  store_proxy S self module_id proxy h :=
    let '(t, r) := store_proxy_on (h_draws h (h_next h)) self module_id proxy (h_tree h) in
    ({| h_tree := t; h_draws := h_draws h; h_next := (h_next h + 1)%nat |}, r);
  load_proxies self h :=
    l ← load_proxies_from self (h_tree h); Ok (ld_proxies l, ld_bls l, ld_ecdsa l);
|}.
End Store.
Arguments kd_secret {S} _.
Arguments kd_delegation {S} _.

Lemma scheme_display_plain S : plain_name (scheme_display S).
Proof. destruct S; (split_and!; [done|done|done|]); vm_compute; set_solver. Qed.
Lemma scheme_display_inj S S' : scheme_display S = scheme_display S' → S = S'.
Proof. by destruct S, S'. Qed.

(** ** What a stored proxy looks like on disk *)

Section StoreTheorems.
Context {TH : TreeHashLib} {BL : BlsLib} {BC : BlsCorrect} {EC : EcdsaLib}.
Context {DF : DiskFaults} {DR : DiskReliable} {HO : HashOrder string}.
Context {PJ : ProxyJson} {KS : KeystoreLib} {HX : HexLib}.

(** What the store relies on: secret keys can be read back from their bytes, a public key has
    48 bytes and a signature 96, JSON text is UTF-8 and can be read back, and the text of an
    address differs from its hexadecimal digits only in letter case. *)
Class StoreCorrect := {
  sk_bytes : ∀ sk, sk_from_bytes (sk_to_bytes sk) = Ok sk;
  ec_bytes : ∀ sk, ec_from_slice (ec_to_bytes sk) = Ok sk;
  kd_json : ∀ S (x : KeyAndDelegation S), ∃ b,
    kd_to_vec S x = Ok b ∧ utf8_valid b = true ∧ kd_from_str S b = Ok x;
  eip55_case : ∀ a, to_ascii_lowercase (eip55 a) = hex_encode_prefixed a;
}.
Context {SC : StoreCorrect}.

Lemma signer_bytes {S} (s : scheme_signer S) : signer_new_from_bytes S (signer_secret s) = Ok s.
Proof.
  destruct S, s as [sk]; simpl.
  - unfold bls_signer_new_from_bytes. by rewrite sk_bytes.
  - unfold ecdsa_signer_new_from_bytes. by rewrite ec_bytes.
Qed.

Lemma to_ascii_lowercase_bytes s :
  bytes_of_string (to_ascii_lowercase s) = lower_byte <$> bytes_of_string s.
Proof. unfold to_ascii_lowercase. apply bytes_of_string_of_bytes. Qed.
Lemma hex_lower (b : bytes) : to_ascii_lowercase (hex_encode_prefixed b) = hex_encode_prefixed b.
Proof.
  unfold to_ascii_lowercase. rewrite <- (string_of_bytes_of_string (hex_encode_prefixed b)) at 2. f_equal.
  rewrite <- (list_fmap_id (bytes_of_string _)) at 2. apply list_fmap_ext.
  intros i c Hc%list_elem_of_lookup_2. destruct (hex_text_chars b c Hc) as [?| ->]; [|done].
  by apply hex_value_lower.
Qed.
Lemma display_id_lower S id : to_ascii_lowercase (display_id S id) = hex_encode_prefixed id.
Proof. destruct S; [apply hex_lower|apply eip55_case]. Qed.
Lemma display_id_inj S id id' : display_id S id = display_id S id' → id = id'.
Proof.
  intros H%(f_equal to_ascii_lowercase). rewrite !display_id_lower in H.
  by apply hex_encode_prefixed_inj.
Qed.
Lemma display_id_chars S id b :
  b ∈ bytes_of_string (display_id S id) → is_Some (hex_value (lower_byte b)) ∨ lower_byte b = x78.
Proof.
  intros Hb. apply (hex_text_chars id). rewrite <- (display_id_lower S), to_ascii_lowercase_bytes.
  by apply list_elem_of_fmap_2.
Qed.
Lemma display_id_no_char S id b :
  hex_value (lower_byte b) = None → lower_byte b ≠ x78 → b ∉ bytes_of_string (display_id S id).
Proof. intros H1 H2 [[v Hv]|?]%display_id_chars; congruence. Qed.
Lemma display_id_plain S id : plain_name (display_id S id).
Proof.
  assert (x2e ∉ bytes_of_string (display_id S id)) as Hdot by by apply display_id_no_char.
  split_and!; [|intros H; rewrite H in Hdot; vm_compute in Hdot; set_solver..|by apply display_id_no_char].
  intros H%(f_equal to_ascii_lowercase). rewrite display_id_lower in H.
  apply (f_equal bytes_of_string) in H. by rewrite hex_encode_prefixed_bytes in H.
Qed.

(** a proxy stored for a module *)
Record Entry := { en_module : ModuleId; en_scheme : EncryptionScheme; en_proxy : ProxySigner en_scheme }.
Definition en_key (e : Entry) : EncryptionScheme * bytes := (en_scheme e, proxy_id (en_proxy e)).
Definition valid_module (id : ModuleId) : Prop := plain_name id ∧ utf8_valid (bytes_of_string id) = true.

(** ** What was loaded, up to the order of the keys of a module *)

Definition add_entry (acc : Loaded) (e : Entry) : Loaded := add_loaded acc (en_module e) (en_proxy e).
Definition ld_keys (r : Loaded) (S : EncryptionScheme) : gmap string (list bytes) :=
  match S with Bls => ld_bls r | Ecdsa => ld_ecdsa r end.
#[export] Instance loaded_equiv : Equiv Loaded := λ r r',
  ld_proxies r = ld_proxies r' ∧ ∀ S id, option_Forall2 (≡ₚ) (ld_keys r S !! id) (ld_keys r' S !! id).
#[export] Instance loaded_equivalence : Equivalence (≡@{Loaded}).
Proof.
  split.
  - intros r. by split.
  - intros r r' [H1 H2]. split; [done|]. intros S id. by symmetry.
  - intros r1 r2 r3 [H1 H2] [H3 H4]. split; [congruence|]. intros S id. by transitivity (ld_keys r2 S !! id).
Qed.

Lemma push_key_perm (k k' : gmap string (list bytes)) id key id' :
  (∀ id, option_Forall2 (≡ₚ) (k !! id) (k' !! id)) →
  option_Forall2 (≡ₚ) (push_key k id key !! id') (push_key k' id key !! id').
Proof.
  intros Hk. unfold push_key. destruct (decide (id = id')) as [<-|Hne].
  - rewrite !lookup_insert_eq. constructor. destruct (Hk id) as [l l' Hl|]; simpl; [|done]. by rewrite Hl.
  - by rewrite !lookup_insert_ne.
Qed.
#[export] Instance add_entry_proper : Proper ((≡) ==> (=) ==> (≡)) add_entry.
Proof.
  intros r r' [H1 H2] e _ <-. destruct e as [id [] p]; (split; [simpl; by rewrite H1|]); intros [] id';
    try apply (H2 Bls); try apply (H2 Ecdsa); apply push_key_perm; apply (H2 Bls) || apply (H2 Ecdsa).
Qed.
Lemma push_key_swap (k : gmap string (list bytes)) id1 key1 id2 key2 id :
  option_Forall2 (≡ₚ) (push_key (push_key k id1 key1) id2 key2 !! id)
                      (push_key (push_key k id2 key2) id1 key1 !! id).
Proof.
  unfold push_key. destruct (decide (id1 = id2)) as [<-|Hne].
  - rewrite !lookup_insert_eq. simpl. destruct (decide (id = id1)) as [->|Hid].
    + rewrite !lookup_insert_eq. constructor. rewrite <- !app_assoc. apply Permutation_app_head, Permutation_swap.
    + by rewrite !lookup_insert_ne.
  - rewrite (lookup_insert_ne k id1 id2), (lookup_insert_ne k id2 id1) by done.
    by rewrite insert_insert_ne.
Qed.
Lemma add_entry_swap r e1 e2 :
  en_key e1 ≠ en_key e2 → add_entry (add_entry r e1) e2 ≡ add_entry (add_entry r e2) e1.
Proof.
  unfold en_key. destruct e1 as [id1 [] p1], e2 as [id2 [] p2]; simpl; intros Hne;
    (split; [simpl|intros [] id; simpl; try done; apply push_key_swap]); try done;
    f_equal; apply insert_insert_ne; congruence.
Qed.
Lemma fold_add_entry_perm l l' r :
  l ≡ₚ l' → NoDup (en_key <$> l) → fold_left add_entry l r ≡ fold_left add_entry l' r.
Proof.
  assert (∀ l, Proper ((≡) ==> (≡)) (fold_left add_entry l)) as Hp.
  { intros l0. induction l0 as [|e l0 IH]; intros r1 r2 Hr; simpl; [done|]. apply IH. by rewrite Hr. }
  intros Hl. revert r. induction Hl as [|e l l' Hl IH|e e' l|l1 l2 l3 H12 IH1 H23 IH2]; intros r Hnd; simpl.
  - done.
  - apply IH. by apply NoDup_cons in Hnd as [_ ?].
  - apply Hp, add_entry_swap. rewrite !fmap_cons in Hnd. apply NoDup_cons in Hnd as [Hn _].
    apply not_elem_of_cons in Hn as [Hn _]. congruence.
  - rewrite IH1 by done. apply IH2. by rewrite <- H12.
Qed.

(** ** The [File] store *)

Definition file_name (e : Entry) : string := display_id (en_scheme e) (proxy_id (en_proxy e)).
Definition file_dir (e : Entry) : Path := [scheme_display (en_scheme e); en_module e].
Definition kd_of (e : Entry) : KeyAndDelegation (en_scheme e) :=
  {| kd_secret := signer_secret (px_signer (en_proxy e)); kd_delegation := px_delegation (en_proxy e) |}.

Definition kd_content (e : Entry) : bytes := default [] (result_ok (kd_to_vec _ (kd_of e))).
Definition file_files (l : list Entry) : list (Path * bytes) :=
  (λ e, (file_name e :: file_dir e, kd_content e)) <$> l.

Lemma kd_content_json e :
  kd_to_vec _ (kd_of e) = Ok (kd_content e) ∧ utf8_valid (kd_content e) = true ∧
  kd_from_str _ (kd_content e) = Ok (kd_of e).
Proof.
  unfold kd_content. destruct (kd_json _ (kd_of e)) as (content & Hvec & H). by rewrite Hvec.
Qed.
Lemma file_files_elem l q c :
  (q, c) ∈ file_files l ↔ ∃ e, e ∈ l ∧ q = file_name e :: file_dir e ∧ c = kd_content e.
Proof. unfold file_files. rewrite list_elem_of_fmap. naive_solver. Qed.
Lemma file_files_length l q c : (q, c) ∈ file_files l → length q = 3%nat.
Proof. by intros (e & _ & -> & _)%file_files_elem. Qed.
Lemma file_path_inj e e' :
  file_name e :: file_dir e = file_name e' :: file_dir e' → en_module e = en_module e' ∧ en_key e = en_key e'.
Proof.
  destruct e as [m S p], e' as [m' S' p']. unfold file_name, file_dir, en_key. simpl.
  intros [= Hn HS%scheme_display_inj Hm]. subst S'. apply display_id_inj in Hn. split; congruence.
Qed.

(** Storing a proxy whose key is new succeeds and adds its file. *)
Lemma store_file_holds proxy_dir l t e :
  holds (path_of proxy_dir) (file_files l) t → valid_module (en_module e) →
  en_key e ∉ en_key <$> l →
  ∃ t', store_file proxy_dir (en_module e) (en_proxy e) t = (t', Ok ()) ∧
        holds (path_of proxy_dir) (file_files (l ++ [e])) t'.
Proof.
  intros Hh [Hm _] Hnew. destruct (kd_content_json e) as [Hvec _].
  destruct (holds_put 2 (file_files l) (file_files_length l) (path_of proxy_dir) t (file_name e)
              (file_dir e) (kd_content e)) as (t1 & t2 & t3 & H1 & H2 & H3 & _ & Hh3); [done|done| |].
  { intros ([q c] & Hq & (e' & Hin & -> & _)%file_files_elem)%list_elem_of_fmap. simpl in Hq.
    apply Hnew. apply file_path_inj in Hq as [_ ->]. by apply list_elem_of_fmap_2. }
  exists t3. split; [|unfold file_files; by rewrite fmap_app].
  unfold store_file. rewrite !path_join_plain by auto using display_id_plain, scheme_display_plain.
  unfold kd_of in Hvec. rewrite Hvec. unfold mbind, fs_bind, fs_lift. cbn [map_err create_parent].
  change (scheme_display (en_scheme e) :: en_module e :: path_of proxy_dir)
    with (file_dir e ++ path_of proxy_dir).
  fold (file_name e). by rewrite H1, H2, H3.
Qed.

(** ** Reading it back *)

Lemma load_file_entry_adds dir l t e :
  holds dir (file_files l) t → e ∈ l →
  adds add_entry (λ acc, load_file_entry (en_scheme e) t (en_module e) (file_dir e ++ dir) acc (file_name e))
    [e].
Proof.
  intros Hh He. destruct (kd_content_json e) as (_ & Hutf & Hjson).
  pose proof (holds_file dir _ t (file_name e :: file_dir e) (kd_content e) Hh) as Hc.
  apply adds_one. intros acc. unfold load_file_entry, is_file, read_text, read_file.
  change (file_name e :: file_dir e ++ dir) with ((file_name e :: file_dir e) ++ dir).
  rewrite Hc by (done || apply file_files_elem; eauto). simpl.
  rewrite Hutf. simpl. rewrite Hjson. simpl. rewrite signer_bytes. simpl.
  by destruct e as [id S []].
Qed.

Lemma load_file_scheme_adds dir l t S id :
  holds dir (file_files l) t → NoDup (en_key <$> l) →
  adds add_entry (load_file_scheme S t id (id :: dir))
    (filter (λ e, file_dir e = [scheme_display S; id]) l).
Proof.
  intros Hh Hnd. unfold load_file_scheme. rewrite path_join_plain by apply scheme_display_plain.
  change (scheme_display S :: id :: dir) with ([scheme_display S; id] ++ dir).
  set (p := [scheme_display S; id]). set (l' := filter _ l).
  destruct (is_dir t (p ++ dir)) eqn:Ed.
  - destruct (holds_listing dir _ t p Hh Ed) as (names & Hls & Hnames & Hin). rewrite Hls. simpl.
    rewrite <- (group_by_perm file_name names l'); [|done|].
    + apply (adds_loop add_entry). intros f [[c Hc]|(? & d & c & Hc & Hs)]%Hin.
      * apply file_files_elem in Hc as (e & He & Heq & _).
        assert (file_dir e = p) as Hp by exact (eq_sym (f_equal tail Heq)).
        assert (f = file_name e) as -> by by injection Heq.
        replace (filter _ l') with [e]; [|symmetry; unfold l'; rewrite list_filter_filter].
        -- assert (S = en_scheme e ∧ id = en_module e) as [-> ->].
           { by injection Hp as ->%scheme_display_inj ->. }
           by apply (load_file_entry_adds dir l).
        -- rewrite <- (filter_unique (λ e, file_name e :: file_dir e) l e); [|by eapply NoDup_fmap_finer; [apply file_path_inj|]|done].
           apply list_filter_iff. intros e'. rewrite <- Hp. split; [by intros [-> ->]|].
           intros H. split; [by injection H|exact (f_equal tail H)].
      * apply file_files_length in Hc. apply suffix_length in Hs. simpl in *. lia.
    + intros e [Hp He]%list_elem_of_filter. apply Hin. left. exists (kd_content e).
      apply file_files_elem. exists e. by rewrite Hp.
  - replace l' with (@nil Entry); [apply adds_none|]. symmetry. apply elem_of_nil_inv.
    intros e [Hp He]%list_elem_of_filter.
    assert (is_dir t (p ++ dir) = true); [|congruence]. apply (holds_dir _ _ _ _ Hh); [done|].
    exists (file_name e), (file_dir e), (kd_content e). rewrite <- Hp. split; [|done].
    apply file_files_elem. eauto.
Qed.
(** The entries of a module, scheme by scheme *)
Lemma schemes_perm (l : list Entry) (id : ModuleId) :
  filter (λ e, file_dir e = [scheme_display Bls; id]) l
    ++ filter (λ e, file_dir e = [scheme_display Ecdsa; id]) l ≡ₚ filter (λ e, en_module e = id) l.
Proof.
  rewrite <- (group_by_perm en_scheme [Bls; Ecdsa] (filter (λ e, en_module e = id) l)).
  - simpl. rewrite app_nil_r, !list_filter_filter. apply reflexive_eq. f_equal; apply list_filter_iff;
      intros [m [] p]; unfold file_dir; simpl; naive_solver.
  - repeat constructor; set_solver.
  - intros [m [] p] _; set_solver.
Qed.

Lemma load_file_module_adds dir l t id :
  holds dir (file_files l) t → NoDup (en_key <$> l) → Forall (λ e, valid_module (en_module e)) l →
  id ∈ en_module <$> l →
  adds add_entry (λ acc, load_file_module t dir acc id) (filter (λ e, en_module e = id) l).
Proof.
  intros Hh Hnd Hval (e & -> & He)%list_elem_of_fmap. unfold load_file_module.
  assert (is_dir t ([en_module e] ++ dir) = true) as Hd.
  { apply (holds_dir _ _ _ _ Hh); [done|]. exists (file_name e), (file_dir e), (kd_content e).
    split; [by apply file_files_elem; eauto|]. by exists [scheme_display (en_scheme e)]. }
  simpl app in Hd. rewrite Hd. rewrite Forall_forall in Hval. rewrite (proj2 (Hval e He)). simpl.
  rewrite <- schemes_perm. apply adds_seq; by apply load_file_scheme_adds.
Qed.

(** Loading gives what was stored. *)
Lemma load_file_holds proxy_dir l t :
  holds (path_of proxy_dir) (file_files l) t → NoDup (en_key <$> l) →
  Forall (λ e, valid_module (en_module e)) l →
  ∃ r, load_proxies_from (PSFile proxy_dir) t = Ok r ∧ r ≡ fold_left add_entry l nothing_loaded.
Proof.
  intros Hh Hnd Hval. simpl. set (dir := path_of proxy_dir) in *.
  destruct (holds_listing dir _ t [] Hh (proj1 (proj2 Hh))) as (names & Hls & Hnames & Hin).
  simpl app in Hls. rewrite Hls. simpl.
  assert (∀ name, name ∈ names ↔ name ∈ en_module <$> l) as Hmod.
  { intros name. rewrite Hin, list_elem_of_fmap. split.
    - intros [[c Hc%file_files_length]|(f & d & c & (e & He & Heq & _)%file_files_elem & [k Hk])]; [done|].
      exists e. split; [|done]. apply (f_equal tail) in Heq. simpl in Heq. subst d.
      unfold file_dir in Hk. destruct k as [|a [|b [|]]]; by inversion Hk.
    - intros (e & -> & He). right. exists (file_name e), (file_dir e), (kd_content e).
      split; [by apply file_files_elem; eauto|]. by exists [scheme_display (en_scheme e)]. }
  destruct (adds_loop add_entry (load_file_module t dir) (λ id, filter (λ e, en_module e = id) l) names)
    as (l' & Hl' & Hrun).
  { intros id Hid. apply load_file_module_adds; [done..|]. by apply Hmod. }
  rewrite Hrun. eexists. split; [done|]. rewrite (group_by_perm en_module) in Hl'; [|done|].
  - apply fold_add_entry_perm; [done|]. by rewrite Hl'.
  - intros e He. by apply Hmod, list_elem_of_fmap_2.
Qed.
End StoreTheorems.
