(* ===== verification/Erc2335.v ===== *)
(** * The ERC-2335 store gives back what was stored

    A proxy lies in three files: its password below the secrets directory, and its keystore
    and the signature of its delegation below the keys directory, in directories named after
    the delegator, the module and the scheme.  Storing ([store_erc_holds]) adds exactly these
    files; loading ([load_erc_holds]) walks the directories and finds exactly these proxies. *)

From S2P Require Import Prelude Bytes Text Jwt Chain Signature PbsTypes Http Relay Commit.
From S2P Require Import PbsConfig SignerConfig LocalManager FileSystem ProxyStore.

(** ** The [ERC2335] store *)

Section Erc2335Theorems.
Context {TH : TreeHashLib} {BL : BlsLib} {BC : BlsCorrect} {EC : EcdsaLib}.
Context {DF : DiskFaults} {DR : DiskReliable} {HO : HashOrder string}.
Context {PJ : ProxyJson} {KS : KeystoreLib} {HX : HexLib} {SC : StoreCorrect}.

(** What the keystores rely on: encryption can be undone with the password, the JSON of a
    keystore can be read back, a key pair is accepted when its public key is the recorded one,
    and hexadecimal text with its prefix can be read back. *)
Class KeystoreCorrect := {
  ks_decrypts : ∀ secret password salt iv, ∃ cipher_text checksum,
    ks_encrypt secret password salt iv = Ok (cipher_text, checksum) ∧
    ∀ uuid pubkey description,
      ks_decrypt password {| ks_salt := salt; ks_iv := iv; ks_checksum := checksum;
        ks_cipher_text := cipher_text; ks_uuid := uuid; ks_pubkey := pubkey;
        ks_description := description |} = Ok secret;
  ks_json : ∀ ks, ∃ b, ks_to_string ks = Ok b ∧ ks_from_json b = Ok ks;
  ks_keypair : ∀ ks password sk,
    ks_decrypt password ks = Ok (sk_to_bytes sk) → ks_pubkey ks = hex_encode (sk_to_pk sk) →
    decrypt_keypair ks password = Ok (sk_to_bytes sk);
  hex_prefixed : ∀ b, hex_decode (hex_encode_prefixed b) = Ok b;
}.
Context {KC : KeystoreCorrect}.

(** *** File names *)

Lemma strip_json_app l : strip_json (l ++ json_suffix) = Some l.
Proof.
  unfold strip_json. rewrite length_app, Nat.add_sub. rewrite drop_app_length, take_app_length.
  by rewrite bool_decide_true.
Qed.
Lemma strip_json_none l : x6e ∉ l → strip_json l = None.
Proof.
  intros Hn. unfold strip_json. rewrite bool_decide_false; [done|]. intros Hd. apply Hn.
  rewrite <- (take_drop (length l - length json_suffix) l), Hd. apply elem_of_app. right.
  vm_compute. set_solver.
Qed.
Lemma trim_end_json_app s : x6e ∉ bytes_of_string s → trim_end_json (s +:+ ".json") = s.
Proof.
  intros Hn. unfold trim_end_json. rewrite bytes_of_string_app. fold json_suffix.
  rewrite length_app, Nat.add_comm. change (length json_suffix) with 5%nat.
  cbn [trim_json_fuel Nat.add]. rewrite strip_json_app, strip_json_none by done.
  apply string_of_bytes_of_string.
Qed.

Definition json_name (e : Entry) : string := file_name e +:+ ".json".
Definition sig_name (e : Entry) : string := file_name e +:+ ".sig".

Lemma file_name_no_n e : x6e ∉ bytes_of_string (file_name e).
Proof. by apply display_id_no_char. Qed.
Lemma json_name_extension e : has_json_extension (json_name e) = true.
Proof.
  unfold has_json_extension, json_name. rewrite bytes_of_string_app. fold json_suffix.
  rewrite strip_json_app. destruct (bytes_of_string (file_name e)) eqn:E; [|done].
  destruct (display_id_plain (en_scheme e) (proxy_id (en_proxy e))) as [Hne _].
  apply (f_equal string_of_bytes) in E. by rewrite string_of_bytes_of_string in E.
Qed.
Lemma sig_name_extension e : has_json_extension (sig_name e) = false.
Proof.
  unfold has_json_extension, sig_name. rewrite bytes_of_string_app.
  rewrite strip_json_none; [done|]. rewrite elem_of_app. intros [?|Hn]; [by eapply file_name_no_n|].
  vm_compute in Hn. set_solver.
Qed.
Lemma json_sig_name e e' : json_name e ≠ sig_name e'.
Proof. intros H. pose proof (json_name_extension e) as Hj. by rewrite H, sig_name_extension in Hj. Qed.

(** *** What is on disk for one entry, with the random bytes drawn for it *)

Implicit Types (x : Entry * Draw) (l : list (Entry * Draw)).

Definition en_delegator (e : Entry) : BlsPublicKey := proxy_delegator (en_proxy e).
Definition erc_dir (e : Entry) : Path :=
  [scheme_display (en_scheme e); en_module e; hex_encode_prefixed (en_delegator e)].
Definition erc_password (d : Draw) : bytes := bytes_of_string (hex_encode (dr_password d)).
Definition erc_keystore x : JsonKeystore :=
  let '(cipher_text, checksum) :=
    default ([], []) (result_ok (ks_encrypt (signer_secret (px_signer (en_proxy x.1)))
                                   (erc_password x.2) (dr_salt x.2) (dr_iv x.2))) in
  {| ks_salt := dr_salt x.2; ks_iv := dr_iv x.2; ks_checksum := checksum;
     ks_cipher_text := cipher_text; ks_uuid := dr_uuid x.2;
     ks_pubkey := hex_encode (proxy (spd_message (px_delegation (en_proxy x.1))));
     ks_description := Some (file_name x.1) |}.
Definition erc_json x : bytes := default [] (result_ok (ks_to_string (erc_keystore x))).
Definition erc_sig (e : Entry) : bytes :=
  bytes_of_string (hex_encode_prefixed (spd_signature (px_delegation (en_proxy e)))).

Definition key_files l : list (Path * bytes) :=
  l ≫= λ x, [(sig_name x.1 :: erc_dir x.1, erc_sig x.1); (json_name x.1 :: erc_dir x.1, erc_json x)].
Definition secret_files l : list (Path * bytes) :=
  (λ x, (file_name x.1 :: erc_dir x.1, erc_password x.2)) <$> l.

(** a proxy as the manager makes them: its delegation names its own key *)
Definition storable (e : Entry) : Prop :=
  valid_module (en_module e) ∧
  proxy (spd_message (px_delegation (en_proxy e))) = proxy_id (en_proxy e) ∧
  length (en_delegator e) = 48%nat ∧ length (spd_signature (px_delegation (en_proxy e))) = 96%nat.

Definition apart (p p' : Path) : Prop := ∀ q q', q ++ p ≠ q' ++ p'.
Definition erc_holds (keys_path secrets_path : string) l (t : Tree) : Prop :=
  apart (path_of keys_path) (path_of secrets_path) ∧
  holds (path_of keys_path) (key_files l) t ∧ holds (path_of secrets_path) (secret_files l) t.

Lemma key_files_elem l q c :
  (q, c) ∈ key_files l ↔ ∃ x, x ∈ l ∧
    ((q = sig_name x.1 :: erc_dir x.1 ∧ c = erc_sig x.1) ∨
     (q = json_name x.1 :: erc_dir x.1 ∧ c = erc_json x)).
Proof.
  unfold key_files. rewrite list_elem_of_bind. setoid_rewrite elem_of_cons.
  setoid_rewrite list_elem_of_singleton. naive_solver.
Qed.
Lemma secret_files_elem l q c :
  (q, c) ∈ secret_files l ↔ ∃ x, x ∈ l ∧ q = file_name x.1 :: erc_dir x.1 ∧ c = erc_password x.2.
Proof. unfold secret_files. rewrite list_elem_of_fmap. naive_solver. Qed.
Lemma key_files_length l q c : (q, c) ∈ key_files l → length q = 4%nat.
Proof. by intros (x & _ & [[-> _]|[-> _]])%key_files_elem. Qed.
Lemma secret_files_length l q c : (q, c) ∈ secret_files l → length q = 4%nat.
Proof. by intros (x & _ & -> & _)%secret_files_elem. Qed.

Lemma append_inj s s' u : (s +:+ u = s' +:+ u)%string → s = s'.
Proof.
  intros H%(f_equal bytes_of_string). rewrite !bytes_of_string_app in H. apply app_inv_tail in H.
  apply (f_equal string_of_bytes) in H. by rewrite !string_of_bytes_of_string in H.
Qed.
(** Entries in the same place with the same name have the same key *)
Lemma erc_path_inj e e' : file_name e = file_name e' → erc_dir e = erc_dir e' → en_key e = en_key e'.
Proof.
  destruct e as [m S p], e' as [m' S' p']. unfold file_name, erc_dir, en_key. simpl.
  intros Hn [= HS%scheme_display_inj _ _]. subst S'. apply display_id_inj in Hn. congruence.
Qed.

(** A write below one directory does not touch another *)
Lemma holds_frame dir dir' fs t t' d name c :
  apart dir' dir → tree_wf t' → put t t' (d ++ dir) name c → holds dir' fs t → holds dir' fs t'.
Proof.
  intros Hap Hwf' Hput (Hwf & Hd & Hr).
  assert (∀ q node, q ++ dir' ≠ [] → t' !! (q ++ dir') = Some node ↔ t !! (q ++ dir') = Some node) as Hsame.
  { intros q node Hq. rewrite (Hput (q ++ dir') node). split.
    - intros [[Heq _]|[_ [?|(_ & _ & _ & Hs)]]]; [by destruct (Hap q (name :: d))|done|].
      apply suffix_app_cases in Hs as [(k & Heq & _)|[k Heq]]; [by destruct (Hap q k)|].
      destruct (Hap (k ++ q) []). by rewrite <- app_assoc.
    - intros Ht. right. split; [|by left]. intros Heq. by destruct (Hap q (name :: d)). }
  split_and!; [done| |].
  - destruct dir' as [|a dir']; [done|]. apply is_dir_lookup; [done|]. apply (Hsame []); [done|].
    by apply is_dir_lookup in Hd.
  - intros q node Hq. rewrite Hsame by (by destruct q). by apply Hr.
Qed.

Lemma plain_name_suffix e u :
  u ∈ [".json"; ".sig"]%string → plain_name (file_name e +:+ u).
Proof.
  intros Hu. destruct (display_id_plain (en_scheme e) (proxy_id (en_proxy e))) as (_ & _ & _ & Hsep).
  fold (file_name e) in Hsep.
  assert (∃ b, b ∈ bytes_of_string u ∧ b ≠ x2e ∧ x2f ∉ bytes_of_string u) as (b & Hb & Hdot & Hu').
  { repeat (apply elem_of_cons in Hu as [->|Hu]); [exists x6e|exists x67|by apply not_elem_of_nil in Hu];
      vm_compute; set_solver. }
  assert (b ∈ bytes_of_string (file_name e +:+ u)) as Hin.
  { rewrite bytes_of_string_app. set_solver. }
  split_and!; [intros H; rewrite H in Hin; vm_compute in Hin; set_solver..|].
  rewrite bytes_of_string_app. set_solver.
Qed.

Lemma erc_dir_join e base :
  valid_module (en_module e) →
  path_join (path_join (path_join (path_of base) (hex_encode_prefixed (en_delegator e))) (en_module e))
    (scheme_display (en_scheme e)) = erc_dir e ++ path_of base.
Proof.
  intros [Hm _]. rewrite (path_join_plain _ (hex_encode_prefixed _)) by apply (display_id_plain Bls).
  by rewrite (path_join_plain _ (en_module e)), path_join_plain by auto using scheme_display_plain.
Qed.

Lemma erc_keystore_spec x :
  ∃ cipher_text checksum,
    ks_encrypt (signer_secret (px_signer (en_proxy x.1))) (erc_password x.2) (dr_salt x.2) (dr_iv x.2)
    = Ok (cipher_text, checksum) ∧
    erc_keystore x = {| ks_salt := dr_salt x.2; ks_iv := dr_iv x.2; ks_checksum := checksum;
       ks_cipher_text := cipher_text; ks_uuid := dr_uuid x.2;
       ks_pubkey := hex_encode (proxy (spd_message (px_delegation (en_proxy x.1))));
       ks_description := Some (file_name x.1) |} ∧
    ks_decrypt (erc_password x.2) (erc_keystore x) = Ok (signer_secret (px_signer (en_proxy x.1))).
Proof.
  destruct (ks_decrypts (signer_secret (px_signer (en_proxy x.1))) (erc_password x.2) (dr_salt x.2)
              (dr_iv x.2)) as (ct & cs & Henc & Hdec).
  exists ct, cs. unfold erc_keystore. rewrite Henc. simpl. by rewrite Hdec.
Qed.
Lemma erc_json_spec x : ks_to_string (erc_keystore x) = Ok (erc_json x) ∧
  ks_from_json (erc_json x) = Ok (erc_keystore x).
Proof.
  unfold erc_json. destruct (ks_json (erc_keystore x)) as (b & Hb & Hr). by rewrite Hb.
Qed.

(** the place of a new key is free *)
Definition free_of (l : list (Entry * Draw)) (e : Entry) : Prop :=
  ∀ e', e' ∈ l.*1 → file_name e = file_name e' → erc_dir e = erc_dir e' → False.
Lemma new_key_free l e : en_key e ∉ en_key <$> l.*1 → free_of l e.
Proof.
  intros Hnew e' He' Hn Hd. apply Hnew. rewrite (erc_path_inj _ _ Hn Hd). by apply list_elem_of_fmap_2.
Qed.
Lemma secret_path_free l e : free_of l e → file_name e :: erc_dir e ∉ (secret_files l).*1.
Proof.
  intros Hfree ([q c] & Hq & (x & Hx & -> & _)%secret_files_elem)%list_elem_of_fmap. simpl in Hq.
  eapply (Hfree x.1); [by apply list_elem_of_fmap_2|by injection Hq|exact (f_equal tail Hq)].
Qed.
Lemma key_path_free l e name :
  free_of l e → name = sig_name e ∨ name = json_name e → name :: erc_dir e ∉ (key_files l).*1.
Proof.
  intros Hfree Hname ([q c] & Hq & (x & Hx & Hcase)%key_files_elem)%list_elem_of_fmap.
  assert (x.1 ∈ l.*1) as Hx1 by by apply list_elem_of_fmap_2.
  destruct Hname as [->| ->], Hcase as [[-> _]|[-> _]]; simpl in Hq;
    pose proof (f_equal tail Hq) as Hd; injection Hq as Hn _.
  - apply append_inj in Hn. by eapply Hfree.
  - by destruct (json_sig_name x.1 e).
  - by destruct (json_sig_name e x.1).
  - apply append_inj in Hn. by eapply Hfree.
Qed.

(** Storing a proxy whose key is new succeeds and adds its three files. *)
Lemma store_erc_holds keys_path secrets_path l t x :
  erc_holds keys_path secrets_path l t → storable x.1 → en_key x.1 ∉ en_key <$> l.*1 →
  ∃ t', store_erc2335_key x.2 (en_module x.1) (px_delegation (en_proxy x.1))
          (signer_secret (px_signer (en_proxy x.1))) keys_path secrets_path t = (t', Ok ()) ∧
        erc_holds keys_path secrets_path (l ++ [x]) t'.
Proof.
  intros (Hap & Hk & Hs) (Hm & Hself & _) Hnew%new_key_free.
  destruct (erc_keystore_spec x) as (ct & cs & Henc & Hks & _), (erc_json_spec x) as [Hjson _].
  rewrite Hks in Hjson. destruct x as [e dr]. cbn [fst snd] in *.
  set (kp := path_of keys_path) in *. set (sp := path_of secrets_path) in *.
  assert (apart sp kp) as Hap' by (intros q q' Heq; by apply (Hap q' q)).
  destruct (holds_put 3 _ (secret_files_length l) sp t (file_name e) (erc_dir e) (erc_password dr))
    as (t1 & t2 & t3 & R1 & R2 & R3 & Hput3 & Hs3); [done|done|by apply secret_path_free|].
  assert (holds kp (key_files l) t3) as Hk3 by (eapply holds_frame; [done|apply Hs3|done|done]).
  destruct (holds_put 3 _ (key_files_length l) kp t3 (sig_name e) (erc_dir e) (erc_sig e))
    as (t4 & t5 & t6 & R4 & R5 & R6 & Hput6 & Hk6); [done|done|by apply key_path_free; auto|].
  destruct (holds_put 3 (key_files l ++ [(sig_name e :: erc_dir e, erc_sig e)])) with
    (dir := kp) (t := t6) (name := json_name e) (d := erc_dir e) (c := erc_json (e, dr))
    as (t7 & t8 & t9 & R7 & R8 & R9 & Hput9 & Hk9); [|done|done| |].
  { intros q c [Hq%key_files_length|Hq%list_elem_of_singleton]%elem_of_app; [done|]. by inversion Hq. }
  { rewrite fmap_app. simpl. intros [Hq|Hq%list_elem_of_singleton]%elem_of_app.
    - eapply key_path_free; [done| |done]. by right.
    - apply (f_equal head) in Hq. simpl in Hq. by destruct (json_sig_name e e); simplify_eq. }
  exists t9. split.
  - unfold store_erc2335_key. rewrite Hself. fold (file_name e).
    change (delegator (spd_message (px_delegation (en_proxy e)))) with (en_delegator e).
    rewrite !erc_dir_join by done. fold kp sp.
    rewrite !(path_join_plain _ (file_name e +:+ _)) by (apply plain_name_suffix; set_solver).
    rewrite (path_join_plain _ (file_name e)) by apply display_id_plain.
    unfold mbind, fs_bind, fs_lift. fold (erc_password dr) (erc_sig e) (sig_name e) (json_name e).
    rewrite R1, R2, R3, R4, R5, R6, Henc. cbn [map_err]. rewrite R7, R8.
    rewrite Hself in Hjson. rewrite Hjson. cbn [map_err]. exact R9.
  - split_and!; [done| |].
    + unfold key_files. rewrite bind_app. simpl. rewrite <- app_assoc in Hk9. exact Hk9.
    + unfold secret_files. rewrite fmap_app. eapply holds_frame; [done|apply Hk9|done|].
      by eapply holds_frame; [|apply Hk6| |].
Qed.

(** *** Reading it back *)

Lemma display_id_ascii S id : Forall (λ b, Z_of_byte b < 128) (bytes_of_string (display_id S id)).
Proof.
  apply Forall_forall. intros b Hb%display_id_chars. destruct (Z.lt_ge_cases (Z_of_byte b) 128); [done|].
  assert (lower_byte b = b) as Hl.
  { unfold lower_byte, in_range. by rewrite (proj2 (Z.leb_gt (Z_of_byte b) 90)), andb_false_r by lia. }
  rewrite Hl in Hb. destruct Hb as [Hb| ->]; [by apply hex_value_ascii|done].
Qed.
Lemma lossy_valid s : utf8_valid (bytes_of_string s) = true → from_utf8_lossy (bytes_of_string s) = s.
Proof.
  intros Hs%bool_decide_eq_true. unfold from_utf8_lossy. rewrite Hs. apply string_of_bytes_of_string.
Qed.
Lemma json_name_trim e : trim_end_json (from_utf8_lossy (bytes_of_string (json_name e))) = file_name e.
Proof.
  rewrite lossy_valid.
  - apply trim_end_json_app, file_name_no_n.
  - apply lossy_ascii. unfold json_name. rewrite bytes_of_string_app. apply Forall_app.
    split; [apply display_id_ascii|]. repeat constructor.
Qed.
Lemma fixed_bytes_prefixed n b :
  length b = n → fixed_bytes_from_str n (hex_encode_prefixed b) = Ok b.
Proof.
  intros Hb. unfold fixed_bytes_from_str. rewrite hex_prefixed. simpl. by rewrite bool_decide_true.
Qed.

Lemma load_signer_ok t ks_path pw_path x :
  storable x.1 → file_content t ks_path = Some (erc_json x) →
  file_content t pw_path = Some (erc_password x.2) →
  load_signer (en_scheme x.1) t ks_path pw_path = Ok (px_signer (en_proxy x.1)).
Proof.
  intros (_ & Hself & _) Hks Hpw. destruct (erc_json_spec x) as [_ Hjson].
  destruct (erc_keystore_spec x) as (ct & cs & _ & Hk & Hdec).
  destruct x as [[id S p] dr]. cbn [fst snd en_scheme en_proxy] in *.
  destruct S; simpl.
  - unfold load_one, read_file. rewrite Hks, Hpw. simpl. rewrite Hjson. simpl.
    destruct (px_signer p) as [sk] eqn:Esk.
    rewrite (ks_keypair _ _ sk).
    + cbn [map_err]. apply (signer_bytes (S := Bls) (BlsLocal sk)).
    + exact Hdec.
    + rewrite Hk. cbn [ks_pubkey]. rewrite Hself. unfold proxy_id. by rewrite Esk.
  - unfold load_ecdsa_signer, read_file. rewrite Hks, Hpw. simpl. rewrite Hjson. simpl.
    rewrite Hdec. cbn [map_err]. apply (signer_bytes (S := Ecdsa)).
Qed.

Lemma load_erc_entry_adds kp sp l t x :
  holds kp (key_files l) t → holds sp (secret_files l) t → x ∈ l → storable x.1 →
  adds add_entry (λ acc, load_erc_entry (en_scheme x.1) t (en_delegator x.1) (en_module x.1) sp
                           (erc_dir x.1 ++ kp) acc (json_name x.1)) [x.1].
Proof.
  intros Hk Hs Hx Hst. pose proof Hst as ((Hm & _) & Hself & _ & Hlen).
  apply adds_one. intros acc. unfold load_erc_entry, is_file.
  change (json_name x.1 :: erc_dir x.1 ++ kp) with ((json_name x.1 :: erc_dir x.1) ++ kp).
  assert (file_content t ((json_name x.1 :: erc_dir x.1) ++ kp) = Some (erc_json x)) as Hjson.
  { apply (holds_file _ _ _ _ _ Hk); [done|]. apply key_files_elem. eauto. }
  rewrite Hjson, json_name_extension. cbn [negb orb]. rewrite bool_decide_true by eauto. cbn [negb orb].
  rewrite json_name_trim.
  rewrite (path_join_plain sp) by apply (display_id_plain Bls).
  rewrite (path_join_plain _ (en_module x.1)), (path_join_plain _ (scheme_display _)),
    (path_join_plain _ (file_name x.1)) by (done || apply display_id_plain || apply scheme_display_plain).
  erewrite (load_signer_ok t _ _ x); [|done|done|].
  2: { change (file_content t ((file_name x.1 :: erc_dir x.1) ++ sp) = Some (erc_password x.2)).
       apply (holds_file _ _ _ _ _ Hs); [done|]. apply secret_files_elem. eauto. }
  simpl. rewrite path_join_plain by (apply plain_name_suffix; set_solver).
  fold (sig_name x.1).
  assert (file_content t ((sig_name x.1 :: erc_dir x.1) ++ kp) = Some (erc_sig x.1)) as Hsig.
  { apply (holds_file _ _ _ _ _ Hk); [done|]. apply key_files_elem. eauto. }
  simpl in Hsig. unfold read_text, read_file. rewrite Hsig. simpl.
  rewrite (lossy_ascii (erc_sig x.1)) by apply (display_id_ascii Bls). simpl.
  unfold erc_sig. rewrite string_of_bytes_of_string, fixed_bytes_prefixed by done. simpl.
  unfold add_entry. f_equal. f_equal. clear -Hself.
  destruct x as [[id S [s [[dl pr] sg]]] dr]. simpl in *. unfold proxy_id in Hself. simpl in Hself.
  by rewrite <- Hself.
Qed.

Section Levels.
Context (kp sp : Path) (l : list (Entry * Draw)) (t : Tree).
Context (Hk : holds kp (key_files l) t) (Hs : holds sp (secret_files l) t).
Context (Hnd : NoDup (en_key <$> l.*1)) (Hst : Forall storable l.*1).
Local Notation es := (l.*1).

Lemma key_file_of e : e ∈ es → ∃ c, (json_name e :: erc_dir e, c) ∈ key_files l.
Proof.
  intros (x & -> & Hx)%list_elem_of_fmap. exists (erc_json x). apply key_files_elem. eauto.
Qed.
Lemma erc_is_dir q e : q ≠ [] → e ∈ es → q `suffix_of` erc_dir e → is_dir t (q ++ kp) = true.
Proof.
  intros Hq He Hsuf. apply (holds_dir _ _ _ _ Hk); [done|].
  destruct (key_file_of e He) as [c Hc]. eauto 6.
Qed.

(** In a directory, a keystore belongs to one entry and a signature file to none *)
Lemma json_entry_unique e :
  e ∈ es → filter (λ e', json_name e' = json_name e) (filter (λ e', erc_dir e' = erc_dir e) es) = [e].
Proof.
  intros He. rewrite list_filter_filter.
  rewrite <- (filter_unique (λ e, json_name e :: erc_dir e) es e); [| |done].
  - apply list_filter_iff. intros e'. split; [by intros [-> ->]|].
    intros H. split; [by injection H|exact (f_equal tail H)].
  - eapply NoDup_fmap_finer; [|exact Hnd]. intros e1 e2 Heq.
    apply erc_path_inj; [|exact (f_equal tail Heq)]. injection Heq as Heq _.
    by apply append_inj in Heq.
Qed.
Lemma sig_entry_none e (l' : list Entry) : filter (λ e', json_name e' = sig_name e) l' = [].
Proof. apply elem_of_nil_inv. intros e' [Heq _]%list_elem_of_filter. by apply json_sig_name in Heq. Qed.

(** What a listing of a directory of keystores can contain *)
Lemma key_file_cases p f c :
  (f :: p, c) ∈ key_files l →
  ∃ x, x ∈ l ∧ erc_dir x.1 = p ∧ (f = sig_name x.1 ∨ f = json_name x.1).
Proof.
  intros (x & Hx & Hcase)%key_files_elem. exists x. split; [done|].
  destruct Hcase as [[Heq _]|[Heq _]]; (split; [exact (eq_sym (f_equal tail Heq))|]); injection Heq; auto.
Qed.

Lemma load_erc_scheme_adds S pk id :
  adds add_entry
    (load_erc_scheme S t pk id sp (id :: hex_encode_prefixed pk :: kp))
    (filter (λ e, erc_dir e = [scheme_display S; id; hex_encode_prefixed pk]) es).
Proof.
  unfold load_erc_scheme. rewrite path_join_plain by apply scheme_display_plain.
  set (p := [scheme_display S; id; hex_encode_prefixed pk]).
  change (scheme_display S :: id :: hex_encode_prefixed pk :: kp) with (p ++ kp).
  set (l' := filter _ es). destruct (is_dir t (p ++ kp)) eqn:Ed.
  - destruct (holds_listing kp _ t p Hk Ed) as (names & Hls & Hnames & Hin). rewrite Hls.
    rewrite <- (group_by_perm json_name names l'); [|done|].
    + apply (adds_loop add_entry). intros f [[c Hc]|(? & d & c & Hc & Hsuf)]%Hin.
      * apply key_file_cases in Hc as (x & Hx & Hp & Hf).
        assert (x.1 ∈ es) as Hx1 by by apply list_elem_of_fmap_2.
        destruct Hf as [-> | ->].
        -- rewrite sig_entry_none. apply adds_none_run. intros acc. unfold load_erc_entry.
           by rewrite sig_name_extension, orb_true_r.
        -- unfold l'. rewrite <- Hp, json_entry_unique by done.
           apply list3_inj in Hp as (<-%scheme_display_inj & <- & <-%hex_encode_prefixed_inj).
           apply (load_erc_entry_adds kp sp l); [done..|]. rewrite Forall_forall in Hst. by apply Hst.
      * apply key_files_length in Hc. apply suffix_length in Hsuf. simpl in *. lia.
    + intros e [Hp He]%list_elem_of_filter. apply Hin. left. rewrite <- Hp. by apply key_file_of.
  - unfold read_dir. rewrite Ed. replace l' with (@nil Entry); [apply adds_none|].
    symmetry. apply elem_of_nil_inv. intros e [Hp He]%list_elem_of_filter.
    rewrite (erc_is_dir p e) in Ed; [done|done|done|by rewrite Hp].
Qed.

Lemma erc_schemes_perm id n :
  filter (λ e, erc_dir e = [scheme_display Bls; id; n]) es
    ++ filter (λ e, erc_dir e = [scheme_display Ecdsa; id; n]) es
  ≡ₚ filter (λ e, en_module e = id) (filter (λ e, hex_encode_prefixed (en_delegator e) = n) es).
Proof.
  set (l' := filter (λ e, en_module e = id) _).
  assert (∀ S, filter (λ e, erc_dir e = [scheme_display S; id; n]) es = filter (λ e, en_scheme e = S) l') as Hf.
  { intros S. unfold l'. rewrite !list_filter_filter. apply list_filter_iff. intros e. unfold erc_dir. split.
    - by intros (?%scheme_display_inj & -> & ->)%list3_inj.
    - intros H. destruct_and!. congruence. }
  rewrite !Hf. rewrite <- (group_by_perm en_scheme [Bls; Ecdsa] l') at 3.
  - simpl. by rewrite app_nil_r.
  - repeat constructor; set_solver.
  - intros [m [] p] _; set_solver.
Qed.

Lemma load_erc_module_adds pk id :
  id ∈ en_module <$> filter (λ e, hex_encode_prefixed (en_delegator e) = hex_encode_prefixed pk) es →
  adds add_entry (λ acc, load_erc_module t pk sp (hex_encode_prefixed pk :: kp) acc id)
    (filter (λ e, en_module e = id)
       (filter (λ e, hex_encode_prefixed (en_delegator e) = hex_encode_prefixed pk) es)).
Proof.
  intros (e & -> & [Hpk He]%list_elem_of_filter)%list_elem_of_fmap. unfold load_erc_module.
  change (en_module e :: hex_encode_prefixed pk :: kp) with ([en_module e; hex_encode_prefixed pk] ++ kp).
  rewrite (erc_is_dir [en_module e; hex_encode_prefixed pk] e);
    [|done|done|rewrite <- Hpk; by exists [scheme_display (en_scheme e)]].
  rewrite lossy_valid by (rewrite Forall_forall in Hst; by apply Hst in He as ((_ & ?) & _)).
  rewrite <- erc_schemes_perm. apply adds_seq; apply load_erc_scheme_adds.
Qed.

(** The names below a path in the key directory *)
Lemma erc_listing (p : Path) :
  (length p < 3)%nat → is_dir t (p ++ kp) = true →
  ∃ names, read_dir t (p ++ kp) = Ok names ∧ NoDup names ∧
    ∀ name, name ∈ names ↔ ∃ e, e ∈ es ∧ name :: p `suffix_of` erc_dir e.
Proof.
  intros Hp Hd. destruct (holds_listing kp _ t p Hk Hd) as (names & Hls & Hnames & Hin).
  exists names. split_and!; [done..|]. intros name. rewrite Hin. split.
  - intros [[c Hc%key_files_length]|(f & d & c & Hc & Hsuf)]; [simpl in Hc; lia|].
    apply key_file_cases in Hc as (x & Hx & <- & _). exists x.1. split; [by apply list_elem_of_fmap_2|done].
  - intros (e & He & Hsuf). right. destruct (key_file_of e He) as [c Hc]. eauto 6.
Qed.

Lemma load_erc_consensus_adds n :
  n ∈ (hex_encode_prefixed ∘ en_delegator) <$> es →
  adds add_entry (λ acc, load_erc_consensus t kp sp acc n)
    (filter (λ e, hex_encode_prefixed (en_delegator e) = n) es).
Proof.
  intros (e & -> & He)%list_elem_of_fmap. unfold load_erc_consensus. cbv zeta. unfold compose.
  rewrite lossy_valid by (apply lossy_ascii, (display_id_ascii Bls)).
  rewrite fixed_bytes_prefixed by (rewrite Forall_forall in Hst; by apply Hst in He as (_ & _ & ? & _)).
  set (pk := en_delegator e). change (hex_encode_prefixed pk :: kp) with ([hex_encode_prefixed pk] ++ kp).
  assert (is_dir t ([hex_encode_prefixed pk] ++ kp) = true) as Hd.
  { apply (erc_is_dir _ e); [done..|]. by exists [scheme_display (en_scheme e); en_module e]. }
  rewrite Hd. destruct (erc_listing [hex_encode_prefixed pk]) as (names & Hls & Hnames & Hin);
    [simpl; lia|done|].
  rewrite Hls. simpl.
  rewrite <- (group_by_perm en_module names (filter _ es)); [|done|].
  - apply (adds_loop add_entry). intros id (e' & He' & [k Hsuf])%Hin. apply load_erc_module_adds.
    apply list_elem_of_fmap. exists e'.
    pose proof (f_equal length Hsuf) as Hlen. rewrite length_app in Hlen.
    destruct k as [|a [|]]; try (simpl in Hlen; lia).
    apply list3_inj in Hsuf as (_ & -> & Hpk). split; [done|]. by apply list_elem_of_filter.
  - intros e' [Hpk He']%list_elem_of_filter. apply Hin. exists e'. split; [done|].
    exists [scheme_display (en_scheme e')]. unfold erc_dir. by rewrite Hpk.
Qed.
End Levels.

(** Loading gives what was stored. *)
Lemma load_erc_holds keys_path secrets_path l t :
  erc_holds keys_path secrets_path l t → NoDup (en_key <$> l.*1) → Forall storable l.*1 →
  ∃ r, load_proxies_from (PSERC2335 keys_path secrets_path) t = Ok r ∧
       r ≡ fold_left add_entry l.*1 nothing_loaded.
Proof.
  intros (_ & Hk & Hs) Hnd Hst. simpl.
  destruct (erc_listing (path_of keys_path) l t Hk []) as (names & Hls & Hnames & Hin);
    [simpl; lia|apply Hk|].
  simpl app in Hls. rewrite Hls. simpl.
  assert (∀ n, n ∈ names ↔ n ∈ (hex_encode_prefixed ∘ en_delegator) <$> l.*1) as Hn.
  { intros n. rewrite Hin, list_elem_of_fmap. split.
    - intros (e & He & [k Hk']). exists e. split; [|done].
      pose proof (f_equal length Hk') as Hlen. rewrite length_app in Hlen.
      destruct k as [|a [|b [|]]]; try (simpl in Hlen; lia).
      by apply list3_inj in Hk' as (_ & _ & <-).
    - intros (e & -> & He). exists e. split; [done|].
      by exists [scheme_display (en_scheme e); en_module e]. }
  destruct (adds_loop add_entry (load_erc_consensus t (path_of keys_path) (path_of secrets_path))
              (λ n, filter (λ e, hex_encode_prefixed (en_delegator e) = n) l.*1) names) as (l' & Hl' & Hrun).
  { intros n Hin'%Hn. by apply load_erc_consensus_adds. }
  rewrite Hrun. eexists. split; [done|].
  rewrite (group_by_perm (hex_encode_prefixed ∘ en_delegator)) in Hl'; [|done|].
  - apply fold_add_entry_perm; [done|]. by rewrite Hl'.
  - intros e He. by apply Hn, list_elem_of_fmap_2.
Qed.
End Erc2335Theorems.
