(* ===== verification/Persistence.v ===== *)
(** * Proxies survive a restart

    The manager ([LocalManager]) on top of the stores ([ProxyStore], [Erc2335]).  The class
    [StoreKeeps] is what a store promises; both formats satisfy it, and the theorem about the
    manager is proved against it. *)

From S2P Require Import Prelude Bytes Text Jwt Chain Signature PbsTypes Http Relay Commit.
From S2P Require Import PbsConfig SignerConfig LocalManager FileSystem ProxyStore Erc2335.

(** ** Proxies survive a restart *)

Section Persistence.
Context {TH : TreeHashLib} {BL : BlsLib} {BC : BlsCorrect} {EC : EcdsaLib}.
Context {DF : DiskFaults} {DR : DiskReliable} {HO : HashOrder string}.
Context {PJ : ProxyJson} {KS : KeystoreLib} {HX : HexLib} {SC : StoreCorrect} {KC : KeystoreCorrect}.

(** What a store promises: from a disk that keeps the entries [l], storing one more keeps
    [l ++ [e]], and loading gives what [l] says. *)
Class StoreKeeps (store : ProxyStore) := {
  kept : list Entry → Tree → Prop;
  kept_store : ∀ l t e draw, kept l t → storable e → en_key e ∉ en_key <$> l →
    ∃ t', store_proxy_on draw store (en_module e) (en_proxy e) t = (t', Ok ()) ∧ kept (l ++ [e]) t';
  kept_load : ∀ l t, kept l t → NoDup (en_key <$> l) → Forall storable l →
    ∃ r, load_proxies_from store t = Ok r ∧ r ≡ fold_left add_entry l nothing_loaded;
}.

#[export] Instance file_store_keeps proxy_dir : StoreKeeps (PSFile proxy_dir).
Proof.
  refine {| kept l t := holds (path_of proxy_dir) (file_files l) t |}.
  - intros l t e draw Hh [Hm _] Hnew. by apply store_file_holds.
  - intros l t Hh Hnd Hst. apply load_file_holds; [done..|]. eapply Forall_impl; [exact Hst|]. by intros e [? _].
Defined.
#[export] Instance erc_store_keeps keys_path secrets_path : StoreKeeps (PSERC2335 keys_path secrets_path).
Proof.
  refine {| kept es t := ∃ l, l.*1 = es ∧ erc_holds keys_path secrets_path l t |}.
  - intros _ t e draw (l & <- & Hh) Hst Hnew.
    destruct (store_erc_holds keys_path secrets_path l t (e, draw)) as (t' & Hrun & Hh'); [done..|].
    exists t'. split; [done|]. exists (l ++ [(e, draw)]). by rewrite fmap_app.
  - intros _ t (l & <- & Hh) Hnd Hst. by apply load_erc_holds.
Defined.

Context {BS : BlsSizes}.

Definition loaded_of (m : LocalSigningManager) : Loaded :=
  {| ld_proxies := proxy_signers m; ld_bls := proxy_pubkeys_bls m; ld_ecdsa := proxy_addresses_ecdsa m |}.
Lemma loaded_of_insert {S} m (p : ProxySigner S) id :
  loaded_of (insert_proxy m p id) = add_loaded (loaded_of m) id p.
Proof. by destruct S. Qed.

(** keys are added and proxies created, each with a key that is not in use *)
Inductive persist_step : LocalSigningManager * Host → LocalSigningManager * Host → Prop :=
| persist_key m h s : persist_step (m, h) (add_consensus_signer m s, h)
| persist_create S m h (signer : scheme_signer S) id dl m' h' r :
    valid_module id → signers_of m S !! signer_id signer = None →
    create_proxy m h signer id dl = (m', h', r) → persist_step (m, h) (m', h').

Definition persist_inv (store : ProxyStore) `{!StoreKeeps store} (x : LocalSigningManager * Host) : Prop :=
  lm_proxy_store x.1 = Some store ∧ manager_wf x.1 ∧
  ∃ l, kept l (h_tree x.2) ∧ NoDup (en_key <$> l) ∧ Forall storable l ∧
       loaded_of x.1 ≡ fold_left add_entry l nothing_loaded.

Definition ld_signers (r : Loaded) (S : EncryptionScheme) : gmap bytes (ProxySigner S) :=
  match S with Bls => bls_signers (ld_proxies r) | Ecdsa => ecdsa_signers (ld_proxies r) end.
Lemma add_entry_signers r e :
  is_Some (ld_signers (add_entry r e) (en_scheme e) !! proxy_id (en_proxy e)) ∧
  ∀ S key, is_Some (ld_signers r S !! key) → is_Some (ld_signers (add_entry r e) S !! key).
Proof.
  destruct e as [id [] p]; (split; [simpl; rewrite lookup_insert_eq; eauto|]); intros [] key; simpl;
    try done; intros; apply lookup_insert_is_Some'; auto.
Qed.
Lemma fold_add_entry_signers l r e :
  e ∈ l → is_Some (ld_signers (fold_left add_entry l r) (en_scheme e) !! proxy_id (en_proxy e)).
Proof.
  induction l as [|e' l IH] using rev_ind; intros He; [by apply not_elem_of_nil in He|].
  rewrite fold_left_app. simpl. apply elem_of_app in He as [He|He%list_elem_of_singleton].
  - by apply (proj2 (add_entry_signers _ _)), IH.
  - subst e'. apply (proj1 (add_entry_signers _ _)).
Qed.
(** A key that the manager does not use is not on disk *)
Lemma unused_key_new m l S key :
  loaded_of m ≡ fold_left add_entry l nothing_loaded → signers_of m S !! key = None →
  (S, key) ∉ en_key <$> l.
Proof.
  intros [Hp _] Hnone (e & [= -> ->] & He)%list_elem_of_fmap.
  destruct (fold_add_entry_signers l nothing_loaded e He) as [p Hsome].
  destruct e as [id [] p']; simpl in *; by rewrite <- Hp, Hnone in Hsome.
Qed.

(** What creating a proxy with a new key does *)
Lemma create_proxy_kept store `{!StoreKeeps store} {S} m h (signer : scheme_signer S) id dl l :
  lm_proxy_store m = Some store → manager_wf m → kept l (h_tree h) → valid_module id →
  (S, signer_id signer) ∉ en_key <$> l → is_Some (consensus_signers m !! dl) →
  ∃ d h', let p := {| px_signer := signer; px_delegation := d |} in
    let e := {| en_module := id; en_scheme := S; en_proxy := p |} in
    create_proxy m h signer id dl = (insert_proxy m p id, h', Ok d) ∧ storable e ∧
    kept (l ++ [e]) (h_tree h').
Proof.
  intros Hstore (Hwf & _) Hkept Hid Hnew [[sk] Hsk]. unfold create_proxy, sign_consensus.
  rewrite Hsk. cbn [ok_or mbind result_bind].
  set (d := {| spd_message := _; spd_signature := _ |}). exists d.
  set (p := {| px_signer := signer; px_delegation := d |}).
  assert (storable {| en_module := id; en_scheme := S; en_proxy := p |}) as Hst.
  { split_and!; [exact Hid|done| |].
    - unfold en_delegator, proxy_delegator. simpl. rewrite <- (Hwf _ _ Hsk). apply pk_size.
    - simpl. apply sig_size. }
  unfold add_proxy_signer. rewrite Hstore. cbn [store_proxy disk_store].
  destruct (kept_store l (h_tree h) {| en_module := id; en_scheme := S; en_proxy := p |}
              (h_draws h (h_next h)) Hkept Hst Hnew) as (t' & Hrun & Hkept').
  simpl in Hrun. rewrite Hrun. by eexists.
Qed.

Lemma persist_step_inv store `{!StoreKeeps store} x x' :
  persist_step x x' → persist_inv store x → persist_inv store x'.
Proof.
  intros Hstep (Hstore & Hwf & l & Hkept & Hnd & Hst & Hl). destruct Hstep as [m h s|S m h signer id dl m' h' r Hid Hnone H].
  { split_and!; [done|by apply add_consensus_wf|]. by exists l. }
  simpl in *. pose proof (unused_key_new _ _ _ _ Hl Hnone) as Hnew.
  assert (manager_wf m') as Hwf' by by eapply create_proxy_wf.
  destruct (consensus_signers m !! dl) eqn:Edl.
  - destruct (create_proxy_kept store m h signer id dl l) as (d & h2 & Hc & He & Hk2); [done..|by rewrite Edl|].
    rewrite Hc in H. injection H as <- <- <-.
    split_and!; cbn [fst snd]; [by rewrite (proj2 (proj2 (insert_proxy_frame m _ id)))|done|].
    exists (l ++ [{| en_module := id; en_scheme := S;
                     en_proxy := {| px_signer := signer; px_delegation := d |} |}]).
    split_and!; [done| | |].
    + rewrite fmap_app. apply NoDup_app. split_and!; [done| |apply NoDup_singleton].
      intros k Hk Hk2'%list_elem_of_singleton. subst k. done.
    + apply Forall_app. split; [done|]. by constructor.
    + simpl. rewrite loaded_of_insert, fold_left_app. simpl. unfold add_entry at 1. simpl.
      apply (add_entry_proper _ _ Hl {| en_module := id; en_scheme := S;
                     en_proxy := {| px_signer := signer; px_delegation := d |} |} _ eq_refl).
  - unfold create_proxy, sign_consensus in H. rewrite Edl in H. injection H as <- <- _.
    split_and!; [done..|]. by exists l.
Qed.

Lemma persist_reachable store `{!StoreKeeps store} x x' :
  rtc persist_step x x' → persist_inv store x → persist_inv store x'.
Proof. induction 1; eauto using persist_step_inv. Qed.
Lemma persist_inv_new store `{!StoreKeeps store} c h m :
  kept [] (h_tree h) → local_manager_new c (Some store) h = Ok m → persist_inv store (m, h).
Proof.
  intros Hkept H. destruct (kept_load [] (h_tree h) Hkept) as (r & Hr & Hp & Hkeys); [constructor..|].
  unfold local_manager_new in H. cbn [load_proxies disk_store] in H. rewrite Hr in H.
  injection H as <-. simpl in Hp. split_and!; [done| |].
  - split_and!; simpl; [intros pk s; by rewrite lookup_empty|intros []..]; simpl; rewrite ?Hp; simpl; intros *.
    1,2: by rewrite lookup_empty.
    1: specialize (Hkeys Bls id). 2: specialize (Hkeys Ecdsa id).
    all: simpl in Hkeys; rewrite lookup_empty in Hkeys; intros Hk; rewrite Hk in Hkeys; inversion Hkeys.
  - exists []. by split_and!; [|constructor..|].
Qed.

(** C11: Proxies survive a restart.  Start a manager on an empty store and add keys and create
    proxies, for any modules whose id is the name of a file, with keys that are not in use.
    No creation for a known delegator fails, and a manager that is started again from the
    disk has exactly the same proxies with the same delegations, and for each module the same
    keys, in an order that depends on the file system. *)
Theorem proxies_survive_restart store `{!StoreKeeps store} c h0 m0 m h :
  kept [] (h_tree h0) → local_manager_new c (Some store) h0 = Ok m0 →
  rtc persist_step (m0, h0) (m, h) →
  (∃ m1, local_manager_new c (Some store) h = Ok m1 ∧ proxy_signers m1 = proxy_signers m ∧
     ∀ S id, option_Forall2 (≡ₚ) (keys_of m1 S !! id) (keys_of m S !! id)) ∧
  (∀ S (signer : scheme_signer S) id dl,
     valid_module id → signers_of m S !! signer_id signer = None → is_Some (consensus_signers m !! dl) →
     ∃ m' h' d, create_proxy m h signer id dl = (m', h', Ok d)).
Proof.
  intros Hkept Hnew Hrun.
  assert (persist_inv store (m, h)) as (Hstore & Hwf & l & Hk & Hnd & Hst & Hl).
  { apply (persist_reachable store (m0, h0)); [done|by eapply persist_inv_new]. }
  simpl in *. split.
  - destruct (kept_load l (h_tree h) Hk Hnd Hst) as (r & Hr & Hrl).
    unfold local_manager_new. cbn [load_proxies disk_store]. rewrite Hr. eexists. split; [done|].
    rewrite <- Hl in Hrl. destruct Hrl as [Hp Hkeys]. split; [exact Hp|].
    intros []; [apply (Hkeys Bls)|apply (Hkeys Ecdsa)].
  - intros S signer id dl Hid Hnone Hdl.
    destruct (create_proxy_kept store m h signer id dl l) as (d & h' & Hc & _); [done..| |done|].
    + by eapply unused_key_new.
    + eauto.
Qed.
End Persistence.

(** ** A run on an encrypted store *)

Module PersistSample.

Definition plain_ecdsa : EcdsaLib := {|
  PrivateKeySigner := bytes; EcdsaSignature := bytes * B256; EcdsaError := ();
  ec_from_slice b := Ok b; ec_to_bytes sk := sk; ec_address sk := take 20 sk;
  sign_hash_sync sk h := Ok (take 20 sk, h);
  recover_address_from_prehash s h := if decide (s.2 = h) then Ok s.1 else Err ();
|}.
#[local] Existing Instances sha256_tree_hash sized_bls plain_ecdsa.
#[local] Existing Instance sized_bls_correct.
#[local] Existing Instance sized_bls_sizes.

(** fields as hexadecimal text, separated by commas *)
Definition enc_fields (l : list bytes) : bytes := join_bytes x2c ((λ b : list byte, b ≫= hex_of_byte) <$> l).
Definition dec_fields (b : bytes) : option (list bytes) := mapM unhex (split_bytes x2c b).
Lemma dec_enc_fields l : l ≠ [] → dec_fields (enc_fields l) = Some l.
Proof.
  intros Hl. unfold dec_fields, enc_fields. rewrite split_join_bytes.
  - apply mapM_Some, Forall2_fmap_l, Forall_Forall2_diag, Forall_true. intros b. apply unhex_hex.
  - by destruct l.
  - apply Forall_fmap, Forall_true. intros b Hin. simpl in Hin. pose proof (hex_bytes b) as Hall.
    rewrite Forall_forall in Hall. apply Hall in Hin. by destruct Hin.
Qed.
Lemma join_bytes_forall (P : byte → Prop) sep parts :
  P sep → Forall (Forall P) parts → Forall P (join_bytes sep parts).
Proof.
  intros Hsep. induction 1 as [|p [|p' parts] Hp Hparts IH]; [constructor|done|].
  apply Forall_app. split; [done|]. by constructor.
Qed.
Lemma enc_fields_utf8 l : utf8_valid (enc_fields l) = true.
Proof.
  apply lossy_ascii, join_bytes_forall; [done|]. apply Forall_fmap, Forall_true. intros b.
  eapply Forall_impl; [apply hex_bytes|]. apply hex_value_ascii.
Qed.

(** stored proxies and keystores in that format, and encryption that hides nothing *)
Definition plain_json : ProxyJson := {|
  kd_to_vec S x := let d := kd_delegation x in
    Ok (enc_fields [kd_secret x; delegator (spd_message d); proxy (spd_message d); spd_signature d]);
  kd_from_str S b :=
    match dec_fields b with
    | Some [secret; dl; px; sg] =>
        Ok {| kd_secret := secret;
              kd_delegation := {| spd_message := {| delegator := dl; proxy := px |}; spd_signature := sg |} |}
    | _ => Err "invalid"%string
    end;
  delegation_to_vec d :=
    Ok (enc_fields [delegator (spd_message d); proxy (spd_message d); spd_signature d]);
  eip55 := hex_encode_prefixed;
|}.
Definition plain_keystores : KeystoreLib := {|
  ks_encrypt secret password salt iv := Ok (secret, []);
  ks_decrypt password ks := Ok (ks_cipher_text ks);
  decrypt_keypair ks password := Ok (ks_cipher_text ks);
  ks_to_string ks :=
    Ok (enc_fields [ks_salt ks; ks_iv ks; ks_checksum ks; ks_cipher_text ks; ks_uuid ks;
                    bytes_of_string (ks_pubkey ks);
                    match ks_description ks with Some d => x01 :: bytes_of_string d | None => [] end]);
  ks_from_json b :=
    match dec_fields b with
    | Some [salt; iv; checksum; cipher_text; uuid; pubkey; description] =>
        Ok {| ks_salt := salt; ks_iv := iv; ks_checksum := checksum; ks_cipher_text := cipher_text;
              ks_uuid := uuid; ks_pubkey := string_of_bytes pubkey;
              ks_description := match description with [] => None | _ :: d => Some (string_of_bytes d) end |}
    | _ => Err "invalid"%string
    end;
|}.
Definition no_faults : DiskFaults := {|
  mkdir_fails _ := false; create_fails _ := false; write_stops _ _ := None |}.
#[local] Existing Instances plain_json plain_keystores plain_hex no_faults.
#[local] Instance no_faults_reliable : DiskReliable.
Proof. by split. Qed.
#[local] Instance plain_store_correct : StoreCorrect.
Proof.
  split; [done|done| |].
  - intros S x. eexists. split_and!; [done|apply enc_fields_utf8|]. simpl. rewrite dec_enc_fields by done.
    by destruct x as [? [[] ?]].
  - intros a. apply hex_lower.
Qed.
#[local] Instance plain_keystores_correct : KeystoreCorrect.
Proof.
  split; [by intros; do 2 eexists| |by intros ks pw sk H _|].
  - intros ks. eexists. split; [done|]. simpl. rewrite dec_enc_fields by done.
    rewrite string_of_bytes_of_string. destruct ks as [? ? ? ? ? ? []]; simpl; by rewrite ?string_of_bytes_of_string.
  - intros b. cbn [hex_decode plain_hex]. by rewrite hex_encode_prefixed_bytes, unhex_hex.
Qed.

Definition store : ProxyStore := PSERC2335 "/keys" "/secrets".
Definition host0 : Host := {|
  h_tree := {[ ["keys"] := DirNode; ["secrets"] := DirNode ]}%string;
  h_draws n := {| dr_password := [byte_of_Z (Z.of_nat n)]; dr_salt := [x01]; dr_iv := [x02]; dr_uuid := [x03] |};
  h_next := 0 |}.
Definition validator : BlsSigner := BlsLocal [x07].
Definition proxy_a : scheme_signer Bls := BlsLocal [x11].
Definition proxy_b : scheme_signer Ecdsa := EcdsaLocal [x22].
Definition m0 : LocalSigningManager := {|
  lm_chain := Holesky; lm_proxy_store := Some store; consensus_signers := ∅; proxy_signers := no_proxies;
  proxy_pubkeys_bls := ∅; proxy_addresses_ecdsa := ∅ |}.
Definition m1 := add_consensus_signer m0 validator.
Definition made_a := create_proxy m1 host0 proxy_a "MODULE_A" (bls_signer_pubkey validator).
Definition made_b := create_proxy made_a.1.1 made_a.1.2 proxy_b "MODULE_B" (bls_signer_pubkey validator).

Lemma host0_lookup q node : h_tree host0 !! q = Some node → q = ["keys"%string] ∨ q = ["secrets"%string].
Proof.
  cbn [h_tree host0]. intros [[<- _]|[_ [<- _]%lookup_singleton_Some]]%lookup_insert_Some; auto.
Qed.
Lemma host0_wf : tree_wf (h_tree host0).
Proof.
  split; [by vm_compute|]. intros name p [node [[= -> ->]|[= -> ->]]%host0_lookup]; by vm_compute.
Qed.
Lemma host0_holds d : d ∈ ["keys"; "secrets"]%string → holds [d] [] (h_tree host0).
Proof.
  intros Hd. apply holds_empty; [apply host0_wf| |].
  - repeat (apply elem_of_cons in Hd as [->|Hd]); [by vm_compute..|by apply not_elem_of_nil in Hd].
  - intros q Hq. destruct (h_tree host0 !! (q ++ [d])) eqn:E; [|done]. exfalso.
    apply host0_lookup in E as [E|E]; apply (f_equal length) in E; rewrite length_app in E;
      destruct q; simpl in E; [done|lia|done|lia].
Qed.
Lemma empty_dirs : kept (store := store) [] (h_tree host0).
Proof.
  exists []. split; [done|]. split_and!.
  - intros q q' Heq. apply app_inj_tail in Heq as [_ Heq]. discriminate Heq.
  - apply (host0_holds "keys"). set_solver.
  - apply (host0_holds "secrets"). set_solver.
Qed.
Lemma sample_module_valid (id : string) :
  id ∈ ["MODULE_A"; "MODULE_B"]%string → valid_module id.
Proof.
  intros Hid. repeat (apply elem_of_cons in Hid as [->|Hid]); [..|by apply not_elem_of_nil in Hid];
    (split; [split_and!; [done..|vm_compute; set_solver]|by vm_compute]).
Qed.

Lemma create_step {S} m h (signer : scheme_signer S) id dl :
  valid_module id → signers_of m S !! signer_id signer = None →
  persist_step (m, h) (create_proxy m h signer id dl).1.
Proof.
  intros Hid Hnone. destruct (create_proxy (PS := disk_store) m h signer id dl) as [[m' h'] r] eqn:E.
  by eapply persist_create.
Qed.
Lemma sample_run : rtc persist_step (m0, host0) made_b.1.
Proof.
  eapply rtc_l; [apply (persist_key _ _ validator)|].
  apply (rtc_l _ _ made_a.1).
  { apply create_step; [apply sample_module_valid; set_solver|by vm_compute]. }
  apply rtc_once. rewrite (surjective_pairing made_a.1).
  apply create_step; [apply sample_module_valid; set_solver|by vm_compute].
Qed.

Lemma proxies_survive_restart_witness :
  ∃ m, local_manager_new Holesky (Some store) made_b.1.2 = Ok m ∧
    proxy_signers m = proxy_signers made_b.1.1 ∧
    has_proxy_for_module Bls m (signer_id proxy_a) "MODULE_A" = true.
Proof.
  destruct (proxies_survive_restart store Holesky host0 m0 made_b.1.1 made_b.1.2) as [(m & Hm & Hp & Hk) _].
  - exact empty_dirs.
  - vm_compute. reflexivity.
  - rewrite <- surjective_pairing. exact sample_run.
  - exists m. split; [exact Hm|split; [exact Hp|]].
    specialize (Hk Bls "MODULE_A"%string). unfold has_proxy_for_module.
    assert (keys_of made_b.1.1 Bls !! "MODULE_A"%string = Some [signer_id proxy_a]) as E by (vm_compute; reflexivity).
    rewrite E in Hk. destruct (keys_of m Bls !! "MODULE_A"%string) as [l|]; [|inversion Hk].
    apply bool_decide_eq_true. assert (l ≡ₚ [signer_id proxy_a]) as Hl by by inversion Hk.
    rewrite Hl. left.
Defined.

(** A write that stops half-way is reported, but what it left makes the next start fail. *)
Definition torn_disk : DiskFaults := {|
  mkdir_fails _ := false; create_fails _ := false; write_stops _ _ := Some 10%nat |}.
Example torn_write_blocks_restart :
  let store := PSFile "/keys" in
  let m := {| lm_chain := Holesky; lm_proxy_store := Some store; consensus_signers := ∅;
              proxy_signers := no_proxies; proxy_pubkeys_bls := ∅; proxy_addresses_ecdsa := ∅ |} in
  let '(m', h', r) := create_proxy (PS := disk_store (DF := torn_disk)) (add_consensus_signer m validator)
                        host0 proxy_a "MODULE_A" (bls_signer_pubkey validator) in
  is_ok r = false ∧ is_ok (local_manager_new Holesky (Some store) host0) = true ∧
  is_ok (local_manager_new Holesky (Some store) h') = false.
Proof. vm_compute. auto. Qed.
End PersistSample.
