(* ===== verification/Threshold.v ===== *)
(** * Recovery of a threshold signature from its shares

    The arithmetic of [aggregate_partial_signatures] of
    src/crates/signer/src/manager/dirk.rs: the Lagrange interpolation at zero
    that turns the partial signatures of a distributed account into the
    signature of its composite key.  The scalar field and the group are those
    of the [blsful] crate; here they are two records of operations, with no
    law, so that [recover] runs on any implementation of them.

    [Shared] is the interface between the two files that require this one.
    Lagrange.v proves that polynomial shares over a field satisfy it; Dirk.v
    proves, against it, what a distributed signature request returns. *)

From Stdlib Require Import List ZArith.
Import ListNotations.
Open Scope Z_scope.

(** The operations of [Scalar] used by the code: [From<u32>], [Mul], [Sub] and
    the inversion, which fails on zero. *)
Record ScalarOps (F : Type) : Type := MkScalarOps {
  from_u32 : Z -> F;
  scalar_mul : F -> F -> F;
  scalar_sub : F -> F -> F;
  invert : F -> option F;
}.

(** The operations of [G2Projective]: [identity], [Add] and the
    multiplication of a point by a scalar. *)
Record PointOps (F G : Type) : Type := MkPointOps {
  identity : G;
  point_add : G -> G -> G;
  point_mul : G -> F -> G;
}.

Arguments from_u32 {F} _ _.
Arguments scalar_mul {F} _ _ _.
Arguments scalar_sub {F} _ _ _.
Arguments invert {F} _ _.
Arguments identity {F G} _.
Arguments point_add {F G} _ _ _.
Arguments point_mul {F G} _ _ _.

Section Recover.
Context {F G : Type} (S : ScalarOps F) (P : PointOps F G).

(** The inner loop over [shares.keys()]: both products skip the identifier
    itself. *)
Fixpoint lagrange_products (id : Z) (keys : list Z) (numerator denominator : F) : F * F :=
  match keys with
  | [] => (numerator, denominator)
  | other_id :: rest =>
      if other_id =? id then lagrange_products id rest numerator denominator
      else lagrange_products id rest
             (scalar_mul S numerator (from_u32 S other_id))
             (scalar_mul S denominator (scalar_sub S (from_u32 S other_id) (from_u32 S id)))
  end.

Definition lagrange_coeff (id : Z) (keys : list Z) : option F :=
  let '(numerator, denominator) := lagrange_products id keys (from_u32 S 1) (from_u32 S 1) in
  match invert S denominator with
  | Some d => Some (scalar_mul S numerator d)
  | None => None
  end.

(** The outer loop over [&shares]; [keys] are the keys of the whole map. *)
Fixpoint recover_loop (keys : list Z) (shares : list (Z * G)) (recovered : G) : option G :=
  match shares with
  | [] => Some recovered
  | (id, point) :: rest =>
      match lagrange_coeff id keys with
      | None => None
      | Some c => recover_loop keys rest (point_add P recovered (point_mul P point c))
      end
  end.

(** [shares] is the listing of the hash map, in the order its iterators
    follow. *)
Definition recover (shares : list (Z * G)) : option G :=
  recover_loop (map fst shares) shares (identity P).

(** What the participants of an account promise to its users: whichever
    [threshold] of them answer, and in whatever order their shares are
    listed, the recovery gives the same point. *)
Class Shared (participants : list Z) (threshold : nat) (share : Z -> G) (master : G) : Prop :=
  shared_recover : forall ids, NoDup ids -> incl ids participants -> (threshold <= length ids)%nat ->
    recover (map (fun id => (id, share id)) ids) = Some master.

End Recover.
