(* ===== verification/Lagrange.v ===== *)
(** * Lagrange interpolation over a field

    MathComp's algebra discharges the interface [Shared] of Threshold.v: when
    the identifiers map to distinct scalars and every share is a point of one
    polynomial of degree below the threshold, [recover] returns the value of
    the polynomial at zero, for every set of enough shares and every listing
    of them. *)

From Stdlib Require Import List ZArith.
From HB Require Import structures.
From mathcomp Require Import boot zmodp poly ssralg.
From S2P Require Import Threshold.

Set Implicit Arguments.
Unset Strict Implicit.
Unset Printing Implicit Defensive.
Import GRing.Theory.
Open Scope ring_scope.

(** The identifiers, [u32] values in [Z], as an [eqType]. *)
Lemma Z_eqbP : Equality.axiom Z.eqb.
Proof. by move=> a b; apply: (iffP idP) => /Z.eqb_eq. Qed.

Delimit Scope Z_scope with Zn.

HB.instance Definition _ := hasDecEq.Build Z Z_eqbP.

(** The operations of Threshold.v in a field and in a module over it. *)
Definition field_ops (F : fieldType) (of_id : Z -> F) : ScalarOps F :=
  @MkScalarOps F of_id *%R (fun a b => a - b) (fun a => if a == 0 then None else Some a^-1).

Definition module_ops (F : fieldType) (V : lmodType F) : PointOps F V :=
  @MkPointOps F V 0 +%R (fun v a => a *: v).

Section Interpolation.
Variables (F : fieldType) (V : lmodType F) (of_id : Z -> F).
Hypothesis of_id1 : of_id 1%Zn = 1.

Notation S := (field_ops of_id).
Notation P := (module_ops V).

(** The basis polynomial of an identifier among the identifiers [ids]. *)
Definition basis (ids : seq Z) (i : Z) : {poly F} :=
  \prod_(j <- ids | j != i) ((of_id j - of_id i)^-1 *: ((of_id j)%:P - 'X)).

Lemma lagrange_productsE i ids (a b : F) :
  lagrange_products S i ids a b =
    (a * \prod_(j <- ids | j != i) of_id j,
     b * \prod_(j <- ids | j != i) (of_id j - of_id i)).
Proof.
elim: ids a b => [|j ids IH] a b /=; first by rewrite !big_nil !mulr1.
by rewrite !big_cons; rewrite -[(j =? i)%Zn]/(j == i); case: (j == i) => /=; rewrite IH // !mulrA.
Qed.

Variable ids : seq Z.
Hypothesis of_id_inj : {in ids &, injective of_id}.
Hypothesis ids_uniq : uniq ids.

Lemma differ_neq0 i j : i \in ids -> j \in ids -> j != i -> of_id j - of_id i != 0.
Proof.
move=> ii jj ne; rewrite subr_eq0; apply: contra ne => /eqP e.
by apply/eqP; apply: of_id_inj.
Qed.

Lemma denominator_neq0 i : i \in ids ->
  \prod_(j <- ids | j != i) (of_id j - of_id i) != 0.
Proof.
move=> ii; rewrite prodf_seq_neq0; apply/allP => j jj.
by apply/implyP; apply: differ_neq0.
Qed.

(** The coefficient the code computes is the basis polynomial at zero. *)
Lemma lagrange_coeffE i : i \in ids -> lagrange_coeff S i ids = Some (basis ids i).[0].
Proof.
move=> ii; rewrite /lagrange_coeff lagrange_productsE /= of_id1 !mul1r.
rewrite (negPf (denominator_neq0 ii)); congr Some.
rewrite /basis horner_prod -prodfV -big_split /=.
by apply: eq_bigr => j _; rewrite hornerZ hornerD hornerN hornerX hornerC subr0 mulrC.
Qed.

Lemma basis_diag i : i \in ids -> (basis ids i).[of_id i] = 1.
Proof.
move=> ii; rewrite /basis horner_prod big_seq_cond big1 // => j /andP[jj ne].
rewrite hornerZ hornerD hornerN hornerX hornerC mulVf //.
exact: differ_neq0.
Qed.

Lemma basis_off i j : i \in ids -> j \in ids -> i != j -> (basis ids i).[of_id j] = 0.
Proof.
move=> ii jj ne; rewrite /basis horner_prod; apply/eqP.
rewrite prodf_seq_eq0; apply/hasP; exists j => //.
by rewrite eq_sym ne hornerZ hornerD hornerN hornerX hornerC subrr mulr0 eqxx.
Qed.

Lemma size_prod_linear (s : seq Z) (Q : pred Z) (f : Z -> {poly F}) :
  (forall j, (size (f j) <= 2)%N) -> (size (\prod_(j <- s | Q j) f j)%R <= (count Q s).+1)%N.
Proof.
move=> f2; elim: s => [|j s IH]; first by rewrite big_nil size_poly1.
rewrite big_cons /=; case: (Q j) => //=.
apply: leq_trans (size_polyMleq _ _) _; rewrite -subn1 leq_subLR.
by apply: leq_trans (leq_add (f2 j) IH) _; rewrite addnS.
Qed.

Lemma size_basis i : i \in ids -> (size (basis ids i) <= size ids)%N.
Proof.
move=> ii; apply: leq_trans (size_prod_linear _ _ _) _ => [j|].
  apply: leq_trans (size_scale_leq _ _) _.
  by rewrite -opprB size_polyN size_XsubC.
have := count_predC (pred1 i) ids; rewrite (count_uniq_mem _ ids_uniq) ii => <-.
by rewrite add1n.
Qed.

(** Interpolation: a polynomial with fewer coefficients than there are
    identifiers is the combination of the basis polynomials by its values. *)
Lemma interpolation (p : {poly F}) : (size p <= size ids)%N ->
  p = \sum_(i <- ids) p.[of_id i] *: basis ids i.
Proof.
move=> sp; apply/eqP; rewrite -subr_eq0; apply/eqP.
apply: (@roots_geq_poly_eq0 _ _ (map of_id ids)).
- apply/allP => _ /mapP[j jj ->]; rewrite /root hornerD hornerN horner_sum.
  rewrite (bigD1_seq j) //= big_seq_cond big1 => [i /andP[ii ne]|].
    by rewrite hornerZ basis_off // mulr0.
  by rewrite addr0 hornerZ (basis_diag jj) mulr1 subrr eqxx.
- by rewrite map_inj_in_uniq.
- rewrite size_map; apply: leq_trans (size_polyD _ _) _; rewrite geq_max sp size_polyN /=.
  rewrite big_seq; elim/big_ind: _ => [|a b sa sb|i ii]; first by rewrite size_poly0.
    by apply: leq_trans (size_polyD _ _) _; rewrite geq_max sa.
  by apply: leq_trans (size_scale_leq _ _) (size_basis ii).
Qed.

Lemma recover_loopE (s : seq Z) (share : Z -> V) (v : V) : {subset s <= ids} ->
  recover_loop S P ids (List.map (fun i => (i, share i)) s) v =
    Some (v + \sum_(i <- s) (basis ids i).[0] *: share i).
Proof.
elim: s v => [|i s IH] v sub /=; first by rewrite big_nil addr0.
rewrite lagrange_coeffE ?sub ?mem_head // IH => [j js|].
  by rewrite sub // in_cons js orbT.
by rewrite big_cons addrA.
Qed.

Lemma recover_polynomial (p : {poly F}) (h : V) : (size p <= size ids)%N ->
  recover S P (List.map (fun i => (i, p.[of_id i] *: h)) ids) = Some (p.[0] *: h).
Proof.
move=> sp; rewrite /recover List.map_map List.map_id recover_loopE // add0r.
rewrite [X in Some (X.[0] *: h)](interpolation sp) horner_sum scaler_suml.
by congr Some; apply: eq_bigr => i _; rewrite hornerZ scalerA mulrC.
Qed.

End Interpolation.

(** The Standard Library's membership and duplicate-freeness, as the boolean
    ones. *)
Lemma mem_In (i : Z) (s : seq Z) : i \in s <-> List.In i s.
Proof.
elim: s => //= j s IH; rewrite in_cons; split.
  by case/orP=> [/eqP->|/IH]; [left | right].
by case=> [->|/IH->]; rewrite ?eqxx ?orbT.
Qed.

Lemma NoDup_uniq (s : seq Z) : List.NoDup s -> uniq s.
Proof. by elim=> //= i {}s ni _ ->; rewrite andbT; apply/negP => /mem_In. Qed.

(** ** The interface of Threshold.v

    A dealer's polynomial [p] of at most [t] coefficients, the point [h] of
    the signed message: participant [i] signs with [p.[i]] and the composite
    key with [p.[0]]. *)
Section Sharing.
Variables (F : fieldType) (V : lmodType F) (of_id : Z -> F).
Variables (participants : seq Z) (t : nat) (p : {poly F}) (h : V).
Hypothesis of_id1 : of_id 1%Zn = 1.
Hypothesis of_id_inj : {in participants &, injective of_id}.
Hypothesis size_p : (size p <= t)%N.

#[global] Instance polynomial_shared :
  Shared (field_ops of_id) (module_ops V) participants t (fun i => p.[of_id i] *: h) (p.[0] *: h).
Proof.
move=> ids nd sub le; apply: recover_polynomial => //.
- by move=> i j /mem_In/sub/mem_In ii /mem_In/sub/mem_In jj; apply: of_id_inj.
- exact: NoDup_uniq.
- by apply: leq_trans size_p _; apply/leP.
Qed.

End Sharing.

(** ** Scalars of the curve

    [Scalar::from] of a [u32] is its class modulo the order of the group, a
    prime.  The order of the curve's group is above 2^32, so that distinct
    identifiers keep distinct scalars and no identifier but zero is the zero
    scalar. *)
Definition scalar_of_u32 (q : nat) (i : Z) : 'F_q := (Z.to_nat i)%:R.

Definition below (q : nat) (i : Z) : Prop := (0 <= i < Z.of_nat q)%Zn.

Lemma u32_below (q : nat) (i : Z) :
  (2 ^ 32 <= Z.of_nat q)%Zn -> (0 <= i < 2 ^ 32)%Zn -> below q i.
Proof. by move=> big [i0 i1]; split=> //; apply: Z.lt_le_trans big. Qed.

Lemma scalar_val (q : nat) (i : Z) : prime q -> below q i ->
  (val (scalar_of_u32 q i) : nat) = Z.to_nat i.
Proof.
move=> pq [i0 iq]; rewrite [LHS](val_Fp_nat pq) modn_small //.
by apply/ltP/Nat2Z.inj_lt; rewrite Z2Nat.id.
Qed.

Lemma scalar_inj (q : nat) (i j : Z) : prime q -> below q i -> below q j ->
  scalar_of_u32 q i = scalar_of_u32 q j -> i = j.
Proof.
move=> pq bi bj /(congr1 val); rewrite !scalar_val // => /(congr1 Z.of_nat).
by case: bi bj => [i0 _] [j0 _]; rewrite !Z2Nat.id.
Qed.

Lemma shares_recover (q : nat) (V : lmodType 'F_q) (p : {poly 'F_q}) (h : V)
    (participants ids : list Z) (threshold : nat) :
  prime q -> List.Forall (below q) participants -> (size p <= threshold)%N ->
  List.NoDup ids -> List.incl ids participants -> (threshold <= List.length ids)%N ->
  recover (field_ops (scalar_of_u32 q)) (module_ops V)
    (List.map (fun i => (i, p.[scalar_of_u32 q i] *: h)) ids) = Some (p.[0] *: h).
Proof.
move=> pq /List.Forall_forall b sp nd sub le.
apply: (@polynomial_shared _ V _ participants threshold p h _ _ sp) => // [i j|]; last exact/leP.
by move=> /mem_In/b bi /mem_In/b bj; apply: scalar_inj.
Qed.

(** C12: Threshold recovery: over a scalar field of prime order [q], take a
    polynomial [p] of at most [threshold] coefficients and participants with
    identifiers below [q].  When participant [i] signs the point [h] with its
    share [p.[i]], the interpolation loop of [aggregate_partial_signatures],
    run on the shares of any [threshold] or more distinct participants and in
    any order of the hash map, never fails to invert and returns [p.[0] *: h],
    the signature of the composite key. *)
Theorem aggregate_recovers (q : nat) (V : lmodType 'F_q) (p : {poly 'F_q}) (h : V)
    (participants ids : list Z) (threshold : nat) :
  prime q -> List.Forall (below q) participants -> (size p <= threshold)%N ->
  List.NoDup ids -> List.incl ids participants -> (threshold <= List.length ids)%N ->
  recover (field_ops (scalar_of_u32 q)) (module_ops V)
    (List.map (fun i => (i, p.[scalar_of_u32 q i] *: h)) ids) = Some (p.[0] *: h).
Proof. exact: shares_recover. Qed.

(** Another polynomial through the points of fewer than [t] identifiers other
    than zero, with any value at zero *)
Lemma other_secret (q : nat) (p : {poly 'F_q}) (ids : list Z) (t : nat) (s : 'F_q) :
  prime q -> List.Forall (fun i => below q i /\ i <> 0%Zn) ids ->
  (size p <= t)%N -> (List.length ids < t)%N ->
  exists p' : {poly 'F_q}, [/\ (size p' <= t)%N, p'.[0] = s &
    forall i, List.In i ids -> p'.[scalar_of_u32 q i] = p.[scalar_of_u32 q i]].
Proof.
move=> pq /List.Forall_forall b sp few.
pose z : {poly 'F_q} := \prod_(a <- map (scalar_of_u32 q) ids) ('X - a%:P).
have z0 : z.[0] != 0.
  rewrite -/(root z 0) root_prod_XsubC; apply/mapP => -[i /mem_In/b[bi i0] e]; apply: i0.
  by apply: (@scalar_inj q) => //; split=> //; case: bi; apply: Z.le_lt_trans.
exists (p + ((s - p.[0]) / z.[0]) *: z); split.
- apply: leq_trans (size_polyD _ _) _; rewrite geq_max sp.
  by apply: leq_trans (size_scale_leq _ _) _; rewrite size_prod_XsubC size_map.
- by rewrite hornerD hornerZ divfK // addrC subrK.
- move=> i /mem_In ii; rewrite hornerD hornerZ.
  suff /eqP-> : z.[scalar_of_u32 q i] == 0 by rewrite mulr0 addr0.
  by rewrite -/(root z _) root_prod_XsubC map_f.
Qed.


(** ** A sharing over the field of seven elements

    The secret 3 under the polynomial 3 + 2 X, shared between the participants
    1, 2 and 3 with threshold 2. *)
Module LagrangeSample.

Definition dealer : {poly 'F_7} := Poly [:: 3%:R; 2%:R].

Definition message : ('F_7)^o := 1.

Lemma size_dealer : (size dealer <= 2)%N.
Proof. exact: size_Poly. Qed.

Lemma participants_below : List.Forall (below 7) [:: 1; 2; 3]%Zn.
Proof. by repeat constructor. Qed.

Lemma aggregate_recovers_witness :
  recover (field_ops (scalar_of_u32 7)) (module_ops _)
    (List.map (fun i => (i, dealer.[scalar_of_u32 7 i] *: message)) [:: 3; 1]%Zn)
  = Some (dealer.[0] *: message).
Proof.
apply: (@aggregate_recovers 7 _ dealer message [:: 1; 2; 3]%Zn [:: 3; 1]%Zn 2).
- by [].
- exact: participants_below.
- exact: size_dealer.
- by repeat constructor; rewrite /=; intuition.
- by move=> i /= [<-|[<-|[]]]; [right; right; left | left].
- by [].
Defined.


(** The shares of the sample are computed: participant 3 holds 9 = 2, and
    one share alone does not give the secret. *)
Example single_share_differs :
  recover (field_ops (scalar_of_u32 7)) (module_ops _)
    [:: (3%Zn, dealer.[scalar_of_u32 7 3%Zn] *: message)] <> Some (dealer.[0] *: message).
Proof. by rewrite /dealer !horner_Poly /= => -[]. Qed.

End LagrangeSample.
