(* ===== verification/Dirk.v ===== *)
(** * The Dirk signing manager

    Models [crates/signer/src/manager/dirk.rs]; the messages it sends are those of Proto.v.
    The keys stay on remote Dirk hosts; a distributed account is spread over several of them
    and signs when [threshold] of its participants answer.  The manager is the record
    [DirkManager] and its methods thread the file system, where they leave passwords and
    delegations.

    The transport, the curve and the UUID parser are the class [DirkLib].  What the hosts
    answer during one call, and in which order, is a [DirkWorld]: a call never sends the same
    request twice over one channel, so that its answers are functions of the channel and the
    request, and every request is answered or fails in the end. *)

From S2P Require Import Prelude Bytes Text Jwt Chain Signature PbsTypes Http Relay Commit.
From S2P Require Import PbsConfig SignerConfig LocalManager FileSystem ProxyStore Threshold Proto.

(** ** The libraries and the hosts *)

Record ClientTlsConfig := {
  tls_identity : string * string; tls_ca_certificate : option string; tls_domain_name : option string;
}.

Class DirkLib := {
  Channel : Type;
  TonicEndpoint : Type;
  (** [Channel::from_shared] and [Endpoint::tls_config] *)
  channel_from_shared : string → Result string TonicEndpoint;
  endpoint_tls_config : TonicEndpoint → ClientTlsConfig → Result string TonicEndpoint;
  (** [uuid::Uuid::parse_str(s).is_ok()] *)
  uuid_parses : string → bool;
  (** the scalars and points of [blsful], and the compressed encoding of points *)
  Scalar : Type;
  G2 : Type;
  scalar_ops : ScalarOps Scalar;
  point_ops : PointOps Scalar G2;
  from_compressed : bytes → option G2;
  to_compressed : G2 → bytes;
}.

Record DirkWorld {DL : DirkLib} := {
  dw_connect : TonicEndpoint → Result string Channel;
  dw_list_accounts : Channel → ListAccountsRequest → Result string ListAccountsResponse;
  dw_sign : Channel → DirkSignRequest → Result string SignResponse;
  dw_generate : Channel → GenerateRequest → Result string GenerateResponse;
  dw_unlock : Channel → UnlockAccountRequest → Result string UnlockAccountResponse;
  (** the order in which concurrent requests to the participants complete *)
  dw_order : list (Z * Channel) → list (Z * Channel);
  dw_order_perm : ∀ l, dw_order l ≡ₚ l;
  (** the UUID and the random bytes the call draws *)
  dw_uuid : string;
  dw_random : bytes;
}.

Section Dirk.
Context {TH : TreeHashLib} {BL : BlsLib} {EC : EcdsaLib} {UL : UrlLib} {DL : DirkLib}.
Context {HOb : HashOrder bytes} {HOz : HashOrder Z}.

(** ** Accounts *)

Record SimpleAccount := { sa_public_key : BlsPublicKey; sa_connection : Channel; sa_name : string }.
Record DistributedAccount := {
  composite_public_key : BlsPublicKey; participants : gmap Z Channel; threshold : Z;
  da_name : string;
}.
Inductive Account : Type :=
| Simple (account : SimpleAccount)
| Distributed (account : DistributedAccount).
Definition account_name (a : Account) : string :=
  match a with Simple a => sa_name a | Distributed a => da_name a end.
Definition account_public_key (a : Account) : BlsPublicKey :=
  match a with Simple a => sa_public_key a | Distributed a => composite_public_key a end.

Record ProxyAccount := { pr_consensus : Account; pr_module : ModuleId; pr_inner : Account }.

Record DirkManager := {
  dk_chain : Chain;
  consensus_accounts : gmap bytes Account;
  proxy_accounts : gmap bytes ProxyAccount;
  secrets_path : string;
  delegations_store : option ProxyStore;
}.

Definition name_matches_proxy (name : string) : bool :=
  (3 <? length (split x2f name))%nat &&
  match rsplit_once x2f name with Some (_, name) => uuid_parses name | None => false end.

(** [BlsSignature::try_from] of a slice *)
Definition signature_try_from (b : bytes) : Result string BlsSignature :=
  if decide (length b = 96%nat) then Ok b else Err "could not convert slice to array".

(** ** Loading the accounts *)

Definition connect (w : DirkWorld) (server : DirkHostConfig) (client : string * string)
    (ca : option string) : Result Report Channel :=
  let tls_config := {| tls_identity := client; tls_ca_certificate := ca;
                       tls_domain_name := server_name server |} in
  endpoint ← map_err Message (channel_from_shared (dh_url server));
  endpoint ← map_err Message (endpoint_tls_config endpoint tls_config);
  map_err Message (dw_connect w endpoint).

(** one turn of the loop of [load_simple_accounts] *)
Definition load_simple_account (channel : Channel) (accounts : gmap bytes Account)
    (account : ProtoAccount) : gmap bytes Account :=
  if name_matches_proxy (pa_name account) then accounts
  else match pubkey_try_from (pa_public_key account) with
       | Ok public_key =>
           <[public_key := Simple {| sa_public_key := public_key; sa_connection := channel;
                                     sa_name := pa_name account |}]> accounts
       | Err _ => accounts
       end.
Definition load_simple_accounts (l : list ProtoAccount) (channel : Channel)
    (accounts : gmap bytes Account) : gmap bytes Account :=
  fold_left (load_simple_account channel) l accounts.

(** [participant_id as u32] *)
Definition as_u32 (x : Z) : Z := x mod 2 ^ 32.

(** one turn of the loop of [load_distributed_accounts] *)
Definition load_distributed_account (host_name : string) (channel : Channel)
    (accounts : gmap bytes Account) (account : ProtoDistributedAccount)
    : Result Report (gmap bytes Account) :=
  if name_matches_proxy (pd_name account) then Ok accounts
  else
    match pubkey_try_from (pd_composite_public_key account) with
    | Err _ => Ok accounts
    | Ok public_key =>
        match list_find (λ p, ep_name p = host_name) (pd_participants account) with
        | None => Ok accounts
        | Some (_, {| ep_id := participant_id |}) =>
            if participant_id =? 0 then Ok accounts
            else
              match accounts !! public_key with
              | Some (Distributed a) =>
                  Ok (<[public_key := Distributed
                        {| composite_public_key := composite_public_key a;
                           participants := <[as_u32 participant_id := channel]> (participants a);
                           threshold := threshold a; da_name := da_name a |}]> accounts)
              | None =>
                  Ok (<[public_key := Distributed
                        {| composite_public_key := public_key;
                           participants := {[as_u32 participant_id := channel]};
                           threshold := pd_signing_threshold account;
                           da_name := pd_name account |}]> accounts)
              | Some (Simple _) =>
                  Err (Message "Distributed public key already exists for simple account")
              end
        end
    end.
(** the loop: an error leaves the accounts loaded so far in the map *)
Fixpoint load_distributed_loop (host_name : string) (channel : Channel)
    (l : list ProtoDistributedAccount) (accounts : gmap bytes Account)
    : gmap bytes Account * Result Report () :=
  match l with
  | [] => (accounts, Ok ())
  | account :: l =>
      match load_distributed_account host_name channel accounts account with
      | Ok accounts => load_distributed_loop host_name channel l accounts
      | Err e => (accounts, Err e)
      end
  end.
Definition load_distributed_accounts (l : list ProtoDistributedAccount) (host : DirkHostConfig)
    (channel : Channel) (accounts : gmap bytes Account) : gmap bytes Account * Result Report () :=
  match (match server_name host with Some n => Some n | None => url_host (dh_url host) end) with
  | None => (accounts, Err (Message ("Host name not found for server " +:+ dh_url host)))
  | Some host_name => load_distributed_loop host_name channel l accounts
  end.

(** one turn of the loop of [DirkManager::new] *)
Definition load_host (w : DirkWorld) (config : DirkConfig) (accounts : gmap bytes Account)
    (host : DirkHostConfig) : gmap bytes Account :=
  match connect w host (dk_client_cert config) (dk_cert_auth config) with
  | Err _ => accounts
  | Ok channel =>
      match dw_list_accounts w channel {| paths := wallets host |} with
      | Err _ => accounts
      | Ok response =>
          if decide (response_state (la_state response) = Succeeded) then
            let accounts := load_simple_accounts (la_accounts response) channel accounts in
            fst (load_distributed_accounts (la_distributed_accounts response) host channel accounts)
          else accounts
      end
  end.

Definition dirk_manager_new (w : DirkWorld) (chain : Chain) (config : DirkConfig)
    : Result Report DirkManager :=
  Ok {| dk_chain := chain;
        consensus_accounts := fold_left (load_host w config) (dk_hosts config) ∅;
        proxy_accounts := ∅;
        secrets_path := dk_secrets_path config;
        delegations_store := None |}.

Definition with_proxy_store (self : DirkManager) (store : ProxyStore) : Result Report DirkManager :=
  match store with
  | PSERC2335 _ _ => Err (Message "ERC2335 proxy store not supported")
  | PSFile _ =>
      Ok {| dk_chain := dk_chain self; consensus_accounts := consensus_accounts self;
            proxy_accounts := proxy_accounts self; secrets_path := secrets_path self;
            delegations_store := Some store |}
  end.

(** [available_consensus_signers] and [available_proxy_signers] *)
Definition dirk_available_consensus (self : DirkManager) : nat := size (consensus_accounts self).
Definition dirk_available_proxies (self : DirkManager) : nat := size (proxy_accounts self).

(** [get_consensus_proxy_maps] *)
Definition dirk_proxy_maps (self : DirkManager) (module_id : ModuleId) : list ConsensusProxyMap :=
  (λ account,
    {| cpm_consensus := account_public_key account;
       proxy_bls := omap (λ proxy,
         if bool_decide (pr_module proxy = module_id) &&
            bool_decide (account_public_key (pr_consensus proxy) = account_public_key account)
         then Some (account_public_key (pr_inner proxy)) else None)
         (hash_values (proxy_accounts self));
       proxy_ecdsa := [] |}) <$> hash_values (consensus_accounts self).

(** ** Signing *)

(** the [data] of a sign request *)
Definition signing_data_of (object_root : B256) (module_signing_id : option B256) : bytes :=
  match module_signing_id with
  | Some id => tree_hash_root {| pc_data := object_root; module_signing_id := id |}
  | None => object_root
  end.

Definition request_simple_signature (w : DirkWorld) (self : DirkManager) (account : SimpleAccount)
    (object_root : B256) (module_signing_id : option B256) : Result SignerModuleError BlsSignature :=
  let domain := compute_domain (dk_chain self) COMMIT_BOOST_DOMAIN in
  let data := signing_data_of object_root module_signing_id in
  response ← map_err (λ e, DirkCommunicationError ("Failed to sign object: " +:+ e))
    (dw_sign w (sa_connection account)
       {| ds_data := data; ds_domain := domain; ds_id := Some (IdPublicKey (sa_public_key account)) |});
  _ ← ensure (bool_decide (response_state (sr_state response) = Succeeded))
        (DirkCommunicationError "Failed to sign object, server responded error");
  map_err (λ _, DirkCommunicationError "Failed to parse signature")
    (signature_try_from (sr_signature response)).

(** the signature a participant's answer carries, when it is one *)
Definition partial_of (answer : Result string SignResponse) : option BlsSignature :=
  match answer with
  | Err _ => None
  | Ok response =>
      if decide (response_state (sr_state response) = Succeeded)
      then result_ok (signature_try_from (sr_signature response))
      else None
  end.
(** the loop over the requests as they complete; it stops at the threshold *)
Fixpoint collect_partials (w : DirkWorld) (request : DirkSignRequest) (threshold : Z)
    (completed : list (Z * Channel)) (partials : list (BlsSignature * Z)) : list (BlsSignature * Z) :=
  match completed with
  | [] => partials
  | (participant_id, channel) :: completed =>
      match partial_of (dw_sign w channel request) with
      | None => collect_partials w request threshold completed partials
      | Some signature =>
          let partials := partials ++ [(signature, participant_id)] in
          if threshold <=? Z.of_nat (length partials) then partials
          else collect_partials w request threshold completed partials
      end
  end.

(** [to_string] of an error of [aggregate_partial_signatures] *)
Definition report_text (e : Report) : string := match e with Message msg => msg | _ => "" end.

(** the first loop of [aggregate_partial_signatures] *)
Definition add_share (shares : gmap Z G2) (partial : BlsSignature * Z) : Result Report (gmap Z G2) :=
  let '(signature, id) := partial in
  _ ← ensure (bool_decide (length signature = 96%nat)) (Message "Invalid signature length");
  affine ← ok_or (from_compressed signature) (Message "Failed to deserialize signature");
  Ok (<[id := affine]> shares).
Definition aggregate_partial_signatures (partials : list (BlsSignature * Z))
    : Result Report BlsSignature :=
  shares ← try_fold add_share ∅ partials;
  recovered ← ok_or (recover scalar_ops point_ops (hash_iter shares))
                (Message "Failed to get lagrange coefficient");
  Ok (to_compressed recovered).

Definition distributed_request (self : DirkManager) (account : DistributedAccount)
    (object_root : B256) (module_signing_id : option B256) : DirkSignRequest :=
  {| ds_data := signing_data_of object_root module_signing_id;
     ds_domain := compute_domain (dk_chain self) COMMIT_BOOST_DOMAIN;
     ds_id := Some (IdAccount (da_name account)) |}.

Definition request_distributed_signature (w : DirkWorld) (self : DirkManager)
    (account : DistributedAccount) (object_root : B256) (module_signing_id : option B256)
    : Result SignerModuleError BlsSignature :=
  let requests := hash_iter (participants account) in
  let partials := collect_partials w (distributed_request self account object_root module_signing_id)
                    (threshold account) (dw_order w requests) [] in
  if Z.of_nat (length partials) <? threshold account then
    Err (DirkCommunicationError "Failed to get enough partial signatures")
  else map_err (λ e, SignerInternal (report_text e)) (aggregate_partial_signatures partials).

Definition account_signature (w : DirkWorld) (self : DirkManager) (account : Account)
    (object_root : B256) (module_signing_id : option B256) : Result SignerModuleError BlsSignature :=
  match account with
  | Simple a => request_simple_signature w self a object_root module_signing_id
  | Distributed a => request_distributed_signature w self a object_root module_signing_id
  end.
(** [request_consensus_signature] and [request_proxy_signature] *)
Definition dirk_consensus_signature (w : DirkWorld) (self : DirkManager) (pubkey : BlsPublicKey)
    (object_root : B256) (module_signing_id : option B256) : Result SignerModuleError BlsSignature :=
  match consensus_accounts self !! pubkey with
  | Some account => account_signature w self account object_root module_signing_id
  | None => Err (UnknownConsensusSigner pubkey)
  end.
Definition dirk_proxy_signature (w : DirkWorld) (self : DirkManager) (pubkey : BlsPublicKey)
    (object_root : B256) (module_signing_id : option B256) : Result SignerModuleError BlsSignature :=
  match proxy_accounts self !! pubkey with
  | Some proxy => account_signature w self (pr_inner proxy) object_root module_signing_id
  | None => Err (UnknownProxySigner pubkey)
  end.

(** ** Generating proxy keys *)

Context {DF : DiskFaults} {PJ : ProxyJson}.

Definition random_password (w : DirkWorld) : string := hex_encode (dw_random w).

(** [format!("{}/{module}/{uuid}", consensus.name)] *)
Definition proxy_name (w : DirkWorld) (consensus_name : string) (module_id : ModuleId) : string :=
  consensus_name +:+ "/" +:+ module_id +:+ "/" +:+ dw_uuid w.

Definition store_password (self : DirkManager) (account : ProxyAccount) (password : string) : Fs () :=
  '(parent, name) ← fs_lift (ok_or (rsplit_once x2f (account_name (pr_inner account)))
                               (Message "Invalid account name"));
  let parent_path := path_join (path_of (secrets_path self)) parent in
  _ ← create_dir_all parent_path;
  let file := path_join parent_path (name +:+ ".pass") in
  _ ← file_create file;
  write_all file (bytes_of_string password).

(** the closure of [unlock_account], on the answer of one host *)
Definition unlocked (answer : Result string UnlockAccountResponse) : bool :=
  match answer with
  | Ok response => bool_decide (response_state (ur_state response) = Succeeded)
  | Err _ => false
  end.
Definition unlock_account (w : DirkWorld) (account : Account) (password : string) : Result Report () :=
  let channels := match account with
                  | Simple a => [sa_connection a]
                  | Distributed a => hash_values (participants a)
                  end in
  let request := {| ua_account := account_name account; ua_passphrase := bytes_of_string password |} in
  let responses := (λ channel, unlocked (dw_unlock w channel request)) <$> channels in
  match account with
  | Simple _ => ensure (default false (head responses)) (Message "Failed to unlock account")
  | Distributed a =>
      ensure (threshold a <=? Z.of_nat (length (filter (λ x, x = true) responses)))
        (Message "Failed to get enough unlocks")
  end.

(** the end of both generation methods: the password is stored, then the account unlocked *)
Definition keep_proxy (w : DirkWorld) (self : DirkManager) (proxy_account : ProxyAccount)
    (password : string) (t : Tree) : Tree * Result SignerModuleError ProxyAccount :=
  match store_password self proxy_account password t with
  | (t, Err _) => (t, Err (SignerInternal "Failed to store password"))
  | (t, Ok _) =>
      match unlock_account w (pr_inner proxy_account) password with
      | Err _ => (t, Err (DirkCommunicationError "Failed to unlock new account"))
      | Ok _ => (t, Ok proxy_account)
      end
  end.

Definition generate_simple_proxy_account (w : DirkWorld) (self : DirkManager)
    (consensus : SimpleAccount) (module_id : ModuleId) (t : Tree)
    : Tree * Result SignerModuleError ProxyAccount :=
  let password := random_password w in
  let name := proxy_name w (sa_name consensus) module_id in
  let request := {| gr_account := name; gr_passphrase := bytes_of_string password;
                    gr_participants := 1; gr_signing_threshold := 1 |} in
  match dw_generate w (sa_connection consensus) request with
  | Err e => (t, Err (DirkCommunicationError e))
  | Ok response =>
      if decide (response_state (ge_state response) = Succeeded) then
        match pubkey_try_from (ge_public_key response) with
        | Err _ => (t, Err (DirkCommunicationError "Failed to parse proxy key"))
        | Ok proxy_key =>
            keep_proxy w self
              {| pr_consensus := Simple consensus; pr_module := module_id;
                 pr_inner := Simple {| sa_public_key := proxy_key;
                                       sa_connection := sa_connection consensus;
                                       sa_name := name |} |} password t
        end
      else (t, Err (DirkCommunicationError ("Failed to generate proxy key: " +:+ ge_message response)))
  end.

(** the loop over the participants of [generate_distributed_proxy_key]: the first one that
    generates a key ends it *)
Fixpoint generate_with (w : DirkWorld) (self : DirkManager) (consensus : DistributedAccount)
    (module_id : ModuleId) (l : list (Z * Channel)) (t : Tree)
    : Tree * Result SignerModuleError ProxyAccount :=
  let password := random_password w in
  let name := proxy_name w (da_name consensus) module_id in
  match l with
  | [] => (t, Err (DirkCommunicationError "All participant connections failed"))
  | (_, channel) :: l =>
      match dw_generate w channel
              {| gr_account := name; gr_passphrase := bytes_of_string password;
                 gr_participants := as_u32 (Z.of_nat (size (participants consensus)));
                 gr_signing_threshold := threshold consensus |} with
      | Err _ => generate_with w self consensus module_id l t
      | Ok response =>
          if decide (response_state (ge_state response) = Succeeded) then
            match pubkey_try_from (ge_public_key response) with
            | Err _ => generate_with w self consensus module_id l t
            | Ok proxy_key =>
                keep_proxy w self
                  {| pr_consensus := Distributed consensus; pr_module := module_id;
                     pr_inner := Distributed
                       {| composite_public_key := proxy_key;
                          participants := participants consensus;
                          threshold := threshold consensus; da_name := name |} |} password t
            end
          else generate_with w self consensus module_id l t
      end
  end.
Definition generate_distributed_proxy_key (w : DirkWorld) (self : DirkManager)
    (consensus : DistributedAccount) (module_id : ModuleId) (t : Tree)
    : Tree * Result SignerModuleError ProxyAccount :=
  generate_with w self consensus module_id (hash_iter (participants consensus)) t.

Definition generate_proxy_account (w : DirkWorld) (self : DirkManager) (account : Account)
    (module_id : ModuleId) (t : Tree) : Tree * Result SignerModuleError ProxyAccount :=
  match account with
  | Simple a => generate_simple_proxy_account w self a module_id t
  | Distributed a => generate_distributed_proxy_key w self a module_id t
  end.

(** [if let Some(store) = &self.delegations_store] *)
Definition store_delegation (self : DirkManager) (module_id : ModuleId)
    (delegation : SignedProxyDelegation Bls) : Fs () :=
  match delegations_store self with
  | Some store => store_proxy_bls_delegation store module_id delegation
  | None => mret ()
  end.

Definition generate_proxy_key (w : DirkWorld) (self : DirkManager) (module_id : ModuleId)
    (consensus : BlsPublicKey) (t : Tree)
    : DirkManager * Tree * Result SignerModuleError (SignedProxyDelegation Bls) :=
  match consensus_accounts self !! consensus with
  | None => (self, t, Err (UnknownConsensusSigner consensus))
  | Some account =>
      match generate_proxy_account w self account module_id t with
      | (t, Err e) => (self, t, Err e)
      | (t, Ok proxy_account) =>
          let proxy_key := account_public_key (pr_inner proxy_account) in
          let message := {| delegator := consensus; proxy := proxy_key |} : ProxyDelegation Bls in
          match dirk_consensus_signature w self consensus (tree_hash_root message) None with
          | Err e => (self, t, Err e)
          | Ok delegation_signature =>
              let delegation := {| spd_signature := delegation_signature; spd_message := message |} in
              match store_delegation self module_id delegation t with
              | (t, Err _) => (self, t, Err (SignerInternal "Couldn't store delegation signature"))
              | (t, Ok _) =>
                  ({| dk_chain := dk_chain self; consensus_accounts := consensus_accounts self;
                      proxy_accounts := <[proxy_key := proxy_account]> (proxy_accounts self);
                      secrets_path := secrets_path self;
                      delegations_store := delegations_store self |}, t, Ok delegation)
              end
          end
      end
  end.
End Dirk.
