(* ===== verification/DirkSigning.v ===== *)
(** * Signatures of the Dirk manager

    What a signature request to the Dirk hosts returns.  A distributed account succeeds as
    soon as [threshold] of its participants give a partial signature, whichever they are and
    in whatever order they answer; through the interface [Shared] of Threshold.v the result is
    then the signature of the composite key.  For the caller the Dirk manager and the local
    manager sign alike. *)

From S2P Require Import Prelude Bytes Text Jwt Chain Signature PbsTypes Http Relay Commit.
From S2P Require Import PbsConfig SignerConfig LocalManager FileSystem ProxyStore Threshold Proto Dirk.

Section DirkSigning.
Context {TH : TreeHashLib} {BL : BlsLib} {EC : EcdsaLib} {UL : UrlLib} {DL : DirkLib}.
Context {HOb : HashOrder bytes} {HOz : HashOrder Z}.
Implicit Types (w : DirkWorld) (l : list (Z * Channel)) (self : DirkManager).

(** ** The partial signatures *)

(** the partial signatures among the answers of [l], in its order *)
Definition answers w (request : DirkSignRequest) l : list (BlsSignature * Z) :=
  omap (λ '(id, channel), (λ s, (s, id)) <$> partial_of (dw_sign w channel request)) l.

(** The loop keeps the first answers, one at least and up to the threshold *)
Lemma collect_partials_take w request threshold l acc :
  collect_partials w request threshold l acc
  = acc ++ take (1 `max` (Z.to_nat threshold - length acc)) (answers w request l).
Proof.
  revert acc. induction l as [|[id channel] l IH]; intros acc; simpl.
  { by rewrite take_nil, app_nil_r. }
  destruct (partial_of _) as [s|]; simpl; [|apply IH].
  case (Z.leb_spec threshold (Z.of_nat (length (acc ++ [(s, id)])))) as [Hle|Hlt];
    rewrite length_app in *; simpl in *.
  - replace (1 `max` (Z.to_nat threshold - length acc))%nat with 1%nat by lia. done.
  - rewrite IH, <- app_assoc. simpl. f_equal. rewrite length_app. simpl.
    replace (1 `max` (Z.to_nat threshold - length acc))%nat
      with (S (1 `max` (Z.to_nat threshold - (length acc + 1)))) by lia. done.
Qed.

#[export] Instance answers_perm w request : Proper ((≡ₚ) ==> (≡ₚ)) (answers w request).
Proof. intros l l' Hl. unfold answers. by rewrite Hl. Qed.

Lemma answers_elem w request l s id :
  (s, id) ∈ answers w request l ↔
  ∃ channel, (id, channel) ∈ l ∧ partial_of (dw_sign w channel request) = Some s.
Proof.
  unfold answers. rewrite list_elem_of_omap. split.
  - intros ([id' channel] & Hin & H). destruct (partial_of _) eqn:E; naive_solver.
  - intros (channel & Hin & H). exists (id, channel). by rewrite H.
Qed.

Lemma answers_ids w request l : (answers w request l).*2 `sublist_of` l.*1.
Proof.
  induction l as [|[id channel] l IH]; simpl; [constructor|].
  destruct (partial_of _); simpl; by constructor.
Qed.

Lemma partial_of_length answer s : partial_of answer = Some s → length s = 96%nat.
Proof. unfold partial_of, signature_try_from. repeat case_match; naive_solver. Qed.

(** ** The requests of an account *)

Context (w : DirkWorld) (self : DirkManager) (account : DistributedAccount).
Context (object_root : B256) (signing_id : option B256).
Notation request := (distributed_request self account object_root signing_id).

(** the partial signatures of all participants, and those the loop keeps *)
Definition valid_partials : list (BlsSignature * Z) :=
  answers w request (hash_iter (participants account)).
Definition kept_partials : list (BlsSignature * Z) :=
  take (1 `max` Z.to_nat (threshold account))
    (answers w request (dw_order w (hash_iter (participants account)))).

Lemma order_perm : answers w request (dw_order w (hash_iter (participants account))) ≡ₚ valid_partials.
Proof. unfold valid_partials. by rewrite (dw_order_perm w). Qed.

Lemma kept_length : length kept_partials = ((1 `max` Z.to_nat (threshold account)) `min` length valid_partials)%nat.
Proof. unfold kept_partials. by rewrite length_take, order_perm. Qed.

Lemma kept_nodup : NoDup kept_partials.*2.
Proof.
  unfold kept_partials. rewrite fmap_take. eapply sublist_NoDup; [|apply sublist_take].
  eapply sublist_NoDup; [|apply answers_ids]. rewrite dw_order_perm. apply hash_iter_nodup.
Qed.

Lemma kept_elem s id : (s, id) ∈ kept_partials →
  ∃ channel, participants account !! id = Some channel ∧
    partial_of (dw_sign w channel request) = Some s.
Proof.
  intros Hin. eapply elem_of_sublist in Hin; [|apply sublist_take].
  apply answers_elem in Hin as (channel & Hin & Hs). exists channel. split; [|done].
  rewrite dw_order_perm in Hin. by apply hash_iter_elem.
Qed.

Lemma request_distributed_kept :
  request_distributed_signature w self account object_root signing_id =
  if Z.of_nat (length kept_partials) <? threshold account
  then Err (DirkCommunicationError "Failed to get enough partial signatures")
  else map_err (λ e, SignerInternal (report_text e)) (aggregate_partial_signatures kept_partials).
Proof.
  unfold request_distributed_signature. rewrite collect_partials_take. simpl.
  by rewrite Nat.sub_0_r.
Qed.

(** ** The shares *)

(** The first loop of [aggregate_partial_signatures] on shares of distinct participants *)
Lemma add_shares_ok (share : Z → G2) (partials : list (BlsSignature * Z)) shares0 :
  (∀ s id, (s, id) ∈ partials → length s = 96%nat ∧ from_compressed s = Some (share id)) →
  ∃ shares, try_fold add_share shares0 partials = Ok shares ∧
    ∀ id, shares !! id = if decide (id ∈ partials.*2) then Some (share id) else shares0 !! id.
Proof.
  revert shares0. induction partials as [|[s id] partials IH]; intros shares0 Hp; simpl.
  { exists shares0. split; [done|]. intros id. done. }
  destruct (Hp s id) as [Hlen Hdec]; [by left|].
  rewrite bool_decide_true by done. simpl. rewrite Hdec. simpl.
  destruct (IH (<[id := share id]> shares0)) as (shares & -> & Hs); [set_solver|].
  exists shares. split; [done|]. intros id'. rewrite Hs.
  destruct (decide (id' = id)) as [->|Hne].
  - rewrite lookup_insert_eq, (decide_True _ _ (P := id ∈ id :: _)) by set_solver. by case_decide.
  - rewrite lookup_insert_ne by done. repeat case_decide; set_solver.
Qed.

Lemma aggregate_shared (share : Z → G2) (master : G2) (ids : list Z) (t : nat)
    {SH : Shared scalar_ops point_ops ids t share master} (partials : list (BlsSignature * Z)) :
  NoDup partials.*2 → partials.*2 ⊆ ids → (t ≤ length partials)%nat →
  (∀ s id, (s, id) ∈ partials → length s = 96%nat ∧ from_compressed s = Some (share id)) →
  aggregate_partial_signatures partials = Ok (to_compressed master).
Proof.
  intros Hnd Hsub Ht Hp. unfold aggregate_partial_signatures.
  destruct (add_shares_ok share partials ∅ Hp) as (shares & -> & Hs). simpl.
  assert (Hdom : dom shares = list_to_set partials.*2).
  { apply set_eq. intros id. rewrite elem_of_dom, elem_of_list_to_set, Hs.
    case_decide; rewrite ?lookup_empty; naive_solver eauto. }
  assert (Hiter : hash_iter shares = map (λ id, (id, share id)) (hash_keys shares)).
  { transitivity (id <$> hash_iter shares); [by rewrite list_fmap_id|]. unfold hash_keys.
    rewrite <- (list_fmap_compose fst (λ id, (id, share id))). apply list_fmap_ext.
    intros i [id v] Hin%list_elem_of_lookup_2%hash_iter_elem. rewrite Hs in Hin.
    simpl. case_decide; naive_solver. }
  rewrite Hiter, SH; [done|..].
  - apply NoDup_ListNoDup, hash_iter_nodup.
  - intros id Hid%list_elem_of_In. apply list_elem_of_In, Hsub.
    apply hash_keys_elem, elem_of_dom in Hid. rewrite Hdom in Hid. set_solver.
  - unfold hash_keys. rewrite length_fmap, hash_iter_length, <- size_dom, Hdom.
    by rewrite size_list_to_set, length_fmap.
Qed.

Lemma kept_shared (share : Z → G2) (master : G2)
    {SH : Shared scalar_ops point_ops (hash_keys (participants account))
            (Z.to_nat (threshold account)) share master} :
  (∀ id channel s, participants account !! id = Some channel →
    partial_of (dw_sign w channel request) = Some s → from_compressed s = Some (share id)) →
  threshold account ≤ Z.of_nat (length valid_partials) →
  request_distributed_signature w self account object_root signing_id = Ok (to_compressed master).
Proof.
  intros Hshare Henough. rewrite request_distributed_kept.
  destruct (Z.ltb_spec (Z.of_nat (length kept_partials)) (threshold account)) as [Hlt|Hge];
    rewrite kept_length in *; [lia|].
  rewrite (aggregate_shared share master (hash_keys (participants account))
             (Z.to_nat (threshold account))); [done|..].
  - apply kept_nodup.
  - intros id. rewrite list_elem_of_fmap. intros ([s id'] & -> & Hin).
    apply kept_elem in Hin as (channel & Hch & _). apply hash_keys_elem. by exists channel.
  - rewrite kept_length. lia.
  - intros s id (channel & Hch & Hs)%kept_elem. eauto using partial_of_length.
Qed.

(** C32: A distributed request fails for want of partial signatures exactly when fewer than
    [threshold] of the participants answered with one, whatever the order in which the
    answers arrived. *)
Theorem distributed_quorum : 0 ≤ threshold account →
  request_distributed_signature w self account object_root signing_id
    = Err (DirkCommunicationError "Failed to get enough partial signatures") ↔
  Z.of_nat (length valid_partials) < threshold account.
Proof.
  intros H0. rewrite request_distributed_kept.
  destruct (Z.ltb_spec (Z.of_nat (length kept_partials)) (threshold account)) as [Hlt|Hge];
    rewrite kept_length in *; split; intros H; try done; try lia.
  by destruct (aggregate_partial_signatures _).
Qed.
End DirkSigning.

(** ** Dirk and local signing agree *)

Section Agreement.
Context {TH : TreeHashLib} {BL : BlsLib} {EC : EcdsaLib} {UL : UrlLib} {DL : DirkLib}.
Context {HOb : HashOrder bytes} {HOz : HashOrder Z}.

(** what a Dirk host signs for a request *)
Definition dirk_signing_root (r : DirkSignRequest) : B256 :=
  tree_hash_root {| object_root := ds_data r; signing_domain := ds_domain r |}.

(** The hosts of an account hold the key [sk]: the host of a simple account signs with it;
    the participants of a distributed account that give a partial signature give their share
    of the signature of [sk], and [threshold] of them do. *)
Inductive serves (w : DirkWorld) (sk : BlsSecretKey) : Account → Prop :=
| serves_simple a :
    (∀ r, ds_id r = Some (IdPublicKey (sa_public_key a)) →
      partial_of (dw_sign w (sa_connection a) r) = Some (sk_sign sk (dirk_signing_root r))) →
    serves w sk (Simple a)
| serves_distributed a :
    (∀ r, ds_id r = Some (IdAccount (da_name a)) →
      threshold a ≤ Z.of_nat (length (answers w r (hash_iter (participants a)))) ∧
      ∃ share master,
        Shared scalar_ops point_ops (hash_keys (participants a)) (Z.to_nat (threshold a)) share master ∧
        to_compressed master = sk_sign sk (dirk_signing_root r) ∧
        ∀ id channel s, participants a !! id = Some channel →
          partial_of (dw_sign w channel r) = Some s → from_compressed s = Some (share id)) →
    serves w sk (Distributed a).

Lemma simple_signature_partial w self a root id s :
  partial_of (dw_sign w (sa_connection a)
    {| ds_data := signing_data_of root id;
       ds_domain := compute_domain (dk_chain self) COMMIT_BOOST_DOMAIN;
       ds_id := Some (IdPublicKey (sa_public_key a)) |}) = Some s →
  request_simple_signature w self a root id = Ok s.
Proof.
  unfold request_simple_signature, partial_of. destruct (dw_sign _ _ _) as [r|]; simpl; [|done].
  case_decide; [|done]. rewrite bool_decide_true by done. simpl.
  by destruct (signature_try_from _); simpl; intros [= ->].
Qed.

(** [compute_prop_commit_signing_root] is the root of what the manager sends *)
Lemma dirk_signing_root_local c root id name :
  dirk_signing_root {| ds_data := signing_data_of root id;
                       ds_domain := compute_domain c COMMIT_BOOST_DOMAIN; ds_id := name |}
  = compute_prop_commit_signing_root c root id COMMIT_BOOST_DOMAIN.
Proof. by destruct id. Qed.

Lemma serves_signature w self sk account root id : serves w sk account →
  account_signature w self account root id
  = Ok (bls_signer_sign (BlsLocal sk) (dk_chain self) root id).
Proof.
  intros [a Ha|a Ha]; simpl; unfold sign_commit_boost_root, sign_message.
  - erewrite simple_signature_partial by (by apply Ha). by rewrite dirk_signing_root_local.
  - destruct (Ha (distributed_request self a root id) eq_refl)
      as (Henough & share & master & Hshared & Hm & Hs).
    rewrite (kept_shared w self a root id share master Hs Henough), Hm.
    unfold distributed_request. by rewrite dirk_signing_root_local.
Qed.

(** Dirk signs as the local manager does: when the hosts of an account hold the key [sk],
    directly or in shares of which [threshold] answer, in any order and with any of the other
    participants down, a consensus request to the Dirk manager returns the signature that the
    local manager computes with [sk] in its table. *)
Theorem dirk_signs_as_local w self (local : LocalSigningManager) sk account pubkey root id :
  consensus_accounts self !! pubkey = Some account → serves w sk account →
  lm_chain local = dk_chain self → consensus_signers local !! pubkey = Some (BlsLocal sk) →
  dirk_consensus_signature w self pubkey root id = sign_consensus local pubkey root id.
Proof.
  intros Hacc Hserves Hchain Hlocal. unfold dirk_consensus_signature, sign_consensus.
  rewrite Hacc, Hlocal, (serves_signature w self sk) by done. by rewrite Hchain.
Qed.
End Agreement.

(** ** A distributed account over the integers modulo seven

    Points and scalars are residues; the message of a request hashes to the sum of its bytes.
    The key 3 is shared by 3 + 2 X between three hosts, and host 2 is down. *)
Module DirkSample.

Definition residue (x : Z) : Z := x mod 7.
Definition mod7_scalars : ScalarOps Z :=
  MkScalarOps Z residue (λ a b, residue (a * b)) (λ a b, residue (a - b))
    (λ a, if residue a =? 0 then None else Some (residue (a ^ 5))).
Definition mod7_points : PointOps Z Z :=
  MkPointOps Z Z 0 (λ a b, residue (a + b)) (λ a b, residue (a * b)).
Definition pad (n : nat) (x : Z) : bytes := replicate (n - 1) x00 ++ [byte_of_Z x].
Definition unpad (b : bytes) : Z := default 0 (Z_of_byte <$> last b).
Definition hash_point (msg : bytes) : Z := residue (foldr (λ b, Z.add (Z_of_byte b)) 0 msg).

Definition mod7_bls : BlsLib := {|
  BlsSecretKey := Z; BlstPublicKey := Z; BlstSignature := Z;
  sk_from_bytes b := Ok (unpad b);
  sk_to_bytes sk := pad 32 (residue sk);
  sk_to_pk sk := pad 48 (residue sk);
  sk_sign sk msg := pad 96 (residue (sk * hash_point msg));
  key_validate pk := Ok (unpad pk);
  sig_from_bytes s := Ok (unpad s);
  sig_verify s msg pk :=
    if s =? residue (pk * hash_point msg) then BLST_SUCCESS else BLST_VERIFY_FAIL;
|}.
Definition mod7_dirk : DirkLib := {|
  Channel := Z; TonicEndpoint := string;
  channel_from_shared url := Ok url; endpoint_tls_config endpoint _ := Ok endpoint;
  uuid_parses s := bool_decide (s = "b9f1"%string);
  Scalar := Z; G2 := Z; scalar_ops := mod7_scalars; point_ops := mod7_points;
  from_compressed b := Some (unpad b); to_compressed p := pad 96 (residue p);
|}.
#[local] Existing Instances sha256_tree_hash mod7_bls toy_ecdsa plain_urls mod7_dirk.

Lemma residue_bounds x : 0 ≤ residue x < 7.
Proof. by apply Z.mod_pos_bound. Qed.
Lemma unpad_pad n x : 0 ≤ x < 256 → unpad (pad n x) = x.
Proof.
  intros Hx. unfold unpad, pad. rewrite last_snoc. simpl. rewrite Z_of_byte_of_Z. by apply Z.mod_small.
Qed.
Lemma unpad_residue n x : unpad (pad n (residue x)) = residue x.
Proof. apply unpad_pad. pose proof (residue_bounds x). lia. Qed.
#[local] Instance mod7_bls_correct : BlsCorrect.
Proof.
  split; [eauto..|]. intros sk msg pk s [= <-] [= <-]. simpl. rewrite !unpad_residue.
  unfold residue. rewrite Z.mul_mod_idemp_l by done. by rewrite Z.eqb_refl.
Qed.

(** the shares of 3 + 2 X at 1, 2 and 3 *)
Definition key_share (id : Z) : Z := residue (3 + 2 * id).
Definition world : DirkWorld := {|
  dw_connect endpoint := if bool_decide (endpoint = "https://one"%string) then Ok 1 else Err "refused";
  dw_list_accounts _ _ := Err "unused";
  dw_sign channel r :=
    if channel =? 2 then Err "connection refused"
    else Ok {| sr_state := 1;
               sr_signature := pad 96 (residue (key_share channel * hash_point (dirk_signing_root r))) |};
  dw_generate channel r :=
    Ok {| ge_state := if channel =? 1 then 3 else 1; ge_message := "";
          ge_public_key := pad 48 5; ge_participants := [] |};
  dw_unlock channel _ := if channel =? 2 then Err "connection refused" else Ok {| ur_state := 1 |};
  dw_order := reverse;
  dw_order_perm := reverse_Permutation;
  dw_uuid := "b9f1";
  dw_random := pad 32 7;
|}.
Definition shared_account : DistributedAccount := {|
  composite_public_key := pad 48 3; participants := <[1 := 1]> (<[2 := 2]> {[3 := 3]});
  threshold := 2; da_name := "wallet/validator";
|}.
Definition dirk : DirkManager := {|
  dk_chain := Mainnet; consensus_accounts := {[pad 48 3 := Distributed shared_account]};
  proxy_accounts := ∅; secrets_path := "/secrets"; delegations_store := Some (PSFile "/proxies");
|}.
Definition local : LocalSigningManager := {|
  lm_chain := Mainnet; lm_proxy_store := None; consensus_signers := {[pad 48 3 := BlsLocal 3]};
  proxy_signers := no_proxies; proxy_pubkeys_bls := ∅; proxy_addresses_ecdsa := ∅;
|}.

Lemma mod7_shared h hosts : 0 ≤ h < 7 → incl hosts [1; 2; 3] →
  Shared mod7_scalars mod7_points hosts 2 (λ id, residue (key_share id * h)) (residue (3 * h)).
Proof.
  intros Hh Hhosts ids Hnd Hids Hlen. pose proof (incl_tran Hids Hhosts) as Hincl.
  pose proof (NoDup_incl_length Hnd Hincl) as Hmax. simpl in Hmax.
  assert (h = 0 ∨ h = 1 ∨ h = 2 ∨ h = 3 ∨ h = 4 ∨ h = 5 ∨ h = 6) as Hcases by lia.
  assert (∀ x, In x ids → x = 1 ∨ x = 2 ∨ x = 3) as Hin.
  { intros x Hx%Hincl. simpl in Hx. naive_solver. }
  destruct ids as [|a [|b [|c [|d ids]]]]; simpl in *; try lia.
  - destruct (Hin a ltac:(auto)) as [->|[->| ->]], (Hin b ltac:(auto)) as [->|[->| ->]];
      try (by inversion_clear Hnd; simpl in *; naive_solver);
      by repeat destruct Hcases as [->|Hcases]; subst; vm_compute.
  - destruct (Hin a ltac:(auto)) as [->|[->| ->]], (Hin b ltac:(auto)) as [->|[->| ->]],
      (Hin c ltac:(auto)) as [->|[->| ->]];
      try (by inversion_clear Hnd as [|? ? Ha Hnd']; inversion_clear Hnd'; simpl in *; naive_solver);
      by repeat destruct Hcases as [->|Hcases]; subst; vm_compute.
Qed.

Lemma shared_account_serves : serves world 3 (Distributed shared_account).
Proof.
  apply serves_distributed. intros r _. split; [vm_compute; discriminate|].
  exists (λ id, residue (key_share id * hash_point (dirk_signing_root r))),
    (residue (3 * hash_point (dirk_signing_root r))). split_and!.
  - apply mod7_shared; [apply residue_bounds|]. vm_compute. naive_solver.
  - simpl. unfold residue. by rewrite Z.mod_mod.
  - intros id channel s Hch Hs.
    assert (channel = id) as ->.
    { simpl in Hch. apply lookup_insert_Some in Hch as [[<- <-]|[_ Hch]]; [done|].
      apply lookup_insert_Some in Hch as [[<- <-]|[_ Hch]]; [done|].
      by apply lookup_singleton_Some in Hch as [<- <-]. }
    unfold partial_of, signature_try_from in Hs. simpl in Hs. destruct (id =? 2); [done|].
    simpl in Hs. injection Hs as <-. simpl. by rewrite unpad_residue.
Qed.

Lemma dirk_signs_as_local_witness :
  dirk_consensus_signature world dirk (pad 48 3) (replicate 32 x11) (Some (replicate 32 x22))
  = sign_consensus local (pad 48 3) (replicate 32 x11) (Some (replicate 32 x22)).
Proof.
  apply (dirk_signs_as_local world dirk local 3 (Distributed shared_account));
    [apply lookup_singleton_eq|apply shared_account_serves|done|apply lookup_singleton_eq].
Defined.

(** with a second host down there are too few partial signatures *)
Definition outage : DirkWorld := {|
  dw_connect := dw_connect world; dw_list_accounts := dw_list_accounts world;
  dw_sign channel r := if channel =? 3 then Err "connection refused" else dw_sign world channel r;
  dw_generate := dw_generate world; dw_unlock := dw_unlock world;
  dw_order := dw_order world; dw_order_perm := dw_order_perm world;
  dw_uuid := dw_uuid world; dw_random := dw_random world;
|}.
Lemma distributed_quorum_witness :
  request_distributed_signature outage dirk shared_account (replicate 32 x11) None
    = Err (DirkCommunicationError "Failed to get enough partial signatures") ↔
  Z.of_nat (length (valid_partials outage dirk shared_account (replicate 32 x11) None)) < 2.
Proof. by apply (distributed_quorum outage dirk shared_account (replicate 32 x11) None). Defined.

(** A threshold of zero is taken as it comes from the host: with no answer at all the request
    succeeds, with the identity of the group for a signature. *)
Example zero_threshold_signs :
  request_distributed_signature outage dirk
    {| composite_public_key := pad 48 3; participants := {[2 := 2]}; threshold := 0;
       da_name := "wallet/validator" |} (replicate 32 x11) None
  = Ok (to_compressed (identity point_ops)).
Proof. vm_compute. reflexivity. Qed.

End DirkSample.
