(* ===== verification/DirkGrpc.v ===== *)
(** * The Dirk manager over gRPC

    Puts the manager of [crates/signer/src/manager/dirk.rs] (Dirk.v) on the generated clients
    of [proto/v1.rs] (Proto.v): [grpc_world] is the world the manager sees when every call is
    a call of a client over its channel.  Hosts that speak the protocol make it the same as a
    world where the hosts are called directly, so that what is shown of the manager there
    holds over the wire. *)

From S2P Require Import Prelude Bytes Text Jwt Chain Sha256 Signature PbsTypes Http Relay Commit.
From S2P Require Import PbsConfig SignerConfig LocalManager FileSystem ProxyStore Threshold Proto Dirk DirkSigning.
From S2P Require Import Protobuf.

(** what a Dirk host does with the requests of the manager *)
Record DirkHost := {
  host_list_accounts : ListAccountsRequest → Result Status ListAccountsResponse;
  host_sign : DirkSignRequest → Result Status SignResponse;
  host_generate : GenerateRequest → Result Status GenerateResponse;
  host_unlock : UnlockAccountRequest → Result Status UnlockAccountResponse;
}.

Section DirkGrpc.
Context {TH : TreeHashLib} {BL : BlsLib} {EC : EcdsaLib} {UL : UrlLib} {DL : DirkLib}.
Context {HOb : HashOrder bytes} {HOz : HashOrder Z} {TL : TonicLib} {GS : GrpcService Channel}.
Implicit Types (w : DirkWorld) (hosts : Channel → DirkHost).

(** every call makes a client of a clone of the channel *)
Definition grpc_world w : DirkWorld := {|
  dw_connect := dw_connect w;
  dw_list_accounts channel r := map_err status_text (list_accounts (grpc_client_new Lister channel) r);
  dw_sign channel r := map_err status_text (sign (grpc_client_new Signer channel) r);
  dw_generate channel r := map_err status_text (generate (grpc_client_new AccountManager channel) r);
  dw_unlock channel r := map_err status_text (unlock (grpc_client_new AccountManager channel) r);
  dw_order := dw_order w; dw_order_perm := dw_order_perm w; dw_uuid := dw_uuid w; dw_random := dw_random w;
|}.
(** the same calls without the wire *)
Definition host_world w hosts : DirkWorld := {|
  dw_connect := dw_connect w;
  dw_list_accounts channel r := map_err status_text (host_list_accounts (hosts channel) r);
  dw_sign channel r := map_err status_text (host_sign (hosts channel) r);
  dw_generate channel r := map_err status_text (host_generate (hosts channel) r);
  dw_unlock channel r := map_err status_text (host_unlock (hosts channel) r);
  dw_order := dw_order w; dw_order_perm := dw_order_perm w; dw_uuid := dw_uuid w; dw_random := dw_random w;
|}.

(** at the end of a channel there is a host that serves the methods at their paths and answers
    with messages the format carries *)
Record speaks (channel : Channel) (host : DirkHost) : Prop := {
  sp_ready : grpc_ready (grpc_new channel) = Ok ();
  sp_list : serves_method (grpc_new channel) Lister "ListAccounts" list_accounts_request_proto
    list_accounts_response_proto (host_list_accounts host);
  sp_sign : serves_method (grpc_new channel) Signer "Sign" sign_request_proto sign_response_proto (host_sign host);
  sp_generate : serves_method (grpc_new channel) AccountManager "Generate" generate_request_proto
    generate_response_proto (host_generate host);
  sp_unlock : serves_method (grpc_new channel) AccountManager "Unlock" unlock_account_request_proto
    unlock_account_response_proto (host_unlock host);
  sp_list_ok : ∀ r res, host_list_accounts host r = Ok res → m_ok list_accounts_response_proto res;
  sp_sign_ok : ∀ r res, host_sign host r = Ok res → m_ok sign_response_proto res;
  sp_generate_ok : ∀ r res, host_generate host r = Ok res → m_ok generate_response_proto res;
  sp_unlock_ok : ∀ r res, host_unlock host r = Ok res → m_ok unlock_account_response_proto res;
}.

(** Every call of the manager over the wire is the call of the host, when the request is one
    the format carries *)
Lemma grpc_calls w hosts channel :
  speaks channel (hosts channel) →
  (∀ r, m_ok list_accounts_request_proto r →
     dw_list_accounts (grpc_world w) channel r = dw_list_accounts (host_world w hosts) channel r) ∧
  (∀ r, m_ok sign_request_proto r → dw_sign (grpc_world w) channel r = dw_sign (host_world w hosts) channel r) ∧
  (∀ r, m_ok generate_request_proto r →
     dw_generate (grpc_world w) channel r = dw_generate (host_world w hosts) channel r) ∧
  (∀ r, m_ok unlock_account_request_proto r →
     dw_unlock (grpc_world w) channel r = dw_unlock (host_world w hosts) channel r).
Proof.
  intros Hsp. split_and!; intros r Hr; cbn [grpc_world host_world dw_list_accounts dw_sign dw_generate dw_unlock];
    f_equal; (eapply unary_served; [apply _|apply _|apply Hsp|apply Hsp|
      apply Nat.leb_le; vm_compute; reflexivity|apply Nat.leb_le; vm_compute; reflexivity|done|]); intros res;
    [apply (sp_list_ok _ _ Hsp)|apply (sp_sign_ok _ _ Hsp)|apply (sp_generate_ok _ _ Hsp)|apply (sp_unlock_ok _ _ Hsp)].
Qed.

(** ** Signatures *)

Definition account_channels (account : Account) : list Channel :=
  match account with Simple a => [sa_connection a] | Distributed a => hash_values (participants a) end.
(** the request the manager sends for an account *)
Definition account_request (self : DirkManager) (account : Account) (root : B256) (id : option B256)
    : DirkSignRequest :=
  {| ds_data := signing_data_of root id; ds_domain := compute_domain (dk_chain self) COMMIT_BOOST_DOMAIN;
     ds_id := Some (match account with
                    | Simple a => IdPublicKey (sa_public_key a)
                    | Distributed a => IdAccount (da_name a)
                    end) |}.

Lemma collect_partials_ext w1 w2 request threshold l acc :
  (∀ id channel, (id, channel) ∈ l → dw_sign w1 channel request = dw_sign w2 channel request) →
  collect_partials w1 request threshold l acc = collect_partials w2 request threshold l acc.
Proof.
  revert acc. induction l as [|[id channel] l IH]; intros acc H; [done|]. cbn [collect_partials].
  rewrite (H id channel) by left. assert (∀ acc, collect_partials w1 request threshold l acc
    = collect_partials w2 request threshold l acc) as IH' by (intros; apply IH; intros; eapply H; by right).
  by destruct (partial_of _); rewrite !IH'.
Qed.
Lemma account_signature_ext w1 w2 self account root id :
  dw_order w1 = dw_order w2 →
  (∀ channel, channel ∈ account_channels account →
     dw_sign w1 channel (account_request self account root id)
     = dw_sign w2 channel (account_request self account root id)) →
  account_signature w1 self account root id = account_signature w2 self account root id.
Proof.
  intros Ho Hs. destruct account as [a|a]; simpl in *.
  - specialize (Hs (sa_connection a) ltac:(left)). unfold request_simple_signature, account_request in *. by rewrite Hs.
  - unfold request_distributed_signature. rewrite Ho. erewrite collect_partials_ext; [done|].
    intros i channel Hin. apply Hs. unfold hash_values. rewrite dw_order_perm in Hin.
    by apply (list_elem_of_fmap_2 snd _ (i, channel)).
Qed.

(** C10: A remote signature is the local one, over the wire.  When the hosts of an account
    speak the protocol and hold the key [sk], directly or in shares of which [threshold]
    answer, and the manager's request is one that protocol buffers carry, a consensus request
    to the Dirk manager, whose calls are encoded, sent to the paths of the generated clients
    and decoded again on both sides, returns the signature that the local manager computes
    with [sk] in its table. *)
Theorem dirk_signs_over_grpc w hosts self (local : LocalSigningManager) sk account pubkey root id :
  consensus_accounts self !! pubkey = Some account → serves (host_world w hosts) sk account →
  (∀ channel, channel ∈ account_channels account → speaks channel (hosts channel)) →
  m_ok sign_request_proto (account_request self account root id) →
  lm_chain local = dk_chain self → consensus_signers local !! pubkey = Some (BlsLocal sk) →
  dirk_consensus_signature (grpc_world w) self pubkey root id = sign_consensus local pubkey root id.
Proof.
  intros Hacc Hserves Hsp Hreq Hchain Hlocal. unfold dirk_consensus_signature. rewrite Hacc.
  rewrite (account_signature_ext _ (host_world w hosts)); [|done|].
  - rewrite (serves_signature (host_world w hosts) self sk) by done. unfold sign_consensus.
    by rewrite Hlocal, Hchain.
  - intros channel Hch. by apply grpc_calls; [apply Hsp|].
Qed.

(** ** The accounts *)

(** The accounts the manager loads over the wire are those the hosts list *)
Lemma grpc_accounts w hosts chain config :
  (∀ endpoint channel, dw_connect w endpoint = Ok channel → speaks channel (hosts channel)) →
  (∀ host, host ∈ dk_hosts config → Forall string_ok (wallets host)) →
  dirk_manager_new (grpc_world w) chain config = dirk_manager_new (host_world w hosts) chain config.
Proof.
  intros Hsp Hw. unfold dirk_manager_new. do 2 f_equal.
  assert (∀ accounts, fold_left (load_host (grpc_world w) config) (dk_hosts config) accounts
    = fold_left (load_host (host_world w hosts) config) (dk_hosts config) accounts) as Hall; [|apply Hall].
  induction (dk_hosts config) as [|host l IH]; intros accounts; [done|]. cbn [fold_left].
  assert (load_host (grpc_world w) config accounts host = load_host (host_world w hosts) config accounts host) as ->.
  { unfold load_host. assert (connect (grpc_world w) host (dk_client_cert config) (dk_cert_auth config)
      = connect (host_world w hosts) host (dk_client_cert config) (dk_cert_auth config)) as -> by done.
    destruct (connect (host_world w hosts) host _ _) as [channel|] eqn:Hc; [|done].
    assert (∃ endpoint, dw_connect w endpoint = Ok channel) as [endpoint He].
    { unfold connect in Hc. clear -Hc. inv_ok. eauto. }
    rewrite (proj1 (grpc_calls w hosts channel (Hsp _ _ He))); [done|].
    split; [|done]. apply Hw. left. }
  apply IH. intros h Hh. apply Hw. by right.
Qed.
End DirkGrpc.

(** ** Hosts that share a key, over the wire *)
Module GrpcSample.
Import DirkSample.
#[local] Existing Instances sha256_tree_hash mod7_bls mod7_bls_correct toy_ecdsa plain_urls mod7_dirk.

(** a host serves its methods by path *)
Definition serve_method {Req Res} (req : ProtoMessage Req) (res : ProtoMessage Res) (f : Req → Result Status Res)
    (body : bytes) : Result Status bytes :=
  match decode req body with
  | Ok request => m_encode res <$> f request
  | Err _ => Err (status_internal "bad request")
  end.
Definition serve_path (h : DirkHost) (path : string) (body : bytes) : Result Status bytes :=
  if String.eqb path "/v1.Lister/ListAccounts" then
    serve_method list_accounts_request_proto list_accounts_response_proto (host_list_accounts h) body
  else if String.eqb path "/v1.Signer/Sign" then serve_method sign_request_proto sign_response_proto (host_sign h) body
  else if String.eqb path "/v1.AccountManager/Generate" then
    serve_method generate_request_proto generate_response_proto (host_generate h) body
  else if String.eqb path "/v1.AccountManager/Unlock" then
    serve_method unlock_account_request_proto unlock_account_response_proto (host_unlock h) body
  else Err (status_internal "unknown method").

(** the three hosts of the shared key; the second refuses to sign *)
Definition share_host (channel : Z) : DirkHost := {|
  host_list_accounts _ := Ok {| la_state := 1; la_accounts := []; la_distributed_accounts := [] |};
  host_sign r :=
    if channel =? 2 then Err (status_unknown "refused")
    else Ok {| sr_state := 1;
               sr_signature := pad 96 (residue (key_share channel * hash_point (dirk_signing_root r))) |};
  host_generate _ := Ok {| ge_state := 3; ge_message := ""; ge_public_key := []; ge_participants := [] |};
  host_unlock _ := Ok {| ur_state := 1 |};
|}.
Definition plain_tonic : TonicLib := {|
  Grpc T := T; grpc_new T x := x; Uri := string; grpc_with_origin T x _ := x;
  InterceptedService T F := (T * F)%type; intercepted_new T F x f := (x, f);
  CompressionEncoding := (); grpc_send_compressed T g _ := g; grpc_accept_compressed T g _ := g;
  grpc_max_decoding_message_size T g _ := g; grpc_max_encoding_message_size T g _ := g;
  grpc_ready T GS g := service_ready g; grpc_unary T GS g path body := service_call g path body;
  GrpcEndpoint := string; GrpcChannel := string; endpoint_new dst := Ok dst; endpoint_connect e := Ok e;
  decode_error_text _ := "invalid message"; status_text := st_message;
|}.
Definition host_channel : GrpcService (@Channel mod7_dirk) :=
  {| service_ready _ := Ok (); service_call channel := serve_path (share_host channel) |}.
#[local] Existing Instances plain_tonic host_channel.

Lemma serve_method_serves {Req Res} (req : ProtoMessage Req) (res : ProtoMessage Res) f body request :
  decode req body = Ok request → serve_method req res f body = m_encode res <$> f request.
Proof. intros H. unfold serve_method. by rewrite H. Qed.
Lemma share_host_speaks channel : speaks channel (share_host channel).
Proof.
  split; [done|intros body r; apply serve_method_serves..| | | |].
  - intros r res [= <-]. repeat split; (done || constructor).
  - intros r res H. simpl in H. destruct (channel =? 2); [done|]. injection H as <-.
    repeat split; (done || constructor).
  - intros r res [= <-]. repeat split; (done || constructor).
  - intros r res [= <-]. repeat split; (done || constructor).
Qed.
Lemma shared_account_serves_hosts : serves (host_world world share_host) 3 (Distributed shared_account).
Proof.
  assert (∀ channel r, partial_of (dw_sign (host_world world share_host) channel r)
    = partial_of (dw_sign world channel r)) as Hp by (intros channel r; simpl; by destruct (channel =? 2)).
  pose proof shared_account_serves as H. inversion_clear H as [|? Ha]. apply serves_distributed.
  intros r Hr. destruct (Ha r Hr) as (Hn & share & master & Hs & Hm & Hc). split.
  - assert (∀ l, answers (host_world world share_host) r l = answers world r l) as ->; [|exact Hn].
    unfold answers. induction l as [|[i channel] l IH]; [done|]. cbn [omap list_omap]. by rewrite Hp, IH.
  - exists share, master. split_and!; [done..|]. intros i channel s Hi. rewrite Hp. by apply Hc.
Qed.

Lemma dirk_signs_over_grpc_witness :
  dirk_consensus_signature (grpc_world world) dirk (pad 48 3) (replicate 32 x11) (Some (replicate 32 x22))
  = sign_consensus local (pad 48 3) (replicate 32 x11) (Some (replicate 32 x22)).
Proof.
  apply (dirk_signs_over_grpc world share_host dirk local 3 (Distributed shared_account));
    [apply lookup_singleton_eq|apply shared_account_serves_hosts|intros channel _; apply share_host_speaks
    | |reflexivity|apply lookup_singleton_eq].
  split_and!; repeat split; vm_compute; done.
Defined.
End GrpcSample.
