(* ===== verification/DirkProxies.v ===== *)
(** * The accounts of the Dirk manager

    The well-formedness of the account tables, from the listing of the hosts through every
    generation of a proxy key; what a generated proxy leaves in the tables and on disk; and
    what a restart makes of it. *)

From S2P Require Import Prelude Bytes Text Jwt Chain Signature PbsTypes Http Relay Commit.
From S2P Require Import PbsConfig SignerConfig LocalManager FileSystem ProxyStore Threshold Proto Dirk.
From S2P Require Import DirkSigning.

(** ** Names *)

(** What a file name of the password directory is *)
Lemma suffixed_plain b suffix : x2f ∉ b → x2f ∉ bytes_of_string suffix →
  (2 < length (bytes_of_string suffix))%nat → plain_name (string_of_bytes b +:+ suffix).
Proof.
  intros Hb Hs Hlen.
  assert (∀ s, length (bytes_of_string s) ≤ 2 → string_of_bytes b +:+ suffix ≠ s)%nat as Hne.
  { intros s Hle <-. rewrite bytes_of_string_app, length_app in Hle. lia. }
  split_and!; try (by apply Hne; vm_compute; lia).
  rewrite bytes_of_string_app, bytes_of_string_of_bytes. set_solver.
Qed.

Section Names.
Context {DL : DirkLib}.

(** A generated name has the format of a proxy's when the account lies in a wallet. *)
Lemma proxy_name_matches w name module_id :
  x2f ∈ bytes_of_string name → x2f ∉ bytes_of_string (dw_uuid w) → uuid_parses (dw_uuid w) = true →
  name_matches_proxy (proxy_name w name module_id) = true.
Proof.
  intros (l1 & l2 & Hname)%list_elem_of_split Huuid Hparses.
  unfold name_matches_proxy, proxy_name, split, rsplit_once.
  rewrite length_fmap, !bytes_of_string_app, Hname. change (bytes_of_string "/") with [x2f].
  rewrite <- !app_assoc. simpl. apply andb_true_iff. split.
  - apply Nat.ltb_lt. rewrite !split_bytes_length_app.
    pose proof (split_bytes_length_pos x2f l1). pose proof (split_bytes_length_pos x2f l2).
    pose proof (split_bytes_length_pos x2f (bytes_of_string module_id)).
    pose proof (split_bytes_length_pos x2f (bytes_of_string (dw_uuid w))). lia.
  - replace (l1 ++ x2f :: l2 ++ x2f :: bytes_of_string module_id ++ x2f :: bytes_of_string (dw_uuid w))
      with ((l1 ++ x2f :: l2 ++ x2f :: bytes_of_string module_id) ++ x2f :: bytes_of_string (dw_uuid w))
      by (by rewrite <- app_assoc; simpl; rewrite <- app_assoc).
    rewrite rsplit_once_bytes_some by done. simpl. by rewrite string_of_bytes_of_string.
Qed.
End Names.

(** ** The account tables *)

Section Tables.
Context {TH : TreeHashLib} {BL : BlsLib} {EC : EcdsaLib} {UL : UrlLib} {DL : DirkLib}.
Context {HOb : HashOrder bytes} {HOz : HashOrder Z} {DF : DiskFaults} {PJ : ProxyJson}.
Implicit Types (w : DirkWorld) (accounts : gmap bytes Account) (self : DirkManager).

(** an account filed under its own key; the participants of a distributed one are [u32]s, and
    there is at least one *)
Definition account_wf (key : bytes) (a : Account) : Prop :=
  account_public_key a = key ∧ length key = BLS_PK_LEN ∧
  match a with
  | Simple _ => True
  | Distributed d =>
      participants d ≠ ∅ ∧ ∀ id, is_Some (participants d !! id) → 0 ≤ id < 2 ^ 32
  end.
Definition consensus_wf accounts : Prop :=
  map_Forall (λ key a, account_wf key a ∧ name_matches_proxy (account_name a) = false) accounts.

(** the hosts of two accounts: a proxy is kept where its consensus account is *)
Definition same_hosts (a b : Account) : Prop :=
  match a, b with
  | Simple a, Simple b => sa_connection a = sa_connection b
  | Distributed a, Distributed b => participants a = participants b ∧ threshold a = threshold b
  | _, _ => False
  end.
Definition proxy_account_wf accounts (key : bytes) (p : ProxyAccount) : Prop :=
  account_wf key (pr_inner p) ∧ same_hosts (pr_inner p) (pr_consensus p) ∧
  accounts !! account_public_key (pr_consensus p) = Some (pr_consensus p).
Definition dirk_wf self : Prop :=
  consensus_wf (consensus_accounts self) ∧
  map_Forall (proxy_account_wf (consensus_accounts self)) (proxy_accounts self).

Lemma pubkey_try_from_ok b key : pubkey_try_from b = Ok key → key = b ∧ length key = BLS_PK_LEN.
Proof. unfold pubkey_try_from. case_decide; naive_solver. Qed.
Lemma as_u32_bounds x : 0 ≤ as_u32 x < 2 ^ 32.
Proof. apply Z.mod_pos_bound. lia. Qed.

Lemma consensus_wf_insert accounts key a :
  consensus_wf accounts → account_wf key a → name_matches_proxy (account_name a) = false →
  consensus_wf (<[key := a]> accounts).
Proof. intros Hwf Ha Hn. by apply map_Forall_insert_2. Qed.

Lemma load_simple_account_wf channel accounts a :
  consensus_wf accounts → consensus_wf (load_simple_account channel accounts a).
Proof.
  intros Hwf. unfold load_simple_account.
  destruct (name_matches_proxy (pa_name a)) eqn:Hn; [done|].
  destruct (pubkey_try_from _) as [key|] eqn:Hk; [|done]. apply pubkey_try_from_ok in Hk as [_ Hk].
  by apply consensus_wf_insert.
Qed.
Lemma load_distributed_account_wf host_name channel accounts a accounts' :
  consensus_wf accounts → load_distributed_account host_name channel accounts a = Ok accounts' →
  consensus_wf accounts'.
Proof.
  intros Hwf. unfold load_distributed_account.
  destruct (name_matches_proxy (pd_name a)) eqn:Hn; [by intros [= <-]|].
  destruct (pubkey_try_from _) as [key|] eqn:Hk; [|by intros [= <-]].
  apply pubkey_try_from_ok in Hk as [_ Hk].
  destruct (list_find _ _) as [[_ [id ? ?]]|]; [|by intros [= <-]].
  destruct (id =? 0); [by intros [= <-]|]. pose proof (as_u32_bounds id) as Hid.
  destruct (accounts !! key) as [[?|d]|] eqn:E; [done| |]; intros [= <-];
    (apply consensus_wf_insert; [done| |]); simpl; try done.
  - destruct (Hwf _ _ E) as [(Hpk & _ & _ & Hids) _]. split_and!; [done|done|apply insert_non_empty|].
    cbn [participants]. intros id'. rewrite lookup_insert_is_Some. intros [<-|[_ ?]]; [done|by apply Hids].
  - destruct (Hwf _ _ E) as [_ ?]. done.
  - split_and!; [done|done|apply insert_non_empty|].
    cbn [participants]. intros id'. rewrite lookup_singleton_is_Some. by intros <-.
Qed.
Lemma load_distributed_loop_wf host_name channel l accounts :
  consensus_wf accounts → consensus_wf (load_distributed_loop host_name channel l accounts).1.
Proof.
  revert accounts. induction l as [|a l IH]; intros accounts Hwf; simpl; [done|].
  destruct (load_distributed_account _ _ _ _) eqn:E; simpl; [|done].
  by eapply IH, load_distributed_account_wf.
Qed.

Lemma fold_left_preserves {A B} (f : A → B → A) (P : A → Prop) l a :
  (∀ a b, P a → P (f a b)) → P a → P (fold_left f l a).
Proof. intros Hf. revert a. induction l; simpl; auto. Qed.

Lemma load_host_wf w config accounts host :
  consensus_wf accounts → consensus_wf (load_host w config accounts host).
Proof.
  intros Hwf. unfold load_host.
  destruct (connect _ _ _ _) as [channel|]; [|done].
  destruct (dw_list_accounts _ _ _) as [response|]; [|done]. case_decide; [|done].
  unfold load_distributed_accounts.
  assert (consensus_wf (load_simple_accounts (la_accounts response) channel accounts)).
  { apply (fold_left_preserves _ consensus_wf); [|done]. intros. by apply load_simple_account_wf. }
  destruct (match server_name host with Some n => _ | None => _ end); simpl; [|done].
  by apply load_distributed_loop_wf.
Qed.

Lemma dirk_new_wf w chain config self : dirk_manager_new w chain config = Ok self → dirk_wf self.
Proof.
  intros [= <-]. split; [|apply map_Forall_empty]. simpl.
  apply (fold_left_preserves _ consensus_wf); [intros; by apply load_host_wf|apply map_Forall_empty].
Qed.

(** ** Generating a proxy *)

Lemma keep_proxy_ok w self p password t t' p' :
  keep_proxy w self p password t = (t', Ok p') →
  p' = p ∧ store_password self p password t = (t', Ok ()) ∧
  unlock_account w (pr_inner p) password = Ok ().
Proof.
  unfold keep_proxy. destruct (store_password _ _ _ _) as [t1 [[]|]]; [|done].
  destruct (unlock_account _ _ _) as [[]|]; naive_solver.
Qed.

(** what a successful generation gives: an account with a fresh name on the same hosts, whose
    password is stored and which is unlocked *)
Definition generated w self (account : Account) (module_id : ModuleId) (t t' : Tree)
    (p : ProxyAccount) : Prop :=
  pr_consensus p = account ∧ pr_module p = module_id ∧
  account_name (pr_inner p) = proxy_name w (account_name account) module_id ∧
  length (account_public_key (pr_inner p)) = BLS_PK_LEN ∧ same_hosts (pr_inner p) account ∧
  store_password self p (random_password w) t = (t', Ok ()) ∧
  unlock_account w (pr_inner p) (random_password w) = Ok ().

Lemma generate_proxy_account_ok w self account module_id t t' p :
  generate_proxy_account w self account module_id t = (t', Ok p) →
  generated w self account module_id t t' p.
Proof.
  destruct account as [a|a]; simpl; intros H.
  - unfold generate_simple_proxy_account in H. destruct (dw_generate _ _ _) as [r|]; [|done].
    case_decide; [|done]. destruct (pubkey_try_from _) as [k|] eqn:Hk; [|done].
    apply pubkey_try_from_ok in Hk as [_ Hk].
    apply keep_proxy_ok in H as (-> & ? & ?). by repeat split.
  - unfold generate_distributed_proxy_key in H. revert H.
    generalize (hash_iter (participants a)). intros l.
    induction l as [|[id channel] l IH]; simpl; intros H; [done|].
    destruct (dw_generate _ _ _) as [r|]; [|auto]. case_decide; [|auto].
    destruct (pubkey_try_from _) as [k|] eqn:Hk; [|auto].
    apply pubkey_try_from_ok in Hk as [_ Hk].
    apply keep_proxy_ok in H as (-> & ? & ?). by repeat split.
Qed.

(** The outcomes of [generate_proxy_key] *)
Lemma generate_proxy_key_cases w self module_id consensus t self' t' r :
  generate_proxy_key w self module_id consensus t = (self', t', r) →
  (∃ e, r = Err e ∧ self' = self) ∨
  ∃ account p t1 d, consensus_accounts self !! consensus = Some account ∧
    generated w self account module_id t t1 p ∧ r = Ok d ∧
    spd_message d = {| delegator := consensus; proxy := account_public_key (pr_inner p) |} ∧
    dirk_consensus_signature w self consensus (tree_hash_root (spd_message d)) None
      = Ok (spd_signature d) ∧
    store_delegation self module_id d t1 = (t', Ok ()) ∧
    self' = {| dk_chain := dk_chain self; consensus_accounts := consensus_accounts self;
               proxy_accounts := <[account_public_key (pr_inner p) := p]> (proxy_accounts self);
               secrets_path := secrets_path self; delegations_store := delegations_store self |}.
Proof.
  unfold generate_proxy_key. intros H.
  destruct (consensus_accounts self !! consensus) as [account|] eqn:Hacc; [|naive_solver].
  destruct (generate_proxy_account _ _ _ _ _) as [t1 [p|]] eqn:Hgen; [|naive_solver].
  destruct (dirk_consensus_signature _ _ _ _ _) as [s|] eqn:Hs; [|naive_solver].
  destruct (store_delegation _ _ _ _) as [t2 [[]|]] eqn:Hst; [|naive_solver].
  injection H as <- <- <-. right. apply generate_proxy_account_ok in Hgen.
  eexists account, p, t1, _. split_and!; [done|done|reflexivity|done..].
Qed.

Lemma generate_proxy_key_wf w self module_id consensus t :
  dirk_wf self → dirk_wf (generate_proxy_key w self module_id consensus t).1.1.
Proof.
  intros [Hc Hp]. destruct (generate_proxy_key _ _ _ _ _) as [[self' t'] r] eqn:H.
  apply generate_proxy_key_cases in H as [(e & _ & ->)|(account & p & t1 & d & Hacc & Hgen & H)]; [done|].
  destruct H as (_ & _ & _ & _ & ->). destruct Hgen as (Hcons & _ & _ & Hlen & Hhosts & _).
  destruct (Hc _ _ Hacc) as [(Hpk & _ & Ha) _].
  split; [done|]. apply map_Forall_insert_2; [|done]. split_and!; simpl.
  - split_and!; [done|done|]. unfold same_hosts in Hhosts.
    destruct (pr_inner p), account; try done. by destruct Hhosts as [-> _].
  - by rewrite Hcons.
  - by rewrite Hcons, Hpk.
Qed.

(** *** The manager over its life *)

(** one request to generate a proxy; the manager's other methods only read it *)
Inductive dirk_step : DirkManager * Tree → DirkManager * Tree → Prop :=
| step_generate w self t module_id consensus self' t' r :
    generate_proxy_key w self module_id consensus t = (self', t', r) →
    dirk_step (self, t) (self', t').

(** the manager as [start_manager] hands it over *)
Definition dirk_started w (chain : Chain) (config : DirkConfig) (store : option ProxyStore) self : Prop :=
  ∃ m, dirk_manager_new w chain config = Ok m ∧
    match store with Some s => with_proxy_store m s = Ok self | None => self = m end.

Lemma dirk_started_wf w chain config store self : dirk_started w chain config store self → dirk_wf self.
Proof.
  intros (m & Hm%dirk_new_wf & Hs). destruct store as [[]|]; simpl in Hs; simplify_eq; done.
Qed.

(** C20: The tables of the Dirk manager are well typed throughout its life: whatever the hosts list
    and answer, at start and after any sequence of proxy generations, each account lies under
    its own public key of 48 bytes, no consensus account has the name of a proxy, the
    participants of a distributed account are [u32]s and there is one at least, and each proxy
    belongs to a consensus account of the table and is kept by the hosts of that account. *)
Theorem dirk_tables_wf w chain config store self t self' t' :
  dirk_started w chain config store self → rtc dirk_step (self, t) (self', t') → dirk_wf self'.
Proof.
  intros Hst%dirk_started_wf Hsteps.
  change (dirk_wf (self', t').1). change (dirk_wf (self, t).1) in Hst.
  induction Hsteps as [|? ? ? Hstep _ IH]; [done|]. apply IH. destruct Hstep as [w' ? ? ? ? ? ? ? H].
  pose proof (generate_proxy_key_wf w' self0 module_id consensus t0 Hst) as Hwf. by rewrite H in Hwf.
Qed.
End Tables.

(** ** What a generated proxy leaves on disk *)

Section Generated.
Context {TH : TreeHashLib} {BL : BlsLib} {EC : EcdsaLib} {UL : UrlLib} {DL : DirkLib}.
Context {HOb : HashOrder bytes} {HOz : HashOrder Z} {DF : DiskFaults} {PJ : ProxyJson}.
Implicit Types (w : DirkWorld) (self : DirkManager) (t : Tree).

(** Creating directories keeps every node there is *)
Lemma create_dir_all_keeps p t t' r q node :
  create_dir_all p t = (t', r) → t !! q = Some node → t' !! q = Some node.
Proof.
  revert t' r. induction p as [|n p IH]; intros t' r H Hq; [by injection H as <- _|].
  cbn [create_dir_all] in H. destruct (t !! (n :: p)) as [[?|]|] eqn:E; [by injection H as <- _..|].
  destruct (create_dir_all p t) as [t1 [[]|e]] eqn:E1; [|injection H as <- _; by eapply IH].
  pose proof (IH _ _ eq_refl Hq) as Hq1.
  destruct (mkdir_fails _); injection H as <- _; [done|].
  destruct (decide (n :: p = q)) as [<-|]; [congruence|]. by rewrite lookup_insert_ne.
Qed.

(** Directories, a file in them and its content: the file ends up with the content, and all
    other nodes are as before *)
Lemma write_new_file d file content t t' :
  (_ ← create_dir_all d; _ ← file_create file; write_all file content) t = (t', Ok ()) →
  file_content t' file = Some content ∧
  ∀ q node, q ≠ file → t !! q = Some node → t' !! q = Some node.
Proof.
  intros (t1 & [] & H1 & (t2 & [] & H2 & H3)%fs_bind_ok)%fs_bind_ok.
  unfold file_create in H2. destruct file as [|n p]; [done|].
  destruct (_ || _ || _); [done|]. injection H2 as <-.
  unfold write_all in H3. destruct (write_stops _ _); [done|]. injection H3 as <-.
  split; [unfold file_content; by rewrite lookup_insert_eq|].
  intros q node Hne Hq. rewrite !lookup_insert_ne by done. by eapply create_dir_all_keeps.
Qed.

(** where [store_password] and [store_proxy_bls_delegation] write *)
Definition password_file self (name : string) : Path :=
  match rsplit_once x2f name with
  | Some (parent, name) => path_join (path_join (path_of (secrets_path self)) parent) (name +:+ ".pass")
  | None => []
  end.
Definition delegation_file (store : ProxyStore) (module_id : ModuleId) (key : BlsPublicKey) : Path :=
  let base_path := match store with PSFile proxy_dir => proxy_dir | PSERC2335 keys_path _ => keys_path end in
  path_join (path_join (path_join (path_join (path_of base_path) "delegations") module_id) "bls")
    (hex_encode_prefixed key +:+ ".sig").

Lemma store_password_writes self p password t t' :
  store_password self p password t = (t', Ok ()) →
  file_content t' (password_file self (account_name (pr_inner p))) = Some (bytes_of_string password).
Proof.
  unfold store_password, password_file.
  intros (t1 & [parent name] & H1 & H)%fs_bind_ok. injection H1 as <- Hsplit.
  apply ok_or_ok in Hsplit. rewrite Hsplit. by apply write_new_file in H as [H _].
Qed.

Lemma hex_plain key : plain_name (hex_encode_prefixed key +:+ ".sig").
Proof.
  rewrite <- (string_of_bytes_of_string (hex_encode_prefixed key)).
  apply suffixed_plain; [|vm_compute; set_solver|vm_compute; lia].
  by intros [[v Hv]|?]%hex_text_chars.
Qed.

(** The two kinds of files have different names *)
Lemma password_not_delegation self name store module_id key :
  password_file self name ≠ delegation_file store module_id key.
Proof.
  unfold delegation_file. rewrite (path_join_plain _ (_ +:+ ".sig")) by apply hex_plain.
  unfold password_file. destruct (rsplit_once x2f name) as [[parent n]|] eqn:E; [|done].
  unfold rsplit_once in E. destruct (rsplit_once_bytes _ _) as [[p b]|] eqn:Eb; [|done].
  injection E as <- <-. apply rsplit_once_bytes_inv in Eb as [_ Hb].
  rewrite path_join_plain; [|apply suffixed_plain; [done|vm_compute; set_solver|vm_compute; lia]].
  intros [= Heq _]. apply (f_equal (λ s, last (bytes_of_string s))) in Heq.
  rewrite !bytes_of_string_app, !last_app in Heq. vm_compute in Heq. discriminate Heq.
Qed.

Lemma store_delegation_keeps self module_id d t t' :
  store_delegation self module_id d t = (t', Ok ()) →
  (∀ store, delegations_store self = Some store →
    ∃ content, delegation_to_vec d = Ok content ∧
      file_content t' (delegation_file store module_id (proxy (spd_message d))) = Some content) ∧
  ∀ name content, file_content t (password_file self name) = Some content →
    file_content t' (password_file self name) = Some content.
Proof.
  unfold store_delegation. destruct (delegations_store self) as [store|]; [|by intros [= <-]].
  unfold store_proxy_bls_delegation. intros (t1 & content & H1 & H)%fs_bind_ok.
  injection H1 as <- H1. apply map_err_ok in H1.
  change (path_join _ (_ +:+ ".sig")) with (delegation_file store module_id (proxy (spd_message d))) in H.
  assert (∃ n p, delegation_file store module_id (proxy (spd_message d)) = n :: p) as (n & p & Hf).
  { unfold delegation_file. rewrite path_join_plain by apply hex_plain. eauto. }
  unfold create_parent in H. rewrite Hf in H. apply write_new_file in H as [Hc Hk]. rewrite <- Hf in *.
  split; [by intros ? [= <-]; eauto|]. intros name c Hn. unfold file_content in *.
  destruct (t !! password_file self name) as [node|] eqn:E; [|done].
  by rewrite (Hk _ _ (password_not_delegation _ _ _ _ _) E).
Qed.

Context {BC : BlsCorrect}.

End Generated.

(** ** The map of consensus and proxy keys *)

Section Maps.
Context {TH : TreeHashLib} {BL : BlsLib} {EC : EcdsaLib} {UL : UrlLib} {DL : DirkLib}.
Context {HOb : HashOrder bytes} {HOz : HashOrder Z} {DF : DiskFaults} {PJ : ProxyJson}.

(** The answer to [get_pubkeys] is exact: it has one entry per consensus key, and the entry of
    a consensus key lists a proxy key if and only if that proxy was generated for the asking
    module and that consensus key. *)
Theorem dirk_proxy_maps_exact (self : DirkManager) (module_id : ModuleId) :
  dirk_wf self →
  (cpm_consensus <$> dirk_proxy_maps self module_id) ≡ₚ (map_to_list (consensus_accounts self)).*1 ∧
  ∀ e key, e ∈ dirk_proxy_maps self module_id →
    key ∈ proxy_bls e ↔
    ∃ p, proxy_accounts self !! key = Some p ∧ pr_module p = module_id ∧
      account_public_key (pr_consensus p) = cpm_consensus e.
Proof.
  intros [Hc Hp]. split.
  - unfold dirk_proxy_maps, hash_values. rewrite <- !list_fmap_compose, <- hash_iter_perm.
    apply reflexive_eq, list_fmap_ext. intros i [k a] Hin%list_elem_of_lookup_2%hash_iter_elem.
    by destruct (Hc _ _ Hin) as [[? _] _].
  - intros e key (account & -> & _)%list_elem_of_fmap. simpl. rewrite list_elem_of_omap. split.
    + intros (p & (k & Hk)%hash_values_elem & H). repeat case_bool_decide; try done. simpl in H.
      injection H as <-. destruct (Hp _ _ Hk) as [[-> _] _]. eauto.
    + intros (p & Hk & Hmod & Hcons). exists p. split; [apply hash_values_elem; eauto|].
      rewrite !bool_decide_true by done. simpl. by destruct (Hp _ _ Hk) as [[-> _] _].
Qed.
End Maps.

(** ** Restarting *)

Section Restart.
Context {TH : TreeHashLib} {BL : BlsLib} {EC : EcdsaLib} {UL : UrlLib} {DL : DirkLib}.
Context {HOb : HashOrder bytes} {HOz : HashOrder Z} {DF : DiskFaults} {PJ : ProxyJson}.

(** wherever the hosts list the key, it is under that name *)
Definition lists_only_as (w : DirkWorld) (key : bytes) (name : string) : Prop :=
  ∀ channel request response, dw_list_accounts w channel request = Ok response →
    (∀ a, a ∈ la_accounts response → pa_public_key a = key → pa_name a = name) ∧
    (∀ a, a ∈ la_distributed_accounts response → pd_composite_public_key a = key → pd_name a = name).

Context (key : bytes) (name : string) (Hname : name_matches_proxy name = true).

Lemma load_simple_none channel l accounts :
  (∀ a, a ∈ l → pa_public_key a = key → pa_name a = name) → accounts !! key = None →
  load_simple_accounts l channel accounts !! key = None.
Proof.
  unfold load_simple_accounts. revert accounts.
  induction l as [|a l IH]; intros accounts Hl Hnone; simpl; [done|].
  apply IH; [set_solver|]. unfold load_simple_account.
  destruct (name_matches_proxy (pa_name a)) eqn:Hn; [done|].
  destruct (pubkey_try_from _) as [k|] eqn:Hk; [|done]. apply pubkey_try_from_ok in Hk as [-> _].
  rewrite lookup_insert_ne; [done|]. intros Heq. rewrite (Hl a) in Hn; [congruence|set_solver|done].
Qed.
Lemma load_distributed_none host_name channel l accounts :
  (∀ a, a ∈ l → pd_composite_public_key a = key → pd_name a = name) → accounts !! key = None →
  (load_distributed_loop host_name channel l accounts).1 !! key = None.
Proof.
  revert accounts. induction l as [|a l IH]; intros accounts Hl Hnone; simpl; [done|].
  destruct (load_distributed_account _ _ _ _) as [accounts'|] eqn:E; simpl; [|done].
  apply IH; [set_solver|]. unfold load_distributed_account in E.
  destruct (name_matches_proxy (pd_name a)) eqn:Hn; [by injection E as <-|].
  destruct (pubkey_try_from _) as [k|] eqn:Hk; [|by injection E as <-].
  apply pubkey_try_from_ok in Hk as [-> _].
  assert (pd_composite_public_key a ≠ key) as Hne.
  { intros Heq. rewrite (Hl a) in Hn; [congruence|set_solver|done]. }
  repeat case_match; simplify_eq; try done; by rewrite lookup_insert_ne.
Qed.
Lemma load_host_none w config accounts host :
  lists_only_as w key name → accounts !! key = None → load_host w config accounts host !! key = None.
Proof.
  intros Hlist Hnone. unfold load_host.
  destruct (connect _ _ _ _) as [channel|]; [|done].
  destruct (dw_list_accounts _ _ _) as [response|] eqn:E; [|done]. case_decide; [|done].
  destruct (Hlist _ _ _ E) as [Hs Hd]. unfold load_distributed_accounts.
  destruct (match server_name host with Some n => _ | None => _ end); simpl;
    [apply load_distributed_none; [done|]|]; by apply load_simple_none.
Qed.
Lemma dirk_started_none w chain config store self :
  lists_only_as w key name → dirk_started w chain config store self →
  consensus_accounts self !! key = None ∧ proxy_accounts self = ∅.
Proof.
  intros Hlist (m & [= <-] & Hs).
  assert (fold_left (load_host w config) (dk_hosts config) ∅ !! key = None) as Hnone.
  { apply (fold_left_preserves _ (λ accounts, accounts !! key = None)); [|done].
    intros. by apply load_host_none. }
  destruct store as [[]|]; simpl in Hs; simplify_eq; done.
Qed.
End Restart.

Section RestartTheorem.
Context {TH : TreeHashLib} {BL : BlsLib} {EC : EcdsaLib} {UL : UrlLib} {DL : DirkLib}.
Context {HOb : HashOrder bytes} {HOz : HashOrder Z} {DF : DiskFaults} {PJ : ProxyJson}.

(** A generated proxy before and after a restart.  The generation leaves it in the proxy table,
    under the name it has on the hosts.  After a restart the hosts still list it under that
    name, which [name_matches_proxy] recognises: the new manager never takes it for a consensus
    key.  It does not load it as a proxy either: every signature with it is refused as unknown
    until a new proxy is generated, whatever was stored on disk. *)
Theorem dirk_proxy_after_restart w w' self module_id consensus account t self' t' d
    chain config store restarted object_root signing_id :
  consensus_accounts self !! consensus = Some account →
  x2f ∈ bytes_of_string (account_name account) →
  x2f ∉ bytes_of_string (dw_uuid w) → uuid_parses (dw_uuid w) = true →
  generate_proxy_key w self module_id consensus t = (self', t', Ok d) →
  dirk_started w' chain config store restarted →
  lists_only_as w' (proxy (spd_message d)) (proxy_name w (account_name account) module_id) →
  (∃ p, proxy_accounts self' !! proxy (spd_message d) = Some p ∧
    account_name (pr_inner p) = proxy_name w (account_name account) module_id) ∧
  dirk_proxy_signature w' restarted (proxy (spd_message d)) object_root signing_id
    = Err (UnknownProxySigner (proxy (spd_message d))) ∧
  dirk_consensus_signature w' restarted (proxy (spd_message d)) object_root signing_id
    = Err (UnknownConsensusSigner (proxy (spd_message d))).
Proof.
  intros Hacc Hslash Huuid Hparses Hgen Hst Hlist.
  apply generate_proxy_key_cases in Hgen as [(e & [=] & _)|(account' & p & t1 & d' & Hacc' & Hp' & H)].
  destruct H as ([= <-] & Hm & _ & _ & ->), Hp' as (_ & _ & Hn & _). simplify_eq.
  destruct (dirk_started_none _ _ (proxy_name_matches _ _ _ Hslash Huuid Hparses)
              _ _ _ _ _ Hlist Hst) as [Hc Hp].
  unfold dirk_proxy_signature, dirk_consensus_signature. rewrite Hc, Hp. split_and!; [|done..].
  exists p. rewrite Hm. simpl. by rewrite lookup_insert_eq.
Qed.
End RestartTheorem.

(** ** A proxy for a shared account *)
Module ProxySample.
Import DirkSample.

Definition plain_delegations : ProxyJson := {|
  kd_to_vec _ _ := Err "unused"; kd_from_str _ _ := Err "unused";
  delegation_to_vec d := Ok (spd_signature d); eip55 := hex_encode_prefixed;
|}.
Definition sound_disk : DiskFaults :=
  {| mkdir_fails _ := false; create_fails _ := false; write_stops _ _ := None |}.
#[local] Existing Instances sha256_tree_hash mod7_bls mod7_bls_correct toy_ecdsa plain_urls mod7_dirk.
#[local] Existing Instances plain_delegations sound_disk.

(** the hosts as they are after the generation: they list the validator and its proxy *)
Definition listed (name : string) (key : Z) : ProtoDistributedAccount := {|
  pd_name := name; pd_public_key := []; pd_participants := [{| ep_id := 1; ep_name := "one"; ep_port := 1 |}];
  pd_signing_threshold := 1; pd_uuid := []; pd_composite_public_key := pad 48 key;
|}.
Definition relisted : DirkWorld := {|
  dw_connect := dw_connect world;
  dw_list_accounts _ _ := Ok {| la_state := 1; la_accounts := [];
    la_distributed_accounts := [listed "wallet/validator" 3; listed "wallet/validator/MODULE/b9f1" 5] |};
  dw_sign := dw_sign world; dw_generate := dw_generate world; dw_unlock := dw_unlock world;
  dw_order := dw_order world; dw_order_perm := dw_order_perm world;
  dw_uuid := dw_uuid world; dw_random := dw_random world;
|}.
Definition config : DirkConfig := {|
  dk_hosts := [{| server_name := Some "one"%string; dh_url := "https://one"; wallets := ["wallet"%string] |}];
  dk_client_cert := ("cert", "key")%string; dk_secrets_path := "/secrets"; dk_cert_auth := None;
|}.
Definition restarted : DirkManager := {|
  dk_chain := Mainnet; consensus_accounts := fold_left (load_host relisted config) (dk_hosts config) ∅;
  proxy_accounts := ∅; secrets_path := "/secrets"; delegations_store := None;
|}.
Lemma restarted_started : dirk_started relisted Mainnet config None restarted.
Proof. by exists restarted. Qed.

Definition made : DirkManager * Tree * Result SignerModuleError (SignedProxyDelegation Bls) :=
  generate_proxy_key world dirk "MODULE" (pad 48 3) ∅.
Lemma made_eq : generate_proxy_key world dirk "MODULE" (pad 48 3) ∅ = (made.1.1, made.1.2, made.2).
Proof. unfold made. by destruct (generate_proxy_key _ _ _ _ _) as [[??]?]. Qed.
Definition delegation : SignedProxyDelegation Bls :=
  match made.2 with
  | Ok d => d
  | Err _ => {| spd_signature := []; spd_message := {| delegator := []; proxy := [] |} |}
  end.
(** Host 1 cannot generate, host 2 or 3 can: the proxy is made and its password kept *)
Lemma made_ok : made.2 = Ok delegation ∧ proxy (spd_message delegation) = pad 48 5.
Proof. split; vm_compute; reflexivity. Qed.

Lemma dirk_tables_wf_witness :
  dirk_wf (generate_proxy_key relisted restarted "MODULE" (pad 48 3) ∅).1.1.
Proof.
  destruct (generate_proxy_key relisted restarted "MODULE" (pad 48 3) ∅) as [[self' t'] r] eqn:H.
  apply (dirk_tables_wf relisted Mainnet config None restarted ∅ self' t');
    [apply restarted_started|by eapply rtc_once, step_generate].
Defined.


Lemma dirk_wf_dirk : dirk_wf dirk.
Proof.
  split; [|apply map_Forall_empty]. apply map_Forall_singleton. split; [|by vm_compute].
  split_and!; [done|done|apply insert_non_empty|]. simpl. intros id.
  rewrite !lookup_insert_is_Some, lookup_singleton_is_Some. naive_solver lia.
Qed.
Lemma dirk_proxy_maps_exact_witness :
  (cpm_consensus <$> dirk_proxy_maps made.1.1 "MODULE") ≡ₚ [pad 48 3] ∧
  ∀ e key, e ∈ dirk_proxy_maps made.1.1 "MODULE" →
    key ∈ proxy_bls e ↔
    ∃ p, proxy_accounts made.1.1 !! key = Some p ∧ pr_module p = "MODULE"%string ∧
      account_public_key (pr_consensus p) = cpm_consensus e.
Proof.
  apply (dirk_proxy_maps_exact made.1.1 "MODULE"). apply generate_proxy_key_wf, dirk_wf_dirk.
Defined.

Lemma dirk_proxy_after_restart_witness :
  (∃ p, proxy_accounts made.1.1 !! proxy (spd_message delegation) = Some p ∧
    account_name (pr_inner p) = "wallet/validator/MODULE/b9f1"%string) ∧
  dirk_proxy_signature relisted restarted (proxy (spd_message delegation)) (replicate 32 x11) None
    = Err (UnknownProxySigner (proxy (spd_message delegation))) ∧
  dirk_consensus_signature relisted restarted (proxy (spd_message delegation)) (replicate 32 x11) None
    = Err (UnknownConsensusSigner (proxy (spd_message delegation))).
Proof.
  apply (dirk_proxy_after_restart world relisted dirk "MODULE" (pad 48 3) (Distributed shared_account) ∅
           made.1.1 made.1.2 delegation Mainnet config None).
  - apply lookup_singleton_eq.
  - vm_compute. set_solver.
  - vm_compute. set_solver.
  - done.
  - rewrite made_eq. by rewrite (proj1 made_ok).
  - apply restarted_started.
  - rewrite (proj2 made_ok). intros channel request response [= <-]. split; [set_solver|].
    simpl. intros a [->|[->|[]%not_elem_of_nil]%elem_of_cons]%elem_of_cons; [|done].
    intros Heq%(f_equal (λ b, last (A := byte) b)). vm_compute in Heq. discriminate Heq.
Defined.

(** A participant number is truncated to 32 bits after the check that it is not zero: the
    number 2^32 is filed as participant zero. *)
Example participant_id_truncates :
  load_distributed_account "one" 1 ∅
    {| pd_name := "wallet/validator"; pd_public_key := [];
       pd_participants := [{| ep_id := 2 ^ 32; ep_name := "one"; ep_port := 1 |}];
       pd_signing_threshold := 1; pd_uuid := []; pd_composite_public_key := pad 48 3 |}
  = Ok {[pad 48 3 := Distributed {| composite_public_key := pad 48 3; participants := {[0 := 1]};
                                    threshold := 1; da_name := "wallet/validator" |}]}.
Proof. reflexivity. Qed.

(** A distributed account under the key of a simple one ends the loading of its host: the
    accounts listed after it are not loaded. *)
Example clash_skips_the_rest :
  (load_distributed_loop "one" 1
     [listed "wallet/clash" 3; listed "wallet/other" 4]
     {[pad 48 3 := Simple {| sa_public_key := pad 48 3; sa_connection := 1; sa_name := "wallet/validator" |}]})
    .1 !! pad 48 4 = None.
Proof. vm_compute. reflexivity. Qed.
End ProxySample.
