(* ===== verification/Loader.v ===== *)
(** * The validator keys

    Models [SignerLoader] of [crates/common/src/signer/loader.rs] and the Prysm keystore of
    [signer/types.rs]: the plain key file and the directories of the five consensus clients.
    JSON values have the constructors of [serde_json::Value]; the parser, the base64 and
    Unicode tables and the ciphers are the class [LoaderLib].

    A directory loader skips the entries it cannot load.  The theorems show that nothing else
    is skipped: the keys that were provisioned are loaded, once each and no other, whatever
    else the directory contains. *)

From S2P Require Import Prelude Bytes Text Serde Jwt Chain Signature PbsTypes Http Relay Commit.
From S2P Require Import PbsConfig SignerConfig LocalManager FileSystem ProxyStore Erc2335 Persistence.

Definition SIGNER_KEYS_ENV : string := "CB_SIGNER_LOADER_FILE".
Definition SIGNER_DIR_KEYS_ENV : string := "CB_SIGNER_LOADER_KEYS_DIR".
Definition SIGNER_DIR_SECRETS_ENV : string := "CB_SIGNER_LOADER_SECRETS_DIR".

(** ** JSON *)

(** [Value::get] with a string index *)
Definition json_get (key : string) (v : Json) : option Json :=
  match v with
  | JObject fields => snd <$> (snd <$> list_find (λ x, x.1 = key) fields)
  | _ => None
  end.

Record PrysmKeystore := { pk_message : bytes; pk_salt : bytes; pk_c : Z; pk_iv : bytes }.
Record PrysmDecryptedKeystore := { private_keys : list bytes; public_keys : list bytes }.

Class LoaderLib := {
  (** [serde_json::from_str::<Value>] *)
  json_parse : bytes → Result string Json;
  (** the [Bytes] of a JSON value *)
  bytes_from_value : Json → Result string bytes;
  (** [BASE64_STANDARD.decode] *)
  base64_decode : string → Result string bytes;
  (** [str::nfkd], on the UTF-8 bytes *)
  nfkd : bytes → bytes;
  (** PBKDF2 with HMAC-SHA256: password, salt, rounds, length *)
  pbkdf2_hmac_sha256 : bytes → bytes → Z → nat → Result string bytes;
  (** AES-128 in counter mode: key, nonce, data *)
  aes128_ctr : bytes → bytes → bytes → Result string bytes;
}.

Section Loader.
Context {TH : TreeHashLib} {BL : BlsLib} {EC : EcdsaLib} {CE : ConfigEnv}.
Context {HO : HashOrder string} {KS : KeystoreLib} {HX : HexLib} {LL : LoaderLib}.

(** [ConsensusSigner::new_from_bytes] *)
Definition consensus_signer_new_from_bytes (b : bytes) : Result Report BlsSigner :=
  signer_new_from_bytes Bls b.

(** ** The plain key file *)

(** the [Deserialize] instance of [FileKey] *)
Definition file_key_from_value (v : Json) : Result string bytes :=
  match v with
  | JString s =>
      b ← hex_decode (string_of_bytes
            (trim_fuel (String.length s) [bytes_of_string "0x"] (bytes_of_string s)));
      if decide (length b = 32%nat) then Ok b else Err "wrong length"
  | _ => Err "invalid type"
  end.
Definition file_keys_from_str (file : bytes) : Result string (list bytes) :=
  v ← json_parse file;
  match v with JArray l => try_map file_key_from_value l | _ => Err "invalid type" end.

(** ** The directories of the consensus clients *)

(** The body of a directory loader: the entries are listed, [entry] gives the keystore and the
    password of one, and what cannot be loaded is left out. *)
Definition load_entry (t : Tree) (entry : string → option (Path * Path)) (name : string)
    : option BlsSigner :=
  match entry name with
  | Some (ks_path, pw_path) => result_ok (load_one t ks_path pw_path)
  | None => None
  end.
Definition load_entries (t : Tree) (keys_path : Path) (entry : string → option (Path * Path))
    : Result Report (list BlsSigner) :=
  names ← read_dir t keys_path;
  Ok (omap (M := list) (load_entry t entry) names).

(** the closure of the Lighthouse and Nimbus loaders; they differ in the keystore's name *)
Definition pubkey_entry (t : Tree) (keys_path secrets_path : Path) (keystore name : string)
    : option (Path * Path) :=
  if is_dir t (name :: keys_path) && utf8_valid (bytes_of_string name) then
    pubkey ← result_ok (fixed_bytes_from_str BLS_PK_LEN name);
    Some (path_join (path_join keys_path name) keystore,
          path_join secrets_path (hex_encode_prefixed pubkey))
  else None.
Definition load_from_lighthouse_format (t : Tree) (keys_path secrets_path : Path)
    : Result Report (list BlsSigner) :=
  load_entries t keys_path (pubkey_entry t keys_path secrets_path "voting-keystore.json").
Definition load_from_nimbus_format (t : Tree) (keys_path secrets_path : Path)
    : Result Report (list BlsSigner) :=
  load_entries t keys_path (pubkey_entry t keys_path secrets_path "keystore.json").

Definition teku_entry (t : Tree) (keys_path secrets_path : Path) (name : string)
    : option (Path * Path) :=
  if is_dir t (name :: keys_path) || negb (utf8_valid (bytes_of_string name)) then None
  else
    '(file_name, _) ← rsplit_once x2e name;
    Some (path_join keys_path (file_name +:+ ".json"), path_join secrets_path (file_name +:+ ".txt")).
Definition load_from_teku_format (t : Tree) (keys_path secrets_path : Path)
    : Result Report (list BlsSigner) :=
  load_entries t keys_path (teku_entry t keys_path secrets_path).

Definition lodestar_entry (t : Tree) (keys_path password_path : Path) (name : string)
    : option (Path * Path) :=
  if is_dir t (name :: keys_path) then None else Some (name :: keys_path, password_path).
Definition load_from_lodestar_format (t : Tree) (keys_path password_path : Path)
    : Result Report (list BlsSigner) :=
  load_entries t keys_path (lodestar_entry t keys_path password_path).

(** ** Prysm *)

(** [serde_json::from_value::<u32>] *)
Definition u32_from_value (v : Json) : Result string Z :=
  match v with
  | JNumber n => if (0 <=? n) && (n <? 2 ^ 32) then Ok n else Err "invalid value"
  | _ => Err "invalid type"
  end.
(** the [Deserialize] instance of [PrysmKeystore] *)
Definition prysm_keystore_from_value (value : Json) : Result string PrysmKeystore :=
  crypto ← ok_or (json_get "crypto" value) "missing field `crypto`";
  cipher ← ok_or (json_get "cipher" crypto) "missing field `crypto.cipher`";
  kdf ← ok_or (json_get "kdf" crypto) "missing field `kdf`";
  kdf_params ← ok_or (json_get "params" kdf) "missing field `kdf.params`";
  message ← ok_or (json_get "message" cipher) "missing field `crypto.cipher.message`";
  message ← map_err (λ _, "invalid type"%string) (bytes_from_value message);
  salt ← ok_or (json_get "salt" kdf_params) "missing field `crypto.kdf.params.salt`";
  salt ← map_err (λ _, "invalid type"%string) (bytes_from_value salt);
  c ← ok_or (json_get "c" kdf_params) "missing field `crypto.kdf.params.c`";
  c ← map_err (λ _, "invalid type"%string) (u32_from_value c);
  params ← ok_or (json_get "params" cipher) "missing field `crypto.cipher.params`";
  iv ← ok_or (json_get "iv" params) "missing field `crypto.cipher.params.iv`";
  iv ← map_err (λ _, "invalid type"%string) (bytes_from_value iv);
  Ok {| pk_message := message; pk_salt := salt; pk_c := c; pk_iv := iv |}.

Definition base64_list_decode (v : Json) : Result string (list bytes) :=
  match v with
  | JArray l =>
      try_map (λ v, match v with
                    | JString s => map_err (λ _, "invalid type"%string) (base64_decode s)
                    | _ => Err "invalid type"%string
                    end) l
  | _ => Err "invalid type"
  end.
(** the derived [Deserialize] instance of [PrysmDecryptedKeystore] *)
Definition prysm_decrypted_from_value (v : Json) : Result string PrysmDecryptedKeystore :=
  private ← ok_or (json_get "private_keys" v) "missing field `private_keys`";
  private ← base64_list_decode private;
  public ← ok_or (json_get "public_keys" v) "missing field `public_keys`";
  public ← base64_list_decode public;
  Ok {| private_keys := private; public_keys := public |}.

(** [normalized_password]: the filter runs over the bytes of the normalised text *)
Definition keep_byte (char : byte) : bool :=
  ((0x1F <? Z_of_byte char) && (Z_of_byte char <? 0x7F)) || (0x9F <? Z_of_byte char).
Definition normalize_password (password : bytes) : bytes :=
  filter (λ char, keep_byte char = true) (nfkd password).

Definition load_from_prysm_format (t : Tree) (accounts_path password_path : Path)
    : Result Report (list BlsSigner) :=
  accounts ← read_file t accounts_path;
  keystore ← map_err (λ e, Message ("Failed reading json: " +:+ e))
               (v ← json_parse accounts; prysm_keystore_from_value v);
  password ← read_text t password_path;
  decryption_key ← map_err Message
    (pbkdf2_hmac_sha256 (normalize_password password) (pk_salt keystore) (pk_c keystore) 32);
  buf ← map_err Message (aes128_ctr (take 16 decryption_key) (pk_iv keystore) (pk_message keystore));
  decrypted ← map_err (λ e, Message ("Failed reading json: " +:+ e))
                (v ← json_parse buf; prysm_decrypted_from_value v);
  map_err (λ _, Message "failed to load signers")
    (try_map consensus_signer_new_from_bytes (private_keys decrypted)).

(** ** [SignerLoader::load_keys] *)

(** [load_env_var(..).map(PathBuf::from).unwrap_or(path)] *)
Definition path_or_env (env path : string) : Path :=
  path_of (default path (result_ok (load_env_var env))).

Definition load_from_env (self : SignerLoader) (t : Tree) : Call (Result Report (list BlsSigner)) :=
  match self with
  | SLFile key_path =>
      match read_text t (path_or_env SIGNER_KEYS_ENV key_path) with
      | Err _ => Panics
      | Ok file =>
          Returns (keys ← map_err Message (file_keys_from_str file);
                   map_err (λ _, Message "failed to load signers")
                     (try_map consensus_signer_new_from_bytes keys))
      end
  | SLValidatorsDir keys_path secrets_path format =>
      let keys_path := path_or_env SIGNER_DIR_KEYS_ENV keys_path in
      let secrets_path := path_or_env SIGNER_DIR_SECRETS_ENV secrets_path in
      Returns match format with
              | Lighthouse => load_from_lighthouse_format t keys_path secrets_path
              | Teku => load_from_teku_format t keys_path secrets_path
              | Lodestar => load_from_lodestar_format t keys_path secrets_path
              | Prysm => load_from_prysm_format t keys_path secrets_path
              | Nimbus => load_from_nimbus_format t keys_path secrets_path
              end
  end.
End Loader.

(** ** What a directory loader loads *)

Section LoaderTheorems.
Context {TH : TreeHashLib} {BL : BlsLib} {EC : EcdsaLib} {CE : ConfigEnv}.
Context {HO : HashOrder string} {KS : KeystoreLib} {HX : HexLib} {LL : LoaderLib}.

(** secret keys can be read back from their bytes, public keys have 48 bytes and can be read
    back from their text *)
Class ValidatorKeys := {
  vk_bytes : ∀ sk, sk_from_bytes (sk_to_bytes sk) = Ok sk;
  vk_size : ∀ sk, length (sk_to_pk sk) = BLS_PK_LEN;
  vk_hex : ∀ b, hex_decode (hex_encode_prefixed b) = Ok b;
}.
Context {VK : ValidatorKeys}.

(** the closure of a format's loader *)
Definition entry_of (format : ValidatorKeysFormat) (t : Tree) (keys_path secrets_path : Path)
    : string → option (Path * Path) :=
  match format with
  | Lighthouse => pubkey_entry t keys_path secrets_path "voting-keystore.json"
  | Nimbus => pubkey_entry t keys_path secrets_path "keystore.json"
  | Teku => teku_entry t keys_path secrets_path
  | Lodestar => lodestar_entry t keys_path secrets_path
  | Prysm => λ _, None
  end.

(** The layout of the formats: the entry of the directory under which the client keeps the
    keystore [stem], its file, and the file of its password. *)
Definition entry_name (format : ValidatorKeysFormat) (stem : string) : string :=
  match format with Teku => stem +:+ ".json" | _ => stem end.
Definition keystore_file (format : ValidatorKeysFormat) (keys_path : Path) (stem : string) : Path :=
  match format with
  | Lighthouse => "voting-keystore.json"%string :: stem :: keys_path
  | Nimbus => "keystore.json"%string :: stem :: keys_path
  | _ => entry_name format stem :: keys_path
  end.
Definition secret_file (format : ValidatorKeysFormat) (secrets_path : Path) (stem : string) : Path :=
  match format with
  | Lodestar => secrets_path
  | Teku => (stem +:+ ".txt") :: secrets_path
  | _ => stem :: secrets_path
  end.

(** the client has provisioned the key [sk] under [stem]: a keystore that its password opens *)
Definition provisioned (format : ValidatorKeysFormat) (t : Tree) (keys_path secrets_path : Path)
    (stem : string) (sk : BlsSecretKey) : Prop :=
  match format with
  | Lighthouse | Nimbus =>
      stem = hex_encode_prefixed (sk_to_pk sk) ∧ is_dir t (stem :: keys_path) = true
  | Teku => plain_name (stem +:+ ".json") ∧ plain_name (stem +:+ ".txt") ∧
      utf8_valid (bytes_of_string (stem +:+ ".json")) = true
  | _ => True
  end ∧
  ∃ json keystore password,
    file_content t (keystore_file format keys_path stem) = Some json ∧ ks_from_json json = Ok keystore ∧
    file_content t (secret_file format secrets_path stem) = Some password ∧
    decrypt_keypair keystore password = Ok (sk_to_bytes sk).

Lemma load_one_provisioned t ks_path pw_path json keystore password sk :
  file_content t ks_path = Some json → ks_from_json json = Ok keystore →
  file_content t pw_path = Some password → decrypt_keypair keystore password = Ok (sk_to_bytes sk) →
  load_one t ks_path pw_path = Ok (BlsLocal sk).
Proof.
  intros Hj Hk Hp Hd. unfold load_one, read_file. rewrite Hj. simpl. rewrite Hk, Hp. simpl.
  rewrite Hd. simpl. unfold bls_signer_new_from_bytes. by rewrite vk_bytes.
Qed.

Lemma hex_text_plain b : plain_name (hex_encode_prefixed b).
Proof.
  pose proof (hex_encode_prefixed_bytes b) as Hb.
  split_and!; [intros H; rewrite H in Hb; vm_compute in Hb; congruence..|].
  by intros [[v Hv]|?]%hex_text_chars.
Qed.
Lemma hex_text_utf8 b : utf8_valid (bytes_of_string (hex_encode_prefixed b)) = true.
Proof.
  unfold utf8_valid. apply bool_decide_eq_true, utf8_lossy_ascii, Forall_forall.
  intros c [Hc| ->]%hex_text_chars; [by apply hex_value_ascii|by vm_compute].
Qed.

Lemma file_not_dir t p content : file_content t p = Some content → is_dir t p = true → p = [].
Proof.
  unfold file_content. destruct p as [|n p]; [done|]. intros Hf Hd%is_dir_lookup; [|done].
  by rewrite Hd in Hf.
Qed.
Lemma stem_rsplit stem ext : x2e ∉ bytes_of_string ext →
  rsplit_once x2e (stem +:+ "." +:+ ext) = Some (stem, ext).
Proof.
  intros Hext. unfold rsplit_once. rewrite !bytes_of_string_app.
  change (bytes_of_string ".") with [x2e]. simpl. rewrite rsplit_once_bytes_some by done. simpl.
  by rewrite !string_of_bytes_of_string.
Qed.

(** The closure finds the files of a provisioned key *)
Lemma provisioned_entry format t keys_path secrets_path stem sk :
  format ≠ Prysm → provisioned format t keys_path secrets_path stem sk →
  entry_of format t keys_path secrets_path (entry_name format stem)
  = Some (keystore_file format keys_path stem, secret_file format secrets_path stem).
Proof.
  intros Hf [Hlayout (json & ks & pw & Hjson & _)].
  assert (∀ n p, file_content t (n :: p) = Some json → is_dir t (n :: p) = false) as Hfile.
  { intros n p Hc. apply not_true_is_false. intros Hd. by eapply file_not_dir in Hc. }
  assert (∀ keystore, plain_name keystore → stem = hex_encode_prefixed (sk_to_pk sk) →
    is_dir t (stem :: keys_path) = true →
    pubkey_entry t keys_path secrets_path keystore stem
    = Some (keystore :: stem :: keys_path, stem :: secrets_path)) as Hpub.
  { intros keystore Hplain -> Hd. unfold pubkey_entry. rewrite Hd, hex_text_utf8.
    unfold fixed_bytes_from_str. rewrite vk_hex. simpl. rewrite bool_decide_true by apply vk_size.
    simpl. by rewrite !path_join_plain by (done || apply hex_text_plain). }
  assert (∀ s, s ∈ ["voting-keystore.json"; "keystore.json"]%string → plain_name s) as Hnames.
  { intros s Hs. repeat (apply elem_of_cons in Hs as [->|Hs]);
      [..|by apply not_elem_of_nil in Hs]; (split_and!; [done..|vm_compute; set_solver]). }
  destruct format; cbn [entry_of entry_name keystore_file secret_file] in *.
  - destruct Hlayout. apply Hpub; [apply Hnames; set_solver|done..].
  - destruct Hlayout as (H1 & H2 & H3). unfold teku_entry. rewrite Hfile by done. rewrite H3. simpl.
    change (stem +:+ ".json")%string with (stem +:+ "." +:+ "json")%string at 1.
    rewrite stem_rsplit by (vm_compute; set_solver). simpl. by rewrite !path_join_plain.
  - unfold lodestar_entry. by rewrite Hfile.
  - done.
  - destruct Hlayout. apply Hpub; [apply Hnames; set_solver|done..].
Qed.

(** ** Loops over a directory *)

Lemma load_entries_perm t keys_path entry (good : list (string * BlsSigner)) :
  is_dir t keys_path = true → NoDup good.*1 →
  (∀ name s, (name, s) ∈ good → is_Some (t !! (name :: keys_path)) ∧ load_entry t entry name = Some s) →
  (∀ name, is_Some (t !! (name :: keys_path)) → name ∉ good.*1 → load_entry t entry name = None) →
  ∃ l, load_entries t keys_path entry = Ok l ∧ l ≡ₚ good.*2.
Proof.
  intros Hd Hnd Hgood Hrest. unfold load_entries, read_dir. rewrite Hd. simpl.
  eexists. split; [done|].
  assert (good.*1 ⊆+ hash_keys (children t keys_path)) as [rest Hperm]%submseteq_Permutation.
  { apply NoDup_submseteq; [done|]. intros name ([n s] & -> & Hin)%list_elem_of_fmap.
    apply hash_keys_elem. rewrite children_lookup. by destruct (Hgood _ _ Hin). }
  assert (NoDup (good.*1 ++ rest)) as (_ & Hdisj & _)%NoDup_app.
  { rewrite <- Hperm. apply hash_iter_nodup. }
  rewrite Hperm, omap_app.
  assert (omap (load_entry t entry) good.*1 = good.*2) as ->.
  { clear -Hgood. induction good as [|[n s] good IH]; [done|]. simpl.
    destruct (Hgood n s) as [_ ->]; [by left|]. f_equal. apply IH. set_solver. }
  assert (omap (load_entry t entry) rest = []) as ->; [|by rewrite app_nil_r].
  assert (∀ name, name ∈ rest → load_entry t entry name = None) as Hnone.
  { intros name Hin. apply Hrest; [|intros Hg; by apply (Hdisj name)].
    rewrite <- children_lookup. apply hash_keys_elem. rewrite Hperm. set_solver. }
  clear -Hnone. induction rest as [|n rest IH]; [done|]. simpl.
  rewrite Hnone by set_solver. apply IH. set_solver.
Qed.

(** The entry of a provisioned key exists and loads *)
Lemma provisioned_loads format t keys_path secrets_path stem sk :
  format ≠ Prysm → provisioned format t keys_path secrets_path stem sk →
  is_Some (t !! (entry_name format stem :: keys_path)) ∧
  load_entry t (entry_of format t keys_path secrets_path) (entry_name format stem) = Some (BlsLocal sk).
Proof.
  intros Hf Hp. unfold load_entry. rewrite (provisioned_entry _ _ _ _ _ sk) by done.
  destruct Hp as [Hlayout (json & ks & pw & Hjson & Hks & Hpw & Hdec)]. split.
  - assert (∀ q, file_content t q = Some json → is_Some (t !! q)) as Hq.
    { intros q. unfold file_content. destruct (t !! q); [eauto|done]. }
    destruct format; simpl in *; try done; try by apply Hq.
    + destruct Hlayout as [_ Hd%bool_decide_eq_true]. eauto.
    + destruct Hlayout as [_ Hd%bool_decide_eq_true]. eauto.
  - by rewrite (load_one_provisioned _ _ _ _ _ _ _ Hjson Hks Hpw Hdec).
Qed.

(** The validator directories of Lighthouse, Teku, Lodestar and Nimbus: when the keys [vs] are
    provisioned in the client's layout and no other entry of the directory can be loaded, the
    loader returns exactly those keys, each once, in the order of the listing.  Entries that
    cannot be read, parsed or decrypted never keep the others from loading. *)
Theorem validators_loaded (format : ValidatorKeysFormat) (t : Tree) (keys secrets : string)
    (vs : list (string * BlsSecretKey)) :
  let keys_path := path_or_env SIGNER_DIR_KEYS_ENV keys in
  let secrets_path := path_or_env SIGNER_DIR_SECRETS_ENV secrets in
  format ≠ Prysm → is_dir t keys_path = true → NoDup (entry_name format <$> vs.*1) →
  (∀ stem sk, (stem, sk) ∈ vs → provisioned format t keys_path secrets_path stem sk) →
  (∀ name, is_Some (t !! (name :: keys_path)) → name ∉ (entry_name format <$> vs.*1) →
    load_entry t (entry_of format t keys_path secrets_path) name = None) →
  ∃ l, load_from_env (SLValidatorsDir keys secrets format) t = Returns (Ok l) ∧
    l ≡ₚ (BlsLocal <$> vs.*2).
Proof.
  intros keys_path secrets_path Hf Hd Hnd Hvs Hrest.
  set (good := (λ '(stem, sk), (entry_name format stem, BlsLocal sk)) <$> vs).
  assert (good.*1 = entry_name format <$> vs.*1 ∧ good.*2 = BlsLocal <$> vs.*2) as [H1 H2].
  { unfold good. rewrite <- !list_fmap_compose. by split; apply list_fmap_ext; intros ? []. }
  destruct (load_entries_perm t keys_path (entry_of format t keys_path secrets_path) good)
    as (l & Hl & Hperm); [done|by rewrite H1|..].
  - intros name s ([stem sk] & [= -> ->] & Hin)%list_elem_of_fmap. apply provisioned_loads; auto.
  - intros name Hname Hnot. apply Hrest; [done|]. by rewrite <- H1.
  - exists l. rewrite <- H2. split; [|done].
    destruct format; first [exact (f_equal Returns Hl) | by destruct Hf].
Qed.

(** ** The plain key file *)

(** The text of a key, with or without the prefix, reads back *)
Lemma file_key_roundtrip b (prefixed : bool) : length b = 32%nat →
  (∀ b, hex_decode (hex_encode b) = Ok b) →
  file_key_from_value (JString (if prefixed then hex_encode_prefixed b else hex_encode b)) = Ok b.
Proof.
  intros Hlen Hhex. unfold file_key_from_value.
  assert (strip_one [bytes_of_string "0x"] (bytes_of_string (hex_encode b)) = None) as Hstrip.
  { unfold hex_encode. rewrite bytes_of_string_of_bytes. apply strip_one_none.
    intros p ->%list_elem_of_singleton Heq. change (length (bytes_of_string "0x")) with 2%nat in Heq. pose proof (hex_bytes b) as Hall.
    rewrite <- (take_drop 2 (b ≫= hex_of_byte)), Heq in Hall.
    apply Forall_app in Hall as [Hall _]. inversion_clear Hall as [|? ? _ H].
    inversion_clear H as [|? ? H' _]. by destruct H' as [? H']; vm_compute in H'. }
  assert (trim_fuel (String.length (if prefixed then hex_encode_prefixed b else hex_encode b))
            [bytes_of_string "0x"] (bytes_of_string (if prefixed then hex_encode_prefixed b else hex_encode b))
          = bytes_of_string (hex_encode b)) as ->.
  { destruct prefixed; [|by apply trim_fuel_none].
    change (trim_fuel (S (String.length (hex_encode b))) [bytes_of_string "0x"]
              (bytes_of_string (hex_encode b)) = bytes_of_string (hex_encode b)).
    by apply trim_fuel_none. }
  rewrite string_of_bytes_of_string, Hhex. simpl. by rewrite decide_True.
Qed.
End LoaderTheorems.

(** ** Passwords of Prysm wallets *)

Section Passwords.
Context {LL : LoaderLib}.

(** EIP-2335 strips the control codes of a password: C0 and Delete, and C1 (U+0080 to U+009F),
    which are code points.  On ASCII text, where a code point is a byte, the filter is that. *)
Lemma normalize_password_ascii password :
  Forall (λ b, Z_of_byte b < 128) password → nfkd password = password →
  normalize_password password
  = filter (λ b, 0x20 ≤ Z_of_byte b ∧ Z_of_byte b ≠ 0x7F) password.
Proof.
  intros Hascii Hn. unfold normalize_password. rewrite Hn. clear Hn.
  induction Hascii as [|b l Hb Hl IH]; [done|]. rewrite !filter_cons, IH. unfold keep_byte.
  pose proof (Z_of_byte_range b).
  destruct (Z.ltb_spec 0x1F (Z_of_byte b)), (Z.ltb_spec (Z_of_byte b) 0x7F), (Z.ltb_spec 0x9F (Z_of_byte b));
    simpl; repeat case_decide; (done || lia).
Qed.
End Passwords.

(** ** Keys on disk *)
Module LoaderSample.
Import PersistSample.

(** a keystore is an opening brace and the key; the password is one letter *)
Definition brace_keystores : KeystoreLib := {|
  ks_encrypt _ _ _ _ := Err "unused"; ks_decrypt _ _ := Err "unused";
  decrypt_keypair ks password :=
    if decide (password = [x70]) then Ok (ks_cipher_text ks) else Err "wrong password";
  ks_to_string _ := Err "unused";
  ks_from_json b :=
    match b with
    | x7b :: secret => Ok {| ks_salt := []; ks_iv := []; ks_checksum := []; ks_cipher_text := secret;
                             ks_uuid := []; ks_pubkey := ""; ks_description := None |}
    | _ => Err "expected value"
    end;
|}.
Definition no_variables : ConfigEnv := {|
  env_var _ := None; read_to_string _ := None; rpc_chain_id _ := Err "unused";
  http_client _ := Err "unused"; http_get _ _ := Err {| is_timeout := true; is_connect := false |};
  keys_from_str _ := Err "unused"; keys_from_slice _ := Err "unused";
  ssv_response_from_slice _ := Err "unused"; getTotalSigningKeyCount _ _ _ := Err "unused";
  getSigningKeys _ _ _ _ _ := Err "unused";
|}.
Definition identity_lib : LoaderLib := {|
  json_parse _ := Err "unused"; bytes_from_value _ := Err "unused"; base64_decode _ := Err "unused";
  nfkd b := b; pbkdf2_hmac_sha256 _ _ _ _ := Err "unused"; aes128_ctr _ _ b := Ok b;
|}.
#[local] Existing Instances sha256_tree_hash sized_bls plain_ecdsa plain_hex brace_keystores
  no_variables identity_lib.
#[local] Instance sized_validator_keys : ValidatorKeys.
Proof.
  split; [done|intros; apply length_resize|]. intros b. cbn [hex_decode plain_hex].
  by rewrite hex_encode_prefixed_bytes, unhex_hex.
Qed.

Definition stem (key : byte) : string := hex_encode_prefixed (resize 48 x00 [key]).
(** two validators, one with a wrong password, a broken keystore and a stray file *)
Definition wallet_files : list (Path * Node) := [
  (["keys"], DirNode); (["secrets"], DirNode);
  ([stem x01; "keys"], DirNode); ([stem x02; "keys"], DirNode); ([stem x03; "keys"], DirNode);
  ([stem x04; "keys"], DirNode);
  (["voting-keystore.json"; stem x01; "keys"], FileNode [x7b; x01]);
  (["voting-keystore.json"; stem x02; "keys"], FileNode [x7b; x02]);
  (["voting-keystore.json"; stem x03; "keys"], FileNode [x7b; x03]);
  (["voting-keystore.json"; stem x04; "keys"], FileNode []);
  ([stem x01; "secrets"], FileNode [x70]); ([stem x02; "secrets"], FileNode [x70]);
  ([stem x03; "secrets"], FileNode [x71]); ([stem x04; "secrets"], FileNode [x70]);
  (["README"; "keys"], FileNode [])]%string.
Definition wallet : Tree := list_to_map wallet_files.

Definition provisioned_keys : list (string * BlsSecretKey) := [(stem x01, [x01]); (stem x02, [x02])].

Lemma wallet_entries : NoDup (entry_name Lighthouse <$> provisioned_keys.*1).
Proof. apply (bool_decide_unpack _). vm_compute. exact I. Qed.
Lemma wallet_provisioned s sk : (s, sk) ∈ provisioned_keys →
  provisioned Lighthouse wallet ["keys"%string] ["secrets"%string] s sk.
Proof.
  intros [[= -> ->]|[[= -> ->]|[]%not_elem_of_nil]%elem_of_cons]%elem_of_cons;
    (split; [split; [done|vm_compute; reflexivity]|]);
    (do 3 eexists; split_and!; [vm_compute; reflexivity|done|vm_compute; reflexivity|done]).
Qed.
Lemma wallet_others name : is_Some (wallet !! [name; "keys"%string]) →
  name ∉ (entry_name Lighthouse <$> provisioned_keys.*1) →
  load_entry wallet (entry_of Lighthouse wallet ["keys"%string] ["secrets"%string]) name = None.
Proof.
  intros [node Hin%elem_of_list_to_map_2] Hname.
  repeat (apply elem_of_cons in Hin as [Hin|Hin];
    [injection Hin as -> ->; first [by exfalso; apply Hname; vm_compute; set_solver | vm_compute; reflexivity]
     || discriminate Hin|]).
  by apply not_elem_of_nil in Hin.
Qed.

Lemma validators_loaded_witness :
  ∃ l, load_from_env (SLValidatorsDir "/keys" "/secrets" Lighthouse) wallet = Returns (Ok l) ∧
    l ≡ₚ [BlsLocal [x01]; BlsLocal [x02]].
Proof.
  by apply (validators_loaded (BL := sized_bls) Lighthouse wallet "/keys" "/secrets" provisioned_keys);
    [| |apply wallet_entries|apply wallet_provisioned|apply wallet_others].
Defined.

(** The filter of Prysm passwords runs over bytes, not code points: the second byte of the
    Cyrillic letter U+0440 (0xD1 0x80) falls in the range of C1 and is dropped, although the
    text has no control code. *)
Example normalize_drops_bytes : normalize_password (bytes_of_Zs [0xD1; 0x80]) = bytes_of_Zs [0xD1].
Proof. vm_compute. reflexivity. Qed.

(** A backup beside a Teku keystore makes the loader read the keystore once more. *)
Example teku_loads_twice :
  load_from_teku_format
    (list_to_map [(["keys"], DirNode); (["a.json"; "keys"], FileNode [x7b; x01]);
                  (["a.bak"; "keys"], FileNode []); (["a.txt"; "secrets"], FileNode [x70])]%string)
    ["keys"%string] ["secrets"%string]
  = Ok [BlsLocal [x01]; BlsLocal [x01]].
Proof. vm_compute. reflexivity. Qed.

(** A missing key file is a panic, not an error. *)
Example missing_key_file_panics : load_from_env (SLFile "/keys.json") wallet = Panics.
Proof. vm_compute. reflexivity. Qed.
End LoaderSample.
