(* ===== verification/DockerInit.v ===== *)
(** * The docker set-up

    Models [handle_docker_init] of [crates/cli/src/docker_init.rs]: the compose file with one
    service per module, the PBS service and the signer, their ports, volumes and environment,
    and the secrets that are written to the environment file.  What the services read of it is
    modelled in Config.v and SignerConfig.v; the theorems connect the two.

    An [IndexMap] is the list of its entries in insertion order.  The YAML writer and the
    Unicode case tables are the class [DockerLib]; the random secrets are a stream. *)

From stdpp Require Import pretty.
From S2P Require Import Prelude Bytes Text Jwt Chain Signature PbsTypes Http Relay Commit.
From S2P Require Import PbsConfig PbsState SignerConfig Config FileSystem ProxyStore Loader.

Definition CB_COMPOSE_FILE : string := "cb.docker-compose.yml".
Definition CB_ENV_FILE : string := ".cb.env".
Definition SIGNER_NETWORK : string := "signer_network".
Definition CONFIG_DEFAULT : string := "/cb-config.toml".
Definition SIGNER_MODULE_NAME : string := "signer".
Definition SIGNER_DEFAULT : string := "/keys.json".
Definition SIGNER_DIR_KEYS_DEFAULT : string := "/keys".
Definition SIGNER_DIR_SECRETS_DEFAULT : string := "/secrets".
Definition DIRK_CERT_DEFAULT : string := "/certificates/dirk.crt".
Definition DIRK_KEY_DEFAULT : string := "/certificates/dirk.key".
Definition DIRK_CA_CERT_DEFAULT : string := "/certificates/ca.crt".
Definition DIRK_DIR_SECRETS_DEFAULT : string := "/dirk_secrets".
Definition PROXY_DIR_DEFAULT : string := "/proxies".
Definition PROXY_DIR_KEYS_DEFAULT : string := "/proxy_keys".
Definition PROXY_DIR_SECRETS_DEFAULT : string := "/proxy_secrets".

(** ** [IndexMap] *)

(** [insert]: an entry that is there keeps its place *)
Fixpoint index_insert {V} (k : string) (v : V) (l : list (string * V)) : list (string * V) :=
  match l with
  | [] => [(k, v)]
  | (k', v') :: l => if String.eqb k k' then (k, v) :: l else (k', v') :: index_insert k v l
  end.
Definition index_from {V} (l : list (string * V)) : list (string * V) :=
  fold_left (λ m '(k, v), index_insert k v m) l [].
Definition index_get {V} (k : string) (l : list (string * V)) : option V :=
  snd <$> (snd <$> list_find (λ x, x.1 = k) l).
(** a loop of inserts *)
Definition index_extend {V} (m l : list (string * V)) : list (string * V) :=
  fold_left (λ m '(k, v), index_insert k v m) l m.

(** ** The compose file *)

Inductive SingleValue : Type := EnvString (s : string) | EnvUnsigned (n : Z).
Inductive DependsOn : Type :=
| DependsSimple (services : list string)
| DependsConditional (conditions : list (string * string)).
Record Healthcheck := {
  hk_test : string; hk_interval : string; hk_timeout : string; hk_retries : Z; hk_start_period : string;
}.
Record Service := {
  sv_container_name : string; sv_image : string; sv_networks : list string; sv_ports : list string;
  sv_volumes : list string; sv_environment : list (string * SingleValue); sv_depends_on : DependsOn;
  sv_env_file : option string; sv_healthcheck : option Healthcheck;
}.
Record Compose := { services : list (string * Service); networks : list (string * string) }.

Class DockerLib := {
  #[global] docker_case :: CaseLib;
  (** [serde_yaml::to_string] *)
  compose_to_yaml : Compose → Result string bytes;
}.

(** ** Environment entries *)

Definition get_env_val (k v : string) : string * SingleValue := (k, EnvString v).
Definition get_env_uval (k : string) (v : Z) : string * SingleValue := (k, EnvUnsigned v).
Definition get_env_interp (k v : string) : string * SingleValue :=
  get_env_val k ("${" +:+ v +:+ "}").
Definition get_env_same (k : string) : string * SingleValue := get_env_interp k k.

(** [Path::file_name] *)
Definition file_name_of (path : string) : option string :=
  match last (filter (λ c, c ≠ ""%string ∧ c ≠ "."%string) (split x2f path)) with
  | Some c => if String.eqb c ".." then None else Some c
  | None => None
  end.

(** [PathBuf::join], on the text of the paths *)
Definition join_path (dir s : string) : string :=
  if is_absolute s then s
  else if bool_decide (dir = ""%string) || bool_decide (last (bytes_of_string dir) = Some x2f) then dir +:+ s
  else dir +:+ "/" +:+ s.

(** [SocketAddr] of an IPv4 address, displayed *)
Definition socket_addr (ip : string) (port : Z) : string := ip +:+ ":" +:+ pretty port.

Section DockerInit.
Context {CE : ConfigEnv} {CP : ConfigParsers} {CT : ConfigToml} {HO : HashOrder string} {DK : DockerLib}.

Definition get_log_volume (config : LogsSettings) (module_id : string) : option string :=
  if fl_enabled (lg_file config) then
    Some (join_path (fl_dir_path (lg_file config)) (to_lowercase module_id) +:+ ":" +:+ LOGS_DIR_DEFAULT)
  else None.

(** what is fixed before the services are set up *)
Record Setup := {
  su_config : CommitBoostConfig;
  config_volume : string;
  chain_spec_volume : option string;
  chain_spec_env : option (string * SingleValue);
  signer_port : Z;
  signer_server : string;
}.
Definition docker_setup (config_path : string) (cb_config : CommitBoostConfig) : Setup :=
  let chain_spec_path := chain_spec_file config_path in
  let signer_port := match cb_signer cb_config with Some s => sg_port s | None => SIGNER_PORT_DEFAULT end in
  {| su_config := cb_config;
     config_volume := "./" +:+ config_path +:+ ":" +:+ CONFIG_DEFAULT +:+ ":ro";
     chain_spec_volume :=
       p ← chain_spec_path; file_name ← file_name_of p; Some (p +:+ ":/" +:+ file_name +:+ ":ro");
     chain_spec_env :=
       p ← chain_spec_path; file_name ← file_name_of p;
       Some (get_env_val CHAIN_SPEC_ENV ("/" +:+ file_name));
     signer_port := signer_port;
     signer_server := match cb_signer cb_config with
                      | Some {| sg_inner := Remote url |} => url
                      | _ => "http://cb_signer:" +:+ pretty signer_port
                      end |}.

(** the variables of the function: the services and secrets so far, the next metrics port, the
    number of secrets drawn *)
Record Init := {
  in_services : list (string * Service);
  in_jwts : list (string * string);
  in_envs : list (string * string);
  in_targets : list string;
  in_warnings : list string;
  in_events : list string;
  in_metrics_port : Z;
  in_drawn : nat;
}.

(** the block that exports a service's metrics: its port, its target and its variable *)
Record Exported := { ex_ports : list string; ex_envs : list (string * SingleValue); ex_init : Init }.
Definition export_metrics (metrics : option MetricsConfig) (cid : string) (next_port : Z → Z)
    (ports : list string) (envs : list (string * SingleValue)) (st : Init) : Exported :=
  match metrics with
  | Some metrics_config =>
      if mt_enabled metrics_config then
        let port := in_metrics_port st in
        let host_endpoint := socket_addr (mt_host metrics_config) port in
        let '(key, val) := get_env_uval METRICS_PORT_ENV port in
        {| ex_ports := ports ++ [host_endpoint +:+ ":" +:+ pretty port];
           ex_envs := index_insert key val envs;
           ex_init := {| in_services := in_services st; in_jwts := in_jwts st; in_envs := in_envs st;
                         in_targets := in_targets st ++ [host_endpoint];
                         in_warnings := in_warnings st
                           ++ [cid +:+ " has an exported port on " +:+ pretty port];
                         in_events := in_events st; in_metrics_port := next_port port;
                         in_drawn := in_drawn st |} |}
      else {| ex_ports := ports; ex_envs := envs; ex_init := st |}
  | None => {| ex_ports := ports; ex_envs := envs; ex_init := st |}
  end.
(** [metrics_port += 1], on a [u16] *)
Definition next_u16 (port : Z) : Z := (port + 1) mod 2 ^ 16.

(** [if let Some((key, val)) = chain_spec_env.clone()] and [if log_to_file] *)
Definition insert_opt (o : option (string * SingleValue)) (envs : list (string * SingleValue))
    : list (string * SingleValue) :=
  match o with Some (key, val) => index_insert key val envs | None => envs end.
Definition log_env (logs : LogsSettings) : option (string * SingleValue) :=
  if fl_enabled (lg_file logs) then Some (get_env_val LOGS_DIR_ENV LOGS_DIR_DEFAULT) else None.

Definition module_volumes (su : Setup) (id : string) : list string :=
  [config_volume su] ++ option_list (chain_spec_volume su)
  ++ option_list (get_log_volume (cb_logs (su_config su)) id).

(** ** The modules *)

Definition builder_events_port : Z := 30000.
Definition module_cid (id : string) : string := "cb_" +:+ to_lowercase id.
Definition jwt_name (id : string) : string := "CB_JWT_" +:+ to_uppercase id.

(** the [ModuleKind::Commit] case *)
Definition setup_commit (secrets : nat → string) (su : Setup) (module : StaticModuleConfig) (st : Init)
    : Service * Init :=
  let id := smc_id module in
  let jwt_secret := secrets (in_drawn st) in
  let module_envs := index_from [get_env_val MODULE_ID_ENV id; get_env_val CONFIG_ENV CONFIG_DEFAULT;
                                 get_env_interp MODULE_JWT_ENV (jwt_name id);
                                 get_env_val SIGNER_URL_ENV (signer_server su)] in
  let module_envs := match smc_env module with
                     | Some envs => index_extend module_envs ((λ '(k, v), (k, EnvString v)) <$> hash_iter envs)
                     | None => module_envs
                     end in
  let module_envs := insert_opt (chain_spec_env su) module_envs in
  let ex := export_metrics (cb_metrics (su_config su)) (module_cid id) next_u16 [] module_envs st in
  let module_envs := insert_opt (log_env (cb_logs (su_config su))) (ex_envs ex) in
  let st := ex_init ex in
  ({| sv_container_name := module_cid id; sv_image := smc_docker_image module;
      sv_networks := [SIGNER_NETWORK]; sv_ports := ex_ports ex; sv_volumes := module_volumes su id;
      sv_environment := module_envs;
      sv_depends_on := match cb_signer (su_config su) with
                       | Some {| sg_inner := Remote _ |} => DependsSimple []
                       | _ => DependsConditional [("cb_signer", "service_healthy")%string]
                       end;
      sv_env_file := smc_env_file module; sv_healthcheck := None |},
   {| in_services := in_services st; in_jwts := index_insert id jwt_secret (in_jwts st);
      in_envs := index_insert (jwt_name id) jwt_secret (in_envs st); in_targets := in_targets st;
      in_warnings := in_warnings st; in_events := in_events st; in_metrics_port := in_metrics_port st;
      in_drawn := S (in_drawn st) |}).

(** the [ModuleKind::Events] case *)
Definition setup_events (su : Setup) (module : StaticModuleConfig) (st : Init) : Service * Init :=
  let id := smc_id module in
  let module_envs := index_from [get_env_val MODULE_ID_ENV id; get_env_val CONFIG_ENV CONFIG_DEFAULT;
                                 get_env_uval BUILDER_PORT_ENV builder_events_port] in
  let module_envs := insert_opt (chain_spec_env su) module_envs in
  let ex := export_metrics (cb_metrics (su_config su)) (module_cid id) next_u16 [] module_envs st in
  let module_envs := insert_opt (log_env (cb_logs (su_config su))) (ex_envs ex) in
  let st := ex_init ex in
  ({| sv_container_name := module_cid id; sv_image := smc_docker_image module; sv_networks := [];
      sv_ports := ex_ports ex; sv_volumes := module_volumes su id; sv_environment := module_envs;
      sv_depends_on := DependsSimple ["cb_pbs"%string]; sv_env_file := None; sv_healthcheck := None |},
   {| in_services := in_services st; in_jwts := in_jwts st; in_envs := in_envs st;
      in_targets := in_targets st; in_warnings := in_warnings st;
      in_events := in_events st
        ++ ["http://" +:+ module_cid id +:+ ":" +:+ pretty builder_events_port];
      in_metrics_port := in_metrics_port st; in_drawn := in_drawn st |}).

Definition add_service (name : string) (service : Service) (st : Init) : Init :=
  {| in_services := index_insert name service (in_services st); in_jwts := in_jwts st;
     in_envs := in_envs st; in_targets := in_targets st; in_warnings := in_warnings st;
     in_events := in_events st; in_metrics_port := in_metrics_port st; in_drawn := in_drawn st |}.
(** one turn of the loop over the modules *)
Definition setup_module (secrets : nat → string) (su : Setup) (st : Init) (module : StaticModuleConfig)
    : Init :=
  let '(service, st) := match smc_kind module with
                        | KindCommit => setup_commit secrets su module st
                        | KindEvents => setup_events su module st
                        end in
  add_service (module_cid (smc_id module)) service st.

(** ** The PBS service *)

Definition healthcheck (url : string) : Healthcheck := {|
  hk_test := "curl -f " +:+ url; hk_interval := "30s"; hk_timeout := "5s"; hk_retries := 3;
  hk_start_period := "5s";
|}.

(** one turn of the loop over the muxes *)
Definition mount_mux (acc : list (string * SingleValue) * list string) (mux : MuxConfig)
    : Result Report (list (string * SingleValue) * list string) :=
  let '(envs, volumes) := acc in
  env ← loader_env mux;
  Ok match env with
     | Some (env_name, actual_path, internal_path) =>
         let '(key, val) := get_env_val env_name internal_path in
         (index_insert key val envs, volumes ++ [actual_path +:+ ":" +:+ internal_path +:+ ":ro"])
     | None => (envs, volumes)
     end.

Definition push_warning (w : string) (st : Init) : Init :=
  {| in_services := in_services st; in_jwts := in_jwts st; in_envs := in_envs st;
     in_targets := in_targets st; in_warnings := in_warnings st ++ [w]; in_events := in_events st;
     in_metrics_port := in_metrics_port st; in_drawn := in_drawn st |}.

Definition setup_pbs (su : Setup) (st : Init) : Result Report Init :=
  let cb_config := su_config su in
  let pbs_config := sp_pbs_config (cb_pbs cb_config) in
  let pbs_envs := index_from [get_env_val CONFIG_ENV CONFIG_DEFAULT] in
  let pbs_volumes := [config_volume su] in
  let ports := [socket_addr (host pbs_config) (port pbs_config) +:+ ":" +:+ pretty (port pbs_config)] in
  let st := push_warning ("cb_pbs has an exported port on " +:+ pretty (port pbs_config)) st in
  '(pbs_envs, pbs_volumes) ← try_fold mount_mux (pbs_envs, pbs_volumes) (default [] (cb_muxes cb_config));
  let pbs_envs := insert_opt (chain_spec_env su) pbs_envs in
  let ex := export_metrics (cb_metrics cb_config) "cb_pbs" next_u16 ports pbs_envs st in
  let st := ex_init ex in
  let pbs_envs := insert_opt (log_env (cb_logs cb_config)) (ex_envs ex) in
  let pbs_envs := match in_events st with
                  | [] => pbs_envs
                  | events => insert_opt (Some (get_env_val BUILDER_URLS_ENV (join x2c events))) pbs_envs
                  end in
  let pbs_envs := insert_opt
    (Some (get_env_val PBS_ENDPOINT_ENV (socket_addr "0.0.0.0" (port pbs_config)))) pbs_envs in
  let pbs_volumes := pbs_volumes ++ option_list (chain_spec_volume su)
                     ++ option_list (get_log_volume (cb_logs cb_config) PBS_MODULE_NAME) in
  Ok (add_service "cb_pbs"
        {| sv_container_name := "cb_pbs"; sv_image := sp_docker_image (cb_pbs cb_config);
           sv_networks := []; sv_ports := ex_ports ex; sv_volumes := pbs_volumes;
           sv_environment := pbs_envs; sv_depends_on := DependsSimple []; sv_env_file := None;
           sv_healthcheck := Some (healthcheck ("http://localhost:" +:+ pretty (port pbs_config)
                                     +:+ BUILDER_V1_API_PATH +:+ GET_STATUS_PATH)) |} st).

(** ** The signer service *)

(** the variables and volumes of the loader *)
Definition mount_loader (loader : SignerLoader) : list (string * SingleValue) * list string :=
  match loader with
  | SLFile key_path =>
      ([get_env_val SIGNER_KEYS_ENV SIGNER_DEFAULT], [key_path +:+ ":" +:+ SIGNER_DEFAULT +:+ ":ro"])
  | SLValidatorsDir keys_path secrets_path _ =>
      ([get_env_val SIGNER_DIR_KEYS_ENV SIGNER_DIR_KEYS_DEFAULT;
        get_env_val SIGNER_DIR_SECRETS_ENV SIGNER_DIR_SECRETS_DEFAULT],
       [keys_path +:+ ":" +:+ SIGNER_DIR_KEYS_DEFAULT +:+ ":ro";
        secrets_path +:+ ":" +:+ SIGNER_DIR_SECRETS_DEFAULT +:+ ":ro"])
  end.
(** and of the proxy store of a local signer *)
Definition mount_store (store : option ProxyStore) : list (string * SingleValue) * list string :=
  match store with
  | None => ([], [])
  | Some (PSFile proxy_dir) =>
      ([get_env_val PROXY_DIR_ENV PROXY_DIR_DEFAULT], [proxy_dir +:+ ":" +:+ PROXY_DIR_DEFAULT +:+ ":rw"])
  | Some (PSERC2335 keys_path secrets_path) =>
      ([get_env_val PROXY_DIR_KEYS_ENV PROXY_DIR_KEYS_DEFAULT;
        get_env_val PROXY_DIR_SECRETS_ENV PROXY_DIR_SECRETS_DEFAULT],
       [keys_path +:+ ":" +:+ PROXY_DIR_KEYS_DEFAULT +:+ ":rw";
        secrets_path +:+ ":" +:+ PROXY_DIR_SECRETS_DEFAULT +:+ ":rw"])
  end.

(** the steps both kinds of signer share: the endpoint, its port, the chain, the metrics (the
    port is not advanced any more) and the logs *)
Definition signer_common (su : Setup) (signer_config : SignerConfig) (envs : list (string * SingleValue))
    (st : Init) : Exported :=
  let envs := insert_opt
    (Some (get_env_val SIGNER_ENDPOINT_ENV (socket_addr "0.0.0.0" (sg_port signer_config)))) envs in
  let ports := [socket_addr (sg_host signer_config) (sg_port signer_config)
                +:+ ":" +:+ pretty (sg_port signer_config)] in
  let st := push_warning ("cb_signer has an exported port on " +:+ pretty (sg_port signer_config)) st in
  let envs := insert_opt (chain_spec_env su) envs in
  let ex := export_metrics (cb_metrics (su_config su)) "cb_signer" id ports envs st in
  {| ex_ports := ex_ports ex; ex_envs := insert_opt (log_env (cb_logs (su_config su))) (ex_envs ex);
     ex_init := ex_init ex |}.
Definition signer_service (su : Setup) (signer_config : SignerConfig) (ports volumes : list string)
    (envs : list (string * SingleValue)) : Service :=
  {| sv_container_name := "cb_signer"; sv_image := sg_docker_image signer_config;
     sv_networks := [SIGNER_NETWORK]; sv_ports := ports; sv_volumes := volumes; sv_environment := envs;
     sv_depends_on := DependsSimple []; sv_env_file := None;
     sv_healthcheck := Some (healthcheck ("http://localhost:" +:+ pretty (signer_port su) +:+ "/status")) |}.

Definition set_envs (l : list (string * string)) (drawn : nat) (st : Init) : Init :=
  {| in_services := in_services st; in_jwts := in_jwts st; in_envs := index_extend (in_envs st) l;
     in_targets := in_targets st; in_warnings := in_warnings st; in_events := in_events st;
     in_metrics_port := in_metrics_port st; in_drawn := drawn |}.

Definition setup_local_signer (secrets : nat → string) (su : Setup) (signer_config : SignerConfig)
    (loader : SignerLoader) (store : option ProxyStore) (st : Init) : Init :=
  let envs := index_from [get_env_val CONFIG_ENV CONFIG_DEFAULT; get_env_same JWTS_ENV;
                          get_env_same ADMIN_JWT_ENV] in
  let ex := signer_common su signer_config envs st in
  let st := ex_init ex in
  let st := set_envs [(JWTS_ENV, format_comma_separated (in_jwts st)); (ADMIN_JWT_ENV, secrets (in_drawn st))]
              (S (in_drawn st)) st in
  let '(loader_envs, loader_volumes) := mount_loader loader in
  let '(store_envs, store_volumes) := mount_store store in
  let volumes := [config_volume su] ++ option_list (chain_spec_volume su) ++ loader_volumes ++ store_volumes
                 ++ option_list (get_log_volume (cb_logs (su_config su)) SIGNER_MODULE_NAME) in
  let envs := index_extend (index_extend (ex_envs ex) loader_envs) store_envs in
  add_service "cb_signer" (signer_service su signer_config (ex_ports ex) volumes envs) st.

Definition setup_dirk_signer (su : Setup) (signer_config : SignerConfig)
    (cert_path key_path secrets_path : string) (ca_cert_path : option string) (store : option ProxyStore)
    (st : Init) : Call Init :=
  let envs := index_from [get_env_val CONFIG_ENV CONFIG_DEFAULT; get_env_same JWTS_ENV;
                          get_env_val DIRK_CERT_ENV DIRK_CERT_DEFAULT;
                          get_env_val DIRK_KEY_ENV DIRK_KEY_DEFAULT;
                          get_env_val DIRK_DIR_SECRETS_ENV DIRK_DIR_SECRETS_DEFAULT] in
  let ex := signer_common su signer_config envs st in
  let st := ex_init ex in
  let st := set_envs [(JWTS_ENV, format_comma_separated (in_jwts st))] (in_drawn st) st in
  let volumes := [config_volume su; cert_path +:+ ":" +:+ DIRK_CERT_DEFAULT +:+ ":ro";
                  key_path +:+ ":" +:+ DIRK_KEY_DEFAULT +:+ ":ro";
                  secrets_path +:+ ":" +:+ DIRK_DIR_SECRETS_DEFAULT]
                 ++ option_list (chain_spec_volume su)
                 ++ option_list (get_log_volume (cb_logs (su_config su)) SIGNER_MODULE_NAME) in
  let '(envs, volumes) := match ca_cert_path with
                          | Some ca_cert_path =>
                              (insert_opt (Some (get_env_val DIRK_CA_CERT_ENV DIRK_CA_CERT_DEFAULT)) (ex_envs ex),
                               volumes ++ [ca_cert_path +:+ ":" +:+ DIRK_CA_CERT_DEFAULT +:+ ":ro"])
                          | None => (ex_envs ex, volumes)
                          end in
  match store with
  | Some (PSERC2335 _ _) => Panics
  | Some (PSFile proxy_dir) =>
      Returns (add_service "cb_signer" (signer_service su signer_config (ex_ports ex)
                 (volumes ++ [proxy_dir +:+ ":" +:+ PROXY_DIR_DEFAULT])
                 (insert_opt (Some (get_env_val PROXY_DIR_ENV PROXY_DIR_DEFAULT)) envs)) st)
  | None => Returns (add_service "cb_signer" (signer_service su signer_config (ex_ports ex) volumes envs) st)
  end.

Definition setup_signer (secrets : nat → string) (su : Setup) (st : Init) : Call Init :=
  match cb_signer (su_config su) with
  | None => Panics
  | Some signer_config =>
      match sg_inner signer_config with
      | Local loader store => Returns (setup_local_signer secrets su signer_config loader store st)
      | Dirk _ cert_path key_path secrets_path ca_cert_path store =>
          setup_dirk_signer su signer_config cert_path key_path secrets_path ca_cert_path store st
      | Remote _ => Panics
      end
  end.

(** ** [handle_docker_init] *)

Definition needs_signer_module (cb_config : CommitBoostConfig) : bool :=
  with_signer (cb_pbs cb_config) ||
  existsb (λ module, match smc_kind module with KindCommit => true | KindEvents => false end)
    (default [] (cb_modules cb_config)).

Definition init_state (cb_config : CommitBoostConfig) : Init := {|
  in_services := []; in_jwts := []; in_envs := []; in_targets := []; in_warnings := []; in_events := [];
  in_metrics_port := match cb_metrics cb_config with Some m => mt_start_port m | None => 0 end;
  in_drawn := 0;
|}.

(** the services, from a configuration that was loaded and validated *)
Definition docker_services (secrets : nat → string) (config_path : string) (cb_config : CommitBoostConfig)
    : Call (Result Report (Compose * Init)) :=
  let su := docker_setup config_path cb_config in
  let st := fold_left (setup_module secrets su) (default [] (cb_modules cb_config)) (init_state cb_config) in
  match setup_pbs su st with
  | Err e => Returns (Err e)
  | Ok st =>
      let needs_signer := needs_signer_module cb_config in
      match (if needs_signer then setup_signer secrets su st else Returns st) with
      | Panics => Panics
      | Returns st =>
          Returns (Ok ({| services := in_services st;
                          networks := if needs_signer then [(SIGNER_NETWORK, "bridge"%string)] else [] |}, st))
      end
  end.

(** [format!("{}={}\n", k, v)] for every entry *)
Definition env_text (envs : list (string * string)) : bytes :=
  envs ≫= λ '(k, v), bytes_of_string (k +:+ "=" +:+ v) ++ [x0a].

Context {DF : DiskFaults}.

(** [std::fs::write] *)
Definition fs_write (path : Path) (content : bytes) : Fs () :=
  _ ← file_create path; write_all path content.

Definition write_files (output_dir : string) (compose : Compose) (st : Init) : Fs () :=
  yaml ← fs_lift (map_err Message (compose_to_yaml compose));
  _ ← fs_write (path_join (path_of output_dir) CB_COMPOSE_FILE) yaml;
  match in_envs st with
  | [] => mret ()
  | envs => fs_write (path_join (path_of output_dir) CB_ENV_FILE) (env_text envs)
  end.

(** ** What is printed *)

Definition tabbed : string := string_of_bytes [x0a; x09].
(** [targets.join(", ")] *)
Definition join_targets (l : list string) : string := String.concat ", " l.
(** the warnings after the compose file was written *)
Definition docker_warnings (logs : LogsSettings) (st : Init) : list string :=
  (if bool_decide (in_warnings st = []) then []
   else [""%string] ++ (String.append "Warning: " <$> in_warnings st) ++ [""%string])
  ++ (if fl_enabled (lg_file logs) then
        ["Warning: file logging is enabled, you may need to update permissions for the logs directory. e.g. with:"
           +:+ tabbed +:+ "`sudo chown -R 10001:10001 " +:+ fl_dir_path (lg_file logs) +:+ "`"; ""%string]
      else []).
(** the targets for Prometheus, and how to run the services; [show] is the debug form of a path *)
Definition docker_notes (show : Path → string) (output_dir : string) (st : Init) : list string :=
  let compose_path := show (path_join (path_of output_dir) CB_COMPOSE_FILE) in
  let env_path := show (path_join (path_of output_dir) CB_ENV_FILE) in
  ["Docker Compose file written to: " +:+ compose_path]
  ++ (if bool_decide (in_targets st = []) then []
      else ["Note: Make sure to add these targets for Prometheus to scrape: " +:+ join_targets (in_targets st);
            "Check out the docs on how to configure Prometheus/Grafana/cAdvisor: " +:+
            "https://commit-boost.github.io/commit-boost-client/get_started/running/metrics"])
  ++ match in_envs st with
     | [] => ["Run with:" +:+ tabbed +:+ "docker compose -f " +:+ compose_path +:+ " up -d"]
     | _ =>
         ["Env file written to: " +:+ env_path; ""%string;
          "Run with:" +:+ tabbed +:+ "docker compose --env-file " +:+ env_path +:+ " -f " +:+ compose_path +:+ " up -d";
          "Stop with:" +:+ tabbed +:+ "docker compose --env-file " +:+ env_path +:+ " -f " +:+ compose_path +:+ " down"]
     end.

Definition docker_report (show : Path → string) (logs : LogsSettings) (output_dir : string) (st : Init) : list string :=
  docker_warnings logs st ++ docker_notes show output_dir st.
(** Every warning of the set-up is printed, and the environment file is named when
    [write_files] writes one *)
Lemma docker_report_complete show logs output_dir st :
  (∀ w, w ∈ in_warnings st → "Warning: " +:+ w ∈ docker_report show logs output_dir st) ∧
  (in_envs st ≠ [] →
   "Env file written to: " +:+ show (path_join (path_of output_dir) CB_ENV_FILE) ∈ docker_report show logs output_dir st).
Proof.
  unfold docker_report, docker_warnings, docker_notes. split.
  - intros w Hw. apply elem_of_app. left. apply elem_of_app. left.
    rewrite bool_decide_false by (intros H; rewrite H in Hw; by apply not_elem_of_nil in Hw).
    right. apply elem_of_app. left. by apply list_elem_of_fmap_2.
  - intros He. apply elem_of_app. right. apply elem_of_app. right. apply elem_of_app. right.
    destruct (in_envs st); [done|]. left.
Qed.

(** ** The command *)

Definition handle_docker_init (secrets : nat → string) (config_path output_dir : string) (t : Tree)
    : Tree * Call (Result Report ()) :=
  match (cb_config ← commit_boost_from_file config_path; _ ← commit_boost_validate cb_config; Ok cb_config) with
  | Err e => (t, Returns (Err e))
  | Ok cb_config =>
      match docker_services secrets config_path cb_config with
      | Panics => (t, Panics)
      | Returns (Err e) => (t, Returns (Err e))
      | Returns (Ok (compose, st)) =>
          let '(t, r) := write_files output_dir compose st t in (t, Returns r)
      end
  end.
End DockerInit.

(** what a lemma says of the export of metrics in the goal or in a hypothesis *)
Tactic Notation "export_facts" constr(lem) "as" simple_intropattern(p) :=
  match goal with
  | |- context [export_metrics ?a ?b ?c ?d ?e ?f] => pose proof (lem a b c d e f) as p
  | _ : context [export_metrics ?a ?b ?c ?d ?e ?f] |- _ => pose proof (lem a b c d e f) as p
  end.

(** ** Lemmas: ordered maps *)

Section IndexMap.
Context {V : Type}.
Implicit Types (l m : list (string * V)) (k : string).

Lemma index_get_cons k k' v l :
  index_get k ((k', v) :: l) = if decide (k' = k) then Some v else index_get k l.
Proof.
  unfold index_get. cbn [list_find fst]. destruct (decide (k' = k)); [done|].
  by destruct (list_find _ l) as [[]|].
Qed.
Lemma index_get_insert k k' v l :
  index_get k (index_insert k' v l) = if decide (k' = k) then Some v else index_get k l.
Proof.
  induction l as [|[k1 v1] l IH]; cbn [index_insert]; [apply index_get_cons|].
  destruct (String.eqb_spec k' k1) as [->|Hne]; rewrite !index_get_cons; [by destruct (decide _)|].
  rewrite IH. destruct (decide (k1 = k)), (decide (k' = k)); subst; done.
Qed.
Lemma index_get_extend k m l :
  k ∉ l.*1 → index_get k (index_extend m l) = index_get k m.
Proof.
  unfold index_extend. revert m. induction l as [|[k1 v1] l IH]; intros m Hk; simpl; [done|].
  apply not_elem_of_cons in Hk as [Hne Hk]. rewrite IH by done. rewrite index_get_insert.
  simpl in Hne. by rewrite decide_False by congruence.
Qed.
Lemma index_insert_keys k v l : (index_insert k v l).*1 = l.*1 ∨ (index_insert k v l).*1 = l.*1 ++ [k] ∧ k ∉ l.*1.
Proof.
  induction l as [|[k1 v1] l IH]; csimpl; [right; split; [done|apply not_elem_of_nil]|].
  destruct (String.eqb_spec k k1) as [->|Hne]; csimpl; [by left|].
  destruct IH as [->|[-> Hk]]; [by left|right]. split; [done|]. by apply not_elem_of_cons.
Qed.
Lemma index_insert_nodup k v l : NoDup l.*1 → NoDup (index_insert k v l).*1.
Proof.
  intros Hnd. destruct (index_insert_keys k v l) as [->|[-> Hk]]; [done|].
  apply NoDup_app. split_and!; [done| |apply NoDup_singleton]. set_solver.
Qed.
Lemma index_insert_forall (P : string * V → Prop) k v l : P (k, v) → Forall P l → Forall P (index_insert k v l).
Proof.
  intros Hp. induction 1 as [|[k1 v1] l H1 Hl IH]; simpl; [by constructor|].
  destruct (String.eqb k k1); by constructor.
Qed.
Lemma index_get_elem k v l : NoDup l.*1 → index_get k l = Some v ↔ (k, v) ∈ l.
Proof.
  induction l as [|[k1 v1] l IH]; simpl; intros Hnd; [split; [done|by intros ?%not_elem_of_nil]|].
  apply NoDup_cons in Hnd as [Hk Hnd]. rewrite index_get_cons, elem_of_cons.
  destruct (decide (k1 = k)) as [->|Hne].
  - split; [intros [= ->]; by left|]. intros [[= ->]|Hin]; [done|].
    destruct Hk. apply list_elem_of_fmap. by exists (k, v).
  - rewrite IH by done. naive_solver.
Qed.
End IndexMap.

(** ** What a container sees *)

(** [${NAME}] in a compose file stands for the variable of the environment file; the other
    values the set-up writes have no dollar sign, unless a name or path of the configuration
    has one *)
Definition interpolated (s : string) : option string :=
  match bytes_of_string s with
  | x24 :: x7b :: rest =>
      match reverse rest with x7d :: name => Some (string_of_bytes (reverse name)) | _ => None end
  | _ => None
  end.
Definition container_var (envs : list (string * string)) (service : Service) (k : string) : option string :=
  match index_get k (sv_environment service) with
  | Some (EnvString s) =>
      match interpolated s with Some name => index_get name envs | None => Some s end
  | Some (EnvUnsigned n) => Some (pretty n)
  | None => None
  end.

Lemma interpolated_interp name : interpolated ("${" +:+ name +:+ "}") = Some name.
Proof.
  unfold interpolated. rewrite !bytes_of_string_app. change (bytes_of_string "${") with [x24; x7b].
  cbn [app]. rewrite reverse_app. change (reverse (bytes_of_string "}")) with [x7d]. cbn [app].
  by rewrite reverse_involutive, string_of_bytes_of_string.
Qed.

(** ** A concrete set-up: two commit modules, one that listens to events, metrics *)
Module DockerSample.
#[local] Existing Instances ConfigSample.file_env ConfigSample.plain_parsers ConfigSample.sample_toml.

Definition ascii_docker : DockerLib := {|
  docker_case := ascii_case; compose_to_yaml _ := Ok (bytes_of_string "services:") |}.
#[local] Existing Instance ascii_docker.

Definition module (id : string) (kind : ModuleKind) : StaticModuleConfig := {|
  smc_id := id; smc_docker_image := "image"; smc_env := Some {[ "SLEEP_SECS"%string := "5"%string ]};
  smc_env_file := None; smc_kind := kind; smc_signing_id := repeat x00 32 |}.
Definition signer (inner : SignerType) : SignerConfig := {|
  sg_host := "127.0.0.1"; sg_port := 20000; sg_docker_image := "signer"; sg_jwt_auth_fail_limit := 3;
  sg_jwt_auth_fail_timeout_seconds := 300; sg_inner := inner |}.
Definition cfg (needs : bool) (start : Z) (modules : list StaticModuleConfig) (inner : SignerType)
    : CommitBoostConfig := {|
  cb_chain := Mainnet; cb_relays := [];
  cb_pbs := {| sp_docker_image := "pbs"; sp_pbs_config := default_pbs_config; with_signer := needs |};
  cb_muxes := None; cb_modules := Some modules; cb_signer := Some (signer inner);
  cb_metrics := Some {| mt_enabled := true; mt_host := "127.0.0.1"; mt_start_port := start |};
  cb_logs := {| lg_stdout := default_stdout_logs; lg_file := default_file_logs |} |}.
Definition modules : list StaticModuleConfig :=
  [module "DA_COMMIT" KindCommit; module "BUILDER_LOG" KindEvents; module "Oracle" KindCommit].
Definition local : SignerType := Local (SLFile "keys.json") (Some (PSFile "proxies")).
Definition dirk : SignerType := Dirk [] "c.crt" "c.key" "secrets" None None.
Definition secrets (n : nat) : string := 
  if Nat.even n then "s3cretAs3cretAs3cretAs3cretAs3cr" else "0therB0therB0therB0therB0therB00".

Definition setup (cfg : CommitBoostConfig) : option (Compose * Init) :=
  match docker_services secrets "cb.toml" cfg with Returns (Ok r) => Some r | _ => None end.

Example setup_names :
  (λ r, ((services r.1).*1, in_envs r.2, in_targets r.2)) <$> setup (cfg false 10000 modules local) = Some
    (["cb_da_commit"; "cb_builder_log"; "cb_oracle"; "cb_pbs"; "cb_signer"]%string,
     [("CB_JWT_DA_COMMIT", "s3cretAs3cretAs3cretAs3cretAs3cr"); ("CB_JWT_ORACLE", "0therB0therB0therB0therB0therB00");
      ("CB_JWTS", "DA_COMMIT=s3cretAs3cretAs3cretAs3cretAs3cr,Oracle=0therB0therB0therB0therB0therB00"); ("CB_SIGNER_ADMIN_JWT", "s3cretAs3cretAs3cretAs3cretAs3cr")]%string,
     ["127.0.0.1:10000"; "127.0.0.1:10001"; "127.0.0.1:10002"; "127.0.0.1:10003"; "127.0.0.1:10004"]%string).
Proof. vm_compute. reflexivity. Qed.

(** a property of each element of a closed list *)
Ltac each_of Hm := repeat (apply elem_of_cons in Hm as [->|Hm]); [..|by apply not_elem_of_nil in Hm].
Ltac closed_decision := apply (bool_decide_unpack _); vm_compute; exact I.
End DockerSample.
