(* ===== verification/DockerSecrets.v ===== *)
(** * The secrets of the docker set-up

    What DockerInit.v writes fits what the services read: the signer reads back from its
    environment, for every commit module, the secret that the module finds in its own, and
    loads its configuration. *)

From stdpp Require Import pretty.
From S2P Require Import Prelude Bytes Text Jwt Chain Signature PbsTypes Http Relay Commit.
From S2P Require Import PbsConfig PbsState SignerConfig Config FileSystem ProxyStore Loader DockerInit.

Section Secrets.
Context {CE : ConfigEnv} {CP : ConfigParsers} {CT : ConfigToml} {HO : HashOrder string} {DK : DockerLib}.
Implicit Types (su : Setup) (st : Init) (m : StaticModuleConfig).

(** ** Steps that leave a variable alone *)

Lemma insert_opt_get k o envs :
  (∀ x, o = Some x → x.1 ≠ k) → index_get k (insert_opt o envs) = index_get k envs.
Proof.
  intros Ho. destruct o as [[k' v]|]; simpl; [|done].
  rewrite index_get_insert, decide_False; [done|]. by apply (Ho (k', v)).
Qed.
Lemma export_metrics_get metrics cid next ports envs st k : k ≠ METRICS_PORT_ENV →
  index_get k (ex_envs (export_metrics metrics cid next ports envs st)) = index_get k envs.
Proof.
  intros Hk. unfold export_metrics. destruct metrics as [mc|]; [|done].
  destruct (mt_enabled mc); [|done]. simpl. rewrite index_get_insert, decide_False; [done|congruence].
Qed.
Lemma export_metrics_keeps metrics cid next ports envs st :
  let st' := ex_init (export_metrics metrics cid next ports envs st) in
  in_services st' = in_services st ∧ in_jwts st' = in_jwts st ∧ in_envs st' = in_envs st ∧
  in_drawn st' = in_drawn st.
Proof. unfold export_metrics. destruct metrics as [mc|]; [destruct (mt_enabled mc)|]; done. Qed.
Lemma log_env_key logs x : log_env logs = Some x → x.1 = LOGS_DIR_ENV.
Proof. unfold log_env. destruct (fl_enabled _); naive_solver. Qed.
Lemma chain_spec_env_key config_path config x :
  chain_spec_env (docker_setup config_path config) = Some x → x.1 = CHAIN_SPEC_ENV.
Proof.
  simpl. destruct (chain_spec_file config_path) as [p|]; simpl; [|done].
  destruct (file_name_of p); simpl; naive_solver.
Qed.

(** ** The modules *)

Definition is_commit m : Prop := smc_kind m = KindCommit.

(** the variable of a module's secret *)
Definition jwt_reference m : SingleValue := EnvString ("${" +:+ jwt_name (smc_id m) +:+ "}").
(** the variables with which a commit module finds the signer, in the set-up with this URL *)
Definition module_keys : list string := [MODULE_ID_ENV; MODULE_JWT_ENV; SIGNER_URL_ENV].
Definition module_var (url : string) m (k : string) : option SingleValue :=
  index_get k [(MODULE_ID_ENV, EnvString (smc_id m)); (MODULE_JWT_ENV, jwt_reference m);
               (SIGNER_URL_ENV, EnvString url)].

(** the set-up so far gave the module a secret: in the list for the signer, in the environment
    file, and as a reference in the service of the module, along with its id and the signer *)
Definition has_secret (url : string) m st : Prop := ∃ secret service,
  index_get (smc_id m) (in_jwts st) = Some secret ∧
  index_get (jwt_name (smc_id m)) (in_envs st) = Some secret ∧
  index_get (module_cid (smc_id m)) (in_services st) = Some service ∧
  ∀ k, k ∈ module_keys → index_get k (sv_environment service) = module_var url m k.

(** a result of [random_jwt_secret]: 32 characters of rand's [Alphanumeric] *)
Definition is_alphanumeric (b : byte) : bool := in_range b 48 57 || in_range b 65 90 || in_range b 97 122.
Definition random_secret (s : string) : Prop :=
  length (bytes_of_string s) = 32%nat ∧ Forall is_alphanumeric (bytes_of_string s).
(** a module id that the list of secrets can carry *)
Definition plain_id (id : string) : Prop :=
  x2c ∉ bytes_of_string id ∧ x3d ∉ bytes_of_string id ∧ strip_one white_space (bytes_of_string id) = None.

Lemma white_space_not_alphanumeric b : is_alphanumeric b → ∀ p, p ∈ (reverse <$> white_space) → b ∉ p.
Proof.
  intros Hb. apply Forall_forall. destruct b; try (by destruct Hb); apply (bool_decide_unpack _); vm_compute; exact I.
Qed.
Lemma random_secret_plain id s : plain_id id → random_secret s → plain_entry (id, s).
Proof.
  intros (H1 & H2 & H3) [Hlen Hs]. split_and!; cbn [fst snd]; [done|done| | |done|].
  - intros Hin. by eapply Forall_forall in Hs; [|exact Hin].
  - intros Hin. by eapply Forall_forall in Hs; [|exact Hin].
  - destruct (bytes_of_string s) as [|b l _] using rev_ind; [done|]. rewrite rev_app_distr. cbn [rev app].
    apply (strip_one_app _ [] b); [|done]. apply white_space_not_alphanumeric.
    apply Forall_app in Hs as [_ Hb]. by apply Forall_cons in Hb as [Hb _].
Qed.

(** no secret is drawn twice in the first [n] draws *)
Definition distinct_draws (secrets : nat → string) (n : nat) : Prop :=
  ∀ i j, (i < n)%nat → (j < n)%nat → secrets i = secrets j → i = j.
Lemma distinct_draws_le secrets n n' : (n ≤ n')%nat → distinct_draws secrets n' → distinct_draws secrets n.
Proof. intros Hle H i j Hi Hj. apply H; lia. Qed.

(** module ids that docker and the variable names keep apart, and random secrets *)
Record modules_apart (secrets : nat → string) (ms : list StaticModuleConfig) : Prop := {
  apart_cids : NoDup ((λ m, module_cid (smc_id m)) <$> ms);
  apart_names : NoDup ((λ m, jwt_name (smc_id m)) <$> ms);
  apart_services : ∀ m, m ∈ ms → module_cid (smc_id m) ≠ "cb_pbs"%string ∧ module_cid (smc_id m) ≠ "cb_signer"%string;
  apart_env : ∀ m envs k, m ∈ ms → smc_env m = Some envs → k ∈ module_keys → envs !! k = None;
  apart_literal : ∀ m, m ∈ ms → interpolated (smc_id m) = None;
  apart_ids : ∀ m, m ∈ ms → plain_id (smc_id m);
  apart_secrets : ∀ n, random_secret (secrets n);
}.

Context (secrets : nat → string) (su : Setup).
Context (Hsu : ∀ x, chain_spec_env su = Some x → x.1 = CHAIN_SPEC_ENV).

(** the cases of a key of a list that is written out *)
Ltac each_key H :=
  repeat (apply elem_of_cons in H as [->|H]); [..|by apply not_elem_of_nil in H].

Lemma commit_env m st service st' :
  (∀ envs k, smc_env m = Some envs → k ∈ module_keys → envs !! k = None) →
  setup_commit secrets su m st = (service, st') →
  (∀ k, k ∈ module_keys → index_get k (sv_environment service) = module_var (signer_server su) m k) ∧
  in_services st' = in_services st ∧
  in_jwts st' = index_insert (smc_id m) (secrets (in_drawn st)) (in_jwts st) ∧
  in_envs st' = index_insert (jwt_name (smc_id m)) (secrets (in_drawn st)) (in_envs st) ∧
  in_drawn st' = S (in_drawn st).
Proof.
  intros Henv H. unfold setup_commit in H.
  export_facts export_metrics_keeps as (Hs & Hj & He & Hd).
  injection H as <- <-. cbn [sv_environment in_services in_jwts in_envs in_drawn].
  rewrite Hs, Hj, He, Hd. split_and!; [|done..]. intros k Hk.
  assert (k ≠ LOGS_DIR_ENV ∧ k ≠ METRICS_PORT_ENV ∧ k ≠ CHAIN_SPEC_ENV) as (Hk1 & Hk2 & Hk3)
    by (unfold module_keys in Hk; each_key Hk; done).
  rewrite insert_opt_get by (intros x Hx%log_env_key; congruence).
  rewrite export_metrics_get by done.
  rewrite insert_opt_get by (intros x Hx%Hsu; congruence).
  transitivity (index_get k (index_from [get_env_val MODULE_ID_ENV (smc_id m); get_env_val CONFIG_ENV CONFIG_DEFAULT;
    get_env_interp MODULE_JWT_ENV (jwt_name (smc_id m)); get_env_val SIGNER_URL_ENV (signer_server su)]));
    [|by unfold module_keys in Hk; each_key Hk].
  destruct (smc_env m) as [envs|]; [|done]. rewrite index_get_extend; [done|].
  rewrite <- list_fmap_compose. intros ([k' v] & Hk' & Hin%hash_iter_elem)%list_elem_of_fmap.
  simpl in Hk'. subst k'. by rewrite (Henv envs k) in Hin.
Qed.
Lemma events_keeps m st service st' : setup_events su m st = (service, st') →
  in_services st' = in_services st ∧ in_jwts st' = in_jwts st ∧ in_envs st' = in_envs st ∧
  in_drawn st' = in_drawn st.
Proof.
  unfold setup_events. intros H.
  export_facts export_metrics_keeps as (Hs & Hj & He & Hd).
  injection H as _ <-. done.
Qed.

(** A secret stays when services and secrets of other modules are added *)
Lemma has_secret_keeps m st st' :
  has_secret (signer_server su) m st →
  (index_get (smc_id m) (in_jwts st') = index_get (smc_id m) (in_jwts st)) →
  (index_get (jwt_name (smc_id m)) (in_envs st') = index_get (jwt_name (smc_id m)) (in_envs st)) →
  (index_get (module_cid (smc_id m)) (in_services st') = index_get (module_cid (smc_id m)) (in_services st)) →
  has_secret (signer_server su) m st'.
Proof. intros (secret & service & H) H1 H2 H3. exists secret, service. by rewrite H1, H2, H3. Qed.

Definition modules_inv (done : list StaticModuleConfig) st : Prop :=
  NoDup (in_jwts st).*1 ∧ Forall plain_entry (in_jwts st) ∧
  ∀ m, m ∈ done → is_commit m → has_secret (signer_server su) m st.

Lemma setup_module_inv done m st :
  modules_apart secrets (done ++ [m]) → modules_inv done st →
  modules_inv (done ++ [m]) (setup_module secrets su st m).
Proof.
  intros [Hcids Hnames _ Henv _ Hids Hsecrets] (Hnd & Hpl & Hdone).
  assert (∀ m', m' ∈ done → module_cid (smc_id m) ≠ module_cid (smc_id m') ∧
    jwt_name (smc_id m) ≠ jwt_name (smc_id m')) as Hne.
  { rewrite fmap_app in Hcids, Hnames. apply NoDup_app in Hcids as (_ & Hc & _), Hnames as (_ & Hn & _).
    intros m' Hm'. split; intros Heq.
    - eapply Hc; [by apply (list_elem_of_fmap_2 (λ m, module_cid (smc_id m)))|]. simpl. rewrite Heq. set_solver.
    - eapply Hn; [by apply (list_elem_of_fmap_2 (λ m, jwt_name (smc_id m)))|]. simpl. rewrite Heq. set_solver. }
  assert (∀ m', m' ∈ done → smc_id m ≠ smc_id m') as Hid.
  { intros m' Hm' Heq. destruct (Hne m' Hm') as [Hc _]. by rewrite Heq in Hc. }
  unfold setup_module. destruct (smc_kind m) eqn:Hkind.
  - destruct (setup_commit secrets su m st) as [service st'] eqn:Hset.
    apply commit_env in Hset as (Href & Hs & Hj & He & _); [|intros; by apply (Henv m); [set_solver|..]].
    split_and!; cbn [add_service in_jwts].
    + rewrite Hj. by apply index_insert_nodup.
    + rewrite Hj. apply index_insert_forall; [|done]. apply random_secret_plain; [|done]. apply Hids. set_solver.
    + intros m' [Hm'| ->%list_elem_of_singleton]%elem_of_app Hcommit.
      * destruct (Hne m' Hm'). apply (has_secret_keeps _ st); [by apply Hdone|..]; cbn [add_service in_jwts in_envs in_services];
          rewrite ?Hs, ?Hj, ?He, index_get_insert, decide_False; auto.
      * exists (secrets (in_drawn st)), service. cbn [add_service in_jwts in_envs in_services].
        rewrite Hs, Hj, He, !index_get_insert, !decide_True by done. done.
  - destruct (setup_events su m st) as [service st'] eqn:Hset.
    apply events_keeps in Hset as (Hs & Hj & He & _).
    split_and!; cbn [add_service in_jwts]; [by rewrite Hj..|].
    intros m' [Hm'| ->%list_elem_of_singleton]%elem_of_app Hcommit; [|unfold is_commit in Hcommit; congruence].
    destruct (Hne m' Hm'). apply (has_secret_keeps _ st); [by apply Hdone|..]; cbn [add_service in_jwts in_envs in_services];
      rewrite ?Hs, ?Hj, ?He, ?index_get_insert, ?decide_False; auto.
Qed.

Lemma modules_apart_init ms m : modules_apart secrets (ms ++ [m]) → modules_apart secrets ms.
Proof.
  intros [H1 H2 H3 H4 H5 H6 H7]. rewrite fmap_app in H1, H2. apply NoDup_app in H1 as [H1 _], H2 as [H2 _].
  split; intros; [done|done|apply H3; set_solver|by apply (H4 m0 envs); [set_solver|..]|apply H5; set_solver|apply H6; set_solver|apply H7].
Qed.
Lemma setup_modules_inv ms st0 : modules_apart secrets ms → in_jwts st0 = [] →
  modules_inv ms (fold_left (setup_module secrets su) ms st0).
Proof.
  intros Hms Hst0. induction ms as [|m ms IH] using rev_ind.
  - split_and!; cbn [fold_left]; [rewrite Hst0; constructor..|set_solver].
  - rewrite fold_left_app. apply setup_module_inv; [done|]. eapply IH, modules_apart_init, Hms.
Qed.

(** the secrets in the list are those of the commit modules, each drawn once *)
Definition drawn_inv (done : list StaticModuleConfig) st : Prop :=
  (in_drawn st ≤ length done)%nat ∧
  (∀ id secret, index_get id (in_jwts st) = Some secret →
     (∃ m, m ∈ done ∧ is_commit m ∧ smc_id m = id) ∧ ∃ n, (n < in_drawn st)%nat ∧ secret = secrets n) ∧
  ∀ id id' secret, distinct_draws secrets (in_drawn st) → index_get id (in_jwts st) = Some secret →
    index_get id' (in_jwts st) = Some secret → id = id'.

Lemma setup_module_drawn done m st :
  (∀ envs k, smc_env m = Some envs → k ∈ module_keys → envs !! k = None) →
  drawn_inv done st → drawn_inv (done ++ [m]) (setup_module secrets su st m).
Proof.
  intros Henv (H0 & H1 & H2). unfold setup_module, drawn_inv. rewrite length_app. cbn [length].
  destruct (smc_kind m) eqn:Hkind.
  - destruct (setup_commit secrets su m st) as [service st'] eqn:Hset.
    apply commit_env in Hset as (_ & _ & Hj & _ & Hd); [|done].
    cbn [add_service in_jwts in_drawn]. rewrite Hj, Hd. setoid_rewrite index_get_insert. split_and!; [lia|..].
    + intros id secret. case_decide as Hid; intros Hget.
      * injection Hget as <-. split; [exists m; set_solver|]. exists (in_drawn st). split; [lia|done].
      * destruct (H1 id secret Hget) as [(m' & Hm' & Hc) (n & Hn & Hs)].
        split; [exists m'; set_solver|]. exists n. split; [lia|done].
    + intros id id' secret Hdist.
      repeat case_decide; subst; intros Hget Hget'; simplify_eq; [done| | |].
      * destruct (H1 _ _ Hget') as [_ (n & Hn & Heq)]. apply Hdist in Heq; lia.
      * destruct (H1 _ _ Hget) as [_ (n & Hn & Heq)]. apply Hdist in Heq; lia.
      * eapply H2; [|done..]. eapply distinct_draws_le; [|done]. lia.
  - destruct (setup_events su m st) as [service st'] eqn:Hset.
    apply events_keeps in Hset as (_ & Hj & _ & Hd).
    cbn [add_service in_jwts in_drawn]. rewrite Hj, Hd. split_and!; [lia| |done].
    intros id secret Hget. destruct (H1 id secret Hget) as [(m' & Hm' & Hc) Hn]. split; [exists m'; set_solver|done].
Qed.
Lemma setup_modules_drawn ms st0 : modules_apart secrets ms → in_jwts st0 = [] → in_drawn st0 = 0%nat →
  drawn_inv ms (fold_left (setup_module secrets su) ms st0).
Proof.
  intros Hms Hst0 Hd0. induction ms as [|m ms IH] using rev_ind.
  - unfold drawn_inv. cbn [fold_left]. rewrite Hst0, Hd0. by split_and!.
  - rewrite fold_left_app. apply setup_module_drawn; [|by eapply IH, modules_apart_init, Hms].
    intros envs k. apply (apart_env _ _ Hms m envs k). set_solver.
Qed.

(** ** The PBS service and the signer *)

Lemma setup_pbs_keeps st st' : setup_pbs su st = Ok st' →
  in_jwts st' = in_jwts st ∧ in_envs st' = in_envs st ∧
  ∀ k, k ≠ "cb_pbs"%string → index_get k (in_services st') = index_get k (in_services st).
Proof.
  unfold setup_pbs. intros ([envs volumes] & _ & H)%result_bind_ok.
  export_facts export_metrics_keeps as (Hs & Hj & He & _).
  injection H as <-. cbn [add_service in_jwts in_envs in_services]. rewrite Hs, Hj, He.
  split_and!; [done|done|]. intros k Hk. rewrite index_get_insert, decide_False; [done|congruence].
Qed.

Lemma signer_common_keeps sc envs st :
  let ex := signer_common su sc envs st in
  in_jwts (ex_init ex) = in_jwts st ∧ in_envs (ex_init ex) = in_envs st ∧
  in_services (ex_init ex) = in_services st ∧ in_drawn (ex_init ex) = in_drawn st ∧
  ∀ k, k ∉ [SIGNER_ENDPOINT_ENV; CHAIN_SPEC_ENV; METRICS_PORT_ENV; LOGS_DIR_ENV] →
    index_get k (ex_envs ex) = index_get k envs.
Proof.
  unfold signer_common. cbn zeta.
  export_facts export_metrics_keeps as (Hs & Hj & He & Hd).
  cbn [ex_init ex_envs]. rewrite Hs, Hj, He, Hd. split_and!; [done..|]. intros k Hk.
  rewrite !not_elem_of_cons in Hk. destruct Hk as (H1 & H2 & H3 & H4 & _).
  rewrite insert_opt_get by (intros x Hx%log_env_key; by rewrite Hx).
  rewrite export_metrics_get by done.
  rewrite insert_opt_get by (intros x Hx%Hsu; by rewrite Hx).
  by rewrite insert_opt_get by (intros x [= <-]; exact (not_eq_sym H1)).
Qed.

Lemma signer_common_endpoint sc envs st :
  index_get SIGNER_ENDPOINT_ENV (ex_envs (signer_common su sc envs st))
  = Some (EnvString (socket_addr "0.0.0.0" (sg_port sc))).
Proof.
  unfold signer_common. cbn [ex_envs]. rewrite insert_opt_get by (intros x Hx%log_env_key; by rewrite Hx).
  rewrite export_metrics_get by done. rewrite insert_opt_get by (intros x Hx%Hsu; by rewrite Hx).
  cbn [insert_opt get_env_val]. by rewrite index_get_insert, decide_True.
Qed.

Lemma jwt_name_apart id : jwt_name id ≠ JWTS_ENV ∧ jwt_name id ≠ ADMIN_JWT_ENV.
Proof. split; intros H; cbn in H; discriminate H. Qed.

(** the variables that configure the service itself *)
Definition signer_keys : list string :=
  [JWTS_ENV; ADMIN_JWT_ENV; SIGNER_ENDPOINT_ENV; SIGNER_JWT_AUTH_FAIL_LIMIT_ENV;
   SIGNER_JWT_AUTH_FAIL_TIMEOUT_SECONDS_ENV].
(** The variables of a mounted loader or store are other ones *)
Lemma mount_loader_keys loader : ∀ k, k ∈ signer_keys → k ∉ (mount_loader loader).1.*1.
Proof. intros k Hk. unfold signer_keys in Hk. destruct loader; simpl; repeat (apply elem_of_cons in Hk as [->|Hk]); set_solver. Qed.
Lemma mount_store_keys store : ∀ k, k ∈ signer_keys → k ∉ (mount_store store).1.*1.
Proof. intros k Hk. unfold signer_keys in Hk. destruct store as [[]|]; simpl; repeat (apply elem_of_cons in Hk as [->|Hk]); set_solver. Qed.

(** what a local signer gets for them *)
Definition signer_var (sc : SignerConfig) (k : string) : option SingleValue :=
  if bool_decide (k ∈ [JWTS_ENV; ADMIN_JWT_ENV]) then Some (EnvString ("${" +:+ k +:+ "}"))
  else if String.eqb k SIGNER_ENDPOINT_ENV then Some (EnvString (socket_addr "0.0.0.0" (sg_port sc)))
  else None.

Lemma setup_local_signer_spec sc loader store st :
  let st' := setup_local_signer secrets su sc loader store st in
  in_jwts st' = in_jwts st ∧
  index_get JWTS_ENV (in_envs st') = Some (format_comma_separated (in_jwts st)) ∧
  is_Some (index_get ADMIN_JWT_ENV (in_envs st')) ∧
  (∀ id, index_get (jwt_name id) (in_envs st') = index_get (jwt_name id) (in_envs st)) ∧
  (∀ k, k ≠ "cb_signer"%string → index_get k (in_services st') = index_get k (in_services st)) ∧
  ∃ signer, index_get "cb_signer" (in_services st') = Some signer ∧
    ∀ k, k ∈ signer_keys → index_get k (sv_environment signer) = signer_var sc k.
Proof.
  cbn zeta. unfold setup_local_signer.
  set (envs0 := index_from _). pose proof (signer_common_keeps sc envs0 st) as (Hj & He & Hs & _ & Henv).
  cbn zeta in *. set (ex := signer_common su sc envs0 st) in *.
  pose proof (mount_loader_keys loader) as Hl. pose proof (mount_store_keys store) as Hst.
  destruct (mount_loader loader) as [le lv], (mount_store store) as [se sv].
  cbn [add_service set_envs in_jwts in_envs in_services]. rewrite Hj, He, Hs. unfold index_extend at 1 2 3.
  cbn [fold_left]. split_and!; [done| | | | |].
  - rewrite index_get_insert, decide_False by done. by rewrite index_get_insert, decide_True.
  - rewrite index_get_insert, decide_True by done. by eexists.
  - intros id. destruct (jwt_name_apart id). by rewrite !index_get_insert, !decide_False by congruence.
  - intros k Hk. by rewrite index_get_insert, decide_False by congruence.
  - eexists. split; [by rewrite index_get_insert, decide_True|]. intros k Hk. cbn [signer_service sv_environment].
    simpl in Hl, Hst. rewrite !index_get_extend by auto. unfold signer_var.
    unfold signer_keys in Hk. repeat (apply elem_of_cons in Hk as [->|Hk]); [..|by apply not_elem_of_nil in Hk].
    3: exact (signer_common_endpoint sc envs0 st).
    all: rewrite Henv by (vm_compute; set_solver); reflexivity.
Qed.
End Secrets.

(** ** The signer and the modules agree on the secrets *)

Section Shared.
Context {CE : ConfigEnv} {CP : ConfigParsers} {CT : ConfigToml} {HO : HashOrder string} {DK : DockerLib}.

Lemma setup_signer_services secrets su st st' : setup_signer secrets su st = Returns st' →
  (∀ x, chain_spec_env su = Some x → x.1 = CHAIN_SPEC_ENV) →
  ∃ signer, in_services st' = index_insert "cb_signer" signer (in_services st).
Proof.
  intros H Hsu. unfold setup_signer in H. destruct (cb_signer (su_config su)) as [sc|]; [|done].
  destruct (sg_inner sc) as [loader store|url|hosts cert key sec ca store]; [|done|].
  - apply Returns_inj in H as <-. unfold setup_local_signer. set (envs0 := index_from _).
    pose proof (signer_common_keeps su Hsu sc envs0 st) as (_ & _ & Hs & _). cbn zeta in *.
    destruct (mount_loader loader), (mount_store store). eexists. cbn [add_service set_envs in_services].
    by rewrite Hs.
  - unfold setup_dirk_signer in H. set (envs0 := index_from _) in H.
    pose proof (signer_common_keeps su Hsu sc envs0 st) as (_ & _ & Hs & _). cbn zeta in *.
    destruct ca; destruct store as [[]|]; try discriminate H; apply Returns_inj in H as <-.
    all: eexists; cbn [add_service set_envs in_services]; by rewrite Hs.
Qed.

(** the environment a service of the compose file runs in *)
Definition runs_in (CE' : ConfigEnv) (st : Init) (service : Service) : Prop :=
  ∀ k, env_var (ConfigEnv := CE') k = container_var (in_envs st) service k.

Lemma container_var_interp envs service k name :
  index_get k (sv_environment service) = Some (EnvString ("${" +:+ name +:+ "}")) →
  container_var envs service k = index_get name envs.
Proof. intros H. unfold container_var. by rewrite H, interpolated_interp. Qed.

Lemma needs_signer_commit cfg :
  (∃ m, m ∈ default [] (cb_modules cfg) ∧ is_commit m) → needs_signer_module cfg = true.
Proof.
  intros (m & Hm & Hc). unfold needs_signer_module. apply orb_true_intro. right.
  apply existsb_exists. exists m. rewrite <- list_elem_of_In. unfold is_commit in Hc. by rewrite Hc.
Qed.

(** The stages of a set-up with a signer *)
Lemma docker_services_stages secrets config_path cfg compose st :
  needs_signer_module cfg = true →
  docker_services secrets config_path cfg = Returns (Ok (compose, st)) →
  let su := docker_setup config_path cfg in
  ∃ st1, setup_pbs su (fold_left (setup_module secrets su) (default [] (cb_modules cfg)) (init_state cfg)) = Ok st1 ∧
    setup_signer secrets su st1 = Returns st ∧ services compose = in_services st.
Proof.
  intros Hneeds H su. unfold docker_services in H. fold su in H. rewrite Hneeds in H.
  destruct (setup_pbs su _) as [st1|e] eqn:Hpbs; [|done]. exists st1. split; [done|].
  destruct (setup_signer secrets su st1) as [st2|]; [|done]. by simplify_eq.
Qed.

Lemma list_to_map_index (l : list (string * string)) k :
  (list_to_map l : gmap string string) !! k = index_get k l.
Proof.
  induction l as [|[k' v] l IH]; [done|]. rewrite index_get_cons. cbn [list_to_map foldr].
  case_decide as Hk; [by rewrite Hk, lookup_insert_eq|]. by rewrite lookup_insert_ne.
Qed.

Section LocalSigner.
Context (secrets : nat → string) (config_path : string) (cfg : CommitBoostConfig).
Context (sc : SignerConfig) (loader : SignerLoader) (store : option ProxyStore).
Context (Hsc : cb_signer cfg = Some sc) (Hinner : sg_inner sc = Local loader store).
#[local] Notation ms := (default [] (cb_modules cfg)).
Context (Hms : modules_apart secrets ms) (Hcommit : ∃ m, m ∈ ms ∧ is_commit m).

(** what a set-up with a local signer gives the signer and the commit modules *)
Record deployed (compose : Compose) (st : Init) (signer : Service) (admin : string)
    (jwts : gmap string string) : Prop := {
  dp_signer : index_get "cb_signer" (services compose) = Some signer;
  dp_vars k : k ∈ signer_keys → index_get k (sv_environment signer) = signer_var sc k;
  dp_load CE' : runs_in CE' st signer → load_jwt_secrets (CE := CE') = Ok (admin, jwts);
  dp_modules m : m ∈ ms → is_commit m → ∃ service secret,
    index_get (module_cid (smc_id m)) (services compose) = Some service ∧
    container_var (in_envs st) service MODULE_JWT_ENV = Some secret ∧ jwts !! smc_id m = Some secret ∧
    container_var (in_envs st) service MODULE_ID_ENV = Some (smc_id m) ∧
    container_var (in_envs st) service SIGNER_URL_ENV = Some (signer_server (docker_setup config_path cfg));
  dp_only id secret : jwts !! id = Some secret →
    (∃ m, m ∈ ms ∧ is_commit m ∧ smc_id m = id) ∧ ∃ n, secret = secrets n;
  dp_apart id id' secret : distinct_draws secrets (length ms) → jwts !! id = Some secret → jwts !! id' = Some secret → id = id';
}.

(** The URL of a local signer is not a reference to a variable *)
Lemma signer_server_literal : interpolated (signer_server (docker_setup config_path cfg)) = None.
Proof.
  cbn [docker_setup signer_server]. rewrite Hsc. revert Hinner. clear Hsc.
  destruct sc as [? port ? ? ? inner]. cbn. intros ->. unfold interpolated. by rewrite bytes_of_string_app.
Qed.

Lemma docker_deployed compose st :
  docker_services secrets config_path cfg = Returns (Ok (compose, st)) →
  ∃ signer admin jwts, deployed compose st signer admin jwts.
Proof.
  intros H.
  apply docker_services_stages in H as (st1 & Hpbs & Hsigner & Hcompose); [|by apply needs_signer_commit].
  set (su := docker_setup config_path cfg) in *.
  assert (∀ x, chain_spec_env su = Some x → x.1 = CHAIN_SPEC_ENV) as Hsu by apply chain_spec_env_key.
  destruct (setup_modules_inv secrets su Hsu ms (init_state cfg) Hms eq_refl) as (Hnd & Hplain & Hsec).
  destruct (setup_modules_drawn secrets su Hsu ms (init_state cfg) Hms eq_refl eq_refl) as (Hle & Hfrom & Hdrawn).
  apply setup_pbs_keeps in Hpbs as (Hj1 & He1 & Hs1). rewrite <- Hj1 in Hnd, Hplain, Hfrom, Hdrawn.
  unfold setup_signer in Hsigner. cbn [su su_config docker_setup] in Hsigner. rewrite Hsc, Hinner in Hsigner.
  apply Returns_inj in Hsigner as <-.
  destruct (setup_local_signer_spec secrets su Hsu sc loader store st1)
    as (_ & Hjwts & [admin Hadmin] & Hnames & Hothers & signer & Hs & Henv).
  exists signer, admin, (list_to_map (in_jwts st1)). split; try setoid_rewrite list_to_map_index; rewrite ?Hcompose.
  - done.
  - done.
  - intros CE' Hrun. unfold load_jwt_secrets, load_env_var. rewrite !Hrun.
    rewrite (container_var_interp _ _ ADMIN_JWT_ENV ADMIN_JWT_ENV) by (apply Henv; unfold signer_keys; set_solver).
    rewrite (container_var_interp _ _ JWTS_ENV JWTS_ENV) by (apply Henv; unfold signer_keys; set_solver).
    rewrite Hadmin, Hjwts. simpl. rewrite jwt_secrets_roundtrip; [done| |done..].
    destruct Hcommit as (m & Hm & Hc). destruct (Hsec m Hm Hc) as (secret & _ & Hget & _).
    rewrite <- Hj1 in Hget. by destruct (in_jwts st1).
  - intros m Hm Hc. destruct (Hsec m Hm Hc) as (secret & service & Hjm & Hem & Hsm & Hrm).
    destruct (apart_services _ _ Hms m Hm) as [Hnp Hns]. exists service, secret.
    rewrite Hothers, Hs1 by done. split_and!; [done| |by rewrite Hj1|..].
    + rewrite (container_var_interp _ _ _ (jwt_name (smc_id m))); [by rewrite Hnames, He1|].
      apply Hrm. unfold module_keys. set_solver.
    + unfold container_var. rewrite Hrm by (unfold module_keys; set_solver). simpl.
      by rewrite (apart_literal _ _ Hms m Hm).
    + unfold container_var. rewrite Hrm by (unfold module_keys; set_solver).
      change (module_var (signer_server su) m SIGNER_URL_ENV) with (Some (EnvString (signer_server su))).
      unfold su. by rewrite signer_server_literal.
  - intros id secret Hget. destruct (Hfrom id secret Hget) as [Hm (n & _ & Hn)]. split; [done|by exists n].
  - intros id id' secret Hdist. apply Hdrawn. by eapply distinct_draws_le.
Qed.
End LocalSigner.

(** After the docker set-up of a configuration with a local signer, whose module ids are
    plain and do not collide, the signer reads from its container's environment an
    admin secret and a map of secrets that has an entry for exactly the commit modules, and the
    entry is the secret the module finds in the environment of its own container. *)
Theorem docker_secrets_shared secrets config_path cfg sc loader store compose st :
  cb_signer cfg = Some sc → sg_inner sc = Local loader store →
  modules_apart secrets (default [] (cb_modules cfg)) →
  (∃ m, m ∈ default [] (cb_modules cfg) ∧ is_commit m) →
  docker_services secrets config_path cfg = Returns (Ok (compose, st)) →
  ∃ signer admin jwts, index_get "cb_signer" (services compose) = Some signer ∧
    (∀ CE', runs_in CE' st signer → load_jwt_secrets (CE := CE') = Ok (admin, jwts)) ∧
    (∀ m, m ∈ default [] (cb_modules cfg) → is_commit m → ∃ service secret,
      index_get (module_cid (smc_id m)) (services compose) = Some service ∧
      container_var (in_envs st) service MODULE_JWT_ENV = Some secret ∧
      jwts !! smc_id m = Some secret) ∧
    ∀ id, is_Some (jwts !! id) → ∃ m, m ∈ default [] (cb_modules cfg) ∧ is_commit m ∧ smc_id m = id.
Proof.
  intros Hsc Hin Hms Hcommit H.
  destruct (docker_deployed _ _ _ _ _ _ Hsc Hin Hms Hcommit _ _ H) as (signer & admin & jwts & Hd).
  exists signer, admin, jwts. split_and!; [apply Hd|apply Hd|..].
  { intros m Hm Hc. destruct (dp_modules _ _ _ _ _ _ _ _ _ Hd m Hm Hc) as (service & secret & ? & ? & ? & _). eauto. }
  intros id [secret Hs]. by apply (dp_only _ _ _ _ _ _ _ _ _ Hd id secret).
Qed.

Lemma container_var_none envs service k :
  index_get k (sv_environment service) = None → container_var envs service k = None.
Proof. intros H. unfold container_var. by rewrite H. Qed.

(** [IP:PORT] is not a reference to a variable *)
Lemma interpolated_socket port : interpolated (socket_addr "0.0.0.0" port) = None.
Proof. unfold interpolated, socket_addr. by rewrite bytes_of_string_app. Qed.

Lemma deployed_tell_apart secrets config_path cfg sc compose st signer admin jwts :
  distinct_draws secrets (length (default [] (cb_modules cfg))) → deployed secrets config_path cfg sc compose st signer admin jwts →
  modules_apart secrets (default [] (cb_modules cfg)) →
  (∀ m, m ∈ default [] (cb_modules cfg) → is_commit m ∧ smc_id m ≠ ""%string ∧ smc_signing_id m ≠ B256_ZERO) →
  NoDup (smc_signing_id <$> default [] (cb_modules cfg)) →
  tell_apart jwts (default [] (cb_modules cfg)).
Proof.
  intros Hinj Hd Hms Heach Hsid. split; [|done|..].
  - pose proof (apart_cids _ _ Hms) as Hcids. change (NoDup (module_cid ∘ smc_id <$> default [] (cb_modules cfg))) in Hcids.
    rewrite list_fmap_compose in Hcids. by apply NoDup_fmap_1 in Hcids.
  - intros m Hm. destruct (Heach m Hm) as (Hc & Hid & Hz).
    destruct (dp_modules _ _ _ _ _ _ _ _ _ Hd m Hm Hc) as (_ & secret & _ & _ & Hs & _). rewrite Hs.
    split_and!; [done|done|done|]. intros [= ->]. destruct (dp_only _ _ _ _ _ _ _ _ _ Hd _ _ Hs) as [_ [n Hn]].
    destruct (apart_secrets _ _ Hms n) as [Hlen _]. by rewrite <- Hn in Hlen.
  - intros m m' Hm Hm' Heq. destruct (Heach m Hm) as (Hc & _).
    destruct (dp_modules _ _ _ _ _ _ _ _ _ Hd m Hm Hc) as (_ & secret & _ & _ & Hs & _).
    apply (dp_apart _ _ _ _ _ _ _ _ _ Hd _ _ secret Hinj); [done|]. by rewrite <- Heq.
Qed.

(** The docker set-up of commit modules with distinct, plain ids and distinct signing ids,
    with a local signer and secrets that are drawn without repetition, gives a signer that
    loads its configuration in its container: it listens where the container is reached, with
    the loader and store that were configured, and holds for every module the signing id of the
    configuration and the very secret that the module finds in its own container. *)
Theorem docker_signer_starts secrets config_path cfg sc loader store compose st addr :
  cb_signer cfg = Some sc → sg_inner sc = Local loader store →
  modules_apart secrets (default [] (cb_modules cfg)) →
  distinct_draws secrets (length (default [] (cb_modules cfg))) →
  default [] (cb_modules cfg) ≠ [] →
  (∀ m, m ∈ default [] (cb_modules cfg) → is_commit m ∧ smc_id m ≠ ""%string ∧ smc_signing_id m ≠ B256_ZERO) →
  NoDup (smc_signing_id <$> default [] (cb_modules cfg)) →
  parse_socket_addr (socket_addr "0.0.0.0" (sg_port sc)) = Ok addr →
  docker_services secrets config_path cfg = Returns (Ok (compose, st)) →
  ∃ signer, index_get "cb_signer" (services compose) = Some signer ∧
    ∀ CE', runs_in CE' st signer → ∃ config,
      start_signer_config (CE := CE') (cb_chain cfg) (cb_modules cfg) (cb_signer cfg) = Ok config ∧
      ss_endpoint config = addr ∧ ss_loader config = Some loader ∧ ss_store config = store ∧
      ∀ m, m ∈ default [] (cb_modules cfg) → ∃ service c,
        index_get (module_cid (smc_id m)) (services compose) = Some service ∧
        ss_mod_signing_configs config !! smc_id m = Some c ∧ signing_id c = smc_signing_id m ∧
        container_var (in_envs st) service MODULE_JWT_ENV = Some (jwt_secret c).
Proof.
  intros Hsc Hin Hms Hinj Hne Heach Hsid Haddr H.
  assert (∃ m, m ∈ default [] (cb_modules cfg) ∧ is_commit m) as Hcommit.
  { destruct (default [] (cb_modules cfg)) as [|m l]; [done|]. exists m. split; [left|apply Heach; left]. }
  destruct (docker_deployed _ _ _ _ _ _ Hsc Hin Hms Hcommit _ _ H) as (signer & admin & jwts & Hd).
  exists signer. split; [apply Hd|]. intros CE' Hrun.
  pose proof (deployed_tell_apart _ _ _ _ _ _ _ _ _ Hinj Hd Hms Heach Hsid) as Hapart.
  destruct (cb_modules cfg) as [ms|] eqn:Hcb; cbn [default] in *; [|done].
  pose proof (load_module_signing_configs_accepts jwts ms Hapart) as Hok.
  destruct (load_module_signing_configs (Some ms) jwts) as [configs|] eqn:Hconfigs; [|done].
  assert (env_var (ConfigEnv := CE') SIGNER_ENDPOINT_ENV = Some (socket_addr "0.0.0.0" (sg_port sc))
    ∧ env_var (ConfigEnv := CE') SIGNER_JWT_AUTH_FAIL_LIMIT_ENV = None
    ∧ env_var (ConfigEnv := CE') SIGNER_JWT_AUTH_FAIL_TIMEOUT_SECONDS_ENV = None) as (He & Hl & Ht).
  { rewrite !Hrun. unfold container_var.
    rewrite !(dp_vars _ _ _ _ _ _ _ _ _ Hd) by (unfold signer_keys; set_solver).
    change (signer_var sc SIGNER_ENDPOINT_ENV) with (Some (EnvString (socket_addr "0.0.0.0" (sg_port sc)))).
    cbv beta iota. by rewrite interpolated_socket. }
  unfold start_signer_config. rewrite (dp_load _ _ _ _ _ _ _ _ _ Hd CE' Hrun). simpl. rewrite Hconfigs, Hsc. simpl.
  unfold load_optional_env_var. rewrite He, Hl, Ht, Haddr, Hin. simpl.
  eexists. split; [reflexivity|]. split_and!; [done..|]. intros m Hm. destruct (Heach m Hm) as [Hc _].
  destruct (dp_modules _ _ _ _ _ _ _ _ _ Hd m) as (service & secret & Hs & Hv & Hj & _); [by rewrite Hcb|done|].
  apply load_module_signing_configs_inv in Hconfigs as (acc & -> & Hacc & _).
  exists service, {| module_name := smc_id m; jwt_secret := secret; signing_id := smc_signing_id m |}.
  split_and!; [done| |done|done]. apply Hacc. by exists m.
Qed.
End Shared.

(** ** Concrete modules *)
Module SecretsSample.
Import DockerSample.
#[local] Existing Instances ConfigSample.file_env ConfigSample.plain_parsers ConfigSample.sample_toml ascii_docker.

Ltac closed_modules ms :=
  split;
  [closed_decision|closed_decision
  |intros m Hm; unfold ms in Hm; each_of Hm; split; discriminate
  |intros m envs k Hm Henv Hk; unfold ms in Hm; unfold module_keys in Hk;
   each_of Hm; injection Henv as <-; each_of Hk; reflexivity
  |intros m Hm; unfold ms in Hm; each_of Hm; vm_compute; reflexivity
  |intros m Hm; unfold ms in Hm; each_of Hm; split_and!; first [closed_decision|vm_compute; reflexivity]
  |intros n; unfold secrets; destruct (Nat.even n); split; first [reflexivity|closed_decision]].
Lemma modules_plain : modules_apart secrets modules.
Proof. closed_modules modules. Qed.

(** two commit modules with signing ids of their own *)
Definition with_signing_id (b : byte) (m : StaticModuleConfig) : StaticModuleConfig := {|
  smc_id := smc_id m; smc_docker_image := smc_docker_image m; smc_env := smc_env m;
  smc_env_file := smc_env_file m; smc_kind := smc_kind m; smc_signing_id := byte_array 32 b |}.
Definition commit_modules : list StaticModuleConfig :=
  [with_signing_id x01 (module "DA_COMMIT" KindCommit); with_signing_id x02 (module "Oracle" KindCommit)].
Lemma commit_modules_plain : modules_apart secrets commit_modules.
Proof. closed_modules commit_modules. Qed.

Lemma docker_signer_starts_witness :
  ∃ compose st signer,
    docker_services secrets "cb.toml" (cfg false 10000 commit_modules local) = Returns (Ok (compose, st)) ∧
    index_get "cb_signer" (services compose) = Some signer ∧
    ∀ CE', runs_in CE' st signer → ∃ config service c,
      start_signer_config (CE := CE') Mainnet (Some commit_modules) (Some (DockerSample.signer local)) = Ok config ∧
      ss_mod_signing_configs config !! "Oracle"%string = Some c ∧
      index_get "cb_oracle" (services compose) = Some service ∧
      container_var (in_envs st) service MODULE_JWT_ENV = Some (jwt_secret c).
Proof.
  destruct (docker_services secrets "cb.toml" (cfg false 10000 commit_modules local)) as [[[compose st]|e]|] eqn:E;
    [|exfalso; vm_compute in E; discriminate E..].
  destruct (docker_signer_starts secrets "cb.toml" (cfg false 10000 commit_modules local) (DockerSample.signer local)
    (SLFile "keys.json") (Some (PSFile "proxies")) compose st {| sa_ip := "0.0.0.0:20000"; sa_port := 1 |})
    as (signer & Hs & Hall);
    [reflexivity|reflexivity|exact commit_modules_plain| |discriminate| |closed_decision|vm_compute; reflexivity|exact E|].
  - intros i j Hi Hj. cbn in Hi, Hj. destruct i as [|[|i]], j as [|[|j]]; try lia; discriminate.
  - intros m Hm. cbn in Hm. unfold commit_modules in Hm.
    each_of Hm; (split; [reflexivity|split; [discriminate|closed_decision]]).
  - exists compose, st, signer. split; [reflexivity|]. split; [exact Hs|]. intros CE' Hrun.
    destruct (Hall CE' Hrun) as (config & Hc & _ & _ & _ & Hm).
    destruct (Hm (with_signing_id x02 (module "Oracle" KindCommit)) ltac:(right; left)) as (service & c & H1 & H2 & _ & H3).
    exists config, service, c. split; [exact Hc|]. split; [exact H2|]. split; [exact H1|exact H3].
Defined.


Lemma docker_secrets_shared_witness :
  ∃ compose st signer admin jwts,
    docker_services secrets "cb.toml" (cfg false 10000 modules local) = Returns (Ok (compose, st)) ∧
    index_get "cb_signer" (services compose) = Some signer ∧
    (∀ CE', runs_in CE' st signer → load_jwt_secrets (CE := CE') = Ok (admin, jwts)) ∧
    ∃ service secret, index_get "cb_oracle" (services compose) = Some service ∧
      container_var (in_envs st) service MODULE_JWT_ENV = Some secret ∧
      jwts !! "Oracle"%string = Some secret.
Proof.
  destruct (docker_services secrets "cb.toml" (cfg false 10000 modules local)) as [[[compose st]|e]|] eqn:E;
    [|exfalso; vm_compute in E; discriminate E..].
  destruct (docker_secrets_shared secrets "cb.toml" (cfg false 10000 modules local) (signer local)
    (SLFile "keys.json") (Some (PSFile "proxies")) compose st)
    as (signer & admin & jwts & Hsigner & Hload & Hall & _); [reflexivity|reflexivity|exact modules_plain| |exact E|].
  { exists (module "Oracle" KindCommit). split; [right; right; left|reflexivity]. }
  exists compose, st, signer, admin, jwts. split; [reflexivity|]. split; [exact Hsigner|]. split; [exact Hload|].
  exact (Hall (module "Oracle" KindCommit) ltac:(right; right; left) eq_refl).
Defined.

(** Two commit modules whose ids differ in case: the second service replaces the first, and one
    secret is left of two. *)
Example ids_in_case_collide :
  (λ r, ((services r.1).*1, in_envs r.2)) <$>
    setup (cfg false 10000 [module "da" KindCommit; module "DA" KindCommit] local) = Some
    (["cb_da"; "cb_pbs"; "cb_signer"]%string,
     [("CB_JWT_DA", "0therB0therB0therB0therB0therB00"); ("CB_JWTS", "da=s3cretAs3cretAs3cretAs3cretAs3cr,DA=0therB0therB0therB0therB0therB00"); ("CB_SIGNER_ADMIN_JWT", "s3cretAs3cretAs3cretAs3cretAs3cr")]%string).
Proof. vm_compute. reflexivity. Qed.
End SecretsSample.
