(* ===== verification/DockerPorts.v ===== *)
(** * The metrics ports of the docker set-up

    Every service of the compose file is given a metrics port of its own, which is exported and
    which the service reads back from its environment. *)

From stdpp Require Import pretty.
From S2P Require Import Prelude Bytes Text Jwt Chain Signature PbsTypes Http Relay Commit.
From S2P Require Import PbsConfig PbsState SignerConfig Config FileSystem ProxyStore Loader DockerInit DockerSecrets.

(** ** The exported metrics ports *)

Section Ports.
Context {CE : ConfigEnv} {CP : ConfigParsers} {CT : ConfigToml} {HO : HashOrder string} {DK : DockerLib}.
Context (secrets : nat → string) (su : Setup) (mc : MetricsConfig).
Context (Hmc : cb_metrics (su_config su) = Some mc) (Hon : mt_enabled mc = true).

(** the service serves its metrics on the port, and the port is exported *)
Definition serves_metrics (service : Service) (port : Z) : Prop :=
  index_get METRICS_PORT_ENV (sv_environment service) = Some (EnvUnsigned port) ∧
  (socket_addr (mt_host mc) port +:+ ":" +:+ pretty port) ∈ sv_ports service.

(** the [k] services so far took the first [k] ports *)
Record ports_inv (k : nat) (st : Init) : Prop := {
  inv_targets : in_targets st = socket_addr (mt_host mc) <$> seqZ (mt_start_port mc) (Z.of_nat k);
  inv_serves : ∀ name service, index_get name (in_services st) = Some service →
    ∃ i : nat, (i < k)%nat ∧ serves_metrics service (mt_start_port mc + Z.of_nat i);
  inv_apart : ∀ n1 n2 s1 s2 p, index_get n1 (in_services st) = Some s1 →
    index_get n2 (in_services st) = Some s2 → serves_metrics s1 p → serves_metrics s2 p → n1 = n2;
}.

(** the step added a service on the next port *)
Definition exports (st st' : Init) : Prop := ∃ name service,
  in_services st' = index_insert name service (in_services st) ∧
  in_targets st' = in_targets st ++ [socket_addr (mt_host mc) (in_metrics_port st)] ∧
  serves_metrics service (in_metrics_port st).

Lemma ports_inv_step k st st' :
  in_metrics_port st = mt_start_port mc + Z.of_nat k → exports st st' → ports_inv k st → ports_inv (S k) st'.
Proof.
  intros Hp (name & service & Hs & Ht & Hserves) [H1 H2 H3]. rewrite Hp in Ht, Hserves.
  assert (∀ n s q, index_get n (in_services st) = Some s → serves_metrics s q → q ≠ mt_start_port mc + Z.of_nat k) as Hnew.
  { intros n s q Hn [Hq _] ->. destruct (H2 n s Hn) as (i & Hi & [Hq' _]). rewrite Hq in Hq'. simplify_eq. lia. }
  split.
  - rewrite Ht, H1. replace (Z.of_nat (S k)) with (Z.of_nat k + 1) by lia.
    by rewrite seqZ_app, fmap_app by lia.
  - intros n s. rewrite Hs, index_get_insert. case_decide; intros Hn; simplify_eq; [by exists k; split; [lia|]|].
    destruct (H2 n s Hn) as (i & Hi & Hq). exists i. split; [lia|done].
  - intros n1 n2 s1 s2 p. rewrite Hs, !index_get_insert.
    repeat case_decide; intros Hn1 Hn2 Hp1 Hp2; simplify_eq; [done| | |by eapply H3].
    + destruct (Hnew n2 s2 p Hn2 Hp2). destruct Hserves as [He _], Hp1 as [He' _]. rewrite He in He'. by simplify_eq.
    + destruct (Hnew n1 s1 p Hn1 Hp1). destruct Hserves as [He _], Hp2 as [He' _]. rewrite He in He'. by simplify_eq.
Qed.

Lemma export_metrics_on metrics cid next ports envs st :
  let ex := export_metrics metrics cid next ports envs st in
  metrics = Some mc →
  index_get METRICS_PORT_ENV (ex_envs ex) = Some (EnvUnsigned (in_metrics_port st)) ∧
  (socket_addr (mt_host mc) (in_metrics_port st) +:+ ":" +:+ pretty (in_metrics_port st)) ∈ ex_ports ex ∧
  in_targets (ex_init ex) = in_targets st ++ [socket_addr (mt_host mc) (in_metrics_port st)] ∧
  in_metrics_port (ex_init ex) = next (in_metrics_port st).
Proof.
  intros ex ->. unfold ex, export_metrics. rewrite Hon. cbn -[index_get index_insert METRICS_PORT_ENV socket_addr].
  rewrite index_get_insert, decide_True by done. split_and!; [done|set_solver|done|done].
Qed.
Lemma log_env_metrics logs envs :
  index_get METRICS_PORT_ENV (insert_opt (log_env logs) envs) = index_get METRICS_PORT_ENV envs.
Proof. apply insert_opt_get. intros x Hx%log_env_key. by rewrite Hx. Qed.

Lemma setup_module_exports st m :
  exports st (setup_module secrets su st m) ∧
  in_metrics_port (setup_module secrets su st m) = next_u16 (in_metrics_port st).
Proof.
  unfold setup_module. destruct (smc_kind m); unfold setup_commit, setup_events.
  all: export_facts export_metrics_keeps as (Hs & _).
  all: export_facts export_metrics_on as Hon'.
  all: destruct (Hon' Hmc) as (Henv & Hport & Ht & Hp).
  all: cbn [add_service in_metrics_port in_services in_targets]; split; [|done].
  all: eexists _, _; cbn [add_service in_services in_targets]; rewrite Hs, Ht; split_and!; [done|done|].
  all: split; cbn [sv_environment sv_ports]; [by rewrite log_env_metrics|done].
Qed.

Lemma setup_pbs_exports st st' : setup_pbs su st = Ok st' →
  exports st st' ∧ in_metrics_port st' = next_u16 (in_metrics_port st).
Proof.
  unfold setup_pbs. intros ([envs volumes] & _ & H)%result_bind_ok.
  export_facts export_metrics_keeps as (Hs & _).
  export_facts export_metrics_on as Hon'.
  destruct (Hon' Hmc) as (Henv & Hport & Ht & Hp).
  injection H as <-. cbn [add_service in_metrics_port]. split; [|by rewrite Hp].
  eexists _, _. cbn [add_service in_services in_targets]. rewrite Hs, Ht. split_and!; [done|done|].
  split; cbn [sv_environment sv_ports]; [|done].
  rewrite index_get_insert, decide_False by done. case_match; [by rewrite log_env_metrics|].
  rewrite index_get_insert, decide_False by done. by rewrite log_env_metrics.
Qed.

Lemma signer_common_exports sc envs st :
  let ex := signer_common su sc envs st in
  in_services (ex_init ex) = in_services st ∧
  in_targets (ex_init ex) = in_targets st ++ [socket_addr (mt_host mc) (in_metrics_port st)] ∧
  index_get METRICS_PORT_ENV (ex_envs ex) = Some (EnvUnsigned (in_metrics_port st)) ∧
  (socket_addr (mt_host mc) (in_metrics_port st) +:+ ":" +:+ pretty (in_metrics_port st)) ∈ ex_ports ex.
Proof.
  unfold signer_common. cbn zeta.
  export_facts export_metrics_keeps as (Hs & _).
  export_facts export_metrics_on as Hon'.
  destruct (Hon' Hmc) as (Henv & Hport & Ht & Hp).
  cbn [ex_init ex_envs ex_ports]. rewrite log_env_metrics, Hs, Ht. done.
Qed.

Lemma setup_signer_exports st st' : setup_signer secrets su st = Returns st' → exports st st'.
Proof.
  unfold setup_signer. destruct (cb_signer (su_config su)) as [sc|]; [|done].
  destruct (sg_inner sc) as [loader store|url|hosts cert key sec ca store]; [intros [= <-]|done|intros H].
  - unfold setup_local_signer. set (envs0 := index_from _).
    pose proof (signer_common_exports sc envs0 st) as (Hs & Ht & He & Hp). cbn zeta in *.
    destruct loader; destruct store as [[]|]; cbn [mount_loader mount_store].
    all: eexists _, _; cbn [add_service set_envs in_services in_targets]; rewrite Hs, Ht.
    all: split_and!; [done|done|]; split; cbn [signer_service sv_environment sv_ports]; [|done].
    all: by rewrite !index_get_extend by set_solver.
  - unfold setup_dirk_signer in H. set (envs0 := index_from _) in H.
    pose proof (signer_common_exports sc envs0 st) as (Hs & Ht & He & Hp). cbn zeta in *.
    destruct ca; destruct store as [[]|]; try discriminate H; apply Returns_inj in H as <-.
    all: eexists _, _; cbn [add_service set_envs in_services in_targets]; rewrite Hs, Ht.
    all: split_and!; [done|done|]; split; cbn [signer_service sv_environment sv_ports]; [|done].
    all: by rewrite ?insert_opt_get by (by intros x [= <-]).
Qed.

Lemma setup_modules_ports ms st0 :
  0 ≤ mt_start_port mc → mt_start_port mc + Z.of_nat (length ms) < 2 ^ 16 →
  in_services st0 = [] → in_targets st0 = [] → in_metrics_port st0 = mt_start_port mc →
  let st := fold_left (setup_module secrets su) ms st0 in
  ports_inv (length ms) st ∧ in_metrics_port st = mt_start_port mc + Z.of_nat (length ms).
Proof.
  intros Hlo Hhi Hs Ht Hp. induction ms as [|m ms IH] using rev_ind; cbn zeta.
  - cbn [fold_left length]. split; [|lia]. split; rewrite ?Hs, ?Ht; [done|by intros ??|by intros ????].
  - rewrite length_app in *. cbn [length] in *. destruct IH as [Hinv Hport]; [lia|].
    rewrite fold_left_app. cbn [fold_left]. set (st := fold_left _ ms st0) in *.
    destruct (setup_module_exports st m) as [Hex Hnext]. rewrite Nat.add_1_r. split.
    + by apply (ports_inv_step _ st).
    + rewrite Hnext, Hport. unfold next_u16. rewrite Z.mod_small by lia. lia.
Qed.

#[local] Instance socket_addr_inj ip : Inj (=) (=) (socket_addr ip).
Proof. intros p q H. unfold socket_addr in H. by apply (inj _), (inj _), (inj _) in H. Qed.
Lemma ports_inv_nodup k st : ports_inv k st → NoDup (in_targets st).
Proof. intros [-> _ _]. apply NoDup_fmap_2; [apply _|]. apply NoDup_seqZ. Qed.
End Ports.

Section DistinctPorts.
Context {CE : ConfigEnv} {CP : ConfigParsers} {CT : ConfigToml} {HO : HashOrder string} {DK : DockerLib}.

(** C31: With metrics enabled and room for the services above the start port, every service of
    the compose file has an exported metrics port that is among the scrape targets and that the
    service reads back from its environment, no two services are given the same port, and the
    targets are pairwise distinct. *)
Theorem docker_metrics_ports secrets config_path cfg mc compose st :
  cb_metrics cfg = Some mc → mt_enabled mc = true → 0 ≤ mt_start_port mc →
  mt_start_port mc + Z.of_nat (length (default [] (cb_modules cfg))) + 1 < 2 ^ 16 →
  docker_services secrets config_path cfg = Returns (Ok (compose, st)) →
  (∀ name service, index_get name (services compose) = Some service → ∃ port,
     serves_metrics mc service port ∧ socket_addr (mt_host mc) port ∈ in_targets st ∧
     ∀ CE', runs_in CE' st service → metrics_load_from_env (CE := CE') = Ok (Some port)) ∧
  (∀ n1 n2 s1 s2 port, index_get n1 (services compose) = Some s1 →
     index_get n2 (services compose) = Some s2 →
     serves_metrics mc s1 port → serves_metrics mc s2 port → n1 = n2) ∧
  NoDup (in_targets st).
Proof.
  intros Hmc Hon Hlo Hhi H. unfold docker_services in H. set (su := docker_setup config_path cfg) in *.
  set (ms := default [] (cb_modules cfg)) in *.
  destruct (setup_modules_ports secrets su mc Hmc Hon ms (init_state cfg)) as [Hinv Hp];
    [done|lia|done|done|simpl; by rewrite Hmc|].
  destruct (setup_pbs su _) as [st1|e] eqn:Hpbs; [|done].
  apply (setup_pbs_exports su mc Hmc Hon) in Hpbs as [Hex Hp1].
  pose proof (ports_inv_step mc _ _ _ Hp Hex Hinv) as Hinv1.
  rewrite Hp in Hp1. unfold next_u16 in Hp1. rewrite Z.mod_small in Hp1 by lia.
  assert (∃ k : nat, ports_inv mc k st ∧ mt_start_port mc + Z.of_nat k ≤ 2 ^ 16 ∧ services compose = in_services st)
    as (k & Hk & Hle & ->).
  { destruct (needs_signer_module cfg); simplify_eq; [|exists (S (length ms)); split_and!; [done|lia|done]].
    destruct (setup_signer secrets su st1) as [st2|] eqn:Hsigner; [|done]. simplify_eq.
    exists (S (S (length ms))). split_and!; [|lia|done].
    apply (ports_inv_step mc _ st1); [lia|by apply (setup_signer_exports secrets su mc Hmc Hon)|done]. }
  split_and!; [|by apply (inv_apart _ _ _ Hk)|by eapply ports_inv_nodup].
  intros name service (i & Hi & Hserves)%(inv_serves _ _ _ Hk).
  exists (mt_start_port mc + Z.of_nat i). split_and!; [done| |].
  - rewrite (inv_targets _ _ _ Hk). apply list_elem_of_fmap_2, elem_of_seqZ. lia.
  - intros CE' Hrun. unfold metrics_load_from_env, load_optional_env_var. rewrite Hrun.
    unfold container_var. rewrite (proj1 Hserves). by rewrite parse_u16_pretty by lia.
Qed.
End DistinctPorts.

(** ** Concrete ports *)
Module PortsSample.
Import DockerSample.
#[local] Existing Instances ConfigSample.file_env ConfigSample.plain_parsers ConfigSample.sample_toml ascii_docker.

Lemma docker_metrics_ports_witness :
  ∃ compose st, docker_services secrets "cb.toml" (cfg true 65531 modules dirk) = Returns (Ok (compose, st)) ∧
    NoDup (in_targets st) ∧ last (in_targets st) = Some "127.0.0.1:65535"%string ∧
    ∀ n1 n2 s1 s2 port, index_get n1 (services compose) = Some s1 →
      index_get n2 (services compose) = Some s2 →
      serves_metrics {| mt_enabled := true; mt_host := "127.0.0.1"; mt_start_port := 65531 |} s1 port →
      serves_metrics {| mt_enabled := true; mt_host := "127.0.0.1"; mt_start_port := 65531 |} s2 port → n1 = n2.
Proof.
  assert (last ∘ in_targets ∘ snd <$> setup (cfg true 65531 modules dirk) = Some (Some "127.0.0.1:65535"%string))
    as Hlast by (vm_compute; reflexivity). unfold setup in Hlast.
  destruct (docker_services secrets "cb.toml" (cfg true 65531 modules dirk)) as [[[compose st]|e]|] eqn:E;
    [|discriminate Hlast..].
  destruct (docker_metrics_ports secrets "cb.toml" (cfg true 65531 modules dirk)
    {| mt_enabled := true; mt_host := "127.0.0.1"; mt_start_port := 65531 |} compose st) as (_ & Hapart & Hnd);
    [reflexivity|reflexivity|cbn; lia|vm_compute; reflexivity|exact E|].
  injection Hlast as Hlast. exists compose, st. split; [reflexivity|]. split; [exact Hnd|]. split; [exact Hlast|exact Hapart].
Defined.

(** The next metrics port is a [u16] that wraps: after 65535 comes 0. *)
Example metrics_port_wraps :
  in_targets ∘ snd <$> setup (cfg false 65535 [module "DA" KindCommit] local)
  = Some ["127.0.0.1:65535"; "127.0.0.1:0"; "127.0.0.1:1"]%string.
Proof. vm_compute. reflexivity. Qed.
End PortsSample.
