(* ===== verification/DockerLogs.v ===== *)
(** * The log files of the docker set-up

    With logging to files enabled, the set-up mounts a directory of the host in every container
    and tells the service in it where to write; [initialize_tracing_log] of [utils.rs] then
    writes there.  The theorem connects the two: the files of every service end up in a
    directory of its own below the configured one. *)

From S2P Require Import Prelude Bytes Text Jwt Chain Signature PbsTypes Http Relay Commit PbsConfig PbsState.
From S2P Require Import SignerConfig Config Logging FileSystem ProxyStore Loader DockerInit DockerSecrets.

Section Logs.
Context {CE : ConfigEnv} {CP : ConfigParsers} {CT : ConfigToml} {HO : HashOrder string} {DK : DockerLib}.
Context (secrets : nat → string) (su : Setup) (Hon : fl_enabled (lg_file (cb_logs (su_config su))) = true).

(** the volume of the logs of a service that names itself [id] *)
Definition log_volume (logs : LogsSettings) (id : string) : string :=
  join_path (fl_dir_path (lg_file logs)) (to_lowercase id) +:+ ":" +:+ LOGS_DIR_DEFAULT.
Definition logs_mounted (logs : LogsSettings) (id : string) (service : Service) : Prop :=
  index_get LOGS_DIR_ENV (sv_environment service) = Some (EnvString LOGS_DIR_DEFAULT) ∧
  log_volume logs id ∈ sv_volumes service.
(** the name a service of the compose file logs under *)
Definition logs_as (ms : list StaticModuleConfig) (name id : string) : Prop :=
  (name = "cb_pbs"%string ∧ id = PBS_MODULE_NAME) ∨ (name = "cb_signer"%string ∧ id = SIGNER_MODULE_NAME) ∨
  ∃ m, m ∈ ms ∧ name = module_cid (smc_id m) ∧ id = smc_id m.
Definition logs_inv (ms : list StaticModuleConfig) (st : Init) : Prop :=
  ∀ name service, index_get name (in_services st) = Some service →
    ∃ id, logs_as ms name id ∧ logs_mounted (cb_logs (su_config su)) id service.
(** the step added a service whose logs are mounted *)
Definition mounts (ms : list StaticModuleConfig) (st st' : Init) : Prop := ∃ name id service,
  in_services st' = index_insert name service (in_services st) ∧ logs_as ms name id ∧
  logs_mounted (cb_logs (su_config su)) id service.

Lemma mounts_inv ms st st' : mounts ms st st' → logs_inv ms st → logs_inv ms st'.
Proof.
  intros (name & id & service & Hs & Has & Hm) Hinv n s. rewrite Hs, index_get_insert.
  case_decide; intros Hn; simplify_eq; [by exists id|by apply Hinv].
Qed.

Lemma log_env_get logs envs :
  fl_enabled (lg_file logs) = true →
  index_get LOGS_DIR_ENV (insert_opt (log_env logs) envs) = Some (EnvString LOGS_DIR_DEFAULT).
Proof. intros H. unfold log_env. rewrite H. simpl. by rewrite index_get_insert, decide_True. Qed.
Lemma log_volume_in logs id :
  fl_enabled (lg_file logs) = true → log_volume logs id ∈ option_list (get_log_volume logs id).
Proof. intros H. unfold get_log_volume. rewrite H. by left. Qed.
(** the volume in a concatenation of volumes *)
Ltac log_volume_found := rewrite ?elem_of_app; match goal with
  | |- context [option_list (get_log_volume ?logs ?id)] => pose proof (log_volume_in logs id Hon); tauto end.

Lemma setup_module_mounts ms st m : m ∈ ms → mounts ms st (setup_module secrets su st m).
Proof.
  intros Hm. unfold setup_module. destruct (smc_kind m); unfold setup_commit, setup_events.
  all: export_facts export_metrics_keeps as (Hs & _).
  all: eexists _, (smc_id m), _; cbn [add_service in_services]; rewrite Hs; split_and!; [done|by right; right; exists m|].
  all: split; cbn [sv_environment sv_volumes]; [by apply log_env_get|].
  all: unfold module_volumes; log_volume_found.
Qed.

Lemma setup_pbs_mounts ms st st' : setup_pbs su st = Ok st' → mounts ms st st'.
Proof.
  unfold setup_pbs. intros ([envs volumes] & _ & H)%result_bind_ok.
  export_facts export_metrics_keeps as (Hs & _). injection H as <-.
  eexists _, PBS_MODULE_NAME, _. cbn [add_service in_services]. rewrite Hs.
  split_and!; [done|by left|]. split; cbn [sv_environment sv_volumes].
  - rewrite index_get_insert, decide_False by done. case_match; [by apply log_env_get|].
    rewrite index_get_insert, decide_False by done. by apply log_env_get.
  - log_volume_found.
Qed.

Lemma setup_signer_mounts ms st st' : setup_signer secrets su st = Returns st' → mounts ms st st'.
Proof.
  assert (∀ sc envs, in_services (ex_init (signer_common su sc envs st)) = in_services st ∧
    index_get LOGS_DIR_ENV (ex_envs (signer_common su sc envs st)) = Some (EnvString LOGS_DIR_DEFAULT)) as Hcommon.
  { intros sc envs. unfold signer_common. export_facts export_metrics_keeps as (Hs & _).
    cbn [ex_init ex_envs]. rewrite Hs. split; [done|by apply log_env_get]. }
  unfold setup_signer. destruct (cb_signer (su_config su)) as [sc|]; [|done].
  destruct (sg_inner sc) as [loader store|url|hosts cert key sec ca store]; [intros [= <-]|done|intros H].
  - unfold setup_local_signer. set (envs0 := index_from _). destruct (Hcommon sc envs0) as [Hs He].
    destruct loader; destruct store as [[]|]; cbn [mount_loader mount_store].
    all: eexists _, SIGNER_MODULE_NAME, _; cbn [add_service set_envs in_services]; rewrite Hs.
    all: split_and!; [done|by right; left|]; split; cbn [signer_service sv_environment sv_volumes].
    all: first [by rewrite !index_get_extend by set_solver
               |log_volume_found].
  - unfold setup_dirk_signer in H. set (envs0 := index_from _) in H. destruct (Hcommon sc envs0) as [Hs He].
    destruct ca; destruct store as [[]|]; try discriminate H; apply Returns_inj in H as <-.
    all: eexists _, SIGNER_MODULE_NAME, _; cbn [add_service set_envs in_services]; rewrite Hs.
    all: split_and!; [done|by right; left|]; split; cbn [signer_service sv_environment sv_volumes].
    all: first [by rewrite ?insert_opt_get by (by intros x [= <-])
               |log_volume_found].
Qed.

Lemma setup_modules_logs ms l st : (∀ m, m ∈ l → m ∈ ms) → logs_inv ms st →
  logs_inv ms (fold_left (setup_module secrets su) l st).
Proof.
  revert st. induction l as [|m l IH]; intros st Hl Hst; [done|]. cbn [fold_left].
  apply IH; [set_solver|]. eapply mounts_inv; [|done]. apply setup_module_mounts. set_solver.
Qed.
End Logs.

Section LogsOnHost.
Context {CE : ConfigEnv} {CP : ConfigParsers} {CT : ConfigToml} {HO : HashOrder string} {DK : DockerLib}.
Context {LL : LogLib}.

(** C25: The log files of every service end up on the host.  With logging to files enabled, every
    service of the compose file, the modules, the PBS service and the signer, local or Dirk,
    has a directory of the host mounted, below the configured directory and named after the
    service; and the service that reads the same settings in its container, under whatever path
    the configuration names, writes its log files, named after it, in the place where that
    directory is mounted. *)
Theorem docker_logs_on_host secrets config_path cfg compose st :
  fl_enabled (lg_file (cb_logs cfg)) = true →
  docker_services secrets config_path cfg = Returns (Ok (compose, st)) →
  ∀ name service, index_get name (services compose) = Some service →
  ∃ id, logs_as (default [] (cb_modules cfg)) name id ∧
    log_volume (cb_logs cfg) id ∈ sv_volumes service ∧
    ∀ (CE' : ConfigEnv) (SR : SpecReader) cfg', runs_in CE' st service →
      from_env_path (CE := CE') = Ok cfg' → cb_logs cfg' = cb_logs cfg →
      ∃ logs, logs_from_env_config (CE := CE') = Ok logs ∧
        ∀ layers, initialize_tracing_log id logs = Returns layers →
          ToFile {| rf_dir := LOGS_DIR_DEFAULT; rf_prefix := to_lowercase id;
                    rf_max_files := fl_max_files (lg_file (cb_logs cfg)) |} ∈ ly_writer <$> layers.
Proof.
  intros Hon H. unfold docker_services in H. set (su := docker_setup config_path cfg) in *.
  set (ms := default [] (cb_modules cfg)) in *.
  assert (logs_inv su ms (fold_left (setup_module secrets su) ms (init_state cfg))) as Hms
    by (by apply setup_modules_logs).
  destruct (setup_pbs su _) as [st1|e] eqn:Hpbs; [|done].
  apply (setup_pbs_mounts su Hon ms) in Hpbs. pose proof (mounts_inv _ _ _ _ Hpbs Hms) as Hst1.
  assert (logs_inv su ms st ∧ services compose = in_services st) as [Hinv ->].
  { destruct (needs_signer_module cfg); simplify_eq; [|done].
    destruct (setup_signer secrets su st1) as [st2|] eqn:Hsigner; [|done]. simplify_eq.
    split; [|done]. eapply mounts_inv; [|exact Hst1]. by apply (setup_signer_mounts secrets su Hon). }
  intros name service (id & Has & Henv & Hvol)%Hinv. exists id. split_and!; [done|done|].
  intros CE' SR cfg' Hrun Hcfg Hlogs. unfold logs_from_env_config. rewrite Hcfg.
  assert (load_optional_env_var (CE := CE') LOGS_DIR_ENV = Some LOGS_DIR_DEFAULT) as ->.
  { unfold load_optional_env_var. rewrite Hrun. unfold container_var. by rewrite Henv. }
  eexists. split; [reflexivity|]. intros layers Hlayers%initialize_tracing_log_layers.
  rewrite Hlayers, Hlogs. cbn [lg_file lg_stdout fl_enabled fl_dir_path fl_max_files].
  rewrite Hon. apply elem_of_app. right. by left.
Qed.
End LogsOnHost.

(** ** A concrete set-up with log files *)
Module LogsSample.
Import DockerSample.
#[local] Existing Instances ConfigSample.file_env ConfigSample.plain_parsers no_spec_reader ascii_docker plain_logs.

Definition log_settings : LogsSettings :=
  {| lg_stdout := default_stdout_logs;
     lg_file := {| fl_enabled := true; fl_level := "debug"; fl_use_json := true; fl_dir_path := "./logs";
                   fl_max_files := Some 7 |} |}.
Definition logged : CommitBoostConfig :=
  let c := cfg false 10000 modules dirk in
  {| cb_chain := cb_chain c; cb_relays := cb_relays c; cb_pbs := cb_pbs c; cb_muxes := cb_muxes c;
     cb_modules := cb_modules c; cb_signer := cb_signer c; cb_metrics := cb_metrics c;
     cb_logs := log_settings |}.
Definition logged_toml : ConfigToml :=
  let c := logged in {|
  commit_boost_from_toml _ := Ok c;
  helper_from_toml _ := Ok {|
    hc_chain := LoaderKnown KMainnet; hc_relays := cb_relays c; hc_pbs := cb_pbs c; hc_muxes := cb_muxes c;
    hc_modules := cb_modules c; hc_signer := cb_signer c; hc_metrics := cb_metrics c; hc_logs := cb_logs c |};
  chain_from_toml _ := Ok (LoaderKnown KMainnet) |}.
#[local] Existing Instance logged_toml.
(** the container of a service, with the same configuration file *)
Definition container (envs : list (string * string)) (service : Service) : ConfigEnv :=
  let e := ConfigSample.file_env in {|
  env_var := container_var envs service;
  read_to_string path := if String.eqb path CONFIG_DEFAULT then Some "toml"%string else None;
  rpc_chain_id := rpc_chain_id (ConfigEnv := e); http_client := http_client (ConfigEnv := e);
  http_get := http_get (ConfigEnv := e); keys_from_str := keys_from_str (ConfigEnv := e);
  keys_from_slice := keys_from_slice (ConfigEnv := e);
  ssv_response_from_slice := ssv_response_from_slice (ConfigEnv := e);
  getTotalSigningKeyCount := getTotalSigningKeyCount (ConfigEnv := e);
  getSigningKeys := getSigningKeys (ConfigEnv := e) |}.

Lemma docker_logs_on_host_witness :
  ∃ compose st service logs,
    docker_services secrets "cb.toml" logged = Returns (Ok (compose, st)) ∧
    index_get "cb_signer" (services compose) = Some service ∧
    "./logs/signer:/var/logs/commit-boost"%string ∈ sv_volumes service ∧
    logs_from_env_config (CE := container (in_envs st) service) = Ok logs ∧
    ∃ layers, initialize_tracing_log SIGNER_MODULE_NAME logs = Returns layers ∧
      ToFile {| rf_dir := LOGS_DIR_DEFAULT; rf_prefix := "signer"; rf_max_files := Some 7 |} ∈ ly_writer <$> layers.
Proof.
  assert (match docker_services secrets "cb.toml" logged with
          | Returns (Ok (compose, st)) =>
              match index_get "cb_signer" (services compose) with
              | Some service =>
                  match logs_from_env_config (CE := container (in_envs st) service) with
                  | Ok logs =>
                      match initialize_tracing_log SIGNER_MODULE_NAME logs with Returns _ => true | Panics => false end
                  | Err _ => false
                  end
              | None => false
              end
          | _ => false
          end = true) as Hrun by (vm_compute; reflexivity).
  destruct (docker_services secrets "cb.toml" logged) as [[[compose st]|]|] eqn:E; try discriminate Hrun.
  destruct (index_get "cb_signer" (services compose)) as [service|] eqn:Es; [|discriminate Hrun].
  destruct (logs_from_env_config (CE := container (in_envs st) service)) as [logs|] eqn:El; [|discriminate Hrun].
  destruct (initialize_tracing_log SIGNER_MODULE_NAME logs) as [layers|] eqn:Ei; [|discriminate Hrun].
  pose proof El as El'. apply result_bind_ok in El' as (cfg' & Ec & _).
  destruct (docker_logs_on_host secrets "cb.toml" logged compose st eq_refl E "cb_signer" service Es)
    as (id & Has & Hvol & Hlogs).
  assert (id = SIGNER_MODULE_NAME) as ->.
  { destruct Has as [[[=] _]|[[_ ->]|(m & Hm & Hcid & _)]]; [reflexivity|].
    exfalso. revert Hcid. change (m ∈ modules) in Hm. unfold modules in Hm. each_of Hm; vm_compute; discriminate. }
  destruct (Hlogs (container (in_envs st) service) no_spec_reader cfg' (λ k, eq_refl) Ec) as (logs' & Hl & Hlayers).
  { apply result_bind_ok in Ec as (helper & Hh & Ec). apply result_bind_ok in Ec as (c & _ & [= <-]).
    apply result_bind_ok in Hh as (path & _ & Hh). apply result_bind_ok in Hh as (text & _ & Hh).
    by apply map_err_ok in Hh as [= <-]. }
  rewrite El in Hl. injection Hl as <-. exists compose, st, service, logs.
  split; [reflexivity|]. split; [exact Es|]. split; [exact Hvol|]. split; [exact El|].
  exists layers. split; [exact Ei|exact (Hlayers layers Ei)].
Defined.
End LogsSample.
