(* ===== verification/DockerGaps.v ===== *)
(** * What the docker set-up leaves out

    Three deployments in which a service does not find in its container what it needs to
    start: a Dirk signer, a PBS module with a signer client, a signer beside an events module. *)

From stdpp Require Import pretty.
From S2P Require Import Prelude Bytes Text Jwt Chain Signature PbsTypes Http Relay Commit.
From S2P Require Import PbsConfig PbsState SignerConfig Config FileSystem ProxyStore Loader DockerInit DockerSecrets.

(** ** What the set-up leaves out *)

Section Missing.
Context {CE : ConfigEnv} {CP : ConfigParsers} {CT : ConfigToml} {HO : HashOrder string} {DK : DockerLib}.

Lemma setup_dirk_signer_env su sc cert key sec ca store st st' :
  (∀ x, chain_spec_env su = Some x → x.1 = CHAIN_SPEC_ENV) →
  setup_dirk_signer su sc cert key sec ca store st = Returns st' →
  ∃ signer, index_get "cb_signer" (in_services st') = Some signer ∧
    index_get ADMIN_JWT_ENV (sv_environment signer) = None.
Proof.
  intros Hsu H. unfold setup_dirk_signer in H. set (envs0 := index_from _) in H.
  pose proof (signer_common_keeps su Hsu sc envs0 st) as (_ & _ & _ & _ & Henv). cbn zeta in *.
  specialize (Henv ADMIN_JWT_ENV). change (index_get ADMIN_JWT_ENV envs0) with (@None SingleValue) in Henv.
  destruct ca; destruct store as [[]|]; try discriminate H; apply Returns_inj in H as <-.
  all: eexists; cbn [add_service in_services]; split; [by rewrite index_get_insert, decide_True|].
  all: cbn [signer_service sv_environment]; rewrite ?insert_opt_get by (by intros x [= <-]).
  all: apply Henv; vm_compute; set_solver.
Qed.

(** The docker set-up of a configuration with a Dirk signer gives the signer's container no
    admin secret: started in the environment the set-up describes, the signer refuses to load
    its configuration. *)
Theorem docker_dirk_no_admin secrets config_path cfg sc hosts cert key sec ca store compose st :
  cb_signer cfg = Some sc → sg_inner sc = Dirk hosts cert key sec ca store →
  needs_signer_module cfg = true →
  docker_services secrets config_path cfg = Returns (Ok (compose, st)) →
  ∃ signer, index_get "cb_signer" (services compose) = Some signer ∧
    ∀ CE' chain modules sc', runs_in CE' st signer →
      start_signer_config (CE := CE') chain modules sc' = Err (Message (ADMIN_JWT_ENV +:+ " is not set")).
Proof.
  intros Hsc Hin Hneeds H. apply docker_services_stages in H as (st1 & _ & Hsigner & ->); [|done].
  unfold setup_signer in Hsigner. cbn [su_config docker_setup] in Hsigner. rewrite Hsc, Hin in Hsigner.
  apply setup_dirk_signer_env in Hsigner as (signer & Hs & Hnone); [|apply chain_spec_env_key].
  exists signer. split; [done|]. intros CE' chain modules sc' Hrun.
  unfold start_signer_config, load_jwt_secrets, load_env_var.
  by rewrite (Hrun ADMIN_JWT_ENV), container_var_none.
Qed.

Lemma mount_mux_token muxes acc acc' :
  index_get MODULE_JWT_ENV acc.1 = None → try_fold mount_mux acc muxes = Ok acc' →
  index_get MODULE_JWT_ENV acc'.1 = None.
Proof.
  intros Hacc. apply (try_fold_invariant mount_mux (λ acc, index_get MODULE_JWT_ENV acc.1 = None)); [done|].
  intros [envs volumes] mux [envs' volumes'] _ Hnone H. unfold mount_mux in H.
  apply result_bind_ok in H as (env & Henv & H). destruct env as [[[name path] internal]|]; simplify_eq; [|done].
  simpl in *. rewrite index_get_insert, decide_False; [done|]. intros ->. revert Henv. unfold loader_env.
  destruct (loader mux) as [[]|]; [|done..].
  intros (file & _ & (keys & _ & [=])%result_bind_ok)%result_bind_ok.
Qed.

Lemma setup_pbs_token su st st' :
  (∀ x, chain_spec_env su = Some x → x.1 = CHAIN_SPEC_ENV) →
  setup_pbs su st = Ok st' →
  ∃ pbs, index_get "cb_pbs" (in_services st') = Some pbs ∧
    index_get MODULE_JWT_ENV (sv_environment pbs) = None.
Proof.
  intros Hsu. unfold setup_pbs. intros ([envs volumes] & Hmux & H)%result_bind_ok.
  apply mount_mux_token in Hmux; [|done]. cbn [fst] in Hmux.
  export_facts export_metrics_get as Hex. specialize (Hex MODULE_JWT_ENV).
  injection H as <-. eexists. cbn [add_service in_services].
  split; [by rewrite index_get_insert, decide_True|]. cbn [sv_environment].
  rewrite index_get_insert, decide_False by done.
  assert (∀ l, index_get MODULE_JWT_ENV (insert_opt (log_env l) (ex_envs
    (export_metrics (cb_metrics (su_config su)) "cb_pbs" next_u16
       [socket_addr (host (sp_pbs_config (cb_pbs (su_config su)))) (port (sp_pbs_config (cb_pbs (su_config su))))
          +:+ ":" +:+ pretty (port (sp_pbs_config (cb_pbs (su_config su))))]
       (insert_opt (chain_spec_env su) envs)
       (push_warning ("cb_pbs has an exported port on "
          +:+ pretty (port (sp_pbs_config (cb_pbs (su_config su))))) st)))) = None) as Hnone.
  { intros l. rewrite insert_opt_get by (intros x Hx%log_env_key; by rewrite Hx).
    rewrite Hex by done. by rewrite insert_opt_get by (intros x Hx%Hsu; by rewrite Hx). }
  case_match; [apply Hnone|]. by rewrite index_get_insert, decide_False.
Qed.


(** The docker set-up never gives the PBS container a module token: a PBS module that asks
    for a signer client ([with_signer]) fails to load its configuration in that environment. *)
Theorem docker_pbs_no_token secrets config_path cfg compose st :
  docker_services secrets config_path cfg = Returns (Ok (compose, st)) →
  ∃ pbs, index_get "cb_pbs" (services compose) = Some pbs ∧
    ∀ CE' (SR : SpecReader) (UL : UrlLib) (HL : HeaderLib) (JL : JwtLib) (HOk : HashOrder bytes)
      T ssv_fuel t (from_str : string → Result string (PbsStub T)) stub c,
      runs_in CE' st pbs → load_file_from_env (CE := CE') from_str CONFIG_ENV = Ok stub →
      with_signer (ps_static stub) = true →
      load_pbs_custom_config (CE := CE') ssv_fuel t from_str ≠ Ok c.
Proof.
  intros H. unfold docker_services in H. set (su := docker_setup config_path cfg) in *.
  assert (∀ x, chain_spec_env su = Some x → x.1 = CHAIN_SPEC_ENV) as Hsu by apply chain_spec_env_key.
  destruct (setup_pbs su _) as [st1|e] eqn:Hpbs; [|done].
  apply setup_pbs_token in Hpbs as (pbs & Hget & Hnone); [|done].
  assert (index_get "cb_pbs" (services compose) = Some pbs) as Hpbs.
  { destruct (needs_signer_module cfg); simplify_eq; [|done].
    destruct (setup_signer secrets su st1) as [st2|] eqn:Hsigner; [|done]. simplify_eq. simpl.
    apply setup_signer_services in Hsigner as [signer ->]; [|done]. by rewrite index_get_insert, decide_False. }
  exists pbs. split; [done|]. intros CE' SR UL HL JL HOk T ssv_fuel t from_str stub c Hrun Hstub Hwith Hok.
  unfold load_pbs_custom_config in Hok. rewrite Hstub in Hok. simpl in Hok. rewrite Hwith in Hok.
  repeat (apply result_bind_ok in Hok as (? & ? & Hok)).
  match goal with H : (load_env_var MODULE_JWT_ENV ≫= _) = Ok _ |- _ =>
    apply result_bind_ok in H as (token & Htoken & _) end.
  unfold load_env_var in Htoken. by rewrite (Hrun MODULE_JWT_ENV), container_var_none in Htoken.
Qed.
Lemma apart_same_id secrets ms m m' :
  modules_apart secrets ms → m ∈ ms → m' ∈ ms → smc_id m = smc_id m' → m = m'.
Proof.
  intros Hms [i Hi]%list_elem_of_lookup [j Hj]%list_elem_of_lookup Heq.
  assert (i = j) as ->; [|congruence].
  apply (NoDup_lookup _ i j (module_cid (smc_id m)) (apart_cids _ _ Hms)).
  - by rewrite list_lookup_fmap, Hi.
  - by rewrite list_lookup_fmap, Hj, Heq.
Qed.

(** An events module keeps the signer of the docker set-up from starting: the set-up draws
    secrets for commit modules only, and the signer wants one for every module. *)
Theorem docker_events_block_signer secrets config_path cfg sc loader store compose st e :
  cb_signer cfg = Some sc → sg_inner sc = Local loader store →
  modules_apart secrets (default [] (cb_modules cfg)) →
  (∃ m, m ∈ default [] (cb_modules cfg) ∧ is_commit m) →
  e ∈ default [] (cb_modules cfg) → smc_kind e = KindEvents →
  docker_services secrets config_path cfg = Returns (Ok (compose, st)) →
  ∃ signer, index_get "cb_signer" (services compose) = Some signer ∧
    ∀ CE' config, runs_in CE' st signer →
      start_signer_config (CE := CE') (cb_chain cfg) (cb_modules cfg) (cb_signer cfg) ≠ Ok config.
Proof.
  intros Hsc Hin Hms Hcommit He Hkind H.
  destruct (docker_deployed _ _ _ _ _ _ Hsc Hin Hms Hcommit _ _ H) as (signer & admin & jwts & Hd).
  exists signer. split; [apply Hd|]. intros CE' config Hrun Hok.
  unfold start_signer_config in Hok. rewrite (dp_load _ _ _ _ _ _ _ _ _ Hd CE' Hrun) in Hok.
  apply result_bind_ok in Hok as ([admin' jwts'] & [= <- <-] & Hok).
  apply result_bind_ok in Hok as (configs & Hconfigs & _).
  destruct (cb_modules cfg) as [ms|] eqn:Hcb; cbn [default] in *; [|by apply not_elem_of_nil in He].
  apply load_module_signing_configs_inv in Hconfigs as (acc & _ & _ & _ & _ & _ & Hall).
  rewrite Forall_forall in Hall. destruct (Hall e He) as (_ & _ & [secret Hs] & _).
  destruct (dp_only _ _ _ _ _ _ _ _ _ Hd _ _ Hs) as [(m & Hm & Hc & Hid) _]. rewrite Hcb in Hm.
  unfold is_commit in Hc. rewrite (apart_same_id secrets ms m e) in Hc by done. congruence.
Qed.
End Missing.

(** ** Concrete deployments *)
Module GapsSample.
Import DockerSample.
#[local] Existing Instances ConfigSample.file_env ConfigSample.plain_parsers ConfigSample.sample_toml ascii_docker.

Lemma docker_dirk_no_admin_witness :
  ∃ compose st signer, docker_services secrets "cb.toml" (cfg false 10000 modules dirk) = Returns (Ok (compose, st)) ∧
    index_get "cb_signer" (services compose) = Some signer ∧
    ∀ CE' chain modules sc', runs_in CE' st signer →
      start_signer_config (CE := CE') chain modules sc' = Err (Message "CB_SIGNER_ADMIN_JWT is not set").
Proof.
  destruct (docker_services secrets "cb.toml" (cfg false 10000 modules dirk)) as [[[compose st]|e]|] eqn:E;
    [|exfalso; vm_compute in E; discriminate E..].
  destruct (docker_dirk_no_admin secrets "cb.toml" (cfg false 10000 modules dirk) (signer dirk)
    [] "c.crt" "c.key" "secrets" None None compose st) as (signer & Hsigner & Hall);
    [reflexivity|reflexivity|reflexivity|exact E|].
  exists compose, st, signer. split; [reflexivity|]. split; [exact Hsigner|exact Hall].
Defined.

Lemma docker_pbs_no_token_witness :
  ∃ compose st pbs, docker_services secrets "cb.toml" (cfg true 10000 modules local) = Returns (Ok (compose, st)) ∧
    index_get "cb_pbs" (services compose) = Some pbs ∧
    ∀ CE' (SR : SpecReader) (UL : UrlLib) (HL : HeaderLib) (JL : JwtLib) (HOk : HashOrder bytes)
      T ssv_fuel t (from_str : string → Result string (PbsStub T)) stub c,
      runs_in CE' st pbs → load_file_from_env (CE := CE') from_str CONFIG_ENV = Ok stub →
      with_signer (ps_static stub) = true → load_pbs_custom_config (CE := CE') ssv_fuel t from_str ≠ Ok c.
Proof.
  destruct (docker_services secrets "cb.toml" (cfg true 10000 modules local)) as [[[compose st]|e]|] eqn:E;
    [|exfalso; vm_compute in E; discriminate E..].
  destruct (docker_pbs_no_token secrets "cb.toml" (cfg true 10000 modules local) compose st E) as (pbs & Hpbs & Hall).
  exists compose, st, pbs. split; [reflexivity|]. split; [exact Hpbs|exact Hall].
Defined.

Lemma docker_events_block_signer_witness :
  ∃ compose st signer,
    docker_services secrets "cb.toml" (cfg false 10000 modules local) = Returns (Ok (compose, st)) ∧
    index_get "cb_signer" (services compose) = Some signer ∧
    ∀ CE' config, runs_in CE' st signer →
      start_signer_config (CE := CE') Mainnet (Some modules) (Some (DockerSample.signer local)) ≠ Ok config.
Proof.
  destruct (docker_services secrets "cb.toml" (cfg false 10000 modules local)) as [[[compose st]|e]|] eqn:E;
    [|exfalso; vm_compute in E; discriminate E..].
  destruct (docker_events_block_signer secrets "cb.toml" (cfg false 10000 modules local) (DockerSample.signer local)
    (SLFile "keys.json") (Some (PSFile "proxies")) compose st (module "BUILDER_LOG" KindEvents)) as (signer & Hs & Hall);
    [reflexivity|reflexivity|exact SecretsSample.modules_plain| |right; left|reflexivity|exact E|].
  - exists (module "Oracle" KindCommit). split; [right; right; left|reflexivity].
  - exists compose, st, signer. split; [reflexivity|]. split; [exact Hs|exact Hall].
Defined.

(** A PBS module with a signer and no commit module: the list of secrets is empty, and the
    signer refuses it. *)
Example no_commit_module_no_secrets :
  (λ r, index_get JWTS_ENV (in_envs r.2)) <$> setup (cfg true 10000 [] local) = Some (Some ""%string) ∧
  is_ok (decode_string_to_map "") = false.
Proof. vm_compute. split; reflexivity. Qed.
End GapsSample.
