(* ===== verification/Deployment.v ===== *)
(** * Builder events across the deployment

    Models [BuilderEventClient], [handle_builder_event] and the trait [OnBuilderApiEvent] of
    [crates/common/src/pbs/event.rs], the receiving side of builder events, and composes it
    with the publisher (PbsState.v) and the docker set-up (DockerInit.v): which modules the PBS
    service publishes to, on which ports these listen, and what they get. *)

From stdpp Require Import pretty.
From S2P Require Import Prelude Bytes Text Jwt Chain Signature PbsTypes Http Relay Commit.
From S2P Require Import PbsConfig PbsState SignerConfig Config FileSystem ProxyStore Loader DockerInit DockerSecrets.

(** ** The receiving side *)

(** [OnBuilderApiEvent]: what a module does with an event, on its own state *)
Class OnBuilderApiEvent (T : Type) := on_builder_api_event : T → BuilderEvent → T.

Record BuilderEventClient (T : Type) := { ec_port : Z; ec_processor : T }.
Arguments ec_port {T} _.
Arguments ec_processor {T} _.
Definition event_client_new {T} (port : Z) (processor : T) : BuilderEventClient T :=
  {| ec_port := port; ec_processor := processor |}.

Definition handle_builder_event {T} `{OnBuilderApiEvent T} (processor : T) (event : BuilderEvent) : T * Z :=
  (on_builder_api_event processor event, STATUS_OK).

(** ** The posts in flight

    Each post of [publish] is a task of its own: posts arrive in any order, and one that fails
    is only logged. *)

Section Bus.
Context {T : Type} `{OnBuilderApiEvent T}.
Variable publisher : BuilderEventPublisher.

Definition posts (effects : list Effect) : list (Url * BuilderEvent) :=
  omap (λ e, match e with Published url event => Some (url, event) | _ => None end) effects.
(** the events that were posted to one endpoint *)
Definition posted_to (url : Url) (l : list (Url * BuilderEvent)) : list BuilderEvent :=
  (filter (λ x, x.1 = url) l).*2.

Record Bus := {
  bus_modules : gmap Url T;
  bus_pending : list (Url * BuilderEvent);
  bus_failed : list (Url * BuilderEvent);
  bus_published : list BuilderEvent;
}.
Definition bus_start (modules : gmap Url T) : Bus :=
  {| bus_modules := modules; bus_pending := []; bus_failed := []; bus_published := [] |}.

Inductive bus_step : Bus → Bus → Prop :=
| bus_publish b event : bus_step b
    {| bus_modules := bus_modules b; bus_pending := bus_pending b ++ posts (publish publisher event);
       bus_failed := bus_failed b; bus_published := bus_published b ++ [event] |}
| bus_deliver b before url event after processor processor' code :
    bus_pending b = before ++ (url, event) :: after → bus_modules b !! url = Some processor →
    handle_builder_event processor event = (processor', code) →
    bus_step b
      {| bus_modules := <[url := processor']> (bus_modules b); bus_pending := before ++ after;
         bus_failed := bus_failed b; bus_published := bus_published b |}
| bus_fail b before url event after :
    bus_pending b = before ++ (url, event) :: after →
    bus_step b
      {| bus_modules := bus_modules b; bus_pending := before ++ after;
         bus_failed := bus_failed b ++ [(url, event)]; bus_published := bus_published b |}.

Lemma posted_to_app url l1 l2 : posted_to url (l1 ++ l2) = posted_to url l1 ++ posted_to url l2.
Proof. unfold posted_to. by rewrite filter_app, fmap_app. Qed.
Lemma posted_to_cons url x l :
  posted_to url (x :: l) = (if decide (x.1 = url) then [x.2] else []) ++ posted_to url l.
Proof. unfold posted_to. rewrite filter_cons. by destruct (decide _). Qed.

(** One post for every endpoint *)
Lemma posted_publish url event :
  NoDup (publisher_endpoints publisher) → url ∈ publisher_endpoints publisher →
  posted_to url (posts (publish publisher event)) = [event].
Proof.
  unfold publish, posts. induction (publisher_endpoints publisher) as [|u us IH]; intros Hnd Hin.
  - by apply not_elem_of_nil in Hin.
  - apply NoDup_cons in Hnd as [Hu Hnd]. csimpl. rewrite posted_to_cons. cbn [fst snd].
    apply elem_of_cons in Hin as [->|Hin].
    + rewrite decide_True by done. cbn [app]. f_equal. clear IH Hnd.
      induction us as [|u' us IH]; [done|]. apply not_elem_of_cons in Hu as [Hne Hu].
      csimpl. rewrite posted_to_cons, decide_False by (cbn; congruence). by apply IH.
    + rewrite decide_False by (intros ->; done). by apply IH.
Qed.

End Bus.

(** ** The events modules of a docker deployment *)

Section DockerEvents.
Context {CE : ConfigEnv} {CP : ConfigParsers} {CT : ConfigToml} {HO : HashOrder string} {DK : DockerLib}.
Implicit Types (su : Setup) (st : Init) (m : StaticModuleConfig).

#[export] Instance ModuleKind_eq_dec : EqDecision ModuleKind.
Proof. solve_decision. Defined.
Definition events_modules (ms : list StaticModuleConfig) : list StaticModuleConfig :=
  filter (λ m, smc_kind m = KindEvents) ms.
(** where a module listens, as the PBS service is told *)
Definition events_base m : string := "http://" +:+ module_cid (smc_id m) +:+ ":" +:+ pretty builder_events_port.

(** the service of a module listens on the port of builder events, under its container name *)
Definition listens m st : Prop := ∃ service,
  index_get (module_cid (smc_id m)) (in_services st) = Some service ∧
  sv_container_name service = module_cid (smc_id m) ∧
  index_get BUILDER_PORT_ENV (sv_environment service) = Some (EnvUnsigned builder_events_port).

Lemma export_metrics_events metrics cid next ports envs st :
  in_events (ex_init (export_metrics metrics cid next ports envs st)) = in_events st.
Proof. unfold export_metrics. destruct metrics as [mc|]; [destruct (mt_enabled mc)|]; done. Qed.

Section Modules.
Context (secrets : nat → string) (su : Setup).
Context (Hsu : ∀ x, chain_spec_env su = Some x → x.1 = CHAIN_SPEC_ENV).

Lemma setup_module_events st m :
  in_events (setup_module secrets su st m) = in_events st ++ (events_base <$> events_modules [m]).
Proof.
  unfold setup_module, events_modules. rewrite filter_cons, filter_nil.
  destruct (smc_kind m) eqn:Hkind; case_decide; try congruence.
  - cbn [setup_commit add_service in_events fmap list_fmap]. by rewrite export_metrics_events, app_nil_r.
  - cbn [setup_events add_service in_events]. by rewrite export_metrics_events.
Qed.
Lemma setup_modules_events ms st0 : in_events st0 = [] →
  in_events (fold_left (setup_module secrets su) ms st0) = events_base <$> events_modules ms.
Proof.
  intros H0. induction ms as [|m ms IH] using rev_ind; [done|].
  rewrite fold_left_app. cbn [fold_left]. rewrite setup_module_events, IH.
  unfold events_modules. by rewrite filter_app, fmap_app.
Qed.

Lemma setup_events_port m st service st' : setup_events su m st = (service, st') →
  index_get BUILDER_PORT_ENV (sv_environment service) = Some (EnvUnsigned builder_events_port).
Proof.
  unfold setup_events. intros H. injection H as <- _. cbn [sv_environment].
  rewrite insert_opt_get by (intros x Hx%log_env_key; by rewrite Hx).
  rewrite export_metrics_get by done. by rewrite insert_opt_get by (intros x Hx%Hsu; by rewrite Hx).
Qed.

(** Modules of other names leave a service alone *)
Lemma setup_module_other st m k : k ≠ module_cid (smc_id m) →
  index_get k (in_services (setup_module secrets su st m)) = index_get k (in_services st).
Proof.
  intros Hk. unfold setup_module. destruct (smc_kind m); cbn [setup_commit setup_events add_service in_services].
  all: rewrite (proj1 (export_metrics_keeps _ _ _ _ _ _)), index_get_insert, decide_False; [done|congruence].
Qed.
Lemma setup_module_listens st m : smc_kind m = KindEvents → listens m (setup_module secrets su st m).
Proof.
  intros Hkind. unfold setup_module. rewrite Hkind.
  destruct (setup_events su m st) as [service st'] eqn:H. exists service. cbn [add_service in_services].
  rewrite index_get_insert, decide_True by done. split_and!; [done| |by eapply setup_events_port].
  unfold setup_events in H. by injection H as <- _.
Qed.
Lemma setup_modules_listen ms st0 : NoDup ((λ m, module_cid (smc_id m)) <$> ms) →
  ∀ m, m ∈ events_modules ms → listens m (fold_left (setup_module secrets su) ms st0).
Proof.
  induction ms as [|m' ms IH] using rev_ind; intros Hnd m [Hkind Hm]%list_elem_of_filter; [by apply not_elem_of_nil in Hm|].
  rewrite fmap_app in Hnd. apply NoDup_app in Hnd as (Hnd & Hdisj & _).
  rewrite fold_left_app. cbn [fold_left].
  apply elem_of_app in Hm as [Hm| ->%list_elem_of_singleton]; [|by apply setup_module_listens].
  destruct (IH Hnd m) as (service & Hs & H); [by apply list_elem_of_filter|].
  exists service. split; [|done]. rewrite setup_module_other; [done|]. intros Heq.
  apply (Hdisj (module_cid (smc_id m))); [|rewrite Heq; set_solver].
  by apply (list_elem_of_fmap_2 (λ m, module_cid (smc_id m))).
Qed.

(** The PBS service is told where the events modules listen *)
Lemma setup_pbs_events st st' : in_events st ≠ [] → setup_pbs su st = Ok st' →
  ∃ pbs, index_get "cb_pbs" (in_services st') = Some pbs ∧
    index_get BUILDER_URLS_ENV (sv_environment pbs) = Some (EnvString (join x2c (in_events st))).
Proof.
  intros Hne. unfold setup_pbs. intros ([envs volumes] & _ & H)%result_bind_ok.
  export_facts export_metrics_events as Hev.
  injection H as <-. eexists. cbn [add_service in_services].
  split; [by rewrite index_get_insert, decide_True|]. cbn [sv_environment].
  rewrite index_get_insert, decide_False by done. rewrite Hev. cbn [push_warning in_events].
  destruct (in_events st); [done|]. by rewrite index_get_insert, decide_True.
Qed.
End Modules.

(** ** The text of the endpoints *)

(** it starts and ends with characters that are not white space *)
Definition framed (l : bytes) : Prop := ∃ mid, l = [x68] ++ mid ++ [x30].

Lemma framed_trimmed l : framed l → trimmed l.
Proof.
  intros [mid ->]. split.
  - apply (strip_one_app _ [] x68); [|done]. apply Forall_forall, (bool_decide_unpack _). vm_compute. exact I.
  - rewrite !rev_app_distr. apply (strip_one_app _ [] x30); [|done].
    apply Forall_forall, (bool_decide_unpack _). vm_compute. exact I.
Qed.
Lemma events_base_framed m : framed (bytes_of_string (events_base m)).
Proof.
  unfold events_base. rewrite !bytes_of_string_app.
  exists (bytes_of_string "ttp://" ++ bytes_of_string (module_cid (smc_id m)) ++ bytes_of_string ":3000").
  change (bytes_of_string (pretty builder_events_port)) with (bytes_of_string "3000" ++ [x30]).
  change (bytes_of_string "http://") with (x68 :: bytes_of_string "ttp://").
  change (bytes_of_string ":3000") with (bytes_of_string ":" ++ bytes_of_string "3000"). by rewrite <- !app_assoc.
Qed.
Lemma join_framed parts : parts ≠ [] → Forall framed parts → framed (join_bytes x2c parts).
Proof.
  intros Hne Hall. induction Hall as [|p ps [mid ->] Hps IH]; [done|].
  destruct ps as [|p' ps]; [by exists mid|]. destruct IH as [mid' Hmid']; [done|].
  change (join_bytes x2c (([x68] ++ mid ++ [x30]) :: p' :: ps))
    with (([x68] ++ mid ++ [x30]) ++ x2c :: join_bytes x2c (p' :: ps)).
  rewrite Hmid'. exists (mid ++ [x30] ++ x2c :: x68 :: mid'). by rewrite <- !app_assoc.
Qed.

(** the endpoint the publisher derives for a module *)
Definition endpoint_of {UL : UrlLib} m (url : Url) : Prop :=
  (base ← url_parse (events_base m); url_join base BUILDER_EVENTS_PATH) = Ok url.

Lemma publisher_reads {CE' : ConfigEnv} {UL : UrlLib} evs urls :
  evs ≠ [] → Forall (λ m, x2c ∉ bytes_of_string (events_base m)) evs →
  env_var BUILDER_URLS_ENV = Some (join x2c (events_base <$> evs)) →
  http_client HTTP_TIMEOUT_SECONDS_DEFAULT = Ok () → Forall2 endpoint_of evs urls →
  publisher_new_from_env (CE := CE') = Ok (Some {| publisher_endpoints := urls |}).
Proof.
  intros Hne Hcomma Hvar Hclient Hurls. unfold publisher_new_from_env, load_optional_env_var, join in *.
  rewrite Hvar, bytes_of_string_of_bytes.
  assert (Forall framed (bytes_of_string <$> (events_base <$> evs))) as Hframed.
  { apply Forall_fmap, Forall_fmap, Forall_forall. intros m _. apply events_base_framed. }
  rewrite trim_bytes_trimmed by (apply framed_trimmed, join_framed; [by destruct evs|done]).
  rewrite split_join_bytes; [|by destruct evs|by rewrite !Forall_fmap].
  rewrite (proj2 (try_map_ok _ _ urls)); [simpl; unfold publisher_new; by rewrite Hclient|].
  rewrite !Forall2_fmap_l. eapply Forall2_impl; [exact Hurls|]. intros m url Hurl. cbn.
  rewrite trim_bytes_trimmed by apply framed_trimmed, events_base_framed. rewrite string_of_bytes_of_string.
  unfold endpoint_of in Hurl. destruct (url_parse (events_base m)) as [base|]; [|done]. simpl in *. by rewrite Hurl.
Qed.

(** An endpoint list is not taken for a reference to a variable *)
Lemma interpolated_framed s : framed (bytes_of_string s) → interpolated s = None.
Proof. intros [mid Hs]. unfold interpolated. by rewrite Hs. Qed.
Lemma events_base_comma m :
  x2c ∉ bytes_of_string (module_cid (smc_id m)) → x2c ∉ bytes_of_string (events_base m).
Proof.
  intros Hm. unfold events_base. rewrite !bytes_of_string_app, !not_elem_of_app.
  split_and!; [|done|..]; apply (bool_decide_unpack _); vm_compute; exact I.
Qed.

(** C23: In the deployment that the docker set-up describes, the PBS service publishes its
    events to exactly the configured events modules, in their order, each under the name of its
    container on the port 30000; and that is the port each of these modules reads from its
    own environment. *)
Theorem docker_events_connected secrets config_path cfg compose st :
  let ms := default [] (cb_modules cfg) in
  NoDup ((λ m, module_cid (smc_id m)) <$> ms) →
  (∀ m, m ∈ ms → module_cid (smc_id m) ≠ "cb_pbs"%string ∧ module_cid (smc_id m) ≠ "cb_signer"%string ∧
     x2c ∉ bytes_of_string (module_cid (smc_id m))) →
  events_modules ms ≠ [] →
  docker_services secrets config_path cfg = Returns (Ok (compose, st)) →
  (∃ pbs, index_get "cb_pbs" (services compose) = Some pbs ∧
     ∀ CE' (UL : UrlLib) urls, runs_in CE' st pbs →
       http_client (ConfigEnv := CE') HTTP_TIMEOUT_SECONDS_DEFAULT = Ok () →
       Forall2 endpoint_of (events_modules ms) urls →
       publisher_new_from_env (CE := CE') = Ok (Some {| publisher_endpoints := urls |})) ∧
  ∀ m, m ∈ events_modules ms → ∃ service,
    index_get (module_cid (smc_id m)) (services compose) = Some service ∧
    sv_container_name service = module_cid (smc_id m) ∧
    ∀ CE', runs_in CE' st service →
      (port ← load_env_var (CE := CE') BUILDER_PORT_ENV; parse_u16 port) = Ok builder_events_port.
Proof.
  intros ms Hnd Hapart Hne H. unfold docker_services in H. fold ms in H.
  set (su := docker_setup config_path cfg) in *.
  assert (∀ x, chain_spec_env su = Some x → x.1 = CHAIN_SPEC_ENV) as Hsu by apply chain_spec_env_key.
  pose proof (setup_modules_events secrets su ms (init_state cfg) eq_refl) as Hev.
  pose proof (setup_modules_listen secrets su Hsu ms (init_state cfg) Hnd) as Hlisten.
  set (st0 := fold_left _ ms _) in *. destruct (setup_pbs su st0) as [st1|e] eqn:Hpbs; [|done].
  assert (∀ k, k ≠ "cb_signer"%string → index_get k (services compose) = index_get k (in_services st1)) as Hsigner.
  { intros k Hk. destruct (needs_signer_module cfg); simplify_eq; [|done].
    destruct (setup_signer secrets su st1) as [st2|] eqn:Hs; [|done]. simplify_eq. simpl.
    apply setup_signer_services in Hs as [signer ->]; [|done].
    by rewrite index_get_insert, decide_False by congruence. }
  split.
  - destruct (setup_pbs_events su st0 st1) as (pbs & Hget & Hvar); [rewrite Hev; by destruct (events_modules ms)|done|].
    exists pbs. rewrite Hsigner by done. split; [done|]. intros CE' UL urls Hrun Hclient Hurls.
    apply (publisher_reads (events_modules ms)); [done| | |done|done].
    + apply Forall_forall. intros m [_ Hm]%list_elem_of_filter. by apply events_base_comma, Hapart.
    + rewrite Hrun. unfold container_var. rewrite Hvar, Hev, interpolated_framed; [done|].
      unfold join. rewrite bytes_of_string_of_bytes. apply join_framed; [by destruct (events_modules ms)|].
      apply Forall_fmap, Forall_fmap, Forall_forall. intros m _. apply events_base_framed.
  - intros m Hm. destruct (Hlisten m Hm) as (service & Hs & Hname & Hport).
    apply list_elem_of_filter in Hm as [_ Hm]. destruct (Hapart m Hm) as (Hnp & Hns & _).
    exists service. rewrite Hsigner by done. apply setup_pbs_keeps in Hpbs as (_ & _ & Hkeep).
    rewrite Hkeep by done. split_and!; [done|done|]. intros CE' Hrun.
    unfold load_env_var. rewrite Hrun. unfold container_var. by rewrite Hport.
Qed.
End DockerEvents.

(** ** A concrete deployment *)
Module EventsSample.
Import DockerSample.
#[local] Existing Instances ConfigSample.file_env ConfigSample.plain_parsers ConfigSample.sample_toml
  ascii_docker plain_urls.

Definition log_events : OnBuilderApiEvent (list BuilderEvent) := λ seen event, seen ++ [event].
#[local] Existing Instance log_events.
Definition two_endpoints : BuilderEventPublisher := {| publisher_endpoints := ["a"; "b"]%string |}.
Definition listeners : gmap Url (list BuilderEvent) := {[ "a"%string := []; "b"%string := [] ]}.

(** two events, of which the second reaches the first module before the first one does, and
    the post of the second event to the other module fails *)
Definition delivered : Bus (T := list BuilderEvent) := {|
  bus_modules := {[ "a"%string := [EvReloadEvent; EvGetStatusEvent]; "b"%string := [] ]};
  bus_pending := [("b"%string, EvGetStatusEvent)];
  bus_failed := [("b"%string, EvReloadEvent)];
  bus_published := [EvGetStatusEvent; EvReloadEvent] |}.
Lemma delivered_reachable : rtc (bus_step two_endpoints) (bus_start listeners) delivered.
Proof.
  eapply rtc_l; [apply (bus_publish _ _ EvGetStatusEvent)|].
  eapply rtc_l; [apply (bus_publish _ _ EvReloadEvent)|].
  eapply rtc_l; [eapply (bus_deliver _ _ [("a", EvGetStatusEvent); ("b", EvGetStatusEvent)]%string "a" EvReloadEvent);
    reflexivity|].
  eapply rtc_l; [eapply (bus_deliver _ _ [] "a" EvGetStatusEvent); reflexivity|].
  eapply rtc_l; [eapply (bus_fail _ _ [("b", EvGetStatusEvent)]%string "b" EvReloadEvent); reflexivity|].
  apply rtc_refl.
Qed.

Lemma docker_events_connected_witness :
  ∃ compose st pbs, docker_services secrets "cb.toml" (cfg false 10000 modules local) = Returns (Ok (compose, st)) ∧
    index_get "cb_pbs" (services compose) = Some pbs ∧
    ∀ CE', runs_in CE' st pbs → http_client (ConfigEnv := CE') HTTP_TIMEOUT_SECONDS_DEFAULT = Ok () →
      publisher_new_from_env (CE := CE')
      = Ok (Some {| publisher_endpoints := ["http://cb_builder_log:30000/builder_events"]%string |}).
Proof.
  destruct (docker_services secrets "cb.toml" (cfg false 10000 modules local)) as [[[compose st]|e]|] eqn:E;
    [|exfalso; vm_compute in E; discriminate E..].
  destruct (docker_events_connected secrets "cb.toml" (cfg false 10000 modules local) compose st)
    as [(pbs & Hpbs & Hpub) _].
  - apply (bool_decide_unpack _). vm_compute. exact I.
  - intros m Hm. cbn in Hm. unfold modules in Hm.
    repeat (apply elem_of_cons in Hm as [->|Hm]); [| | |by apply not_elem_of_nil in Hm].
    all: split_and!; [discriminate|discriminate|apply (bool_decide_unpack _); vm_compute; exact I].
  - vm_compute. discriminate.
  - exact E.
  - exists compose, st, pbs. split; [reflexivity|]. split; [exact Hpbs|]. intros CE' Hrun Hclient.
    apply (Hpub CE' plain_urls); [exact Hrun|exact Hclient|].
    replace (events_modules (default [] (cb_modules (cfg false 10000 modules local))))
      with [module "BUILDER_LOG" KindEvents] by reflexivity.
    constructor; [vm_compute; reflexivity|constructor].
Defined.
End EventsSample.
