(* ===== verification/EventJson.v ===== *)
(** * Builder events on the wire

    The JSON of [BuilderEvent] ([crates/common/src/pbs/event.rs], with [BuilderApiVersion] of
    [builder.rs]) over the combinators of [Serde] and the messages of [PbsJson], and the
    receiving route of a module with the extractor that reads it.  [ValidatorRegistration] is
    a type of [alloy], and its JSON a parameter.

    An event is read back as it was published ([builder_event_lawful]), so that a module
    handles the events of the PBS service and nothing else ([published_is_handled]). *)

From S2P Require Import Prelude Bytes Text Serde Chain Signature PbsTypes PbsJson Http Relay.
From S2P Require Import PbsState Deployment.

(** [rename_all = "lowercase"] *)
Definition api_version_wire : Wire BuilderApiVersion := {|
  to_json v := JString (match v with V1 => "v1" | V2 => "v2" end);
  from_json := de_external [("v1"%string, λ v, _ ← unit_variant v; Ok V1);
                            ("v2"%string, λ v, _ ← unit_variant v; Ok V2)];
  wf _ := True;
  typed _ := True;
|}.
#[export] Instance api_version_lawful : Lawful api_version_wire.
Proof.
  apply reads_lawful; [by intros []|by intros []|]. apply de_external_reads.
  each_variant ltac:(by apply reads_unit).
Qed.

(** a tuple of two *)
Definition pair_wire {A B} (wa : Wire A) (wb : Wire B) : Wire (A * B) := {|
  to_json p := JArray [to_json wa p.1; to_json wb p.2];
  from_json j :=
    match j with
    | JArray [ja; jb] => a ← from_json wa ja; b ← from_json wb jb; Ok (a, b)
    | JArray _ => Err (CustomError "invalid length")
    | _ => Err InvalidType
    end;
  wf p := wf wa p.1 ∧ wf wb p.2;
  typed p := typed wa p.1 ∧ typed wb p.2;
|}.
#[export] Instance pair_lawful {A B} (wa : Wire A) (wb : Wire B) : Lawful wa → Lawful wb → Lawful (pair_wire wa wb).
Proof.
  intros Ha Hb. split; cbn [to_json from_json wf typed pair_wire].
  - intros [a b] [H1 H2]. simpl. by rewrite !wire_roundtrip.
  - intros [a b] [H1 H2]. simpl. by rewrite !wire_document.
  - intros j [a b] H. destruct j as [| | | | |[|ja [|jb [|? ?]]]|]; try done.
    apply result_bind_ok in H as (a' & H1 & H). apply result_bind_ok in H as (b' & H2 & [= <- <-]).
    split; by eapply wire_typed.
  - intros j j' [a b] Hj H. destruct j as [| | | | |[|ja [|jb [|? ?]]]|]; try done.
    apply result_bind_ok in H as (a' & H1 & H). apply result_bind_ok in H as (b' & H2 & [= <- <-]).
    apply same_array_inv in Hj as (l & -> & Hl). apply Forall2_cons_inv_l in Hl as (ja' & l1 & Hja & Hl & ->).
    apply Forall2_cons_inv_l in Hl as (jb' & l2 & Hjb & Hl & ->). inversion Hl; subst.
    by rewrite (wire_order _ _ _ Hja H1), (wire_order _ _ _ Hjb H2).
Qed.

Section EventJson.
Context {SL : SerdeLib} {SC : SerdeCorrect} {HX : HexLib} {HXC : HexCorrect}.
Context (registration_wire : Wire ValidatorRegistration) {RL : Lawful registration_wire}.

(** the payloads of the variants *)
Definition header_event_wire : Wire (option GetHeaderResponse) := nullable get_header_response_wire.
Definition block_event_wire : Wire (SignedBlindedBeaconBlock * BuilderApiVersion) :=
  pair_wire signed_blinded_block_wire api_version_wire.
#[export] Instance header_event_lawful : Lawful header_event_wire.
Proof. unfold header_event_wire. apply _. Qed.
#[export] Instance block_event_lawful : Lawful block_event_wire.
Proof. unfold block_event_wire. apply _. Qed.
Definition missed_payload_wire : Wire B256 :=
  struct false [field "block_hash" (bytesN 32)] (λ h, (h, tt)) (λ t, let '(h, _) := t in h).
#[export] Instance missed_payload_lawful : Lawful missed_payload_wire.
Proof. apply struct_lawful; [apply _|apply (bool_decide_unpack _); reflexivity|done|by intros [h []]]. Qed.

Definition newtype {A} (name : string) (w : Wire A) (a : A) : Json := JObject [(name, to_json w a)].
(** [derive(Serialize, Deserialize)]: externally tagged *)
Definition builder_event_wire : Wire BuilderEvent := {|
  to_json e :=
    match e with
    | EvGetHeaderRequest p => newtype "GetHeaderRequest" get_header_params_wire p
    | EvGetHeaderResponse r => newtype "GetHeaderResponse" header_event_wire r
    | EvGetStatusEvent => JString "GetStatusEvent"
    | EvGetStatusResponse => JString "GetStatusResponse"
    | EvSubmitBlockRequest b v => newtype "SubmitBlockRequest" block_event_wire (b, v)
    | EvSubmitBlockResponseV1 r => newtype "SubmitBlockResponseV1" submit_response_wire r
    | EvSubmitBlockResponseV2 => JString "SubmitBlockResponseV2"
    | EvMissedPayload h => newtype "MissedPayload" missed_payload_wire h
    | EvRegisterValidatorRequest l => newtype "RegisterValidatorRequest" (vec registration_wire) l
    | EvRegisterValidatorResponse => JString "RegisterValidatorResponse"
    | EvReloadEvent => JString "ReloadEvent"
    | EvReloadResponse => JString "ReloadResponse"
    end;
  from_json := de_external
    [("GetHeaderRequest"%string, λ v, EvGetHeaderRequest <$> newtype_variant get_header_params_wire v);
     ("GetHeaderResponse"%string, λ v, EvGetHeaderResponse <$> newtype_variant header_event_wire v);
     ("GetStatusEvent"%string, λ v, _ ← unit_variant v; Ok EvGetStatusEvent);
     ("GetStatusResponse"%string, λ v, _ ← unit_variant v; Ok EvGetStatusResponse);
     ("SubmitBlockRequest"%string, λ v, uncurry EvSubmitBlockRequest <$> newtype_variant block_event_wire v);
     ("SubmitBlockResponseV1"%string, λ v, EvSubmitBlockResponseV1 <$> newtype_variant submit_response_wire v);
     ("SubmitBlockResponseV2"%string, λ v, _ ← unit_variant v; Ok EvSubmitBlockResponseV2);
     ("MissedPayload"%string, λ v, EvMissedPayload <$> newtype_variant missed_payload_wire v);
     ("RegisterValidatorRequest"%string,
       λ v, EvRegisterValidatorRequest <$> newtype_variant (vec registration_wire) v);
     ("RegisterValidatorResponse"%string, λ v, _ ← unit_variant v; Ok EvRegisterValidatorResponse);
     ("ReloadEvent"%string, λ v, _ ← unit_variant v; Ok EvReloadEvent);
     ("ReloadResponse"%string, λ v, _ ← unit_variant v; Ok EvReloadResponse)];
  wf e :=
    match e with
    | EvGetHeaderRequest p => wf get_header_params_wire p
    | EvGetHeaderResponse r => wf header_event_wire r
    | EvSubmitBlockRequest b v => wf block_event_wire (b, v)
    | EvSubmitBlockResponseV1 r => wf submit_response_wire r
    | EvMissedPayload h => wf missed_payload_wire h
    | EvRegisterValidatorRequest l => wf (vec registration_wire) l
    | _ => True
    end;
  typed e :=
    match e with
    | EvGetHeaderRequest p => typed get_header_params_wire p
    | EvGetHeaderResponse r => typed header_event_wire r
    | EvSubmitBlockRequest b v => typed block_event_wire (b, v)
    | EvSubmitBlockResponseV1 r => typed submit_response_wire r
    | EvMissedPayload h => typed missed_payload_wire h
    | EvRegisterValidatorRequest l => typed (vec registration_wire) l
    | _ => True
    end;
|}.

Lemma newtype_document {A} name (w : Wire A) a : Lawful w → wf w a → document (newtype name w a) = true.
Proof. intros Hw Ha. simpl. by rewrite wire_document. Qed.
#[export] Instance builder_event_lawful : Lawful builder_event_wire.
Proof.
  apply reads_lawful.
  - intros [p|r| | |b v|r| |h|l| | | ] He; try reflexivity; cbn [newtype de_external external mbind result_bind];
      cbn [read_variant String.eqb Ascii.eqb Bool.eqb newtype_variant]; by rewrite wire_roundtrip.
  - intros [p|r| | |b v|r| |h|l| | | ] He; try reflexivity; (apply newtype_document; [apply _|exact He]).
  - apply de_external_reads. each_variant ltac:(first [by apply reads_unit|apply reads_newtype; [apply _|done]
      |apply reads_newtype; [apply _|by intros []]]).
Qed.

(** ** The route of a module *)

Context {JT : JsonText} {JTC : JsonTextCorrect}.

(** [handle_builder_event] with its extractor: what is not an event is rejected unseen *)
Definition receive_event {T} `{OnBuilderApiEvent T} (processor : T) (body : bytes) : T * Result string Z :=
  match from_slice builder_event_wire body with
  | Ok event => let '(processor, status) := handle_builder_event processor event in (processor, Ok status)
  | Err e => (processor, Err e)
  end.

Lemma published_is_handled {T} `{OnBuilderApiEvent T} (processor : T) event :
  wf builder_event_wire event →
  receive_event processor (to_vec builder_event_wire event) = (on_builder_api_event processor event, Ok STATUS_OK).
Proof. intros He. unfold receive_event. by rewrite (from_slice_to_vec builder_event_wire). Qed.
(** What a module handles is an event whose parts have the sizes of their types *)
Lemma received_is_typed {T} `{OnBuilderApiEvent T} (processor processor' : T) body status :
  receive_event processor body = (processor', Ok status) →
  ∃ event, typed builder_event_wire event ∧ processor' = on_builder_api_event processor event.
Proof.
  unfold receive_event. destruct (from_slice builder_event_wire body) as [event|] eqn:E; [|done].
  intros [= <- _]. exists event. split; [|done]. apply from_slice_ok in E as (j & _ & Hj).
  by apply (wire_typed (w := builder_event_wire) j).
Qed.
End EventJson.
