(* ===== verification/SignerService.v ===== *)
(** * The signing service

    Models [crates/signer/src/service.rs], [manager/mod.rs] and [metrics.rs]: the
    authentication of modules and of the administrator, the rate limit, the handlers and the
    reload.  [SigningState] is cloned for every request and its fields are shared cells; the
    cells of the keys, the secrets and the failures are never replaced, while the manager's
    cell is replaced on reload, in the clone of that one request.  So the managers live in a
    store of cells ([managers]) and a [SigningState] holds the index of its cell.  The
    components behind the manager are interfaces: the Dirk manager ([DirkOps]) and the key
    loader ([KeyLoader]). *)

From S2P Require Import Prelude Bytes Text Jwt Chain Signature Http Relay Commit PbsConfig.
From S2P Require Import PbsState SignerConfig Config LocalManager.

Notation IpAddr := string (only parsing).

(** ** The managers *)

Section Service.
Context {TH : TreeHashLib} {BL : BlsLib} {EC : EcdsaLib} {PS : ProxyStoreOps} {JL : JwtLib}.
Context {HO : HashOrder bytes} {HOs : HashOrder string}.

(** what the service asks of the Dirk manager; its answers depend on the remote hosts, whose
    behaviour during one request is a [DirkEnv] *)
Class DirkOps := {
  DirkManager : Type;
  DirkEnv : Type;
  dirk_new : DirkEnv → Chain → DirkConfig → Result Report DirkManager;
  dirk_with_proxy_store : DirkManager → ProxyStore → Result Report DirkManager;
  dirk_consensus_count : DirkManager → nat;
  dirk_proxy_count : DirkManager → nat;
  dirk_consensus_proxy_maps : DirkManager → ModuleId → list ConsensusProxyMap;
  request_consensus_signature : DirkEnv → DirkManager → BlsPublicKey → B256 → option B256 →
    Result SignerModuleError BlsSignature;
  request_proxy_signature : DirkEnv → DirkManager → BlsPublicKey → B256 → option B256 →
    Result SignerModuleError BlsSignature;
  dirk_generate_proxy_key : DirkEnv → DirkManager → Disk → ModuleId → BlsPublicKey →
    DirkManager * Disk * Result SignerModuleError (SignedProxyDelegation Bls);
}.
(** [SignerLoader::load_keys], which panics when the key file is missing *)
Class KeyLoader := { load_keys : SignerLoader → Disk → Call (Result Report (list BlsSigner)) }.
Context {DO : DirkOps} {KL : KeyLoader}.

Inductive SigningManager : Type :=
| LocalManager (m : LocalSigningManager)
| DirkSigner (d : DirkManager).

Definition available_consensus_signers (m : SigningManager) : nat :=
  match m with
  | LocalManager m => length (consensus_pubkeys m)
  | DirkSigner d => dirk_consensus_count d
  end.
Definition available_proxies (m : SigningManager) : nat :=
  match m with LocalManager m => available_proxy_signers m | DirkSigner d => dirk_proxy_count d end.
Definition manager_proxy_maps (m : SigningManager) (module_id : ModuleId)
    : Result SignerModuleError (list ConsensusProxyMap) :=
  match m with
  | LocalManager m => get_consensus_proxy_maps m module_id
  | DirkSigner d => Ok (dirk_consensus_proxy_maps d module_id)
  end.

(** ** State *)

Record JwtAuthFailureInfo := { failure_count : Z; last_failure : Z }.

(** the shared cells, and the disk the proxy store writes to *)
Record Cells := {
  managers : list SigningManager;
  jwts : gmap string ModuleSigningConfig;
  admin_secret : string;
  jwt_auth_failures : gmap string JwtAuthFailureInfo;
  sg_disk : Disk;
}.
Record SigningState := {
  manager : nat;
  jwt_auth_fail_limit : Z;
  jwt_auth_fail_timeout : Z;
}.

(** What a request sees of the world: the monotonic clock (in nanoseconds) at its two
    readings, the wall clock, the random keys it may draw, the configuration it may read and
    the Dirk hosts. *)
Record RequestEnv := {
  rq_check_ns : Z;
  rq_failure_ns : Z;
  rq_wall_sec : Z;
  rq_random_bls : BlsSigner;
  rq_random_ecdsa : EcdsaSigner;
  rq_config : Result Report StartSignerConfig;
  rq_init_store : ProxyStore → Result Report ProxyStore;
  rq_dirk : DirkEnv;
}.

(** updates of single cells *)
Definition set_failures (h : Cells) (f : gmap string JwtAuthFailureInfo) : Cells :=
  {| managers := managers h; jwts := jwts h; admin_secret := admin_secret h;
     jwt_auth_failures := f; sg_disk := sg_disk h |}.
Definition set_jwts (h : Cells) (j : gmap string ModuleSigningConfig) : Cells :=
  {| managers := managers h; jwts := j; admin_secret := admin_secret h;
     jwt_auth_failures := jwt_auth_failures h; sg_disk := sg_disk h |}.
Definition set_admin_secret (h : Cells) (s : string) : Cells :=
  {| managers := managers h; jwts := jwts h; admin_secret := s;
     jwt_auth_failures := jwt_auth_failures h; sg_disk := sg_disk h |}.
Definition set_manager (h : Cells) (i : nat) (m : SigningManager) (d : Disk) : Cells :=
  {| managers := <[i := m]> (managers h); jwts := jwts h; admin_secret := admin_secret h;
     jwt_auth_failures := jwt_auth_failures h; sg_disk := d |}.

(** ** Authentication *)

Definition check_jwt_rate_limit (state : SigningState) (now_ns : Z) (client_ip : IpAddr) (h : Cells)
    : Cells * Result SignerModuleError () :=
  let failures := jwt_auth_failures h in
  match failures !! client_ip with
  | Some failure_info =>
      let elapsed := saturating_sub now_ns (last_failure failure_info) in
      if elapsed >? jwt_auth_fail_timeout state then
        (set_failures h (delete client_ip failures), Ok ())
      else if failure_count failure_info <? jwt_auth_fail_limit state then (h, Ok ())
      else (h, Err (RateLimited (saturating_sub (jwt_auth_fail_timeout state) elapsed)))
  | None => (h, Ok ())
  end.

Definition check_jwt_auth (now_sec : Z) (jwt : Jwt) (h : Cells) : Result SignerModuleError ModuleId :=
  module_id ← map_err (λ _, Unauthorized) (decode_jwt now_sec jwt);
  jwt_config ← ok_or (jwts h !! module_id) Unauthorized;
  _ ← map_err (λ _, Unauthorized) (validate_jwt now_sec jwt (jwt_secret jwt_config));
  Ok module_id.

(** [failure_info.failure_count += 1], on a [u32] *)
Definition record_failure (h : Cells) (client_ip : IpAddr) (now_ns : Z) : Cells :=
  let info := default {| failure_count := 0; last_failure := now_ns |}
                (jwt_auth_failures h !! client_ip) in
  set_failures h (<[client_ip := {| failure_count := (failure_count info + 1) mod 2 ^ 32;
                                    last_failure := now_ns |}]> (jwt_auth_failures h)).

(** a handler, run on the cells by a request *)
Definition Handler (A : Type) : Type := Cells → Cells * Result SignerModuleError A.

(** [jwt_auth]: the middleware around the module routes *)
Definition jwt_auth {A} (state : SigningState) (env : RequestEnv) (jwt : Jwt) (client_ip : IpAddr)
    (next : ModuleId → Handler A) : Handler A := λ h,
  match check_jwt_rate_limit state (rq_check_ns env) client_ip h with
  | (h, Err e) => (h, Err e)
  | (h, Ok _) =>
      match check_jwt_auth (rq_wall_sec env) jwt h with
      | Ok module_id => next module_id h
      | Err Unauthorized => (record_failure h client_ip (rq_failure_ns env), Err Unauthorized)
      | Err err => (h, Err err)
      end
  end.

Definition admin_auth {A} (env : RequestEnv) (jwt : Jwt) (next : Handler A) : Handler A := λ h,
  match validate_admin_jwt (rq_wall_sec env) jwt (admin_secret h) with
  | Err _ => (h, Err Unauthorized)
  | Ok _ => next h
  end.

(** ** Handlers *)

Inductive SignerResponse : Type :=
| RespOk
| RespPubkeys (keys : list ConsensusProxyMap)
| RespBlsSignature (s : BlsSignature)
| RespEcdsaSignature (s : EcdsaSignature)
| RespDelegation (S : EncryptionScheme) (d : SignedProxyDelegation S).

(** [state.manager.read()]: a state's cell always exists *)
Definition read_manager (state : SigningState) (h : Cells) : option SigningManager :=
  managers h !! manager state.

Definition handle_get_pubkeys (state : SigningState) (module_id : ModuleId)
    : Handler SignerResponse := λ h,
  match read_manager state h with
  | Some m =>
      (h, keys ← map_err (λ _, SignerInternal "get_pubkeys") (manager_proxy_maps m module_id);
          Ok (RespPubkeys keys))
  | None => (h, Err (SignerInternal "no manager"))
  end.

(** the part of [handle_request_signature] under the lock of the manager *)
Definition sign_with_manager (state : SigningState) (env : RequestEnv) (signing_id : B256)
    (request : SignRequest) (h : Cells) : Result SignerModuleError SignerResponse :=
  match read_manager state h with
  | Some (LocalManager m) =>
      match request with
      | Consensus r =>
          RespBlsSignature <$>
            sign_consensus m (scr_pubkey r) (scr_object_root r) (Some signing_id)
      | ProxyBls r =>
          RespBlsSignature <$>
            sign_proxy_bls m (spr_proxy r) (spr_object_root r) (Some signing_id)
      | ProxyEcdsa r =>
          RespEcdsaSignature <$>
            sign_proxy_ecdsa m (spr_proxy r) (spr_object_root r) (Some signing_id)
      end
  | Some (DirkSigner d) =>
      match request with
      | Consensus r =>
          RespBlsSignature <$>
            request_consensus_signature (rq_dirk env) d (scr_pubkey r) (scr_object_root r) (Some signing_id)
      | ProxyBls r =>
          RespBlsSignature <$>
            request_proxy_signature (rq_dirk env) d (spr_proxy r) (spr_object_root r) (Some signing_id)
      | ProxyEcdsa _ => Err DirkNotSupported
      end
  | None => Err (SignerInternal "no manager")
  end.

Definition handle_request_signature (state : SigningState) (env : RequestEnv) (module_id : ModuleId)
    (request : SignRequest) : Handler SignerResponse := λ h,
  match signing_id <$> jwts h !! module_id with
  | None => (h, Err (RequestError "Module signing ID not found"))
  | Some signing_id => (h, sign_with_manager state env signing_id request h)
  end.

Definition handle_generate_proxy (state : SigningState) (env : RequestEnv) (module_id : ModuleId)
    (request : GenerateProxyRequest) : Handler SignerResponse := λ h,
  match read_manager state h with
  | Some (LocalManager m) =>
      match scheme request with
      | Bls =>
          let '(m, d, r) := create_proxy_bls m (sg_disk h) (rq_random_bls env) module_id
                              (consensus_pubkey request) in
          (set_manager h (manager state) (LocalManager m) d, RespDelegation Bls <$> r)
      | Ecdsa =>
          let '(m, d, r) := create_proxy_ecdsa m (sg_disk h) (rq_random_ecdsa env) module_id
                              (consensus_pubkey request) in
          (set_manager h (manager state) (LocalManager m) d, RespDelegation Ecdsa <$> r)
      end
  | Some (DirkSigner d) =>
      match scheme request with
      | Bls =>
          let '(d, disk, r) := dirk_generate_proxy_key (rq_dirk env) d (sg_disk h) module_id
                                 (consensus_pubkey request) in
          (set_manager h (manager state) (DirkSigner d) disk, RespDelegation Bls <$> r)
      | Ecdsa => (h, Err DirkNotSupported)
      end
  | None => (h, Err (SignerInternal "no manager"))
  end.

(** [start_manager] *)
Definition start_manager (env : RequestEnv) (config : StartSignerConfig) (disk : Disk)
    : Call (Result Report SigningManager) :=
  let proxy_store := match ss_store config with
                     | Some store => s ← rq_init_store env store; Ok (Some s)
                     | None => Ok None
                     end in
  match proxy_store with
  | Err e => Returns (Err e)
  | Ok proxy_store =>
      match ss_dirk config with
      | Some dirk =>
          Returns
            (m ← dirk_new (rq_dirk env) (ss_chain config) dirk;
             m ← match ss_store config with
                 | Some store => s ← rq_init_store env store; dirk_with_proxy_store m s
                 | None => Ok m
                 end;
             Ok (DirkSigner m))
      | None =>
          match local_manager_new (ss_chain config) proxy_store disk with
          | Err e => Returns (Err e)
          | Ok m =>
              match ss_loader config with
              | None => Returns (Err (Message "No loader configured"))
              | Some loader =>
                  match load_keys loader disk with
                  | Panics => Panics
                  | Returns r =>
                      Returns (signers ← r;
                               Ok (LocalManager (fold_left add_consensus_signer signers m)))
                  end
              end
          end
      end
  end.

(** the new map of [handle_reload]: every module must already have a signing id *)
Definition reload_jwts (old : gmap string ModuleSigningConfig) (secrets : gmap string string)
    : Result SignerModuleError (gmap string ModuleSigningConfig) :=
  try_fold (λ new_configs '(module_id, secret),
    match signing_id <$> old !! module_id with
    | Some signing_id =>
        Ok (<[module_id := {| module_name := module_id; jwt_secret := secret;
                              signing_id := signing_id |}]> new_configs)
    | None => Err (RequestError ("Module " +:+ module_id
                     +:+ " signing ID not found in commit-boost config, cannot reload"))
    end) ∅ (hash_iter secrets).

(** [handle_reload]: returns also the state the request ends with.  The new manager gets a
    fresh cell and only the request's own clone points to it.  The writes to the cells stay
    when a later step fails or panics. *)
Definition handle_reload (state : SigningState) (env : RequestEnv) (request : ReloadRequest)
    (h : Cells) : SigningState * Cells * Call (Result SignerModuleError SignerResponse) :=
  match rq_config env with
  | Err _ => (state, h, Returns (Err (SignerInternal "failed to reload config")))
  | Ok config =>
      let new_jwts := match rr_jwt_secrets request with
                      | Some jwt_secrets => c ← reload_jwts (jwts h) jwt_secrets; Ok (set_jwts h c)
                      | None => Ok h
                      end in
      match new_jwts with
      | Err e => (state, h, Returns (Err e))
      | Ok h =>
          let h := match rr_admin_secret request with
                   | Some secret => set_admin_secret h secret
                   | None => h
                   end in
          match start_manager env config (sg_disk h) with
          | Panics => (state, h, Panics)
          | Returns (Err _) => (state, h, Returns (Err (SignerInternal "failed to reload config")))
          | Returns (Ok new_manager) =>
              let state := {| manager := length (managers h);
                              jwt_auth_fail_limit := jwt_auth_fail_limit state;
                              jwt_auth_fail_timeout := jwt_auth_fail_timeout state |} in
              let h := {| managers := managers h ++ [new_manager]; jwts := jwts h;
                          admin_secret := admin_secret h; jwt_auth_failures := jwt_auth_failures h;
                          sg_disk := sg_disk h |} in
              (state, h, Returns (Ok RespOk))
          end
      end
  end.

Definition handle_revoke_module (request : RevokeModuleRequest) : Handler SignerResponse := λ h,
  match jwts h !! rv_module_id request with
  | Some _ => (set_jwts h (delete (rv_module_id request) (jwts h)), Ok RespOk)
  | None => (h, Err ModuleIdNotFound)
  end.

(** ** The router *)

Inductive SignerRequest : Type :=
| ReqGetPubkeys
| ReqSign (r : SignRequest)
| ReqGenerateProxy (r : GenerateProxyRequest)
| ReqReload (r : ReloadRequest)
| ReqRevoke (r : RevokeModuleRequest)
| ReqStatus.

(** the module routes, behind [jwt_auth] *)
Definition module_handler (state : SigningState) (env : RequestEnv) (req : SignerRequest)
    : option (ModuleId → Handler SignerResponse) :=
  match req with
  | ReqGetPubkeys => Some (handle_get_pubkeys state)
  | ReqSign r => Some (λ id, handle_request_signature state env id r)
  | ReqGenerateProxy r => Some (λ id, handle_generate_proxy state env id r)
  | _ => None
  end.

(** [SigningService::run]'s router: a request with its bearer token, on a clone of the
    router's state *)
Definition serve (state : SigningState) (env : RequestEnv) (jwt : Jwt) (client_ip : IpAddr)
    (req : SignerRequest) (h : Cells) : Cells * Call (Result SignerModuleError SignerResponse) :=
  let returns (hr : Cells * Result SignerModuleError SignerResponse) := (hr.1, Returns hr.2) in
  match module_handler state env req with
  | Some handler => returns (jwt_auth state env jwt client_ip handler h)
  | None =>
      match req with
      | ReqReload r =>
          match validate_admin_jwt (rq_wall_sec env) jwt (admin_secret h) with
          | Err _ => (h, Returns (Err Unauthorized))
          | Ok _ => let '(_, h, res) := handle_reload state env r h in (h, res)
          end
      | ReqRevoke r => returns (admin_auth env jwt (handle_revoke_module r) h)
      | _ => (h, Returns (Ok RespOk))
      end
  end.

Definition request_path (req : SignerRequest) : string :=
  match req with
  | ReqGetPubkeys => GET_PUBKEYS_PATH
  | ReqSign _ => REQUEST_SIGNATURE_PATH
  | ReqGenerateProxy _ => GENERATE_PROXY_KEY_PATH
  | ReqReload _ => SIGNER_RELOAD_PATH
  | ReqRevoke _ => REVOKE_MODULE_PATH
  | ReqStatus => STATUS_PATH
  end.
Definition uri_to_tag (path : string) : string :=
  if String.eqb path GET_PUBKEYS_PATH then "get_pubkeys"
  else if String.eqb path GENERATE_PROXY_KEY_PATH then "generate_proxy_key"
  else if String.eqb path REQUEST_SIGNATURE_PATH then "request_signature"
  else "unknown endpoint".
Definition response_status (r : Result SignerModuleError SignerResponse) : Z :=
  match r with Ok _ => 200 | Err e => signer_error_status e end.
(** [log_request]: the metric of a request, which the status route does not have *)
Definition signer_metric (req : SignerRequest) (r : Result SignerModuleError SignerResponse)
    : option (string * string) :=
  match req with
  | ReqStatus => None
  | _ => Some (status_str (response_status r), uri_to_tag (request_path req))
  end.

(** the service as [SigningService::run] starts it *)
Definition start_service (env : RequestEnv) (config : StartSignerConfig) (disk : Disk)
    : Call (Result Report (option (SigningState * Cells))) :=
  if bool_decide (ss_mod_signing_configs config = ∅) then Returns (Ok None)
  else
    match start_manager env config disk with
    | Panics => Panics
    | Returns (Err e) => Returns (Err e)
    | Returns (Ok m) =>
        Returns (Ok (Some
          ({| manager := 0; jwt_auth_fail_limit := ss_jwt_auth_fail_limit config;
              jwt_auth_fail_timeout := ss_jwt_auth_fail_timeout_seconds config * 1000000000 |},
           {| managers := [m]; jwts := ss_mod_signing_configs config;
              admin_secret := ss_admin_secret config; jwt_auth_failures := ∅; sg_disk := disk |})))
    end.
End Service.

(** ** Authentication *)

Section AuthTheorems.
Context {TH : TreeHashLib} {BL : BlsLib} {EC : EcdsaLib} {PS : ProxyStoreOps} {JL : JwtLib}.
Context {HO : HashOrder bytes} {HOs : HashOrder string} {DO : DirkOps} {KL : KeyLoader}.
Implicit Types h : Cells.

(** cells that agree on everything but the record of failures *)
Definition same_but_failures h h' : Prop :=
  managers h' = managers h ∧ jwts h' = jwts h ∧ admin_secret h' = admin_secret h ∧
  sg_disk h' = sg_disk h.

Lemma rate_limit_frame state now ip h h' r :
  check_jwt_rate_limit state now ip h = (h', r) → same_but_failures h h'.
Proof.
  unfold check_jwt_rate_limit. destruct (jwt_auth_failures h !! ip) as [i|]; [|by intros [= <- _]].
  destruct (_ >? _); [by intros [= <- _]|]. by destruct (_ <? _); intros [= <- _].
Qed.
Lemma rate_limit_error state now ip h h' e :
  check_jwt_rate_limit state now ip h = (h', Err e) → ∃ n, e = RateLimited n.
Proof.
  unfold check_jwt_rate_limit. destruct (jwt_auth_failures h !! ip) as [i|]; [|done].
  destruct (_ >? _); [done|]. destruct (_ <? _); [done|]. intros [= _ <-]. eauto.
Qed.
Lemma check_jwt_auth_error now jwt h e : check_jwt_auth now jwt h = Err e → e = Unauthorized.
Proof.
  unfold check_jwt_auth. destruct (decode_jwt now jwt) as [id|]; simpl; [|by intros [= <-]].
  destruct (jwts h !! id); simpl; [|by intros [= <-]].
  by destruct (validate_jwt _ _ _); simpl; intros [= <-].
Qed.

(** a valid token of a module, at a time *)
Definition token_of_module (now : Z) (jwt : Jwt) h (id : ModuleId) : Prop :=
  ∃ cfg claims, jwts h !! id = Some cfg ∧ jwt_signed (jwt_secret cfg) jwt ∧
    jwt_decode (Some (jwt_secret cfg)) VALIDATE_LEEWAY now jwt = Ok claims ∧
    jc_module claims = id ∧ now - VALIDATE_LEEWAY ≤ jc_exp claims.

Lemma check_jwt_auth_ok {JC : JwtCorrect} now jwt h id :
  check_jwt_auth now jwt h = Ok id → token_of_module now jwt h id.
Proof.
  intros H. unfold check_jwt_auth in H.
  apply result_bind_ok in H as (id' & Hd%map_err_ok & H).
  apply result_bind_ok in H as (cfg & Hc%ok_or_ok & H).
  apply result_bind_ok in H as ([] & Hv%map_err_ok & [= ->]).
  unfold validate_jwt in Hv. apply result_bind_ok in Hv as (claims & Hv & _).
  unfold decode_jwt in Hd. apply result_bind_ok in Hd as (claims' & Hd & [= <-]).
  destruct (jwt_decode_sound _ _ _ _ _ Hv) as (Hs & He & Hsame).
  exists cfg, claims. by rewrite (Hsame _ _ Hd) in *.
Qed.

(** What the middleware did with a request *)
Lemma jwt_auth_cases {JC : JwtCorrect} {A} state env jwt ip (next : ModuleId → Handler A) h h' r :
  jwt_auth state env jwt ip next h = (h', r) →
  (∃ id h1, same_but_failures h h1 ∧ token_of_module (rq_wall_sec env) jwt h id ∧
     next id h1 = (h', r)) ∨
  (same_but_failures h h' ∧ (r = Err Unauthorized ∨ ∃ n, r = Err (RateLimited n))).
Proof.
  unfold jwt_auth. destruct (check_jwt_rate_limit _ _ ip h) as [h1 [[]|e]] eqn:Hrl.
  - pose proof (rate_limit_frame _ _ _ _ _ _ Hrl) as Hf.
    destruct (check_jwt_auth (rq_wall_sec env) jwt h1) as [id|e] eqn:Ha.
    + intros Hn. left. exists id, h1. split_and!; [done| |done].
      apply check_jwt_auth_ok in Ha as (cfg & claims & Hc & ?). destruct Hf as (_ & Hj & _).
      rewrite Hj in Hc. by exists cfg, claims.
    + apply check_jwt_auth_error in Ha as ->. intros [= <- <-]. right. split; [|by left].
      destruct Hf as (? & ? & ? & ?). by split_and!.
  - intros [= <- <-]. right. split; [by eapply rate_limit_frame|]. right.
    destruct (rate_limit_error _ _ _ _ _ _ Hrl) as [n ->]. eauto.
Qed.

(** C16: Only a module with a valid token is served.  A request on a module route either
    reaches its handler, with the id of a registered module whose own secret signed the
    token, which names that module and has not expired; or it is answered 401 or 429 and
    changes nothing but the record of failures. *)
Theorem module_requests_authenticated {JC : JwtCorrect} state env jwt ip req handler h h' r :
  module_handler state env req = Some handler →
  serve state env jwt ip req h = (h', Returns r) →
  (∃ id h1, same_but_failures h h1 ∧ token_of_module (rq_wall_sec env) jwt h id ∧
     handler id h1 = (h', r)) ∨
  (same_but_failures h h' ∧ response_status r ∈ [401; 429]).
Proof.
  intros Hh Hs. unfold serve in Hs. rewrite Hh in Hs.
  destruct (jwt_auth state env jwt ip handler h) as [h1 r1] eqn:Ha. injection Hs as <- <-.
  apply jwt_auth_cases in Ha as [?|[Hf [->|[n ->]]]]; [by left|right..]; (split; [done|]);
    simpl; set_solver.
Qed.

(** ** The rate limit *)

(** attempts of one client, one after the other *)
Fixpoint attempts (state : SigningState) (ip : IpAddr) (req : SignerRequest)
    (l : list (RequestEnv * Jwt)) h : Cells * list Z :=
  match l with
  | [] => (h, [])
  | (env, jwt) :: l =>
      match serve state env jwt ip req h with
      | (h, Returns r) => let '(h, codes) := attempts state ip req l h in
                          (h, response_status r :: codes)
      | (h, Panics) => attempts state ip req l h
      end
  end.

(** [k] failures are on record, all of them after [t0] *)
Definition failed (h : Cells) (ip : IpAddr) (t0 : Z) (k : Z) : Prop :=
  match jwt_auth_failures h !! ip with
  | Some info => failure_count info = k ∧ 0 < k ∧ t0 ≤ last_failure info
  | None => k = 0
  end.

(** a wrong attempt in the window that starts at [t0] *)
Definition wrong_attempt (state : SigningState) h (t0 : Z) (a : RequestEnv * Jwt) : Prop :=
  check_jwt_auth (rq_wall_sec a.1) a.2 h = Err Unauthorized ∧
  t0 ≤ rq_check_ns a.1 ≤ t0 + jwt_auth_fail_timeout state ∧ t0 ≤ rq_failure_ns a.1.

Lemma record_failed h ip t0 now k :
  failed h ip t0 k → t0 ≤ now → 0 ≤ k < 2 ^ 32 - 1 →
  failed (record_failure h ip now) ip t0 (k + 1).
Proof.
  unfold failed, record_failure. intros Hk Hnow Hb. simpl. rewrite lookup_insert_eq. simpl.
  destruct (jwt_auth_failures h !! ip) as [info|]; simpl.
  - destruct Hk as (<- & Hpos & _). rewrite Z.mod_small by lia. lia.
  - subst k. split_and!; [reflexivity|lia|done].
Qed.

Lemma attempt_step state a ip req handler h t0 k :
  module_handler state a.1 req = Some handler → wrong_attempt state h t0 a →
  0 ≤ jwt_auth_fail_limit state < 2 ^ 32 → 0 ≤ k → failed h ip t0 k →
  ∃ h', jwts h' = jwts h ∧
    if (k =? 0) || (k <? jwt_auth_fail_limit state)
    then serve state a.1 a.2 ip req h = (h', Returns (Err Unauthorized)) ∧ failed h' ip t0 (k + 1)
    else (∃ n, serve state a.1 a.2 ip req h = (h', Returns (Err (RateLimited n)))) ∧ failed h' ip t0 k.
Proof.
  intros Hh (Hbad & Hwin & Hfail) Hlim Hk0 Hk. set (h1 := record_failure h ip (rq_failure_ns a.1)).
  assert (k = 0 ∨ k < jwt_auth_fail_limit state → failed h1 ip t0 (k + 1)) as Hrec
    by (intros; apply record_failed; [done..|lia]).
  unfold serve. rewrite Hh. unfold jwt_auth, check_jwt_rate_limit. unfold failed in Hk.
  destruct (jwt_auth_failures h !! ip) as [info|] eqn:E.
  - destruct Hk as (<- & Hpos & Hlast). rewrite (proj2 (Z.eqb_neq _ 0)) by lia. cbn [orb].
    assert ((saturating_sub (rq_check_ns a.1) (last_failure info) >? jwt_auth_fail_timeout state)
            = false) as ->.
    { unfold saturating_sub. rewrite Z.gtb_ltb. apply Z.ltb_ge. lia. }
    destruct (Z.ltb_spec (failure_count info) (jwt_auth_fail_limit state)).
    + rewrite Hbad. exists h1. split; [done|]. split; [done|]. apply Hrec. by right.
    + exists h. split; [done|]. split; [eauto|]. unfold failed. by rewrite E.
  - subst k. cbn [Z.eqb orb]. rewrite Hbad. exists h1. split; [done|]. split; [done|].
    apply Hrec. by left.
Qed.

Lemma attempts_codes state ip req l h t0 k :
  (∀ env, is_Some (module_handler state env req)) →
  0 ≤ jwt_auth_fail_limit state < 2 ^ 32 → Forall (wrong_attempt state h t0) l →
  0 ≤ k ≤ Z.max 1 (jwt_auth_fail_limit state) → failed h ip t0 k →
  let left := Z.to_nat (Z.max 1 (jwt_auth_fail_limit state) - k) in
  (attempts state ip req l h).2 =
  replicate (min (length l) left) 401 ++ replicate (length l - left) 429.
Proof.
  intros Hreq Hlim. revert h k. induction l as [|[env jwt] l IH]; intros h k Hall Hk Hf; [done|].
  apply Forall_cons in Hall as [Ha Hall]. destruct (Hreq env) as [handler Hh].
  destruct (attempt_step state (env, jwt) ip req handler h t0 k Hh Ha Hlim ltac:(lia) Hf)
    as (h' & Hj & Hstep).
  assert (Forall (wrong_attempt state h' t0) l) as Hall'.
  { eapply Forall_impl; [exact Hall|]. intros a (Hc & Hw). split; [|done].
    unfold check_jwt_auth in *. by rewrite Hj. }
  cbn [attempts]. simpl in Hstep.
  destruct ((k =? 0) || (k <? jwt_auth_fail_limit state)) eqn:Ek.
  - rewrite orb_true_iff, Z.eqb_eq, Z.ltb_lt in Ek. destruct Hstep as [-> Hf']. specialize (IH h' (k + 1) Hall' ltac:(lia) Hf').
    destruct (attempts state ip req l h') as [h'' codes]. simpl in *. subst codes.
    replace (Z.to_nat (Z.max 1 (jwt_auth_fail_limit state) - k))
      with (S (Z.to_nat (Z.max 1 (jwt_auth_fail_limit state) - (k + 1)))) by lia.
    done.
  - rewrite orb_false_iff, Z.eqb_neq, Z.ltb_ge in Ek. destruct Hstep as [[n ->] Hf']. specialize (IH h' k Hall' Hk Hf').
    destruct (attempts state ip req l h') as [h'' codes]. simpl in *. subst codes.
    replace (Z.to_nat (Z.max 1 (jwt_auth_fail_limit state) - k)) with 0%nat by lia.
    by rewrite !Nat.min_0_r, Nat.sub_0_r.
Qed.

(** Guessing is limited.  A client without failures on record that keeps sending wrong
    tokens is answered 401 for the first [max 1 limit] attempts, and 429 for all further
    ones as long as they come within the timeout of the first: at most that many tokens are
    examined.  (With a limit of zero there is still one, and then the rate limit.) *)
Theorem guessing_limited state ip req l h t0 :
  (∀ env, is_Some (module_handler state env req)) →
  0 ≤ jwt_auth_fail_limit state < 2 ^ 32 →
  jwt_auth_failures h !! ip = None →
  Forall (wrong_attempt state h t0) l →
  let limit := Z.to_nat (Z.max 1 (jwt_auth_fail_limit state)) in
  (attempts state ip req l h).2 =
  replicate (min (length l) limit) 401 ++ replicate (length l - limit) 429.
Proof.
  intros Hreq Hlim Hnone Hall. rewrite <- (Z.sub_0_r (Z.max 1 _)).
  apply (attempts_codes state ip req l h t0 0); [done..|lia|].
  unfold failed. by rewrite Hnone.
Qed.
End AuthTheorems.

(** ** What the handlers do *)

Section ServiceTheorems.
Context {TH : TreeHashLib} {BL : BlsLib} {BC : BlsCorrect} {EC : EcdsaLib} {ECC : EcdsaCorrect}.
Context {PS : ProxyStoreOps} {JL : JwtLib} {JC : JwtCorrect}.
Context {HO : HashOrder bytes} {HOs : HashOrder string} {DO : DirkOps} {KL : KeyLoader}.
Implicit Types h : Cells.

(** the answer to a signing request is a signature by the requested key of the requested
    root, for a signing id and a chain *)
Definition signature_for (c : Chain) (id : B256) (req : SignRequest) (resp : SignerResponse) : Prop :=
  match req, resp with
  | Consensus r, RespBlsSignature s =>
      verify_proposer_commitment_signature_bls c (scr_pubkey r) (scr_object_root r) s id = Ok ()
  | ProxyBls r, RespBlsSignature s =>
      verify_proposer_commitment_signature_bls c (spr_proxy r) (spr_object_root r) s id = Ok ()
  | ProxyEcdsa r, RespEcdsaSignature s =>
      verify_proposer_commitment_signature_ecdsa c (spr_proxy r) (spr_object_root r) s id = Ok ()
  | _, _ => False
  end.

Lemma fmap_ok {E A B} (f : A → B) (r : Result E A) b : f <$> r = Ok b → ∃ a, r = Ok a ∧ b = f a.
Proof. destruct r; [|done]. intros [= <-]. eauto. Qed.

Lemma sign_with_manager_ok state env sid req h m resp :
  read_manager state h = Some (LocalManager m) → manager_wf m →
  sign_with_manager state env sid req h = Ok resp → signature_for (lm_chain m) sid req resp.
Proof.
  intros Hm Hwf Hs. unfold sign_with_manager in Hs. rewrite Hm in Hs.
  destruct req as [r|r|r]; apply fmap_ok in Hs as (s & Hs & ->); simpl;
    eauto with commit_boost.
Qed.

Lemma serve_sign_ok state env jwt ip req h h' m resp :
  read_manager state h = Some (LocalManager m) → manager_wf m →
  serve state env jwt ip (ReqSign req) h = (h', Returns (Ok resp)) →
  same_but_failures h h' ∧
  ∃ id cfg, token_of_module (rq_wall_sec env) jwt h id ∧ jwts h !! id = Some cfg ∧
    signature_for (lm_chain m) (signing_id cfg) req resp.
Proof.
  intros Hm Hwf Hs. unfold serve in Hs. cbn [module_handler] in Hs.
  destruct (jwt_auth _ _ _ _ _ h) as [h2 r2] eqn:Ha in Hs. injection Hs as -> ->.
  apply jwt_auth_cases in Ha as [(id & h1 & Hf & Htok & Hs)|[_ [?|[n ?]]]]; [|done..].
  pose proof Hf as (Hman & Hj & _). unfold handle_request_signature in Hs. rewrite Hj in Hs.
  destruct (jwts h !! id) as [cfg|] eqn:Hcfg; [|done]. cbn [fmap option_fmap option_map] in Hs.
  assert (h1 = h' ∧ sign_with_manager state env (signing_id cfg) req h1 = Ok resp) as [<- Hsig]
    by (split; congruence).
  split; [done|]. exists id, cfg. split_and!; [done..|].
  eapply sign_with_manager_ok; [|done..]. unfold read_manager. by rewrite Hman.
Qed.

(** Revoking a module.  A revocation that succeeds was sent with a valid admin token and
    removes exactly that module: its signing id is gone and, whatever its token, no request
    on a module route is handled in its name any more, while the registration of every other
    module and the managers are as before; revoking an unknown module is answered 404. *)
Theorem revoked_module_locked_out state env jwt ip id h h' r :
  serve state env jwt ip (ReqRevoke {| rv_module_id := id |}) h = (h', Returns r) →
  (∀ resp, r = Ok resp →
     is_Some (jwts h !! id) ∧ jwts h' !! id = None ∧ managers h' = managers h ∧
     (∃ claims, jwt_decode_admin (admin_secret h) VALIDATE_LEEWAY (rq_wall_sec env) jwt = Ok claims ∧
        ja_admin claims = true ∧ jwt_signed (admin_secret h) jwt) ∧
     (∀ id', id' ≠ id → jwts h' !! id' = jwts h !! id') ∧
     ∀ now jwt', ¬ token_of_module now jwt' h' id) ∧
  (∀ e, r = Err e → h' = h ∧ (e = Unauthorized ∨ e = ModuleIdNotFound ∧ jwts h !! id = None)).
Proof.
  intros H. unfold serve, admin_auth in H. cbn [module_handler] in H.
  destruct (validate_admin_jwt (rq_wall_sec env) jwt (admin_secret h)) as [[]|e] eqn:Ha.
  - unfold handle_revoke_module in H. cbn [rv_module_id] in H.
    destruct (jwts h !! id) as [cfg|] eqn:Hid; cbn in H; injection H as <- <-; (split; [|]).
    + intros resp _. unfold validate_admin_jwt in Ha.
      apply result_bind_ok in Ha as (claims & Hc & Ha).
      destruct (ja_admin claims) eqn:Hadm; [|done].
      destruct (jwt_decode_admin_sound _ _ _ _ _ Hc) as [Hs _].
      assert (jwts (set_jwts h (delete id (jwts h))) !! id = None) as Hdel by apply lookup_delete_eq.
      split_and!; [eauto|done|done|eauto| |].
      * intros id' Hne. by apply lookup_delete_ne.
      * intros now jwt' (cfg' & claims' & Hc' & _). congruence.
    + done.
    + done.
    + intros e [= <-]. auto.
  - cbn in H. injection H as <- <-. split; [done|]. intros e' [= <-]. auto.
Qed.

(** ** Reloading *)

Lemma reload_jwts_spec old secrets new :
  reload_jwts old secrets = Ok new →
  ∀ id, new !! id = match secrets !! id, old !! id with
                    | Some secret, Some cfg =>
                        Some {| module_name := id; jwt_secret := secret; signing_id := signing_id cfg |}
                    | _, _ => None
                    end.
Proof.
  unfold reload_jwts.
  set (f := λ (new_configs : gmap string ModuleSigningConfig) '(module_id, secret), _).
  assert (∀ l acc new, NoDup l.*1 → try_fold f acc l = Ok new →
    ∀ id, new !! id = match (list_to_map l : gmap string string) !! id, old !! id with
                      | Some secret, Some cfg =>
                          Some {| module_name := id; jwt_secret := secret; signing_id := signing_id cfg |}
                      | _, _ => acc !! id
                      end) as Hloop.
  { induction l as [|[k v] l IH]; intros acc new' Hnd H id; simpl in H.
    - injection H as <-. done.
    - apply NoDup_cons in Hnd as [Hk Hnd]. apply result_bind_ok in H as (acc' & Hacc & H).
      rewrite (IH acc' new' Hnd H id). unfold f in Hacc.
      destruct (old !! k) as [cfg|] eqn:Hold; [|done]. cbn in Hacc. injection Hacc as <-.
      cbn [list_to_map foldr uncurry]. destruct (decide (id = k)) as [->|Hne].
      + rewrite (not_elem_of_list_to_map_1 _ _ Hk), lookup_insert_eq, Hold. cbn. by rewrite lookup_insert_eq.
      + cbn. by rewrite !lookup_insert_ne by done. }
  intros H id. rewrite (Hloop _ ∅ new (hash_iter_nodup secrets) H id).
  assert ((list_to_map (hash_iter secrets) : gmap string string) = secrets) as ->.
  { rewrite (list_to_map_proper _ _ (hash_iter_nodup secrets) (hash_iter_perm secrets)).
    apply list_to_map_to_list. }
  destruct (secrets !! id), (old !! id); by rewrite ?lookup_empty.
Qed.

(** What a reload leaves behind *)
Lemma reload_cells state env req h state' h' r :
  handle_reload state env req h = (state', h', r) →
  managers h `prefix_of` managers h' ∧
  (jwts h' = jwts h ∨ ∃ secrets, rr_jwt_secrets req = Some secrets ∧
                        reload_jwts (jwts h) secrets = Ok (jwts h')) ∧
  jwt_auth_failures h' = jwt_auth_failures h ∧ sg_disk h' = sg_disk h ∧
  (∀ resp, r = Returns (Ok resp) → ∃ cfg m, rq_config env = Ok cfg ∧
     start_manager env cfg (sg_disk h) = Returns (Ok m) ∧
     managers h' = managers h ++ [m] ∧ manager state' = length (managers h) ∧
     (∀ s, rr_admin_secret req = Some s → admin_secret h' = s) ∧
     (∀ secrets, rr_jwt_secrets req = Some secrets → reload_jwts (jwts h) secrets = Ok (jwts h'))).
Proof.
  unfold handle_reload. destruct (rq_config env) as [cfg|]; [|by intros [= <- <- <-]; split_and!; auto].
  set (h1r := match rr_jwt_secrets req with Some _ => _ | None => Ok h end).
  assert (∀ h1, h1r = Ok h1 → managers h1 = managers h ∧ sg_disk h1 = sg_disk h ∧
    jwt_auth_failures h1 = jwt_auth_failures h ∧
    (rr_jwt_secrets req = None ∧ jwts h1 = jwts h ∨
     ∃ secrets, rr_jwt_secrets req = Some secrets ∧ reload_jwts (jwts h) secrets = Ok (jwts h1)))
    as Hh1.
  { intros h1. unfold h1r. destruct (rr_jwt_secrets req) as [secrets|].
    - intros H. apply result_bind_ok in H as (c & Hc & [= <-]). split_and!; eauto.
    - intros [= <-]. split_and!; auto. }
  destruct h1r as [h1|e]; [|by intros [= <- <- <-]; split_and!; auto].
  destruct (Hh1 h1 eq_refl) as (Hm & Hd & Hf & Hj). clear Hh1.
  set (h2 := match rr_admin_secret req with Some _ => _ | None => h1 end).
  assert (managers h2 = managers h ∧ sg_disk h2 = sg_disk h ∧
    jwt_auth_failures h2 = jwt_auth_failures h ∧ jwts h2 = jwts h1 ∧
    ∀ s, rr_admin_secret req = Some s → admin_secret h2 = s) as (Hm2 & Hd2 & Hf2 & Hj2 & Ha2).
  { unfold h2. destruct (rr_admin_secret req); simpl; split_and!; try done. by intros ? [= <-]. }
  clearbody h2. rewrite <- Hj2 in Hj.
  assert (jwts h2 = jwts h ∨ ∃ secrets, rr_jwt_secrets req = Some secrets ∧
            reload_jwts (jwts h) secrets = Ok (jwts h2)) as Hj' by (destruct Hj as [[? ?]|?]; auto).
  destruct (start_manager env cfg (sg_disk h2)) as [[m|e]|] eqn:Hst; [|intros [= <- <- <-]..].
  - intros [= <- <- <-]. simpl. rewrite Hm2, Hd2, Hf2. split_and!; try done.
    + by apply prefix_app_r.
    + intros resp _. exists cfg, m. rewrite Hd2 in Hst. split_and!; try done.
      intros secrets Hs. destruct Hj as [[? _]|(s' & Hs' & ?)]; congruence.
  - rewrite Hm2, Hd2, Hf2. by split_and!.
  - rewrite Hm2, Hd2, Hf2. by split_and!.
Qed.

(** C39: A reload does not reach the running service.  Whatever the configuration and the
    answer, later requests still use the manager they used before: the new manager is put
    into a cell that only the reload's own copy of the state refers to.  What a successful
    reload does change is the set of modules: it becomes exactly the set of the secrets in
    the request, each with its new secret and its old signing id. *)
Theorem reload_keeps_manager state env jwt ip req h h' r m :
  read_manager state h = Some m →
  serve state env jwt ip (ReqReload req) h = (h', r) →
  read_manager state h' = Some m ∧
  (∀ resp secrets id, r = Returns (Ok resp) → rr_jwt_secrets req = Some secrets →
     jwts h' !! id = match secrets !! id, jwts h !! id with
                     | Some secret, Some cfg =>
                         Some {| module_name := id; jwt_secret := secret; signing_id := signing_id cfg |}
                     | _, _ => None
                     end).
Proof.
  intros Hm H. unfold serve in H. cbn [module_handler] in H.
  destruct (validate_admin_jwt _ jwt _) as [[]|e]; [|by injection H as <- <-].
  destruct (handle_reload state env req h) as [[state' h1] r1] eqn:Hr. injection H as <- <-. apply reload_cells in Hr as (Hpre & _ & _ & _ & Hok). split.
  - unfold read_manager in *. by eapply prefix_lookup_Some.
  - intros resp secrets id -> Hsec. destruct (Hok resp eq_refl) as (cfg & m' & _ & _ & _ & _ & _ & Hj).
    by apply reload_jwts_spec, Hj.
Qed.

(** The handlers of a module change the manager and the disk only *)
Lemma get_pubkeys_cells state id h h' r : handle_get_pubkeys state id h = (h', r) → h' = h.
Proof. unfold handle_get_pubkeys. by destruct (read_manager state h); intros [= <- _]. Qed.
Lemma generate_proxy_frame state env id req h h' r :
  handle_generate_proxy state env id req h = (h', r) →
  jwts h' = jwts h ∧ jwt_auth_failures h' = jwt_auth_failures h ∧ admin_secret h' = admin_secret h.
Proof.
  unfold handle_generate_proxy.
  destruct (read_manager state h) as [[m|d]|], (scheme req); try by intros [= <- _].
  - by destruct (create_proxy_bls _ _ _ _ _) as [[? ?] ?]; intros [= <- _].
  - by destruct (create_proxy_ecdsa _ _ _ _ _) as [[? ?] ?]; intros [= <- _].
  - by destruct (dirk_generate_proxy_key _ _ _ _ _) as [[? ?] ?]; intros [= <- _].
Qed.

(** ** The life of the service *)

(** any request may come next, from anyone, whatever it carries *)
Definition service_step (state : SigningState) h h' : Prop :=
  ∃ env jwt ip req r, serve state env jwt ip req h = (h', r).

(** what stays true since the cells were [h0] and the manager [m0] *)
Definition service_inv (state : SigningState) h0 (m0 : LocalSigningManager) h : Prop :=
  (∃ m, read_manager state h = Some (LocalManager m) ∧ manager_wf m ∧
     lm_chain m = lm_chain m0 ∧ consensus_signers m = consensus_signers m0) ∧
  (∀ id cfg, jwts h !! id = Some cfg →
     ∃ cfg0, jwts h0 !! id = Some cfg0 ∧ signing_id cfg = signing_id cfg0).

Lemma service_inv_frame state h0 m0 h h' :
  managers h' = managers h → jwts h' = jwts h →
  service_inv state h0 m0 h → service_inv state h0 m0 h'.
Proof. unfold service_inv, read_manager. by intros -> ->. Qed.

(** A module may add a proxy to the manager it uses; nothing else changes a manager *)
Lemma create_proxy_inv {S} state h0 m0 h m (signer : scheme_signer S) id dl m' d r :
  service_inv state h0 m0 h → read_manager state h = Some (LocalManager m) →
  create_proxy m (sg_disk h) signer id dl = (m', d, r) →
  service_inv state h0 m0 (set_manager h (manager state) (LocalManager m') d).
Proof.
  intros [(m1 & Hm1 & Hwf & Hc & Hs) Hj] Hm Hcr. rewrite Hm in Hm1. injection Hm1 as <-.
  split; [|exact Hj]. exists m'.
  pose proof (create_proxy_wf _ _ _ _ _ _ _ _ Hwf Hcr) as Hwf'.
  assert (lm_chain m' = lm_chain m ∧ consensus_signers m' = consensus_signers m) as [-> ->].
  { apply create_proxy_cases in Hcr as [(_ & -> & _)|[(-> & _)|(dg & _ & _ & _ & _ & ->)]]; [done..|].
    by destruct (insert_proxy_frame m {| px_signer := signer; px_delegation := dg |} id) as (? & ? & _). }
  split_and!; [|done..]. unfold read_manager in *. simpl.
  apply list_lookup_insert_eq. by eapply lookup_lt_Some.
Qed.

Lemma module_handler_inv state env req handler h0 m0 id h h' r :
  module_handler state env req = Some handler → handler id h = (h', r) →
  service_inv state h0 m0 h → service_inv state h0 m0 h'.
Proof.
  intros Hh H Hinv. pose proof Hinv as [(m & Hm & _) _].
  destruct req as [|rq|rq|rq|rq|]; [..|done|done|done]; injection Hh as <-.
  - unfold handle_get_pubkeys in H. rewrite Hm in H. by injection H as <- _.
  - unfold handle_request_signature in H.
    destruct (signing_id <$> jwts h !! id); by injection H as <- _.
  - unfold handle_generate_proxy in H. rewrite Hm in H.
    destruct (scheme rq); unfold create_proxy_bls, create_proxy_ecdsa in H;
      destruct (create_proxy m _ _ _ _) as [[m' d] r'] eqn:Hc; injection H as <- _;
      by eapply create_proxy_inv.
Qed.

Lemma service_step_inv state h0 m0 h h' :
  service_step state h h' → service_inv state h0 m0 h → service_inv state h0 m0 h'.
Proof.
  intros (env & jwt & ip & req & r & H) Hinv. unfold serve in H.
  destruct (module_handler state env req) as [handler|] eqn:Hh.
  - destruct (jwt_auth state env jwt ip handler h) as [h1 r1] eqn:Ha. injection H as <- _.
    apply jwt_auth_cases in Ha as [(id & h2 & (? & ? & _) & _ & Hn)|[(? & ? & _) _]].
    + eapply module_handler_inv; [done..|]. by eapply service_inv_frame.
    + by eapply service_inv_frame.
  - destruct req as [| | |rq|rq|]; try done; [..|by injection H as <- _].
    + destruct (validate_admin_jwt _ jwt _); [|by injection H as <- _].
      destruct (handle_reload state env rq h) as [[state' h1] r1] eqn:Hr. injection H as <- _.
      apply reload_cells in Hr as (Hpre & Hj & _). destruct Hinv as [(m & Hm & Hrest) Hjwts]. split.
      * exists m. split; [|done]. by eapply prefix_lookup_Some.
      * destruct Hj as [->|(secrets & _ & Hrel)]; [done|]. intros id cfg Hid.
        rewrite (reload_jwts_spec _ _ _ Hrel) in Hid.
        destruct (secrets !! id), (jwts h !! id) as [cfg1|] eqn:E; [|done..].
        injection Hid as <-. by apply Hjwts in E.
    + unfold admin_auth in H. destruct (validate_admin_jwt _ jwt _); [|by injection H as <- _].
      unfold handle_revoke_module in H.
      destruct (jwts h !! rv_module_id rq); injection H as <- _; [|done].
      destruct Hinv as [Hm Hjwts]. split; [exact Hm|]. intros id cfg Hid. simpl in Hid.
      apply lookup_delete_Some in Hid as [_ Hid]. by apply Hjwts.
Qed.

Lemma service_reachable state h0 m0 h :
  read_manager state h0 = Some (LocalManager m0) → manager_wf m0 →
  rtc (service_step state) h0 h → service_inv state h0 m0 h.
Proof.
  intros Hm Hwf. apply (rtc_ind_r (λ h, service_inv state h0 m0 h)).
  - split; [by exists m0|eauto].
  - intros h1 h2 _ Hstep IH. by eapply service_step_inv.
Qed.

(** The service is safe over its whole life.  After any requests of modules, strangers
    and the administrator, the service still has a consistent manager for the same chain and
    the same validator keys; no module has been added and no module's signing id has changed;
    and every signature given to a module verifies under the requested key with the signing
    id that this module had when the service started. *)
Theorem signer_service_safe state h0 m0 h :
  read_manager state h0 = Some (LocalManager m0) → manager_wf m0 →
  rtc (service_step state) h0 h →
  (∃ m, read_manager state h = Some (LocalManager m) ∧ manager_wf m ∧
     lm_chain m = lm_chain m0 ∧ consensus_signers m = consensus_signers m0) ∧
  (∀ id cfg, jwts h !! id = Some cfg →
     ∃ cfg0, jwts h0 !! id = Some cfg0 ∧ signing_id cfg = signing_id cfg0) ∧
  (∀ env jwt ip req h' resp, serve state env jwt ip (ReqSign req) h = (h', Returns (Ok resp)) →
     ∃ id cfg0, jwts h0 !! id = Some cfg0 ∧ token_of_module (rq_wall_sec env) jwt h id ∧
       signature_for (lm_chain m0) (signing_id cfg0) req resp).
Proof.
  intros Hm0 Hwf0 Hr. pose proof (service_reachable _ _ _ _ Hm0 Hwf0 Hr) as [Hm Hj].
  split; [done|]. split; [done|]. intros env jwt ip req h' resp Hs.
  destruct Hm as (m & Hm & Hwf & Hc & _).
  destruct (serve_sign_ok _ _ _ _ _ _ _ _ _ Hm Hwf Hs) as (_ & id & cfg & Htok & Hcfg & Hsig).
  destruct (Hj id cfg Hcfg) as (cfg0 & Hcfg0 & Heq). exists id, cfg0.
  by rewrite <- Hc, <- Heq.
Qed.
End ServiceTheorems.

(** ** A concrete service *)
Module ServiceSample.
Import ManagerSample.
#[local] Existing Instances sha256_tree_hash toy_bls toy_ecdsa toy_bls_correct toy_ecdsa_correct
  no_store toy_jwt toy_jwt_correct.

Definition no_dirk : DirkOps (EC := toy_ecdsa) := {|
  DirkManager := Empty_set;
  DirkEnv := ();
  dirk_new _ _ _ := Err (Message "no dirk"); dirk_with_proxy_store d _ := match d with end;
  dirk_consensus_count d := match d with end; dirk_proxy_count d := match d with end;
  dirk_consensus_proxy_maps d _ := match d with end;
  request_consensus_signature _ d _ _ _ := match d with end;
  request_proxy_signature _ d _ _ _ := match d with end;
  dirk_generate_proxy_key _ d _ _ _ := match d with end |}.
Definition two_keys : KeyLoader (BL := toy_bls) :=
  {| load_keys _ _ := Returns (Ok [validator x01; validator x02]) |}.
#[local] Existing Instances no_dirk two_keys.

Definition module_config (id secret : string) (b : byte) : ModuleSigningConfig :=
  {| module_name := id; jwt_secret := secret; signing_id := byte_array 32 b |}.
Definition start_config : StartSignerConfig := {|
  ss_chain := Hoodi; ss_loader := Some (SLFile "keys.json"); ss_store := None;
  ss_endpoint := {| sa_ip := "127.0.0.1"; sa_port := 20000 |};
  ss_mod_signing_configs := {[ "A"%string := module_config "A" "secret-a" x01;
                               "B"%string := module_config "B" "secret-b" x02 ]};
  ss_admin_secret := "admin"; ss_jwt_auth_fail_limit := 3;
  ss_jwt_auth_fail_timeout_seconds := 300; ss_dirk := None |}.
Definition env : RequestEnv := {|
  rq_check_ns := 0; rq_failure_ns := 1; rq_wall_sec := 1000;
  rq_random_bls := validator x21; rq_random_ecdsa := EcdsaLocal (EC := toy_ecdsa) [x22];
  rq_config := Ok start_config; rq_init_store := Ok; rq_dirk := () |}.
Definition state : SigningState :=
  {| manager := 0; jwt_auth_fail_limit := 3; jwt_auth_fail_timeout := 300000000000 |}.
Definition cells : Cells := {|
  managers := [LocalManager m1];
  jwts := ss_mod_signing_configs start_config; admin_secret := "admin";
  jwt_auth_failures := ∅; sg_disk := disk0 |}.

Definition token (module secret : string) : Jwt := token_of (secret, (1300, inl module)).
Definition admin_token : Jwt := token_of ("admin"%string, (1300, inr true)).
Definition sign_request : SignRequest :=
  Consensus {| scr_pubkey := sk_to_pk (BlsLib := toy_bls) [x01]; scr_object_root := byte_array 32 x07 |}.
Definition status_of (r : Cells * Call (Result (SignerModuleError (EC := toy_ecdsa)) SignerResponse)) : Z :=
  match r.2 with Returns r => response_status r | Panics => 0 end.

(** the service starts with the manager of its configuration; a valid token is served, a
    token with another module's secret and one of a stranger are not *)
Example service_answers :
  (match start_service env start_config disk0 with
   | Returns (Ok (Some (st, h))) =>
       bool_decide (manager st = 0%nat) && (length (managers h) =? 1)%nat
   | _ => false end) = true ∧
  status_of (serve state env (token "A" "secret-a") "ip" (ReqSign sign_request) cells) = 200 ∧
  status_of (serve state env (token "A" "secret-b") "ip" (ReqSign sign_request) cells) = 401 ∧
  status_of (serve state env (token "C" "secret-a") "ip" (ReqSign sign_request) cells) = 401 ∧
  status_of (serve state env (token "A" "secret-a") "ip"
    (ReqSign (ProxyBls {| spr_proxy := [x99]; spr_object_root := [] |})) cells) = 404 ∧
  status_of (serve state env admin_token "ip" (ReqRevoke {| rv_module_id := "C" |}) cells) = 404 ∧
  status_of (serve state env admin_token "ip"
    (ReqReload {| rr_jwt_secrets := None; rr_admin_secret := None |}) cells) = 200.
Proof. vm_compute. repeat split. Qed.

(** a served request, with its answer *)
Definition served (jwt : Jwt) (req : SignerRequest) (code : Z) : Prop :=
  ∃ h' r, serve state env jwt "ip" req cells = (h', Returns r) ∧ response_status r = code.
Lemma served_by jwt req code :
  status_of (serve state env jwt "ip" req cells) = code → code ≠ 0 → served jwt req code.
Proof.
  intros H Hne. destruct (serve state env jwt "ip" req cells) as [h' [r|]] eqn:E.
  - by exists h', r.
  - by unfold status_of in H.
Qed.

Lemma module_requests_authenticated_witness :
  ∃ id, token_of_module 1000 (token "A" "secret-a") cells id.
Proof.
  destruct (served_by (token "A" "secret-a") (ReqSign sign_request) 200) as (h' & r & E & H200);
    [apply service_answers|discriminate|].
  destruct (module_requests_authenticated state env (token "A" "secret-a") "ip" (ReqSign sign_request)
    (λ id, handle_request_signature state env id sign_request) cells h' r eq_refl E)
    as [(id & h1 & _ & Htok & _)|[_ H]].
  - exists id. exact Htok.
  - rewrite H200 in H. apply elem_of_cons in H as [H|H]; [discriminate H|].
    apply elem_of_cons in H as [H|H]; [discriminate H|]. apply elem_of_nil in H as [].
Defined.

Lemma guessing_limited_witness :
  (attempts state "ip" ReqGetPubkeys (replicate 5 (env, token "A" "wrong")) cells).2
  = [401; 401; 401; 429; 429].
Proof.
  apply (guessing_limited state "ip" ReqGetPubkeys (replicate 5 (env, token "A" "wrong")) cells 0).
  - intros e. eexists. reflexivity.
  - split; [discriminate|reflexivity].
  - reflexivity.
  - repeat constructor; try discriminate; vm_compute; reflexivity.
Defined.

(** a request answered with a bare 200 *)
Definition succeeded (r : Cells * Call (Result (SignerModuleError (EC := toy_ecdsa)) SignerResponse)) : bool :=
  match r.2 with Returns (Ok RespOk) => true | _ => false end.
Lemma succeeded_ok r : succeeded r = true → ∃ h', r = (h', Returns (Ok RespOk)).
Proof. destruct r as [h' [[[]|]|]]; by eauto. Qed.

Lemma revoked_module_locked_out_witness :
  ∃ h', serve state env admin_token "ip" (ReqRevoke {| rv_module_id := "A" |}) cells
          = (h', Returns (Ok RespOk)) ∧ ∀ now jwt, ¬ token_of_module now jwt h' "A".
Proof.
  destruct (succeeded_ok (serve state env admin_token "ip" (ReqRevoke {| rv_module_id := "A" |}) cells))
    as [h' E]; [vm_compute; reflexivity|].
  exists h'. destruct (revoked_module_locked_out _ _ _ _ _ _ _ _ E) as [Hok _].
  destruct (Hok RespOk eq_refl) as (_ & _ & _ & _ & _ & Hno). split; [exact E|exact Hno].
Defined.

Definition rotate : ReloadRequest := {|
  rr_jwt_secrets := Some {[ "A"%string := "rotated"%string ]}; rr_admin_secret := None |}.
Lemma reload_keeps_manager_witness :
  ∃ h', serve state env admin_token "ip" (ReqReload rotate) cells = (h', Returns (Ok RespOk)) ∧
    read_manager state h' = Some (LocalManager m1) ∧ jwts h' !! "B"%string = None.
Proof.
  destruct (succeeded_ok (serve state env admin_token "ip" (ReqReload rotate) cells)) as [h' E];
    [vm_compute; reflexivity|].
  exists h'. destruct (reload_keeps_manager state env admin_token "ip" rotate cells h'
    (Returns (Ok RespOk)) (LocalManager m1) eq_refl E) as [Hm Hj].
  split; [exact E|]. split; [exact Hm|].
  rewrite (Hj RespOk {[ "A"%string := "rotated"%string ]} "B"%string eq_refl eq_refl). reflexivity.
Defined.

(** the service after module A created a proxy and the administrator revoked module B *)
Definition later : Cells :=
  (serve state env admin_token "ip" (ReqRevoke {| rv_module_id := "B" |})
    (serve state env (token "A" "secret-a") "ip"
       (ReqGenerateProxy {| consensus_pubkey := sk_to_pk (BlsLib := toy_bls) [x02]; scheme := Bls |}) cells).1).1.
Lemma later_reachable : rtc (service_step state) cells later.
Proof.
  assert (∀ jwt req h, service_step state h (serve state env jwt "ip" req h).1) as Hstep.
  { intros jwt req h. destruct (serve state env jwt "ip" req h) as [h' r] eqn:E. by repeat eexists. }
  eapply rtc_l; [apply Hstep|]. eapply rtc_l; [apply Hstep|]. apply rtc_refl.
Qed.
Lemma signer_service_safe_witness :
  ∃ m, read_manager state later = Some (LocalManager m) ∧ manager_wf m ∧
    lm_chain m = Hoodi ∧ consensus_signers m = consensus_signers m1.
Proof.
  destruct (signer_service_safe state cells m1 later eq_refl m1_wf later_reachable)
    as ((m & Hm & Hwf & Hc & Hs) & _).
  exists m. split; [exact Hm|]. split; [exact Hwf|]. split; [exact Hc|exact Hs].
Defined.
End ServiceSample.
