(* ===== verification/SignerBackends.v ===== *)
(** * The signing service on its back ends

    SignerService.v is written against interfaces: the Dirk manager ([DirkOps]), the key loader
    ([KeyLoader]) and the proxy store ([ProxyStoreOps]).  This file instantiates them with the
    models of Dirk.v, Loader.v and ProxyStore.v, as [start_manager] of
    [crates/signer/src/service.rs] composes them, and shows two properties of the composition:
    the service signs alike on either manager, and it serves the validators whose keys its
    loader finds. *)

From S2P Require Import Prelude Bytes Text Jwt Chain Signature PbsTypes Http Relay Commit.
From S2P Require Import PbsConfig PbsState SignerConfig Config LocalManager FileSystem ProxyStore.
From S2P Require Import Erc2335 Persistence Threshold Proto Dirk DirkSigning DirkProxies Loader SignerService.

Section Backends.
Context {TH : TreeHashLib} {BL : BlsLib} {EC : EcdsaLib} {UL : UrlLib} {CE : ConfigEnv}.
Context {HOb : HashOrder bytes} {HOs : HashOrder string} {HOz : HashOrder Z}.
Context {DF : DiskFaults} {PJ : ProxyJson} {KS : KeystoreLib} {HX : HexLib}.
Context {DL : DirkLib} {LL : LoaderLib} {JL : JwtLib}.

#[export] Instance dirk_backend : DirkOps := {|
  SignerService.DirkManager := Dirk.DirkManager;
  DirkEnv := DirkWorld;
  dirk_new := dirk_manager_new;
  dirk_with_proxy_store := with_proxy_store;
  dirk_consensus_count := dirk_available_consensus;
  dirk_proxy_count := dirk_available_proxies;
  dirk_consensus_proxy_maps := dirk_proxy_maps;
  request_consensus_signature := dirk_consensus_signature;
  request_proxy_signature := dirk_proxy_signature;
  dirk_generate_proxy_key w d disk module_id consensus :=
    let '(d, t, r) := generate_proxy_key w d module_id consensus (h_tree disk) in
    (d, {| h_tree := t; h_draws := h_draws disk; h_next := h_next disk |}, r);
|}.

#[export] Instance disk_loader : KeyLoader := {|
  load_keys loader disk := load_from_env loader (h_tree disk);
|}.

(** ** Dirk in place of the local manager *)

(** The hosts behind a Dirk manager hold the consensus keys of a local manager. *)
Definition holds_keys (w : DirkWorld) (d : Dirk.DirkManager) (m : LocalSigningManager) : Prop :=
  dk_chain d = lm_chain m ∧
  ∀ pubkey, match consensus_signers m !! pubkey with
            | Some (BlsLocal sk) => ∃ account, consensus_accounts d !! pubkey = Some account ∧ serves w sk account
            | None => consensus_accounts d !! pubkey = None
            end.

Lemma holds_keys_signature w d m pubkey root id : holds_keys w d m →
  dirk_consensus_signature w d pubkey root id = sign_consensus m pubkey root id.
Proof.
  intros [Hchain Hkeys]. specialize (Hkeys pubkey). unfold dirk_consensus_signature, sign_consensus.
  destruct (consensus_signers m !! pubkey) as [[sk]|]; simpl; [|by rewrite Hkeys].
  destruct Hkeys as (account & -> & Hserves). rewrite (serves_signature w d sk) by done.
  by rewrite Hchain.
Qed.

(** The answer behind [jwt_auth] depends on the registrations, the failures and the handler *)
Lemma jwt_auth_answer {A} state env jwt ip (next : ModuleId → Handler A) (h h' : Cells) :
  jwts h' = jwts h → jwt_auth_failures h' = jwt_auth_failures h →
  (∀ id h1 h1', jwts h1 = jwts h → jwts h1' = jwts h' → managers h1 = managers h →
     managers h1' = managers h' → (next id h1').2 = (next id h1).2) →
  (jwt_auth state env jwt ip next h').2 = (jwt_auth state env jwt ip next h).2.
Proof.
  intros Hj Hf Hnext. unfold jwt_auth, check_jwt_rate_limit. rewrite Hf.
  assert (∀ h1 h1', jwts h1 = jwts h → jwts h1' = jwts h' → managers h1 = managers h →
     managers h1' = managers h' →
     (match check_jwt_auth (rq_wall_sec env) jwt h1' with
      | Ok module_id => next module_id h1'
      | Err Unauthorized => (record_failure h1' ip (rq_failure_ns env), Err Unauthorized)
      | Err err => (h1', Err err)
      end).2
     = (match check_jwt_auth (rq_wall_sec env) jwt h1 with
        | Ok module_id => next module_id h1
        | Err Unauthorized => (record_failure h1 ip (rq_failure_ns env), Err Unauthorized)
        | Err err => (h1, Err err)
        end).2) as Hauth.
  { intros h1 h1' Hj1 Hj1' Hm1 Hm1'. unfold check_jwt_auth. rewrite Hj1', Hj, Hj1.
    destruct (_ ≫= _) as [id|[]]; [by apply Hnext|done..]. }
  destruct (jwt_auth_failures h !! ip) as [info|]; [|by apply Hauth].
  destruct (_ >? _); [by apply Hauth|]. destruct (_ <? _); [by apply Hauth|done].
Qed.

(** C9: Refinement of the local manager by Dirk: put a Dirk manager whose hosts hold the same
    consensus keys in the place of the service's local manager, and every request for a
    consensus signature gets the same answer, with the same token, at the same time, whether
    it is signed, refused or limited. *)
Theorem dirk_refines_local state env jwt ip (r : SignConsensusRequest) (h : Cells)
    (m : LocalSigningManager) (d : Dirk.DirkManager) :
  managers h !! manager state = Some (LocalManager m) → holds_keys (rq_dirk env) d m →
  (serve state env jwt ip (ReqSign (Consensus r))
     (set_manager h (manager state) (DirkSigner d) (sg_disk h))).2
  = (serve state env jwt ip (ReqSign (Consensus r)) h).2.
Proof.
  intros Hm Hkeys. apply lookup_lt_Some in Hm as Hlt. unfold serve. cbn [module_handler snd]. f_equal.
  apply jwt_auth_answer; [done|done|]. intros id h1 h2 Hj1 Hj2 Hm1 Hm2.
  cbn in Hj2, Hm2. unfold handle_request_signature, sign_with_manager, read_manager. rewrite Hj1, Hj2, Hm1, Hm2.
  rewrite list_lookup_insert_eq, Hm by done.
  destruct (jwts h !! id) as [cfg|]; [|done]. cbn. by rewrite (holds_keys_signature _ _ m).
Qed.

(** ** From the keys on disk to the table of the manager *)

Lemma add_signers_chain l m : lm_chain (fold_left add_consensus_signer l m) = lm_chain m.
Proof. revert m. induction l as [|s l IH]; intros m; simpl; [done|]. by rewrite IH. Qed.
Lemma add_signers_lookup l m k s : NoDup (bls_signer_pubkey <$> l) →
  consensus_signers (fold_left add_consensus_signer l m) !! k = Some s ↔
  (s ∈ l ∧ bls_signer_pubkey s = k) ∨
  (k ∉ (bls_signer_pubkey <$> l) ∧ consensus_signers m !! k = Some s).
Proof.
  revert m. induction l as [|s' l IH]; intros m Hnd; simpl; [set_solver|].
  apply NoDup_cons in Hnd as [Hnot Hnd]. rewrite IH by done. simpl.
  rewrite lookup_insert_Some, not_elem_of_cons, elem_of_cons. split.
  - intros [[Hin <-]|[Hk [[<- <-]|[Hne Hm]]]]; [by left; split; [right|]|by left; split; [left|]|].
    right. by split.
  - intros [[[->|Hin] <-]|[[Hne Hk] Hm]]; [|by left|right; split; [done|]; right; naive_solver].
    right. split; [done|]. by left.
Qed.

Context {VK : ValidatorKeys}.

(** C22: The service serves the validators of its key directory: started with a local configuration
    whose loader points at a directory of Lighthouse, Teku, Lodestar or Nimbus in which the keys
    [vs] are provisioned, and where nothing else can be loaded, [start_manager] returns a local
    manager whose table of consensus signers holds those keys under their public keys and
    nothing else. *)
Theorem start_serves_validators env (config : StartSignerConfig) (host : Host)
    (format : ValidatorKeysFormat) (keys secrets : string) (vs : list (string * BlsSecretKey)) :
  let t := h_tree host in
  let keys_path := path_or_env SIGNER_DIR_KEYS_ENV keys in
  let secrets_path := path_or_env SIGNER_DIR_SECRETS_ENV secrets in
  ss_dirk config = None → ss_store config = None →
  ss_loader config = Some (SLValidatorsDir keys secrets format) →
  format ≠ Prysm → is_dir t keys_path = true →
  NoDup (entry_name format <$> vs.*1) → NoDup (sk_to_pk <$> vs.*2) →
  (∀ stem sk, (stem, sk) ∈ vs → provisioned format t keys_path secrets_path stem sk) →
  (∀ name, is_Some (t !! (name :: keys_path)) → name ∉ (entry_name format <$> vs.*1) →
    load_entry t (entry_of format t keys_path secrets_path) name = None) →
  ∃ m, start_manager env config host = Returns (Ok (LocalManager m)) ∧ lm_chain m = ss_chain config ∧
    ∀ pubkey signer, consensus_signers m !! pubkey = Some signer ↔
      ∃ sk, sk ∈ vs.*2 ∧ pubkey = sk_to_pk sk ∧ signer = BlsLocal sk.
Proof.
  intros t keys_path secrets_path Hd Hs Hl Hf Hdir Hnames Hpks Hvs Hrest.
  destruct (validators_loaded format t keys secrets vs Hf Hdir Hnames Hvs Hrest) as (l & Hload & Hperm).
  unfold start_manager. rewrite Hs, Hd, Hl. cbn [local_manager_new load_keys disk_loader].
  fold t. rewrite Hload. eexists. split; [done|]. split; [apply add_signers_chain|].
  intros pubkey signer. rewrite add_signers_lookup.
  - cbn [consensus_signers]. rewrite lookup_empty, Hperm, list_elem_of_fmap. naive_solver.
  - rewrite Hperm, <- list_fmap_compose. done.
Qed.
End Backends.

(** ** The samples of the back ends, behind the service *)
Module DirkBackendSample.
Import DirkSample ProxySample.
#[local] Existing Instances sha256_tree_hash mod7_bls toy_ecdsa plain_urls mod7_dirk plain_delegations
  sound_disk LoaderSample.brace_keystores plain_hex LoaderSample.no_variables
  LoaderSample.identity_lib toy_jwt.

Definition host : Host := {|
  h_tree := ∅; h_draws _ := {| dr_password := []; dr_salt := []; dr_iv := []; dr_uuid := [] |}; h_next := 0 |}.
Definition state : SigningState :=
  {| manager := 0; jwt_auth_fail_limit := 3; jwt_auth_fail_timeout := 300 |}.
Definition cells : Cells := {|
  managers := [LocalManager local];
  jwts := {[ "MODULE"%string := {| module_name := "MODULE"; jwt_secret := "secret";
                                   signing_id := replicate 32 x22 |} ]};
  admin_secret := "admin"; jwt_auth_failures := ∅; sg_disk := host |}.
Definition env : RequestEnv := {|
  rq_check_ns := 0; rq_failure_ns := 1; rq_wall_sec := 1000; rq_random_bls := BlsLocal 1;
  rq_random_ecdsa := EcdsaLocal (EC := toy_ecdsa) [x22]; rq_config := Err (Message "unused");
  rq_init_store := Ok; rq_dirk := world |}.
Definition request : SignConsensusRequest :=
  {| scr_pubkey := pad 48 3; scr_object_root := replicate 32 x11 |}.

Lemma dirk_holds_keys : holds_keys world dirk local.
Proof.
  split; [done|]. intros pubkey. cbn [consensus_signers local consensus_accounts dirk].
  destruct (decide (pad 48 3 = pubkey)) as [<-|Hne].
  - rewrite lookup_singleton_eq. exists (Distributed shared_account).
    split; [apply lookup_singleton_eq|apply shared_account_serves].
  - by rewrite !lookup_singleton_ne.
Qed.

Lemma dirk_refines_local_witness :
  (serve state env (token_of ("secret"%string, (1300, inl "MODULE"%string))) "10.0.0.1"
     (ReqSign (Consensus request)) (set_manager cells 0 (DirkSigner dirk) host)).2
  = (serve state env (token_of ("secret"%string, (1300, inl "MODULE"%string))) "10.0.0.1"
       (ReqSign (Consensus request)) cells).2.
Proof.
  by apply (dirk_refines_local state env _ "10.0.0.1" request cells local dirk), dirk_holds_keys.
Defined.
End DirkBackendSample.

Module DiskBackendSample.
Import PersistSample LoaderSample.
#[local] Existing Instances sha256_tree_hash sized_bls plain_ecdsa plain_urls plain_json plain_hex
  brace_keystores no_variables identity_lib no_faults DirkSample.mod7_dirk toy_jwt sized_validator_keys.

Definition disk : Host := {| h_tree := wallet; h_draws := h_draws host0; h_next := 0 |}.
Definition config : StartSignerConfig := {|
  ss_chain := Holesky; ss_loader := Some (SLValidatorsDir "/keys" "/secrets" Lighthouse);
  ss_store := None; ss_endpoint := {| sa_ip := "127.0.0.1"; sa_port := 20000 |}; ss_mod_signing_configs := ∅;
  ss_admin_secret := "admin"; ss_jwt_auth_fail_limit := 3; ss_jwt_auth_fail_timeout_seconds := 300;
  ss_dirk := None |}.
Definition env : RequestEnv := {|
  rq_check_ns := 0; rq_failure_ns := 1; rq_wall_sec := 1000; rq_random_bls := BlsLocal [x01];
  rq_random_ecdsa := EcdsaLocal (EC := plain_ecdsa) [x22]; rq_config := Ok config;
  rq_init_store := Ok; rq_dirk := DirkSample.outage |}.

Lemma start_serves_validators_witness :
  ∃ m, start_manager env config disk = Returns (Ok (LocalManager m)) ∧ lm_chain m = Holesky ∧
    ∀ pubkey signer, consensus_signers m !! pubkey = Some signer ↔
      ∃ sk, sk ∈ [[x01]; [x02]] ∧ pubkey = sk_to_pk sk ∧ signer = BlsLocal sk.
Proof.
  apply (start_serves_validators env config disk Lighthouse "/keys" "/secrets"
           provisioned_keys); try done.
  - apply wallet_entries.
  - apply (bool_decide_unpack _). vm_compute. exact I.
  - apply wallet_provisioned.
  - apply wallet_others.
Defined.
End DiskBackendSample.
