(* ===== verification/SignerConcurrency.v ===== *)
(** * The signing service under concurrent requests

    [SignerService.serve] runs a request from its arrival to its answer.  The server of
    [crates/signer/src/service.rs] handles requests concurrently, and a request takes its locks
    one after the other: the failure record for the rate check and again for the failure, the
    module table for the token and again for the signing id, the secrets and the manager.  Here
    a request is a [Task] at a [Stage], one stage per section under one lock; [advance] is the
    next section of a request, and [pool_step] advances any of them.  No lock is taken while
    another one is held, so the sections are atomic.

    From the rate check to the verdict on the token there is no await: a request that passed
    the check keeps its worker thread until it is authenticated or its failure is on record.
    So the number of worker threads bounds the requests in between, and a step that starts the
    check needs a free worker. *)

From S2P Require Import Prelude Bytes Text Jwt Chain Signature Http Relay Commit PbsConfig.
From S2P Require Import PbsState SignerConfig Config LocalManager SignerService.

Section Concurrency.
Context {TH : TreeHashLib} {BL : BlsLib} {EC : EcdsaLib} {PS : ProxyStoreOps} {JL : JwtLib}.
Context {HO : HashOrder bytes} {HOs : HashOrder string} {DO : DirkOps} {KL : KeyLoader}.

Definition Answer : Type := Call (Result SignerModuleError SignerResponse).

(** where a request stands *)
Inductive Stage : Type :=
| Arrived
| RateChecked                                 (* let through by the rate limit *)
| Rejected                                    (* token refused, failure not yet on record *)
| Refused                                     (* failure on record, answered 401 *)
| Authenticated (id : ModuleId)
| SigningIdRead (id : ModuleId) (sid : B256)  (* waits for the manager *)
| Signed (id : ModuleId) (sid : B256) (r : Result SignerModuleError SignerResponse)
| Handled (id : ModuleId) (r : Result SignerModuleError SignerResponse)
| AdminAuthenticated
| ConfigRead (config : StartSignerConfig)
| SecretsReplaced (config : StartSignerConfig)
| AdminReplaced (config : StartSignerConfig)
| Answered (r : Answer).

Record Task := {
  t_env : RequestEnv;
  t_jwt : Jwt;
  t_ip : IpAddr;
  t_req : SignerRequest;
  t_stage : Stage;
}.
Definition at_stage (t : Task) (st : Stage) : Task :=
  {| t_env := t_env t; t_jwt := t_jwt t; t_ip := t_ip t; t_req := t_req t; t_stage := st |}.

(** ** The sections of a request *)

(** [check_jwt_rate_limit], under the lock of the failures *)
Definition advance_check (state : SigningState) (t : Task) (h : Cells) : Cells * Stage :=
  match check_jwt_rate_limit state (rq_check_ns (t_env t)) (t_ip t) h with
  | (h, Ok _) => (h, RateChecked)
  | (h, Err e) => (h, Answered (Returns (Err e)))
  end.
(** [check_jwt_auth], under the lock of the module table *)
Definition advance_auth (t : Task) (h : Cells) : Stage :=
  match check_jwt_auth (rq_wall_sec (t_env t)) (t_jwt t) h with
  | Ok module_id => Authenticated module_id
  | Err Unauthorized => Rejected
  | Err err => Answered (Returns (Err err))
  end.
Definition advance_admin_auth (t : Task) (h : Cells) : Stage :=
  match validate_admin_jwt (rq_wall_sec (t_env t)) (t_jwt t) (admin_secret h) with
  | Err _ => Answered (Returns (Err Unauthorized))
  | Ok _ => AdminAuthenticated
  end.
Definition read_signing_id (module_id : ModuleId) (h : Cells) : Stage :=
  match signing_id <$> jwts h !! module_id with
  | None => Handled module_id (Err (RequestError "Module signing ID not found"))
  | Some sid => SigningIdRead module_id sid
  end.
(** the parts of [handle_reload] *)
Definition reload_secrets (r : ReloadRequest) (config : StartSignerConfig) (h : Cells) : Cells * Stage :=
  match rr_jwt_secrets r with
  | Some jwt_secrets =>
      match reload_jwts (jwts h) jwt_secrets with
      | Ok new_configs => (set_jwts h new_configs, SecretsReplaced config)
      | Err e => (h, Answered (Returns (Err e)))
      end
  | None => (h, SecretsReplaced config)
  end.
Definition reload_admin (r : ReloadRequest) (h : Cells) : Cells :=
  match rr_admin_secret r with Some secret => set_admin_secret h secret | None => h end.
Definition reload_manager (env : RequestEnv) (config : StartSignerConfig) (h : Cells) : Cells * Answer :=
  match start_manager env config (sg_disk h) with
  | Panics => (h, Panics)
  | Returns (Err _) => (h, Returns (Err (SignerInternal "failed to reload config")))
  | Returns (Ok new_manager) =>
      ({| managers := managers h ++ [new_manager]; jwts := jwts h; admin_secret := admin_secret h;
          jwt_auth_failures := jwt_auth_failures h; sg_disk := sg_disk h |}, Returns (Ok RespOk))
  end.

(** The next section of a request; none once it is answered *)
Definition advance (state : SigningState) (t : Task) (h : Cells) : option (Cells * Stage) :=
  match t_stage t, t_req t with
  | Arrived, (ReqGetPubkeys | ReqSign _ | ReqGenerateProxy _) => Some (advance_check state t h)
  | Arrived, (ReqReload _ | ReqRevoke _) => Some (h, advance_admin_auth t h)
  | Arrived, ReqStatus => Some (h, Answered (Returns (Ok RespOk)))
  | RateChecked, _ => Some (h, advance_auth t h)
  | Rejected, _ => Some (record_failure h (t_ip t) (rq_failure_ns (t_env t)), Refused)
  | Authenticated id, ReqSign _ => Some (h, read_signing_id id h)
  | Authenticated id, ReqGetPubkeys =>
      let '(h, r) := handle_get_pubkeys state id h in Some (h, Handled id r)
  | Authenticated id, ReqGenerateProxy req =>
      let '(h, r) := handle_generate_proxy state (t_env t) id req h in Some (h, Handled id r)
  | SigningIdRead id sid, ReqSign req =>
      Some (h, Signed id sid (sign_with_manager state (t_env t) sid req h))
  | AdminAuthenticated, ReqReload _ =>
      Some (h, match rq_config (t_env t) with
               | Ok config => ConfigRead config
               | Err _ => Answered (Returns (Err (SignerInternal "failed to reload config")))
               end)
  | ConfigRead config, ReqReload req => Some (reload_secrets req config h)
  | SecretsReplaced config, ReqReload req => Some (reload_admin req h, AdminReplaced config)
  | AdminReplaced config, ReqReload _ =>
      let '(h, r) := reload_manager (t_env t) config h in Some (h, Answered r)
  | AdminAuthenticated, ReqRevoke req =>
      let '(h, r) := handle_revoke_module req h in Some (h, Answered (Returns r))
  | _, _ => None
  end.

(** what the client gets *)
Definition answer (st : Stage) : option Answer :=
  match st with
  | Refused => Some (Returns (Err Unauthorized))
  | Signed _ _ r | Handled _ r => Some (Returns r)
  | Answered r => Some r
  | _ => None
  end.

(** ** The pool of requests *)

Record Pool := { pl_cells : Cells; pl_tasks : list Task }.

(** between the rate check and the verdict, on a worker thread *)
Definition on_worker (t : Task) : nat :=
  match t_stage t with RateChecked | Rejected => 1 | _ => 0 end.
Definition is_arrived (t : Task) : bool := match t_stage t with Arrived => true | _ => false end.

Inductive pool_step (state : SigningState) (workers : nat) : Pool → Pool → Prop :=
| PoolStep p i t h' st :
    pl_tasks p !! i = Some t →
    (is_arrived t = true → sum_list_with on_worker (pl_tasks p) < workers)%nat →
    advance state t (pl_cells p) = Some (h', st) →
    pool_step state workers p {| pl_cells := h'; pl_tasks := <[i := at_stage t st]> (pl_tasks p) |}.

(** a request that has just come in *)
Definition arrive (r : RequestEnv * Jwt * IpAddr * SignerRequest) : Task :=
  let '(env, jwt, ip, req) := r in
  {| t_env := env; t_jwt := jwt; t_ip := ip; t_req := req; t_stage := Arrived |}.

(** a request run to its answer with nothing in between *)
Fixpoint run_alone (fuel : nat) (state : SigningState) (t : Task) (h : Cells) : Cells * Stage :=
  match fuel with
  | O => (h, t_stage t)
  | S fuel =>
      match advance state t h with
      | Some (h, st) => run_alone fuel state (at_stage t st) h
      | None => (h, t_stage t)
      end
  end.
End Concurrency.

(** the cases of a section, with the value of every call it makes *)
Ltac advance_cases H :=
  unfold advance, advance_check, advance_auth, advance_admin_auth, read_signing_id, reload_secrets in H;
  repeat match type of H with
  | context [match ?x with _ => _ end] => destruct x eqn:?; try discriminate H
  end; simplify_eq/=.

(** ** Every run ends with every request answered *)

Section Progress.
Context {TH : TreeHashLib} {BL : BlsLib} {EC : EcdsaLib} {PS : ProxyStoreOps} {JL : JwtLib}.
Context {HO : HashOrder bytes} {HOs : HashOrder string} {DO : DirkOps} {KL : KeyLoader}.
Implicit Types (t : Task) (p : Pool) (h : Cells).

(** the sections a request has left at most *)
Definition rank (t : Task) : nat :=
  match t_stage t with
  | Arrived => 5 | AdminAuthenticated => 4 | RateChecked | ConfigRead _ => 3
  | Authenticated _ | SecretsReplaced _ => 2
  | Rejected | SigningIdRead _ _ | AdminReplaced _ => 1
  | _ => 0
  end.
(** the stage belongs to the route *)
Definition stage_fits (t : Task) : Prop :=
  match t_stage t, t_req t with
  | Authenticated _, (ReqGetPubkeys | ReqSign _ | ReqGenerateProxy _) => True
  | SigningIdRead _ _, ReqSign _ => True
  | AdminAuthenticated, (ReqReload _ | ReqRevoke _) => True
  | (ConfigRead _ | SecretsReplaced _ | AdminReplaced _), ReqReload _ => True
  | (RateChecked | Rejected), (ReqGetPubkeys | ReqSign _ | ReqGenerateProxy _) => True
  | (Authenticated _ | SigningIdRead _ _ | AdminAuthenticated), _ => False
  | (ConfigRead _ | SecretsReplaced _ | AdminReplaced _ | RateChecked | Rejected), _ => False
  | _, _ => True
  end.

Lemma advance_ranks state t h h' st :
  stage_fits t → advance state t h = Some (h', st) →
  (rank (at_stage t st) < rank t)%nat ∧ stage_fits (at_stage t st).
Proof.
  intros Hf H. unfold rank, stage_fits in *. destruct t as [env jwt ip req st0]. simpl in *.
  advance_cases H; (split; [lia|done]).
Qed.
Lemma advance_total state t h :
  stage_fits t → answer (t_stage t) = None → is_Some (advance state t h).
Proof.
  unfold stage_fits, advance. intros Hf Ha. destruct (t_stage t), (t_req t); try done;
    try by eexists.
  - by destruct (handle_get_pubkeys _ _ _); eexists.
  - by destruct (handle_generate_proxy _ _ _ _ _); eexists.
  - by destruct (handle_revoke_module _ _); eexists.
  - by destruct (reload_manager _ _ _); eexists.
Qed.

Definition pool_fits (p : Pool) : Prop := Forall stage_fits (pl_tasks p).

Lemma pool_step_ranks state workers p p' :
  pool_fits p → pool_step state workers p p' →
  (sum_list_with rank (pl_tasks p') < sum_list_with rank (pl_tasks p))%nat ∧ pool_fits p' ∧
  length (pl_tasks p') = length (pl_tasks p).
Proof.
  intros Hf Hs. destruct Hs as [p i t h' st Hi Hw Ha]. simpl.
  destruct (advance_ranks _ _ _ _ _ (Forall_lookup_1 _ _ _ _ Hf Hi) Ha) as [Hr Hfit].
  pose proof (sum_list_with_insert rank _ _ _ (at_stage t st) Hi). split_and!; [lia| |apply length_insert].
  by apply Forall_insert.
Qed.
Lemma pool_runs_shrink state workers n p p' :
  pool_fits p → nsteps (pool_step state workers) n p p' →
  (n + sum_list_with rank (pl_tasks p') ≤ sum_list_with rank (pl_tasks p))%nat ∧ pool_fits p'.
Proof.
  intros Hf Hs. induction Hs as [p|n p1 p2 p3 H1 _ IH]; [done|].
  destruct (pool_step_ranks _ _ _ _ Hf H1) as (? & Hf2 & _). destruct (IH Hf2). split; [lia|done].
Qed.
Lemma arrived_fits rs h : pool_fits {| pl_cells := h; pl_tasks := arrive <$> rs |}.
Proof. apply Forall_fmap, Forall_true. by intros [[[env jwt] ip] []]. Qed.
Lemma arrived_rank rs : (sum_list_with rank (arrive <$> rs) = 5 * length rs)%nat.
Proof.
  induction rs as [|[[[env jwt] ip] req] rs IH]; [done|].
  rewrite fmap_cons. cbn [sum_list_with length]. rewrite IH. unfold rank. simpl. lia.
Qed.

(** A pool with an open request can move: one on a worker can go on, and when there is none
    a worker is free *)
Lemma pool_moves state workers p i t :
  (0 < workers)%nat → pool_fits p → pl_tasks p !! i = Some t → answer (t_stage t) = None →
  ∃ p', pool_step state workers p p'.
Proof.
  intros Hw Hf Hi Ha.
  assert (∀ j u, pl_tasks p !! j = Some u → answer (t_stage u) = None →
    (is_arrived u = true → sum_list_with on_worker (pl_tasks p) < workers)%nat →
    ∃ p', pool_step state workers p p') as Hgo.
  { intros j u Hj Hu Hfree. destruct (advance_total state u (pl_cells p)) as [[h' st] Hadv]; [|done|].
    - by eapply Forall_lookup_1.
    - eexists. by eapply PoolStep. }
  destruct (decide (sum_list_with on_worker (pl_tasks p) < workers)%nat) as [?|Hbusy]; [eauto|].
  destruct (sum_list_with_pos on_worker (pl_tasks p)) as (j & u & Hj & Hu); [lia|].
  apply (Hgo j u Hj); unfold on_worker, is_arrived in *; destruct (t_stage u); simpl in *; done || lia.
Qed.

End Progress.

(** ** One request after the other is one of the runs *)

Section Sequential.
Context {TH : TreeHashLib} {BL : BlsLib} {EC : EcdsaLib} {PS : ProxyStoreOps} {JL : JwtLib}.
Context {HO : HashOrder bytes} {HOs : HashOrder string} {DO : DirkOps} {KL : KeyLoader}.
Implicit Types (t : Task) (p : Pool) (h : Cells).

(** the requests served one after the other *)
Fixpoint serve_all (state : SigningState) (rs : list (RequestEnv * Jwt * IpAddr * SignerRequest))
    (h : Cells) : Cells * list Answer :=
  match rs with
  | [] => (h, [])
  | (env, jwt, ip, req) :: rs =>
      let '(h, r) := serve state env jwt ip req h in
      let '(h, l) := serve_all state rs h in (h, r :: l)
  end.

Lemma run_alone_advance n state t h h1 st :
  advance state t h = Some (h1, st) → run_alone (S n) state t h = run_alone n state (at_stage t st) h1.
Proof. simpl. by intros ->. Qed.
Lemma run_alone_answered n state t h r : answer (t_stage t) = Some r → run_alone n state t h = (h, t_stage t).
Proof.
  destruct n as [|n]; [done|]. simpl. unfold advance. destruct (t_stage t); try done; by destruct (t_req t).
Qed.

(** the task of a request at a stage *)
Definition task_at (env : RequestEnv) (jwt : Jwt) (ip : IpAddr) (req : SignerRequest) (st : Stage) : Task :=
  {| t_env := env; t_jwt := jwt; t_ip := ip; t_req := req; t_stage := st |}.
(** run to the end, a request leaves the cells and gets the answer *)
Definition alone (n : nat) state t h (res : Cells * Answer) : Prop :=
  ∃ st, run_alone n state t h = (res.1, st) ∧ answer st = Some res.2.
Lemma alone_answered n state t h r : answer (t_stage t) = Some r → alone n state t h (h, r).
Proof. intros Ha. exists (t_stage t). by rewrite (run_alone_answered _ _ _ _ r). Qed.
Lemma alone_advance n state env jwt ip req st h h1 st1 res :
  advance state (task_at env jwt ip req st) h = Some (h1, st1) →
  alone n state (task_at env jwt ip req st1) h1 res → alone (S n) state (task_at env jwt ip req st) h res.
Proof. unfold alone. intros Ha (st' & Hr & ?). exists st'. by rewrite (run_alone_advance _ _ _ _ _ _ Ha). Qed.

(** goes through one section whose call is known *)
Ltac advance_by tac :=
  eapply alone_advance;
  [unfold advance, advance_auth, advance_admin_auth, read_signing_id, task_at;
   cbn [t_stage t_req t_env t_jwt t_ip]; tac; reflexivity|].

Lemma reload_alone state env jwt ip req h :
  let '(_, h', r) := handle_reload state env req h in
  alone 4 state (task_at env jwt ip (ReqReload req) AdminAuthenticated) h (h', r).
Proof.
  unfold handle_reload. destruct (rq_config env) as [config|e] eqn:Hc.
  2: { advance_by ltac:(rewrite Hc). by apply alone_answered. }
  set (h1r := match rr_jwt_secrets req with Some _ => _ | None => Ok h end).
  assert (reload_secrets req config h =
    match h1r with Ok h1 => (h1, SecretsReplaced config) | Err e => (h, Answered (Returns (Err e))) end) as Hs.
  { unfold h1r, reload_secrets. destruct (rr_jwt_secrets req) as [l|]; [|done]. by destruct (reload_jwts (jwts h) l). }
  destruct h1r as [h1|e].
  2: { do 2 advance_by ltac:(rewrite ?Hc, ?Hs). by apply alone_answered. }
  fold (reload_admin req h1). destruct (reload_manager env config (reload_admin req h1)) as [h2 r] eqn:Hm.
  assert (alone 4 state (task_at env jwt ip (ReqReload req) AdminAuthenticated) h (h2, r)) as Hrun.
  { do 4 advance_by ltac:(rewrite ?Hc, ?Hs, ?Hm). by apply alone_answered. }
  unfold reload_manager in Hm.
  by destruct (start_manager env config _) as [[m|e]|]; injection Hm as <- <-.
Qed.

(** A request with nothing in between is [serve] *)
Lemma run_alone_serve state env jwt ip req h :
  alone 5 state (task_at env jwt ip req Arrived) h (serve state env jwt ip req h).
Proof.
  unfold serve. destruct (module_handler state env req) as [handler|] eqn:Hh.
  - assert (advance state (task_at env jwt ip req Arrived) h
      = Some (advance_check state (task_at env jwt ip req Arrived) h)) as Hadv by (by destruct req).
    unfold advance_check, jwt_auth in *. cbn [t_env t_ip task_at] in Hadv.
    destruct (check_jwt_rate_limit state (rq_check_ns env) ip h) as [h1 [[]|e]];
      (eapply alone_advance; [done|]); [|by apply alone_answered].
    destruct (check_jwt_auth (rq_wall_sec env) jwt h1) as [id|e] eqn:Ha.
    + advance_by ltac:(rewrite Ha).
      destruct req as [|r|r|r|r|]; [..|done|done|done]; injection Hh as <-.
      * destruct (handle_get_pubkeys state id h1) as [h2 r2] eqn:E.
        advance_by ltac:(rewrite E). by apply alone_answered.
      * unfold handle_request_signature. destruct (signing_id <$> jwts h1 !! id) as [sid|] eqn:Es;
          advance_by ltac:(rewrite Es); [|by apply alone_answered].
        advance_by idtac. by apply alone_answered.
      * destruct (handle_generate_proxy state env id r h1) as [h2 r2] eqn:E.
        advance_by ltac:(rewrite E). by apply alone_answered.
    + apply check_jwt_auth_error in Ha as He. subst e.
      advance_by ltac:(rewrite Ha).
      advance_by idtac. by apply alone_answered.
  - destruct req as [| | |r|r|]; try done;
      [| |by advance_by idtac; apply alone_answered]; unfold admin_auth;
      destruct (validate_admin_jwt (rq_wall_sec env) jwt (admin_secret h)) as [[]|e] eqn:Ha;
      advance_by ltac:(rewrite Ha);
      try by apply alone_answered.
    + pose proof (reload_alone state env jwt ip r h) as Hr.
      by destruct (handle_reload state env r h) as [[? ?] ?].
    + destruct (handle_revoke_module r h) as [h2 r2] eqn:E.
      advance_by ltac:(rewrite E). by apply alone_answered.
Qed.

(** The sections of one request, in a pool where no other one is on a worker *)
Lemma alone_in_pool state workers n p i t h' st :
  (0 < workers)%nat → pl_tasks p !! i = Some t →
  sum_list_with on_worker (pl_tasks p) = on_worker t →
  run_alone n state t (pl_cells p) = (h', st) →
  rtc (pool_step state workers) p {| pl_cells := h'; pl_tasks := <[i := at_stage t st]> (pl_tasks p) |}.
Proof.
  intros Hw. revert p t. induction n as [|n IH]; intros p t Hi Hsum Hrun; simpl in Hrun.
  - injection Hrun as <- <-. destruct t, p. unfold at_stage. simpl in *.
    rewrite list_insert_id by done. apply rtc_refl.
  - destruct (advance state t (pl_cells p)) as [[h1 st1]|] eqn:Ha.
    2: { injection Hrun as <- <-. destruct t, p. unfold at_stage. simpl in *.
         rewrite list_insert_id by done. apply rtc_refl. }
    pose proof (sum_list_with_insert on_worker _ _ _ (at_stage t st1) Hi) as Hs.
    eapply rtc_l.
    + eapply (PoolStep _ _ p i t h1 st1); [done| |done]. intros Harr. rewrite Hsum.
      unfold is_arrived, on_worker in *. by destruct (t_stage t).
    + apply lookup_lt_Some in Hi as Hlt.
      specialize (IH {| pl_cells := h1; pl_tasks := <[i := at_stage t st1]> (pl_tasks p) |} (at_stage t st1)).
      simpl in IH. rewrite list_insert_insert_eq in IH. apply IH; [by apply list_lookup_insert_eq|lia|done].
Qed.

End Sequential.

(** ** The rate limit under concurrency *)

Section Guesses.
Context {TH : TreeHashLib} {BL : BlsLib} {EC : EcdsaLib} {PS : ProxyStoreOps} {JL : JwtLib}.
Context {HO : HashOrder bytes} {HOs : HashOrder string} {DO : DirkOps} {KL : KeyLoader}.
Implicit Types (t : Task) (p : Pool) (h : Cells).
Context (state : SigningState) (workers : nat) (ip : IpAddr) (t0 : Z).

(** the client's tokens that were let through and not found valid: still on a worker, or
    refused and on record *)
Definition examined (t : Task) : nat :=
  if String.eqb (t_ip t) ip
  then match t_stage t with RateChecked | Rejected | Refused => 1 | _ => 0 end else 0.
Definition recorded (t : Task) : nat :=
  if String.eqb (t_ip t) ip then match t_stage t with Refused => 1 | _ => 0 end else 0.
(** the client's requests come within the timeout of [t0] *)
Definition in_window (t : Task) : Prop :=
  t_ip t = ip →
  t0 ≤ rq_check_ns (t_env t) ≤ t0 + jwt_auth_fail_timeout state ∧ t0 ≤ rq_failure_ns (t_env t).

Lemma examined_split l :
  (sum_list_with examined l ≤ sum_list_with recorded l + sum_list_with on_worker l)%nat.
Proof.
  induction l as [|t l IH]; simpl; [lia|]. unfold examined at 1, recorded at 1, on_worker at 1.
  destruct (String.eqb _ _), (t_stage t); lia.
Qed.

(** The handlers and the parts of a reload leave the failures alone *)
Lemma generate_proxy_failures env id req h h' r :
  handle_generate_proxy state env id req h = (h', r) → jwt_auth_failures h' = jwt_auth_failures h.
Proof. by intros (_ & ? & _)%generate_proxy_frame. Qed.
Lemma revoke_failures req h h' r :
  handle_revoke_module req h = (h', r) → jwt_auth_failures h' = jwt_auth_failures h.
Proof. unfold handle_revoke_module. by destruct (jwts h !! _); intros [= <- _]. Qed.
Lemma reload_manager_failures env config h h' r :
  reload_manager env config h = (h', r) → jwt_auth_failures h' = jwt_auth_failures h.
Proof. unfold reload_manager. by destruct (start_manager _ _ _) as [[?|?]|]; intros [= <- _]. Qed.
Lemma reload_admin_failures req h : jwt_auth_failures (reload_admin req h) = jwt_auth_failures h.
Proof. unfold reload_admin. by destruct (rr_admin_secret req). Qed.
#[local] Hint Resolve generate_proxy_failures revoke_failures reload_manager_failures
  reload_admin_failures : failures.

(** Only the rate check and the record of a failure touch the failures *)
Lemma advance_failures t h h' st :
  advance state t h = Some (h', st) →
  (t_stage t = Arrived ∧
   ∃ r, check_jwt_rate_limit state (rq_check_ns (t_env t)) (t_ip t) h = (h', r) ∧
     match r with Ok _ => st = RateChecked | Err e => st = Answered (Returns (Err e)) end) ∨
  (t_stage t = Rejected ∧ st = Refused ∧ h' = record_failure h (t_ip t) (rq_failure_ns (t_env t))) ∨
  (jwt_auth_failures h' = jwt_auth_failures h ∧
   (on_worker (at_stage t st) ≤ on_worker t)%nat ∧ (examined (at_stage t st) ≤ examined t)%nat ∧
   recorded (at_stage t st) = recorded t).
Proof.
  intros H. unfold examined, recorded, on_worker. destruct t as [env jwt ip' req st0]. simpl.
  advance_cases H;
    try (match goal with E : handle_get_pubkeys _ _ _ = _ |- _ => apply get_pubkeys_cells in E as -> end);
    first
    [ by left; split; [|eexists; split; [eassumption|]]
    | by right; left
    | right; right; split; [by eauto with failures|];
      destruct (String.eqb ip' ip); split_and!; lia ].
Qed.

Lemma rate_limit_other now ip' h h' r :
  check_jwt_rate_limit state now ip' h = (h', r) → ip' ≠ ip →
  jwt_auth_failures h' !! ip = jwt_auth_failures h !! ip.
Proof.
  unfold check_jwt_rate_limit. intros H Hne. destruct (jwt_auth_failures h !! ip') as [i|]; [|by simplify_eq].
  destruct (_ >? _); [|by destruct (_ <? _); simplify_eq]. injection H as <- _. by apply lookup_delete_ne.
Qed.
(** Within the window the check keeps the record, and lets through below the limit only *)
Lemma rate_limit_failed now h h' r k :
  check_jwt_rate_limit state now ip h = (h', r) → t0 ≤ now ≤ t0 + jwt_auth_fail_timeout state →
  failed h ip t0 k → h' = h ∧ (r = Ok () → k = 0 ∨ k < jwt_auth_fail_limit state).
Proof.
  unfold check_jwt_rate_limit, failed. intros H Hnow Hf.
  destruct (jwt_auth_failures h !! ip) as [info|]; [|by simplify_eq; auto].
  destruct Hf as (<- & Hpos & Hlast). unfold saturating_sub in H.
  destruct (_ >? _) eqn:E in H; [apply Z.gtb_lt in E; lia|].
  destruct (Z.ltb_spec (failure_count info) (jwt_auth_fail_limit state)); simplify_eq;
    by split; [|intros [=]; auto].
Qed.

Definition limit1 : nat := Z.to_nat (Z.max 1 (jwt_auth_fail_limit state)).

Definition guess_inv p : Prop :=
  Forall in_window (pl_tasks p) ∧
  failed (pl_cells p) ip t0 (Z.of_nat (sum_list_with recorded (pl_tasks p))) ∧
  (sum_list_with on_worker (pl_tasks p) ≤ workers)%nat ∧
  (sum_list_with examined (pl_tasks p) ≤ limit1 - 1 + workers)%nat.

Lemma recorded_examined l : (sum_list_with recorded l ≤ sum_list_with examined l)%nat.
Proof.
  induction l as [|t l IH]; simpl; [lia|]. unfold examined at 1, recorded at 1.
  destruct (String.eqb _ _), (t_stage t); lia.
Qed.

(** what a change of stage does to the three sums *)
Ltac counts Hi t st :=
  pose proof (sum_list_with_insert on_worker _ _ _ (at_stage t st) Hi);
  pose proof (sum_list_with_insert examined _ _ _ (at_stage t st) Hi);
  pose proof (sum_list_with_insert recorded _ _ _ (at_stage t st) Hi).

Lemma check_guess_inv p i t h' st r :
  guess_inv p → pl_tasks p !! i = Some t → t_stage t = Arrived →
  (sum_list_with on_worker (pl_tasks p) < workers)%nat →
  check_jwt_rate_limit state (rq_check_ns (t_env t)) (t_ip t) (pl_cells p) = (h', r) →
  match r with Ok _ => st = RateChecked | Err e => st = Answered (Returns (Err e)) end →
  guess_inv {| pl_cells := h'; pl_tasks := <[i := at_stage t st]> (pl_tasks p) |}.
Proof.
  intros (Hwin & Hf & Hon & Hex) Hi Hst Hfree Hr Hres.
  pose proof (Forall_lookup_1 _ _ _ _ Hwin Hi) as Ht. unfold in_window in Ht.
  split; [by apply Forall_insert|]. simpl. counts Hi t st.
  pose proof (examined_split (<[i:=at_stage t st]> (pl_tasks p))) as Hsplit.
  assert (on_worker t = 0 ∧ examined t = 0 ∧ recorded t = 0 ∧ on_worker (at_stage t st) ≤ 1 ∧
    recorded (at_stage t st) = 0 ∧ (t_ip t ≠ ip ∨ r ≠ Ok () → examined (at_stage t st) = 0))%nat
    as (Ho & He & Hc & Ho' & Hc' & He').
  { unfold on_worker, examined, recorded. cbn [at_stage t_ip t_stage]. rewrite Hst.
    destruct (String.eqb_spec (t_ip t) ip), r as [[]|]; subst st; split_and!; naive_solver lia. }
  replace (sum_list_with recorded (<[i:=_]> _)) with (sum_list_with recorded (pl_tasks p)) by lia.
  destruct (decide (t_ip t = ip)) as [Heq|Hne].
  - destruct (rate_limit_failed (rq_check_ns (t_env t)) (pl_cells p) h' r _ ltac:(congruence)
      (proj1 (Ht Heq)) Hf) as [-> Hok]. unfold limit1 in *.
    destruct r as [[]|e]; [specialize (Hok eq_refl)|specialize (He' ltac:(by right))]; split_and!; done || lia.
  - specialize (He' ltac:(by left)). unfold failed. rewrite (rate_limit_other _ _ _ _ _ Hr Hne).
    split_and!; done || lia.
Qed.
Lemma record_guess_inv p i t :
  0 ≤ jwt_auth_fail_limit state < 2 ^ 32 - Z.of_nat workers →
  guess_inv p → pl_tasks p !! i = Some t → t_stage t = Rejected →
  guess_inv {| pl_cells := record_failure (pl_cells p) (t_ip t) (rq_failure_ns (t_env t));
               pl_tasks := <[i := at_stage t Refused]> (pl_tasks p) |}.
Proof.
  intros Hu32 (Hwin & Hf & Hon & Hex) Hi Hst.
  pose proof (Forall_lookup_1 _ _ _ _ Hwin Hi) as Ht. unfold in_window in Ht.
  split; [by apply Forall_insert|]. simpl. counts Hi t (Refused).
  pose proof (recorded_examined (<[i:=at_stage t Refused]> (pl_tasks p))) as Hre.
  assert (on_worker t = 1 ∧ on_worker (at_stage t Refused) = 0 ∧
    examined (at_stage t Refused) = examined t ∧ recorded t = 0 ∧
    recorded (at_stage t Refused) = if String.eqb (t_ip t) ip then 1 else 0)%nat as (Ho & Ho' & He & Hc & Hc').
  { unfold on_worker, examined, recorded. cbn [at_stage t_ip t_stage]. rewrite Hst.
    by destruct (String.eqb _ _). }
  split; [|lia]. destruct (String.eqb_spec (t_ip t) ip) as [Heq|Hne].
  - rewrite Heq. replace (Z.of_nat _) with (Z.of_nat (sum_list_with recorded (pl_tasks p)) + 1) by lia.
    apply record_failed; [done|by apply Ht|]. unfold limit1 in *. lia.
  - replace (sum_list_with recorded (<[i:=_]> _)) with (sum_list_with recorded (pl_tasks p)) by lia.
    unfold failed, record_failure in *. simpl. by rewrite lookup_insert_ne.
Qed.

Lemma pool_step_guess_inv p p' :
  0 ≤ jwt_auth_fail_limit state < 2 ^ 32 - Z.of_nat workers →
  guess_inv p → pool_step state workers p p' → guess_inv p'.
Proof.
  intros Hu32 Hinv Hs. destruct Hs as [p i t h' st Hi Hfree Hadv].
  apply advance_failures in Hadv as [(Hst & r & Hr & Hres)|[(Hst & -> & ->)|(Hsame & H1 & H2 & H3)]].
  - eapply check_guess_inv; [done..| |done|done]. apply Hfree. unfold is_arrived. by rewrite Hst.
  - by apply record_guess_inv.
  - destruct Hinv as (Hwin & Hf & Hon & Hex). pose proof (Forall_lookup_1 _ _ _ _ Hwin Hi) as Ht.
    split; [by apply Forall_insert|]. simpl. counts Hi t st.
    replace (sum_list_with recorded (<[i:=_]> _)) with (sum_list_with recorded (pl_tasks p)) by lia.
    unfold failed in *. rewrite Hsame. split_and!; [done|lia..].
Qed.
Lemma arrived_sum (f : Task → nat) rs :
  (∀ r, f (arrive r) = 0%nat) → sum_list_with f (arrive <$> rs) = 0%nat.
Proof. intros Hf. induction rs as [|r rs IH]; [done|]. csimpl. by rewrite Hf, IH. Qed.

(** C18: Guessing is limited under concurrency too.  Of all tokens a client without failures on
    record sends within the timeout, however its requests and those of others interleave, at
    most [max 1 limit - 1] plus the number of worker threads are let through to the token
    check and refused, or are still on a worker.  The check of the limit and the record of the
    failure are two sections, so the threads can add to the limit; with a single worker the
    bound is that of one request after the other. *)
Theorem concurrent_guesses_bounded rs h p :
  0 ≤ jwt_auth_fail_limit state < 2 ^ 32 - Z.of_nat workers →
  jwt_auth_failures h !! ip = None →
  Forall in_window (arrive <$> rs) →
  rtc (pool_step state workers) {| pl_cells := h; pl_tasks := arrive <$> rs |} p →
  (sum_list_with examined (pl_tasks p) ≤ limit1 - 1 + workers)%nat.
Proof.
  intros Hu32 Hnone Hwin Hrun. cut (guess_inv p); [by intros (_ & _ & _ & ?)|].
  revert p Hrun. apply (rtc_ind_r guess_inv).
  - unfold guess_inv, failed. cbn [pl_cells pl_tasks]. rewrite Hnone.
    rewrite (arrived_sum on_worker), (arrived_sum examined), (arrived_sum recorded);
      [split_and!; done || lia|..]; intros [[[env jwt] ip'] req]; [..|done];
      unfold recorded, examined; simpl; by destruct (String.eqb _ _).
  - intros p1 p2 _ Hs Hinv. by eapply pool_step_guess_inv.
Qed.
End Guesses.

(** ** Revocation and the signatures under concurrency *)

Section Lives.
Context {TH : TreeHashLib} {BL : BlsLib} {BC : BlsCorrect} {EC : EcdsaLib} {ECC : EcdsaCorrect}.
Context {PS : ProxyStoreOps} {JL : JwtLib} {JC : JwtCorrect}.
Context {HO : HashOrder bytes} {HOs : HashOrder string} {DO : DirkOps} {KL : KeyLoader}.
Implicit Types (t : Task) (p : Pool) (h : Cells) (id : ModuleId).
Context (state : SigningState) (workers : nat).

(** the module a request was authenticated as *)
Definition acts_for (st : Stage) : option ModuleId :=
  match st with
  | Authenticated id | SigningIdRead id _ | Signed id _ _ | Handled id _ => Some id
  | _ => None
  end.
(** the signing id a request has read, with its module *)
Definition signs_with (st : Stage) : option (ModuleId * B256) :=
  match st with SigningIdRead id sid | Signed id sid _ => Some (id, sid) | _ => None end.

Lemma check_jwt_auth_registered now jwt h id :
  check_jwt_auth now jwt h = Ok id → is_Some (jwts h !! id).
Proof. intros (cfg & ? & ? & _)%check_jwt_auth_ok. by exists cfg. Qed.

(** Who a request acts for is settled by its token, and its signing id by the module table *)
Lemma advance_module t h h' st :
  advance state t h = Some (h', st) →
  (acts_for st = acts_for (t_stage t) ∨ acts_for st = None ∨
   ∃ id, acts_for st = Some id ∧ acts_for (t_stage t) = None ∧ token_of_module (rq_wall_sec (t_env t)) (t_jwt t) h id) ∧
  (signs_with st = signs_with (t_stage t) ∨ signs_with st = None ∨
   ∃ id cfg, signs_with st = Some (id, signing_id cfg) ∧ jwts h !! id = Some cfg).
Proof.
  intros H. destruct t as [env jwt ip req st0].
  advance_cases H;
    try (match goal with E : _ <$> _ = Some _ |- _ => apply fmap_Some in E as (? & ? & ->) end);
    (split; [|by eauto 8]); auto;
    right; right; eexists; split_and!; [done..|]; by apply check_jwt_auth_ok.
Qed.

(** modules are never added, and keep their signing id *)
Definition shrinks (j j' : gmap string ModuleSigningConfig) : Prop :=
  ∀ id cfg, j' !! id = Some cfg → ∃ cfg0, j !! id = Some cfg0 ∧ signing_id cfg = signing_id cfg0.
#[local] Instance shrinks_preorder : PreOrder shrinks.
Proof.
  split; [by intros j id cfg; eauto|]. intros j1 j2 j3 H12 H23 id cfg (c2 & Hc2 & ->)%H23.
  by apply H12 in Hc2.
Qed.

Lemma reload_shrinks old secrets new : reload_jwts old secrets = Ok new → shrinks old new.
Proof.
  intros Hr id cfg Hid. rewrite (reload_jwts_spec _ _ _ Hr) in Hid.
  destruct (secrets !! id), (old !! id) as [cfg0|]; simplify_eq/=. eauto.
Qed.
Lemma revoke_shrinks req h h' r : handle_revoke_module req h = (h', r) → shrinks (jwts h) (jwts h').
Proof.
  unfold handle_revoke_module. destruct (jwts h !! rv_module_id req); intros [= <- _]; [|done].
  intros id cfg Hid. simpl in Hid. apply lookup_delete_Some in Hid as [_ Hid]. eauto.
Qed.
Lemma advance_shrinks t h h' st : advance state t h = Some (h', st) → shrinks (jwts h) (jwts h').
Proof.
  intros H. destruct t as [env jwt ip req st0]. advance_cases H; try done.
  all: repeat match goal with
    | E : check_jwt_rate_limit _ _ _ _ = _ |- _ => apply rate_limit_frame in E as (_ & -> & _)
    | E : handle_get_pubkeys _ _ _ = _ |- _ => apply get_pubkeys_cells in E as ->
    | E : handle_generate_proxy _ _ _ _ _ = _ |- _ => apply generate_proxy_frame in E as (-> & _)
    end; try done.
  - by eapply revoke_shrinks.
  - by eapply reload_shrinks.
  - unfold reload_admin. by destruct (rr_admin_secret _).
  - unfold reload_manager in *. by destruct (start_manager _ _ _) as [[?|?]|]; simplify_eq.
Qed.

Lemma pool_step_task p p' i t' :
  pool_step state workers p p' → pl_tasks p' !! i = Some t' →
  ∃ t, pl_tasks p !! i = Some t ∧
    (t' = t ∨ ∃ st, t' = at_stage t st ∧ advance state t (pl_cells p) = Some (pl_cells p', st)).
Proof.
  intros Hs Hi. destruct Hs as [p j t h' st Hj _ Hadv]. simpl in Hi.
  destruct (decide (i = j)) as [->|Hne].
  - rewrite list_lookup_insert_eq in Hi by (by eapply lookup_lt_Some). injection Hi as <-. eauto 6.
  - rewrite list_lookup_insert_ne in Hi by done. eauto.
Qed.
Lemma pool_step_shrinks p p' :
  pool_step state workers p p' → shrinks (jwts (pl_cells p)) (jwts (pl_cells p')).
Proof. intros [? ? ? ? ? _ _ Hadv]. by eapply advance_shrinks. Qed.

(** a revocation of the module has been answered with success *)
Definition revoked p id : Prop :=
  ∃ i t r, pl_tasks p !! i = Some t ∧ t_req t = ReqRevoke {| rv_module_id := id |} ∧
    t_stage t = Answered (Returns (Ok r)).

Lemma revoke_step t h h' id r :
  t_req t = ReqRevoke {| rv_module_id := id |} → stage_fits t →
  advance state t h = Some (h', Answered (Returns (Ok r))) → jwts h' !! id = None.
Proof.
  destruct t as [env jwt ip req st0]. intros Hreq Hf H. simpl in Hreq. subst req.
  unfold advance, advance_admin_auth, handle_revoke_module in H. simpl in Hf, H.
  destruct st0; try done; simpl in H.
  - by destruct (validate_admin_jwt _ _ _).
  - destruct (jwts h !! id); simplify_eq/=. apply lookup_delete_eq.
Qed.
Lemma shrinks_none j j' id : shrinks j j' → j !! id = None → j' !! id = None.
Proof. intros Hs Hn. destruct (j' !! id) as [cfg|] eqn:E; [|done]. apply Hs in E as (? & ? & _). congruence. Qed.

Lemma revoked_gone rs h p id :
  rtc (pool_step state workers) {| pl_cells := h; pl_tasks := arrive <$> rs |} p →
  revoked p id → jwts (pl_cells p) !! id = None.
Proof.
  intros Hrun. enough (pool_fits p ∧ (revoked p id → jwts (pl_cells p) !! id = None)) by tauto.
  revert p Hrun. apply (rtc_ind_r (λ p, pool_fits p ∧ (revoked p id → jwts (pl_cells p) !! id = None))).
  - split; [apply arrived_fits|]. intros (i & t & r & Hi & _ & Hst). simpl in Hi.
    rewrite list_lookup_fmap in Hi. destruct (rs !! i) as [[[[? ?] ?] ?]|]; by simplify_eq/=.
  - intros p1 p2 _ Hs [Hf IH]. split; [by eapply pool_step_ranks|].
    intros (i & t & r & Hi & Hreq & Hst).
    destruct (pool_step_task _ _ _ _ Hs Hi) as (t1 & Ht1 & [->|(st & -> & Hadv)]).
    + eapply shrinks_none; [by eapply pool_step_shrinks|]. apply IH. by exists i, t1, r.
    + simpl in Hst, Hreq. subst st. eapply revoke_step; [done| |done]. by eapply Forall_lookup_1.
Qed.

(** C17: A revocation is final.  Once the revocation of a module has been answered with success,
    the module is never registered again and no request that was not yet authenticated as the
    module ever acts for it; a request that was can still list or create proxies, but it gets a
    signature only if it had read the signing id before. *)
Theorem revocation_final rs h p p' id :
  rtc (pool_step state workers) {| pl_cells := h; pl_tasks := arrive <$> rs |} p →
  revoked p id → rtc (pool_step state workers) p p' →
  jwts (pl_cells p') !! id = None ∧
  ∀ i t', pl_tasks p' !! i = Some t' →
    ∃ t, pl_tasks p !! i = Some t ∧
      (acts_for (t_stage t') = Some id → acts_for (t_stage t) = Some id) ∧
      (∀ sid, signs_with (t_stage t') = Some (id, sid) → signs_with (t_stage t) = Some (id, sid)).
Proof.
  intros Hrun Hrev Hrun'. pose proof (revoked_gone _ _ _ _ Hrun Hrev) as Hgone. clear rs h Hrun Hrev.
  revert p' Hrun'. apply (rtc_ind_r (λ p', jwts (pl_cells p') !! id = None ∧ ∀ i t',
    pl_tasks p' !! i = Some t' → ∃ t, pl_tasks p !! i = Some t ∧ _ ∧ _)); [by eauto|].
  intros p1 p2 _ Hs [Hno IH]. split; [by eapply shrinks_none; [eapply pool_step_shrinks|]|].
  intros i t2 Hi. destruct (pool_step_task _ _ _ _ Hs Hi) as (t1 & Ht1 & Hcase).
  destruct (IH i t1 Ht1) as (t & Ht & Hacts & Hsigns). exists t. split; [done|].
  destruct Hcase as [->|(st & -> & Hadv)]; [done|]. simpl.
  destruct (advance_module _ _ _ _ Hadv) as [Ha Hb]. split.
  - intros Hst. destruct Ha as [Ha|[Ha|(id' & Ha & _ & (cfg & ? & Hc & _))]]; rewrite Ha in Hst; [auto|done|].
    simplify_eq.
  - intros sid Hst. destruct Hb as [Hb|[Hb|(id' & cfg & Hb & Hc)]]; rewrite Hb in Hst; [auto|done|].
    simplify_eq.
Qed.

(** *** Signatures *)

Lemma service_inv_extend h0 m0 h h' :
  managers h `prefix_of` managers h' → shrinks (jwts h) (jwts h') →
  service_inv state h0 m0 h → service_inv state h0 m0 h'.
Proof.
  intros Hpre Hsh [(m & Hm & Hrest) Hj]. split.
  - exists m. split; [|done]. by eapply prefix_lookup_Some.
  - intros id cfg (cfg1 & Hc1 & ->)%Hsh. by apply Hj.
Qed.
Lemma advance_service_inv h0 m0 t h h' st :
  advance state t h = Some (h', st) → service_inv state h0 m0 h → service_inv state h0 m0 h'.
Proof.
  intros H Hinv. pose proof (advance_shrinks _ _ _ _ H) as Hsh.
  destruct t as [env jwt ip req st0]. advance_cases H; try done.
  all: try match goal with E : handle_generate_proxy _ _ _ _ _ = _ |- _ =>
    exact (module_handler_inv state _ (ReqGenerateProxy _) _ _ _ _ _ _ _ eq_refl E Hinv) end.
  all: eapply service_inv_extend; [|done|done].
  all: repeat match goal with
    | E : check_jwt_rate_limit _ _ _ _ = _ |- _ => apply rate_limit_frame in E as (-> & _)
    | E : handle_get_pubkeys _ _ _ = _ |- _ => apply get_pubkeys_cells in E as ->
    end; try done.
  - unfold handle_revoke_module in *. destruct (jwts h !! _); by simplify_eq.
  - unfold reload_admin. by destruct (rr_admin_secret _).
  - unfold reload_manager in *. destruct (start_manager _ _ _) as [[?|?]|]; simplify_eq; try done.
    by apply prefix_app_r.
Qed.

(** what holds of a request in a run from [p0] to [p] *)
Definition request_sound h0 (m0 : LocalSigningManager) p0 p t : Prop :=
  (∀ id, acts_for (t_stage t) = Some id →
     ∃ p1, rtc (pool_step state workers) p0 p1 ∧ rtc (pool_step state workers) p1 p ∧
       token_of_module (rq_wall_sec (t_env t)) (t_jwt t) (pl_cells p1) id) ∧
  (∀ id sid, signs_with (t_stage t) = Some (id, sid) →
     ∃ cfg0, jwts h0 !! id = Some cfg0 ∧ sid = signing_id cfg0) ∧
  (∀ id sid resp, t_stage t = Signed id sid (Ok resp) →
     ∃ req, t_req t = ReqSign req ∧ signature_for (lm_chain m0) sid req resp).

Lemma request_sound_later h0 m0 p0 p p' t :
  pool_step state workers p p' → request_sound h0 m0 p0 p t → request_sound h0 m0 p0 p' t.
Proof.
  intros Hs (Ha & Hrest). split; [|done]. intros id (p1 & H01 & H1 & Htok)%Ha.
  exists p1. split_and!; [done| |done]. by eapply rtc_r.
Qed.
Lemma advance_signed t h h' id sid resp :
  advance state t h = Some (h', Signed id sid (Ok resp)) →
  ∃ req, t_req t = ReqSign req ∧ sign_with_manager state (t_env t) sid req h = Ok resp.
Proof. intros H. destruct t as [env jwt ip req st0]. advance_cases H; eauto. Qed.

Lemma request_sound_step h0 m0 p0 p p' t st :
  rtc (pool_step state workers) p0 p → pool_step state workers p p' →
  service_inv state h0 m0 (pl_cells p) → request_sound h0 m0 p0 p t →
  advance state t (pl_cells p) = Some (pl_cells p', st) →
  request_sound h0 m0 p0 p' (at_stage t st).
Proof.
  intros Hrun Hs [(m & Hm & Hwf & Hc & _) Hj] Hsound Hadv.
  destruct (request_sound_later _ _ _ _ _ _ Hs Hsound) as (Ha & Hb & _).
  destruct (advance_module _ _ _ _ Hadv) as [Hacts Hsigns]. split_and!; simpl.
  - intros id Hid. destruct Hacts as [E|[E|(id' & E & _ & Htok)]]; rewrite E in Hid; [auto|done|].
    injection Hid as ->. exists p. split_and!; [done|by apply rtc_once|done].
  - intros id sid Hid. destruct Hsigns as [E|[E|(id' & cfg & E & Hcfg)]]; rewrite E in Hid; [auto|done|].
    injection Hid as -> <-. by apply Hj.
  - intros id sid resp ->. apply advance_signed in Hadv as (req & Hreq & Hsig). exists req. split; [done|].
    rewrite <- Hc. by eapply sign_with_manager_ok.
Qed.

(** C5: The service is safe under concurrency.  However requests of modules, strangers and the
    administrator interleave, the manager stays consistent for the same chain and validator
    keys, no module is added and none changes its signing id; and every signature given to a
    request verifies under the requested key with the signing id its module had at the start,
    the request having shown a token of that module that was valid when it was checked. *)
Theorem concurrent_service_safe rs h0 m0 p :
  let p0 := {| pl_cells := h0; pl_tasks := arrive <$> rs |} in
  read_manager state h0 = Some (LocalManager m0) → manager_wf m0 →
  rtc (pool_step state workers) p0 p →
  service_inv state h0 m0 (pl_cells p) ∧
  ∀ i t id sid resp, pl_tasks p !! i = Some t → t_stage t = Signed id sid (Ok resp) →
    ∃ cfg0 req p1, jwts h0 !! id = Some cfg0 ∧ sid = signing_id cfg0 ∧
      t_req t = ReqSign req ∧ signature_for (lm_chain m0) (signing_id cfg0) req resp ∧
      rtc (pool_step state workers) p0 p1 ∧ rtc (pool_step state workers) p1 p ∧
      token_of_module (rq_wall_sec (t_env t)) (t_jwt t) (pl_cells p1) id.
Proof.
  intros p0 Hm0 Hwf0 Hrun.
  assert (service_inv state h0 m0 (pl_cells p) ∧
    ∀ i t, pl_tasks p !! i = Some t → request_sound h0 m0 p0 p t) as [Hinv Htasks].
  { revert p Hrun. apply rtc_ind_r.
    - split; [split; [by exists m0|by eauto]|]. intros i t Hi. simpl in Hi.
      rewrite list_lookup_fmap in Hi. destruct (rs !! i) as [[[[? ?] ?] ?]|]; by simplify_eq/=.
    - intros p1 p2 Hrun Hs [Hinv IH]. split.
      + destruct Hs as [? ? ? ? ? _ _ Hadv]. by eapply advance_service_inv.
      + intros i t Hi. destruct (pool_step_task _ _ _ _ Hs Hi) as (t1 & Ht1 & [->|(st & -> & Hadv)]).
        * by eapply request_sound_later; [|eapply IH].
        * by eapply request_sound_step; [..|eapply IH|]. }
  split; [done|]. intros i t id sid resp Hi Hst. destruct (Htasks i t Hi) as (Ha & Hb & Hc).
  destruct (Ha id) as (p1 & H01 & H1 & Htok); [by rewrite Hst|].
  destruct (Hb id sid) as (cfg0 & Hcfg & ->); [by rewrite Hst|].
  destruct (Hc id (signing_id cfg0) resp Hst) as (req & Hreq & Hsig). by exists cfg0, req, p1.
Qed.
End Lives.

(** ** A concrete pool *)
Module ConcurrencySample.
Import ManagerSample ServiceSample.
#[local] Existing Instances sha256_tree_hash toy_bls toy_ecdsa toy_bls_correct toy_ecdsa_correct
  no_store toy_jwt toy_jwt_correct no_dirk two_keys.

(** the pool after advancing the requests of a schedule, in order *)
Fixpoint run_schedule (schedule : list nat) (p : Pool) : Pool :=
  match schedule with
  | [] => p
  | i :: schedule =>
      match pl_tasks p !! i with
      | Some t =>
          match advance state t (pl_cells p) with
          | Some (h', st) =>
              run_schedule schedule {| pl_cells := h'; pl_tasks := <[i := at_stage t st]> (pl_tasks p) |}
          | None => p
          end
      | None => p
      end
  end.
(** every start of a check has a free worker *)
Fixpoint schedule_fits (workers : nat) (schedule : list nat) (p : Pool) : bool :=
  match schedule with
  | [] => true
  | i :: schedule =>
      match pl_tasks p !! i with
      | Some t =>
          (negb (is_arrived t) || (sum_list_with on_worker (pl_tasks p) <? workers)%nat) &&
          match advance state t (pl_cells p) with
          | Some (h', st) =>
              schedule_fits workers schedule
                {| pl_cells := h'; pl_tasks := <[i := at_stage t st]> (pl_tasks p) |}
          | None => true
          end
      | None => true
      end
  end.
Lemma schedule_runs workers schedule p :
  schedule_fits workers schedule p = true → rtc (pool_step state workers) p (run_schedule schedule p).
Proof.
  revert p. induction schedule as [|i l IH]; intros p Hf; [apply rtc_refl|]. simpl in *.
  destruct (pl_tasks p !! i) as [t|] eqn:Hi; [|apply rtc_refl].
  apply andb_prop in Hf as [Hw Hf].
  destruct (advance state t (pl_cells p)) as [[h' st]|] eqn:Ha; [|apply rtc_refl].
  eapply rtc_l; [|by apply IH]. eapply PoolStep; [done| |done].
  intros E. rewrite E in Hw. by apply Nat.ltb_lt.
Qed.

(** six wrong tokens: two refused one after the other, four let through together, and a
    seventh that comes too late *)
Definition guess : RequestEnv * Jwt * string * SignerRequest :=
  (env, token "A" "wrong", "ip"%string, ReqGetPubkeys).
Definition guesses : Pool := {| pl_cells := cells; pl_tasks := arrive <$> replicate 7 guess |}.
Definition burst : list nat := [0; 0; 0; 1; 1; 1; 2; 3; 4; 5; 2; 3; 4; 5; 2; 3; 4; 5; 6]%nat.

(** With a limit of three and four workers six tokens are examined: the bound is reached, and
    it is above the limit *)
Example guesses_above_limit :
  schedule_fits 4 burst guesses = true ∧
  sum_list_with (examined "ip") (pl_tasks (run_schedule burst guesses)) = 6%nat ∧
  (limit1 state - 1 + 4 = 6)%nat ∧ jwt_auth_fail_limit state = 3.
Proof. vm_compute. repeat split. Qed.

Lemma concurrent_guesses_bounded_witness :
  (sum_list_with (examined "ip") (pl_tasks (run_schedule burst guesses)) ≤ 6)%nat.
Proof.
  apply (concurrent_guesses_bounded state 4 "ip" 0 (replicate 7 guess) cells
           (run_schedule burst guesses)).
  - split; [discriminate|reflexivity].
  - reflexivity.
  - repeat constructor; try discriminate; vm_compute; reflexivity.
  - apply schedule_runs. vm_compute. reflexivity.
Defined.

(** module A asks for two signatures while the administrator revokes it: the first request has
    read its signing id before the revocation, the second has not *)
Definition race : list (RequestEnv * Jwt * string * SignerRequest) :=
  [(env, token "A" "secret-a", "ip"%string, ReqSign sign_request);
   (env, token "A" "secret-a", "ip"%string, ReqSign sign_request);
   (env, admin_token, "ip"%string, ReqRevoke {| rv_module_id := "A" |})].
Definition racing : Pool := {| pl_cells := cells; pl_tasks := arrive <$> race |}.
Definition at_revocation : Pool := run_schedule [0; 0; 0; 1; 1; 2; 2]%nat racing.
Definition after_race : Pool := run_schedule [0; 1]%nat at_revocation.
Definition task_status (p : Pool) (i : nat) : Z :=
  match answer ∘ t_stage <$> pl_tasks p !! i with
  | Some (Some (Returns r)) => response_status r
  | _ => 0
  end.
Example race_answers :
  schedule_fits 1 [0; 0; 0; 1; 1; 2; 2]%nat racing = true ∧ schedule_fits 1 [0; 1]%nat at_revocation = true ∧
  task_status after_race 0 = 200 ∧ task_status after_race 1 = 400 ∧ task_status after_race 2 = 200.
Proof. vm_compute. repeat split. Qed.

Lemma before_race : rtc (pool_step state 1) racing at_revocation.
Proof. apply schedule_runs, race_answers. Qed.
Lemma during_race : rtc (pool_step state 1) at_revocation after_race.
Proof. apply schedule_runs, race_answers. Qed.

Definition stage_at (p : Pool) (i : nat) : option Stage := t_stage <$> pl_tasks p !! i.
(** the stages of the race, without their values *)
Definition shape (st : option Stage) : nat :=
  match st with
  | Some (Signed _ _ (Ok _)) => 1 | Some (Answered (Returns (Ok _))) => 2 | Some (SigningIdRead _ _) => 3
  | Some (Authenticated _) => 4 | Some (Handled _ (Err _)) => 5 | _ => 0
  end.
Example race_stages :
  shape <$> [stage_at at_revocation 0; stage_at at_revocation 1; stage_at at_revocation 2]
    = [3; 4; 2]%nat ∧
  shape <$> [stage_at after_race 0; stage_at after_race 1] = [1; 5]%nat.
Proof. vm_compute. repeat split. Qed.

(** The task at a place whose stage is known *)
Lemma shape_task p i n : shape (stage_at p i) = S n →
  ∃ t, pl_tasks p !! i = Some t ∧ shape (Some (t_stage t)) = S n.
Proof. unfold stage_at. destruct (pl_tasks p !! i) as [t|]; [|done]. by exists t. Qed.
Lemma shape_answered st : shape (Some st) = 2%nat → ∃ r, st = Answered (Returns (Ok r)).
Proof. destruct st as [| | | | | |? ? []|? []| | | | |[[]|]]; try done. eauto. Qed.
Lemma shape_signed st : shape (Some st) = 1%nat → ∃ id sid r, st = Signed id sid (Ok r).
Proof. destruct st as [| | | | | |? ? []|? []| | | | |[[]|]]; try done. eauto. Qed.
Lemma shape_handled st : shape (Some st) = 5%nat → signs_with st = None.
Proof. by destruct st as [| | | | | |? ? []|? []| | | | |[[]|]]. Qed.
Definition request_at (p : Pool) (i : nat) : option SignerRequest := t_req <$> pl_tasks p !! i.

Lemma race_revoked : revoked at_revocation "A".
Proof.
  destruct (shape_task at_revocation 2 1) as (t & Ht & (r & Hr)%shape_answered); [by vm_compute|].
  exists 2%nat, t, r. split_and!; [done| |done].
  assert (request_at at_revocation 2 = Some (ReqRevoke {| rv_module_id := "A" |})) as Hreq by by vm_compute.
  unfold request_at in Hreq. rewrite Ht in Hreq. by injection Hreq.
Qed.

Lemma revocation_final_witness :
  jwts (pl_cells after_race) !! "A"%string = None ∧
  ∃ t t', pl_tasks at_revocation !! 1%nat = Some t ∧ pl_tasks after_race !! 1%nat = Some t' ∧
    signs_with (t_stage t') = None.
Proof.
  destruct (revocation_final state 1 race cells at_revocation after_race "A" before_race race_revoked during_race)
    as [Hno Hold].
  split; [exact Hno|].
  destruct (shape_task after_race 1 4) as (t' & Ht' & H5); [vm_compute; reflexivity|].
  destruct (Hold 1%nat t' Ht') as (t & Ht & _).
  exists t, t'. split; [exact Ht|]. split; [exact Ht'|]. exact (shape_handled _ H5).
Defined.

Lemma race_run : rtc (pool_step state 1) {| pl_cells := cells; pl_tasks := arrive <$> race |} after_race.
Proof. etrans; [exact before_race|exact during_race]. Qed.



Lemma concurrent_service_safe_witness :
  ∃ t id resp, pl_tasks after_race !! 0%nat = Some t ∧
    signature_for Hoodi (byte_array 32 x01) sign_request resp ∧
    acts_for (t_stage t) = Some id ∧ id = "A"%string.
Proof.
  destruct (concurrent_service_safe state 1 race cells m1 after_race eq_refl m1_wf race_run) as [_ Hsig].
  destruct (shape_task after_race 0 0) as (t & Ht & Hshape); [vm_compute; reflexivity|].
  destruct (shape_signed _ Hshape) as (id & sid & resp & Es).
  destruct (Hsig 0%nat t id sid resp Ht Es) as (cfg0 & req & p1 & Hc & Hs & Hr & Hfor & _).
  assert (acts_for <$> stage_at after_race 0 = Some (Some "A"%string)) as HA by (vm_compute; reflexivity).
  assert (request_at after_race 0 = Some (ReqSign sign_request)) as Hreq by (vm_compute; reflexivity).
  unfold stage_at, request_at in HA, Hreq. rewrite Ht in HA, Hreq. cbn in HA, Hreq. rewrite Es in HA.
  injection HA as ->. rewrite Hr in Hreq. injection Hreq as ->.
  exists t, "A"%string, resp. split; [exact Ht|]. split; [|rewrite Es; split; reflexivity].
  assert (signing_id <$> jwts cells !! "A"%string = Some (byte_array 32 x01)) as Hid by (vm_compute; reflexivity).
  rewrite Hc in Hid. injection Hid as Hid. rewrite <- Hid. exact Hfor.
Defined.
End ConcurrencySample.
