(* ===== verification/SignerHttp.v ===== *)
(** * A module talks to the signing service

    Puts the client of [crates/common/src/commit/client.rs] (SignerClient.v) and the service of
    [crates/signer/src/service.rs] (SignerService.v) at the two ends of a connection:
    [signer_http] is the service as the client sees it, with the bearer token taken from the
    headers, the path looked up, the JSON of the body read by the extractor of the handler and
    the answer or error turned into a status and a body.  The messages are the JSON of
    CommitJson.v; the HTTP library between the two ends is the interface [SignerWire].  The
    lemmas show that a call with a token of a registered module reaches that module's handler
    and that the client gets back the value the handler returned. *)

From S2P Require Import Prelude Bytes Text Serde Jwt Chain Signature Http Relay Commit CommitJson SignerClient.
From S2P Require Import PbsConfig PbsState SignerConfig Config LocalManager SignerService.

(** the alphabet of a JSON web token: base64url and the dot *)
Definition token_byte (b : byte) : bool :=
  in_range b 48 57 || in_range b 65 90 || in_range b 97 122 || in_range b 45 46 || in_range b 95 95.

(** the error texts of libraries: [alloy]'s signer error and the debug form of an [f64] *)
Class SignerTexts {EC : EcdsaLib} := {
  ecdsa_error_text : EcdsaError → string;
  seconds_text : Z → string;
}.

(** the body of [impl IntoResponse for SignerModuleError] *)
Definition signer_error_body {EC : EcdsaLib} {ST : SignerTexts} (e : SignerModuleError) : string :=
  match e with
  | Unauthorized => "unauthorized"
  | UnknownConsensusSigner k => "unknown consensus signer: 0x" +:+ hex_encode k
  | UnknownProxySigner k => "unknown proxy signer: 0x" +:+ hex_encode k
  | DirkCommunicationError _ => "Dirk communication error"
  | DirkNotSupported => "Dirk signer does not support this operation"
  | SignerInternal _ => "internal error"
  | SignerError e => ecdsa_error_text e
  | ModuleIdNotFound => "module id not found"
  | RateLimited duration => "rate limited for " +:+ seconds_text duration
  | RequestError e => "bad request: " +:+ e
  end.

(** the HTTP libraries: the path of a URL, the bearer token of a header
    ([TypedHeader<Authorization<Bearer>>]), the answers to a call without a token, on no
    module route, or whose body [axum::Json] rejects, and how a body is cut into chunks *)
Class SignerWire := {
  url_path : Url → string;
  bearer_token : HeaderValue → option string;
  no_token : SendOutcome;
  unrouted : SignerCall → SendOutcome;
  json_rejection : string → Response;
  split_body : bytes → list bytes;
}.
Class SignerWireCorrect {HL : HeaderLib} {JL : JwtLib} {SW : SignerWire} := {
  (** a token is of the base64url alphabet, and is what a bearer header with it carries *)
  jwt_ascii : ∀ secret c t, jwt_encode secret c = Ok t → forallb token_byte (bytes_of_string t) = true;
  wire_bearer : ∀ t v, forallb token_byte (bytes_of_string t) = true →
    header_value_from_str ("Bearer " +:+ t) = Some v → bearer_token v = Some t;
  (** chunks are put together again *)
  wire_body : ∀ b, concat (split_body b) = b;
}.

(** the module routes of [SigningService::run] *)
Inductive ModuleRoute : Type := RouteSign | RouteGetPubkeys | RouteProxy.

Section SignerHttp.
Context {TH : TreeHashLib} {BL : BlsLib} {EC : EcdsaLib} {PS : ProxyStoreOps} {JL : JwtLib}.
Context {HO : HashOrder bytes} {HOs : HashOrder string} {DO : DirkOps} {KL : KeyLoader}.
Context {UL : UrlLib} {HL : HeaderLib} {ST : SignerTexts} {SW : SignerWire}.
Context {SL : SerdeLib} {JT : JsonText} {ET : EcdsaText}.

(** the bytes of [.json(&request)], and of a GET *)
Definition body_bytes (body : SignerBody) : bytes :=
  match body with
  | SbEmpty => []
  | SbSign r => to_vec sign_request_wire r
  | SbProxy r => to_vec generate_proxy_wire r
  end.
(** [get] or [post] *)
Definition is_get (body : SignerBody) : bool := match body with SbEmpty => true | _ => false end.

Definition module_route (path : string) (get : bool) : option ModuleRoute :=
  if get then if String.eqb path GET_PUBKEYS_PATH then Some RouteGetPubkeys else None
  else if String.eqb path REQUEST_SIGNATURE_PATH then Some RouteSign
  else if String.eqb path GENERATE_PROXY_KEY_PATH then Some RouteProxy
  else None.
(** the handler of a route with the body its extractor [Json] reads *)
Definition route_handler (state : SigningState) (env : RequestEnv) (route : ModuleRoute) (body : bytes)
    : Result string (ModuleId → Handler SignerResponse) :=
  match route with
  | RouteSign =>
      request ← from_slice sign_request_wire body;
      Ok (λ id, handle_request_signature state env id request)
  | RouteGetPubkeys => Ok (handle_get_pubkeys state)
  | RouteProxy =>
      request ← from_slice generate_proxy_wire body;
      Ok (λ id, handle_generate_proxy state env id request)
  end.

(** the body of an answer: the status alone, or [Json] of the value *)
Definition response_json (r : SignerResponse) : bytes :=
  match r with
  | RespOk => []
  | RespPubkeys keys => to_vec get_pubkeys_wire {| gp_keys := keys |}
  | RespBlsSignature s => to_vec (bytesN 96) s
  | RespEcdsaSignature s => to_vec ecdsa_signature_wire s
  | RespDelegation sch d => to_vec (signed_delegation_wire sch) d
  end.
(** what the client reads with [serde_json::from_slice] *)
Definition parse_pubkeys : bytes → Result string GetPubkeysResponse := from_slice get_pubkeys_wire.
Definition parse_bls_signature : bytes → Result string BlsSignature := from_slice (bytesN 96).
Definition parse_ecdsa_signature : bytes → Result string EcdsaSignature := from_slice ecdsa_signature_wire.
Definition parse_delegation (S : EncryptionScheme) : bytes → Result string (SignedProxyDelegation S) :=
  from_slice (signed_delegation_wire S).

Definition http_body (status : Z) (body : bytes) : Response :=
  {| res_status := status; res_content_length := Some (Z.of_nat (length body));
     res_chunks := Ok <$> split_body body |}.
(** [into_response] of a handler's result *)
Definition http_response (r : Result SignerModuleError SignerResponse) : Response :=
  match r with
  | Ok resp => http_body 200 (response_json resp)
  | Err e => http_body (signer_error_status e) (bytes_of_string (signer_error_body e))
  end.

(** a module route behind [jwt_auth]: the body is read once the caller is known *)
Definition extract_and_handle (state : SigningState) (env : RequestEnv) (route : ModuleRoute) (body : bytes)
    (id : ModuleId) : Handler Response := λ h,
  match route_handler state env route body with
  | Err e => (h, Ok (json_rejection e))
  | Ok handler => let '(h, r) := handler id h in (h, Ok (http_response r))
  end.
(** the service at the other end of the connection *)
Definition signer_http (state : SigningState) (env : RequestEnv) (client_ip : IpAddr)
    (call : SignerCall) (h : Cells) : Cells * SendOutcome :=
  match module_route (url_path (sq_url call)) (is_get (sq_body call)) with
  | None => (h, unrouted call)
  | Some route =>
      match sq_headers call !! AUTHORIZATION ≫= bearer_token with
      | None => (h, no_token)
      | Some jwt =>
          let '(h, r) := jwt_auth state env jwt client_ip
                           (extract_and_handle state env route (body_bytes (sq_body call))) h in
          (h, Ok (match r with Ok res => res | Err e => http_response (Err e) end))
      end
  end.

(** ** A call of a registered module *)

(** the path of a body's route *)
Definition body_path (body : SignerBody) : string :=
  match body with
  | SbEmpty => GET_PUBKEYS_PATH
  | SbSign _ => REQUEST_SIGNATURE_PATH
  | SbProxy _ => GENERATE_PROXY_KEY_PATH
  end.
Definition body_handler (state : SigningState) (env : RequestEnv) (body : SignerBody) (id : ModuleId)
    : Handler SignerResponse :=
  match body with
  | SbEmpty => handle_get_pubkeys state id
  | SbSign r => handle_request_signature state env id r
  | SbProxy r => handle_generate_proxy state env id r
  end.
(** the URL of the signer is one whose joined paths are the paths of the routes *)
Definition base_url (url : Url) : Prop :=
  ∀ body, ∃ u, url_join url (body_path body) = Ok u ∧ url_path u = body_path body.

(** a body that is read back as it was: keys, addresses and roots have their sizes *)
Definition body_wf (body : SignerBody) : Prop :=
  match body with
  | SbEmpty => True
  | SbSign r => wf sign_request_wire r
  | SbProxy r => wf generate_proxy_wire r
  end.

Context {JC : JwtCorrect} {SC : SignerWireCorrect} {SLC : SerdeCorrect} {JTC : JsonTextCorrect}.

Lemma body_routed state env body :
  body_wf body →
  ∃ route, module_route (body_path body) (is_get body) = Some route ∧ ∀ id h,
    extract_and_handle state env route (body_bytes body) id h
    = let '(h', r) := body_handler state env body id h in (h', Ok (http_response r)).
Proof.
  intros Hb. unfold module_route, extract_and_handle.
  destruct body as [|r|r]; cbn [body_path is_get body_bytes body_handler];
    [exists RouteGetPubkeys|exists RouteSign|exists RouteProxy]; (split; [done|]); intros id h; cbn [route_handler];
    [done|by rewrite (from_slice_to_vec sign_request_wire)|by rewrite (from_slice_to_vec generate_proxy_wire)].
Qed.

(** The service over HTTP is [serve], with its result turned into a response: whatever the
    token, a body that is read back as it was gives the answer of the typed request *)
Definition body_request (body : SignerBody) : SignerRequest :=
  match body with SbEmpty => ReqGetPubkeys | SbSign r => ReqSign r | SbProxy r => ReqGenerateProxy r end.
Lemma signer_http_serves state env ip call jwt h :
  url_path (sq_url call) = body_path (sq_body call) → body_wf (sq_body call) →
  sq_headers call !! AUTHORIZATION ≫= bearer_token = Some jwt →
  ∃ h' r, serve state env jwt ip (body_request (sq_body call)) h = (h', Returns r) ∧
    signer_http state env ip call h = (h', Ok (http_response r)).
Proof.
  intros Hu Hb Hjwt. unfold signer_http, serve. rewrite Hjwt, Hu.
  assert (module_handler state env (body_request (sq_body call)) = Some (body_handler state env (sq_body call)))
    as -> by (by destruct (sq_body call)).
  destruct (body_routed state env (sq_body call) Hb) as (route & -> & Hx).
  unfold jwt_auth. destruct (check_jwt_rate_limit _ _ _ h) as [h1 [[]|e]]; [|by eexists _, _].
  destruct (check_jwt_auth _ jwt h1) as [id|[]]; try by eexists _, _.
  rewrite Hx. destruct (body_handler state env (sq_body call) id h1) as [h2 r]. by eexists _, _.
Qed.

Lemma token_authenticates now at_sec id secret jwt h cfg :
  create_jwt at_sec id secret = Ok jwt → jwts h !! id = Some cfg → jwt_secret cfg = secret →
  now ≤ at_sec + SIGNER_JWT_EXPIRATION + VALIDATE_LEEWAY →
  check_jwt_auth now jwt h = Ok id.
Proof.
  intros Hjwt Hcfg Hs Hnow.
  destruct (jwt_create_validate at_sec now id secret Hnow) as (t & Ht & Hd & Hv & _).
  rewrite Hjwt in Ht. injection Ht as <-. unfold check_jwt_auth. rewrite Hd. cbn. rewrite Hcfg. cbn.
  by rewrite Hs, Hv.
Qed.

(** A call with a token of a registered module, by a client without failures on record,
    reaches the handler of its route *)
Lemma signer_http_handled state env ip c at_sec u body h cfg :
  carries_token c at_sec → url_path u = body_path body → body_wf body →
  jwts h !! sc_module_id c = Some cfg → jwt_secret cfg = sc_jwt_secret c →
  jwt_auth_failures h !! ip = None →
  rq_wall_sec env ≤ at_sec + SIGNER_JWT_EXPIRATION + VALIDATE_LEEWAY →
  signer_http state env ip (signer_call c u body) h =
    let '(h', r) := body_handler state env body (sc_module_id c) h in (h', Ok (http_response r)).
Proof.
  intros (jwt & Hjwt & Hc) Hu Hb Hcfg Hsec Hfail Hnow.
  assert (sq_headers (signer_call c u body) !! AUTHORIZATION ≫= bearer_token = Some jwt) as Htok.
  { simpl. unfold client_for in Hc. symmetry in Hc. apply result_bind_ok in Hc as (v & Hv%ok_or_ok & Hc).
    apply result_bind_ok in Hc as (_ & _ & Hc). injection Hc as <-. simpl. rewrite lookup_singleton_eq. simpl.
    eapply wire_bearer; [|done]. by eapply jwt_ascii. }
  assert (∀ next : ModuleId → Handler Response, jwt_auth state env jwt ip next h = next (sc_module_id c) h) as Hauth.
  { intros next. unfold jwt_auth, check_jwt_rate_limit. rewrite Hfail.
    by rewrite (token_authenticates _ _ _ _ _ _ _ Hjwt Hcfg Hsec Hnow). }
  destruct (body_routed state env body Hb) as (route & Hroute & Hhandle).
  unfold signer_http. rewrite Htok. cbn [signer_call sq_url sq_body]. rewrite Hu, Hroute, Hauth, Hhandle.
  by destruct (body_handler state env body (sc_module_id c) h).
Qed.

Lemma read_split status b : read_all (http_body status b) = Ok b.
Proof.
  unfold read_all, http_body. cbn [res_chunks].
  assert (∀ l, try_map id (Ok <$> l) = (Ok l : Result ReqwestError (list bytes))) as ->.
  { induction l as [|x l IH]; [done|]. csimpl. by rewrite IH. }
  simpl. by rewrite wire_body.
Qed.

(** what the client makes of a handler's answer *)
Definition client_result {A} (parse : bytes → Result string A) (r : Result SignerModuleError SignerResponse)
    : Result SignerClientError A :=
  match r with
  | Ok resp => map_err SerdeDecodeError (parse (response_json resp))
  | Err e => Err (FailedRequest (signer_error_status e)
               (from_utf8_lossy (bytes_of_string (signer_error_body e))))
  end.
Lemma error_not_success e : is_success (signer_error_status (EC := EC) e) = false.
Proof. by destruct e. Qed.

(** A module's call at a moment when the service has the cells [h]: once the token is fresh,
    the client ends with the answer of the handler *)
Lemma post_handled {A} state env ip t c c1 at_sec body h cfg (parse : bytes → Result string A) :
  answer t = (λ call, (signer_http state env ip call h).2) →
  refresh_jwt t c = Ok c1 → carries_token c1 at_sec → base_url (sc_url c1) → body ≠ SbEmpty → body_wf body →
  jwts h !! sc_module_id c1 = Some cfg → jwt_secret cfg = sc_jwt_secret c1 →
  jwt_auth_failures h !! ip = None →
  rq_wall_sec env ≤ at_sec + SIGNER_JWT_EXPIRATION + VALIDATE_LEEWAY →
  post_and_decode t c (body_path body) body parse
  = (c1, client_result parse (body_handler state env body (sc_module_id c1) h).2).
Proof.
  intros Hans Hr Htok Hurl Hbody Hwf Hcfg Hsec Hfail Hnow. unfold post_and_decode. rewrite Hr. f_equal.
  destruct (Hurl body) as (u & Hu & Hpath). rewrite Hu, Hans. cbn [result_bind mbind map_err].
  rewrite (signer_http_handled state env ip c1 at_sec u body h cfg) by done.
  destruct (body_handler state env body (sc_module_id c1) h) as [h' [resp|e]]; simpl;
    rewrite read_split; simpl; [done|]. by rewrite error_not_success.
Qed.
Lemma get_pubkeys_handled state env ip t c c1 at_sec h cfg parse :
  answer t = (λ call, (signer_http state env ip call h).2) →
  refresh_jwt t c = Ok c1 → carries_token c1 at_sec → base_url (sc_url c1) →
  jwts h !! sc_module_id c1 = Some cfg → jwt_secret cfg = sc_jwt_secret c1 →
  jwt_auth_failures h !! ip = None →
  rq_wall_sec env ≤ at_sec + SIGNER_JWT_EXPIRATION + VALIDATE_LEEWAY →
  get_pubkeys t parse c
  = (c1, client_result parse (handle_get_pubkeys state (sc_module_id c1) h).2).
Proof.
  intros Hans Hr Htok Hurl Hcfg Hsec Hfail Hnow. unfold get_pubkeys. rewrite Hr. f_equal.
  destruct (Hurl SbEmpty) as (u & Hu & Hpath). simpl in Hu. rewrite Hu, Hans. cbn [result_bind mbind map_err].
  rewrite (signer_http_handled state env ip c1 at_sec u SbEmpty h cfg) by done.
  cbn [body_handler]. destruct (handle_get_pubkeys state (sc_module_id c1) h) as [h' [resp|e]]; simpl;
    rewrite ?error_not_success, read_split; simpl; done.
Qed.

(** answers of the right sizes are read back *)
Context {ETC : EcdsaTextCorrect}.
Lemma read_bls s : length s = 96%nat → parse_bls_signature (response_json (RespBlsSignature s)) = Ok s.
Proof. intros Hs. by apply (from_slice_to_vec (bytesN 96)). Qed.
Lemma read_ecdsa s : parse_ecdsa_signature (response_json (RespEcdsaSignature s)) = Ok s.
Proof. by apply (from_slice_to_vec ecdsa_signature_wire). Qed.
Lemma read_delegation sch (d : SignedProxyDelegation sch) :
  length (delegator (spd_message d)) = 48%nat → length (proxy (spd_message d)) = proxy_size sch →
  length (spd_signature d) = 96%nat → parse_delegation sch (response_json (RespDelegation sch d)) = Ok d.
Proof. intros. by apply (from_slice_to_vec (signed_delegation_wire sch)). Qed.
Definition entry_wf (e : ConsensusProxyMap) : Prop :=
  length (cpm_consensus e) = 48%nat ∧ Forall (λ k, length k = 48%nat) (proxy_bls e) ∧
  Forall (λ a, length a = 20%nat) (proxy_ecdsa e).
Lemma read_pubkeys l : Forall entry_wf l → parse_pubkeys (response_json (RespPubkeys l)) = Ok {| gp_keys := l |}.
Proof.
  intros Hl. apply (from_slice_to_vec get_pubkeys_wire). split; [|done].
  eapply Forall_impl; [exact Hl|]. intros e (? & ? & ?). by split_and!.
Qed.
End SignerHttp.
Arguments response_json : simpl never.
Arguments parse_pubkeys : simpl never.
Arguments parse_bls_signature : simpl never.
Arguments parse_ecdsa_signature : simpl never.
Arguments parse_delegation : simpl never.
