(* ===== verification/DaCommit.v ===== *)
(** * A commit module and the signer, end to end

    Models [examples/da_commit/src/main.rs], the sample commit module: it lists the validator
    keys, has proxy keys created, and then asks in a loop for signatures of its datagrams by
    the validator key and the proxies, and verifies them.  The module runs against the service
    of SignerService.v through the connection of SignerHttp.v, while other clients use the
    service.  The theorem composes the client, the token, the service, its manager and the
    signature schemes: the module never fails and every signature it receives verifies. *)

From S2P Require Import Prelude Bytes Text Serde PlainSerde Jwt Chain Signature Http Relay Commit CommitJson SignerClient.
From S2P Require Import PbsConfig PbsState SignerConfig Config LocalManager SignerService SignerHttp.

Definition DA_COMMIT_SIGNING_ID : B256 := bytes_of_Zs
  [0x6a; 0x33; 0xa2; 0x3e; 0xf2; 0x6a; 0x48; 0x36; 0x97; 0x9e; 0xdf; 0xf8; 0x6c; 0x49; 0x3a; 0x69;
   0xb2; 0x6c; 0xcf; 0x0b; 0x4a; 0x16; 0x49; 0x1a; 0x81; 0x5a; 0x13; 0x78; 0x76; 0x57; 0x43; 0x1b].

(** one field of eight bytes: the root is the padded little-endian number *)
Record Datagram := { dg_data : Z }.
Definition u64_to_le_bytes (x : Z) : bytes :=
  (λ i, byte_of_Z (Z.shiftr x (8 * Z.of_nat i))) <$> seq 0 8.
#[export] Instance datagram_tree_hash : TreeHash Datagram := λ d, pad32 (u64_to_le_bytes (dg_data d)).

Record ExtraConfig := { sleep_secs : Z; use_ecdsa_keys : bool }.
Definition default_ecdsa : bool := true.

(** what makes the service stop: a failed call, or no validator key *)
Inductive DaError : Type := DaClient (e : SignerClientError) | DaNoKey.
(** the key a commitment was asked from *)
Inductive CommitKey : Type := ConsensusKey | ProxyBlsKey | ProxyEcdsaKey.

Section DaCommit.
Context {TH : TreeHashLib} {BL : BlsLib} {EC : EcdsaLib} {PS : ProxyStoreOps} {JL : JwtLib}.
Context {HO : HashOrder bytes} {HOs : HashOrder string} {DO : DirkOps} {KL : KeyLoader}.
Context {UL : UrlLib} {HL : HeaderLib} {ST : SignerTexts} {SW : SignerWire}.
Context {SL : SerdeLib} {JT : JsonText} {ET : EcdsaText}.

(** The world around the module: the state and the address the service sees, and for the
    [n]th call the client's clocks, the service's view of the request, and what other clients
    did to the service since the last call. *)
Record Surroundings := {
  su_state : SigningState;
  su_ip : IpAddr;
  su_instant : nat → Z;
  su_wall : nat → Z;
  su_env : nat → RequestEnv;
  su_others : nat → Cells → Cells;
}.
Context (su : Surroundings).

(** the running module: its client, the cells of the service, the number of the next call,
    its metric and what it logged of the signatures *)
Record Run := {
  rn_client : SignerClient;
  rn_cells : Cells;
  rn_calls : nat;
  sig_received : Z;
  rn_log : list (CommitKey * bool);
}.
Definition Session (A : Type) : Type := Run → Run * Result DaError A.
#[export] Instance session_ret : MRet Session := λ A a s, (s, Ok a).
#[export] Instance session_bind : MBind Session := λ A B k m s,
  match m s with
  | (s, Ok a) => k a s
  | (s, Err e) => (s, Err e)
  end.

Definition moment_at (n : nat) (h : Cells) : Moment :=
  {| instant_ns := su_instant su n; wall_sec := su_wall su n;
     answer call := (signer_http (su_state su) (su_env su n) (su_ip su) call h).2 |}.
(** the cells the service ends with when the client makes a call *)
Definition cells_after (n : nat) (c : SignerClient) (body : SignerBody) (h : Cells) : Cells :=
  match refresh_jwt (moment_at n h) c with
  | Ok c =>
      match url_join (sc_url c) (body_path body) with
      | Ok u => (signer_http (su_state su) (su_env su n) (su_ip su) (signer_call c u body) h).1
      | Err _ => h
      end
  | Err _ => h
  end.
(** a call of the signer client and its [?] *)
Definition call_signer {A} (body : SignerBody)
    (op : Moment → SignerClient → SignerClient * Result SignerClientError A) : Session A := λ s,
  let n := rn_calls s in
  let h := su_others su n (rn_cells s) in
  let '(c, r) := op (moment_at n h) (rn_client s) in
  ({| rn_client := c; rn_cells := cells_after n (rn_client s) body h; rn_calls := S n;
      sig_received := sig_received s; rn_log := rn_log s |},
   map_err DaClient r).

(** [info!] on success and [error!] on failure *)
Definition log_verified {E} (k : CommitKey) (r : Result E ()) : Session () := λ s,
  ({| rn_client := rn_client s; rn_cells := rn_cells s; rn_calls := rn_calls s;
      sig_received := sig_received s; rn_log := rn_log s ++ [(k, is_ok r)] |}, Ok ()).
(** [SIG_RECEIVED_COUNTER.inc()] *)
Definition count_signature : Session () := λ s,
  ({| rn_client := rn_client s; rn_cells := rn_cells s; rn_calls := rn_calls s;
      sig_received := sig_received s + 1; rn_log := rn_log s |}, Ok ()).
Definition fail {A} (e : DaError) : Session A := λ s, (s, Err e).

Definition sign_with (request : SignConsensusRequest) : Session BlsSignature :=
  call_signer (SbSign (Consensus request))
    (λ t c, SignerClient.request_consensus_signature t parse_bls_signature c request).
Definition sign_with_proxy_bls (request : SignProxyRequest Bls) : Session BlsSignature :=
  call_signer (SbSign (ProxyBls request)) (λ t c, request_proxy_signature_bls t parse_bls_signature c request).
Definition sign_with_proxy_ecdsa (request : SignProxyRequest Ecdsa) : Session EcdsaSignature :=
  call_signer (SbSign (ProxyEcdsa request)) (λ t c, request_proxy_signature_ecdsa t parse_ecdsa_signature c request).
Definition new_proxy (S : EncryptionScheme) (pubkey : BlsPublicKey) : Session (SignedProxyDelegation S) :=
  call_signer (SbProxy (generate_proxy_request_new pubkey S))
    (λ t c, generate_proxy_key t (parse_delegation S) c (generate_proxy_request_new pubkey S)).

(** [DaCommitService::send_request] *)
Definition send_request (c : Chain) (data : Z) (pubkey proxy_bls : BlsPublicKey)
    (proxy_ecdsa : option Address) : Session () :=
  let datagram := {| dg_data := data |} in
  signature ← sign_with (consensus_with_msg (sign_consensus_builder pubkey) datagram);
  _ ← log_verified ConsensusKey
        (verify_proposer_commitment_signature_bls c pubkey datagram signature DA_COMMIT_SIGNING_ID);
  proxy_signature_bls ←
    sign_with_proxy_bls (proxy_with_msg (sign_proxy_builder Bls proxy_bls) datagram);
  _ ← log_verified ProxyBlsKey
        (verify_proposer_commitment_signature_bls c proxy_bls datagram proxy_signature_bls DA_COMMIT_SIGNING_ID);
  _ ← match proxy_ecdsa with
      | Some proxy_ecdsa =>
          proxy_signature_ecdsa ←
            sign_with_proxy_ecdsa (proxy_with_msg (sign_proxy_builder Ecdsa proxy_ecdsa) datagram);
          log_verified ProxyEcdsaKey
            (verify_proposer_commitment_signature_ecdsa c proxy_ecdsa datagram proxy_signature_ecdsa
               DA_COMMIT_SIGNING_ID)
      | None => mret ()
      end;
  count_signature.

(** [DaCommitService::run] up to its loop: the keys it works with *)
Definition da_setup (extra : ExtraConfig) : Session (BlsPublicKey * BlsPublicKey * option Address) :=
  pubkeys ← call_signer SbEmpty (λ t c, get_pubkeys t parse_pubkeys c);
  pubkey ← match gp_keys pubkeys with
           | e :: _ => mret (cpm_consensus e)
           | [] => fail DaNoKey
           end;
  proxy_delegation_bls ← new_proxy Bls pubkey;
  proxy_ecdsa ← (if use_ecdsa_keys extra then
                   proxy_delegation_ecdsa ← new_proxy Ecdsa pubkey;
                   mret (Some (proxy (spd_message proxy_delegation_ecdsa)))
                 else mret None);
  mret (pubkey, proxy (spd_message proxy_delegation_bls), proxy_ecdsa).

(** the loop, for a number of rounds *)
Fixpoint da_rounds (n : nat) (c : Chain) (data : Z) (pubkey proxy_bls : BlsPublicKey)
    (proxy_ecdsa : option Address) : Session () :=
  match n with
  | O => mret ()
  | S n =>
      _ ← send_request c data pubkey proxy_bls proxy_ecdsa;
      da_rounds n c (wrap64 (data + 1)) pubkey proxy_bls proxy_ecdsa
  end.
Definition da_run (n : nat) (c : Chain) (extra : ExtraConfig) : Session () :=
  '(pubkey, proxy_bls, proxy_ecdsa) ← da_setup extra;
  da_rounds n c 0 pubkey proxy_bls proxy_ecdsa.
End DaCommit.

(** ** What requests leave of a manager *)

Section Evolves.
Context {TH : TreeHashLib} {BL : BlsLib} {BC : BlsCorrect} {EC : EcdsaLib}.
Context {PS : ProxyStoreOps} {JL : JwtLib} {JC : JwtCorrect}.
Context {HO : HashOrder bytes} {HOs : HashOrder string} {DO : DirkOps} {KL : KeyLoader}.
Implicit Types (m : LocalSigningManager) (h : Cells).

(** proxies are added to it, and nothing else *)
Definition evolves m m' : Prop :=
  lm_chain m' = lm_chain m ∧ consensus_signers m' = consensus_signers m ∧
  lm_proxy_store m' = lm_proxy_store m ∧
  (manager_wf m → manager_wf m') ∧ (delegators_known m → delegators_known m') ∧
  ∀ S key, is_Some (signers_of m S !! key) → is_Some (signers_of m' S !! key).
#[export] Instance evolves_preorder : PreOrder evolves.
Proof.
  split; [by intros m; split_and!; auto|]. intros m1 m2 m3 (? & ? & ? & ? & ? & ?) (? & ? & ? & ? & ? & ?).
  split_and!; auto; congruence.
Qed.

Lemma create_proxy_evolves {S} m disk (signer : scheme_signer S) id dl m' disk' r :
  create_proxy m disk signer id dl = (m', disk', r) → evolves m m'.
Proof.
  intros Hc. pose proof (StepCreateProxy _ _ _ _ _ _ _ _ _ Hc) as Hstep.
  pose proof (manager_step_wf _ _ Hstep) as Hwf. pose proof (manager_step_known _ _ Hstep) as Hk.
  apply create_proxy_cases in Hc as [(_ & -> & _)|[(-> & _)|(d & _ & _ & _ & _ & ->)]]; [done..|].
  destruct (insert_proxy_frame m {| px_signer := signer; px_delegation := d |} id) as (? & ? & ?).
  split_and!; try done. intros S' key. apply insert_proxy_signers_kept.
Qed.

Lemma generate_proxy_evolves state env id req h h' r m :
  handle_generate_proxy state env id req h = (h', r) → read_manager state h = Some (LocalManager m) →
  ∃ m', read_manager state h' = Some (LocalManager m') ∧ evolves m m'.
Proof.
  unfold handle_generate_proxy. intros H Hm. rewrite Hm in H. apply lookup_lt_Some in Hm as Hlt.
  destruct (scheme req); unfold create_proxy_bls, create_proxy_ecdsa in H;
    destruct (create_proxy m _ _ _ _) as [[m' d] r'] eqn:Hc; injection H as <- _; exists m';
    (split; [|by eapply create_proxy_evolves]); by apply list_lookup_insert_eq.
Qed.

Lemma service_step_evolves state h h' m :
  service_step state h h' → read_manager state h = Some (LocalManager m) →
  ∃ m', read_manager state h' = Some (LocalManager m') ∧ evolves m m'.
Proof.
  intros (env & jwt & ip & req & r & H) Hm. unfold serve in H.
  destruct (module_handler state env req) as [handler|] eqn:Hh.
  - destruct (jwt_auth state env jwt ip handler h) as [h1 r1] eqn:Ha. injection H as <- _.
    apply jwt_auth_cases in Ha as [(id & h2 & (Hman & _) & _ & Hn)|[(Hman & _) _]].
    + assert (read_manager state h2 = Some (LocalManager m)) as Hm2 by (unfold read_manager in *; by rewrite Hman).
      destruct req as [|rq|rq|rq|rq|]; [..|done|done|done]; injection Hh as <-.
      * apply get_pubkeys_cells in Hn as ->. by exists m.
      * unfold handle_request_signature in Hn. destruct (signing_id <$> _); injection Hn as <- _; by exists m.
      * by eapply generate_proxy_evolves.
    + exists m. split; [|done]. unfold read_manager in *. by rewrite Hman.
  - destruct req as [| | |rq|rq|]; try done; [..|injection H as <- _; by exists m].
    + destruct (validate_admin_jwt _ jwt _); [|injection H as <- _; by exists m].
      destruct (handle_reload state env rq h) as [[state' h1] r1] eqn:Hr. injection H as <- _.
      apply reload_cells in Hr as (Hpre & _). exists m. split; [by eapply prefix_lookup_Some|done].
    + unfold admin_auth in H. destruct (validate_admin_jwt _ jwt _); [|injection H as <- _; by exists m].
      unfold handle_revoke_module in H. destruct (jwts h !! _); injection H as <- _; by exists m.
Qed.
Lemma service_run_evolves state h h' m :
  rtc (service_step state) h h' → read_manager state h = Some (LocalManager m) →
  ∃ m', read_manager state h' = Some (LocalManager m') ∧ evolves m m'.
Proof.
  intros Hrun. revert m. induction Hrun as [h|h1 h2 h3 H12 _ IH]; intros m Hm; [by exists m|].
  destruct (service_step_evolves _ _ _ _ H12 Hm) as (m2 & Hm2 & He2).
  destruct (IH _ Hm2) as (m3 & Hm3 & He3). exists m3. split; [done|]. by etrans.
Qed.
End Evolves.

(** ** The module against the service *)

Section DaTheorems.
Context {TH : TreeHashLib} {BL : BlsLib} {BC : BlsCorrect} {EC : EcdsaLib} {ECC : EcdsaCorrect}.
Context {PS : ProxyStoreOps} {JL : JwtLib} {JC : JwtCorrect}.
Context {HO : HashOrder bytes} {HOs : HashOrder string} {DO : DirkOps} {KL : KeyLoader}.
Context {UL : UrlLib} {HL : HeaderLib} {HC : HeaderCorrect} {ST : SignerTexts} {SW : SignerWire}.
Context {SC : SignerWireCorrect} {SL : SerdeLib} {SLC : SerdeCorrect} {JT : JsonText} {JTC : JsonTextCorrect}.
Context {ET : EcdsaText} {ETC : EcdsaTextCorrect} {BZ : BlsSizes} {EZ : EcdsaSizes}.
Context (su : Surroundings).

(** A deployment: the service has a local manager with validator keys, whose store works, and
    has the module registered; the module's client was made at [t0] with that id and secret
    and reaches the service. *)
Context (h0 : Cells) (m0 : LocalSigningManager) (cfg : ModuleSigningConfig).
Context (t0 : Moment) (url : Url) (id : ModuleId) (c0 : SignerClient).

Record deployed : Prop := {
  dp_manager : read_manager (su_state su) h0 = Some (LocalManager m0);
  dp_wf : manager_wf m0;
  dp_known : delegators_known m0;
  dp_keys : consensus_signers m0 ≠ ∅;
  dp_store : ∀ S store module_id (p : ProxySigner S) disk, lm_proxy_store m0 = Some store →
    is_ok (store_proxy S store module_id p disk).2 = true;
  dp_module : jwts h0 !! id = Some cfg;
  dp_signing_id : signing_id cfg = DA_COMMIT_SIGNING_ID;
  dp_not_limited : jwt_auth_failures h0 !! su_ip su = None;
  dp_client : signer_client_new t0 url (jwt_secret cfg) id = Ok c0;
  dp_url : base_url url;
}.
(** the libraries always sign a hash and build a client *)
Record libraries_work : Prop := {
  lw_ecdsa : ∀ sk hash, is_ok (sign_hash_sync sk hash) = true;
  lw_client : ∀ headers timeout, is_ok (client_build headers timeout) = true;
}.
(** the client's clocks run on, together, and the service reads its own clock at most the
    leeway of a token later *)
Record clocks_agree : Prop := {
  ck_mono : ∀ k n, (k ≤ n)%nat → su_instant su k ≤ su_instant su n;
  ck_sync : ∀ n, su_instant su n - instant_ns t0 = (su_wall su n - wall_sec t0) * NANOS_PER_SEC;
  ck_signer : ∀ n, rq_wall_sec (su_env su n) ≤ su_wall su n + VALIDATE_LEEWAY;
}.
(** others make any requests, but nobody revokes the module or reloads its secret away, and
    nobody fails from its address *)
Definition others_fair : Prop := ∀ n h,
  rtc (service_step (su_state su)) h (su_others su n h) ∧
  jwts (su_others su n h) !! id = jwts h !! id ∧
  (jwt_auth_failures h !! su_ip su = None → jwt_auth_failures (su_others su n h) !! su_ip su = None).

Context (Hdep : deployed) (Hlib : libraries_work) (Hck : clocks_agree) (Hothers : others_fair).

(** *** The client *)

Definition client_ok (n : nat) (c : SignerClient) : Prop :=
  sc_module_id c = id ∧ sc_jwt_secret c = jwt_secret cfg ∧ sc_url c = url ∧
  last_jwt_refresh c = instant_ns t0 ∧
  (carries_token c (wall_sec t0) ∨
   ∃ k, (k < n)%nat ∧ SIGNER_JWT_EXPIRATION * NANOS_PER_SEC < su_instant su k - instant_ns t0).

Lemma token_visible t : forallb token_byte (bytes_of_string t) = true →
  forallb visible_ascii (bytes_of_string ("Bearer " +:+ t)) = true.
Proof.
  intros Ht. change (bytes_of_string ("Bearer " +:+ t)) with (bytes_of_string "Bearer " ++ bytes_of_string t).
  rewrite forallb_app. apply andb_true_intro. split; [done|].
  rewrite forallb_forall in *. intros b Hb%Ht. revert Hb. by destruct b.
Qed.
Lemma client_for_total at_sec module_id secret :
  ∃ jwt c, create_jwt at_sec module_id secret = Ok jwt ∧ client_for jwt = Ok c.
Proof.
  unfold create_jwt, client_for.
  set (claims := {| jc_module := module_id; jc_exp := at_sec + SIGNER_JWT_EXPIRATION |}).
  pose proof (jwt_encode_total secret claims) as Ht. destruct (jwt_encode secret claims) as [jwt|] eqn:E; [|done].
  exists jwt. rewrite (header_value_visible _ (token_visible _ (jwt_ascii _ _ _ E))). cbn.
  pose proof (lw_client Hlib {[ AUTHORIZATION := bytes_of_string ("Bearer " +:+ jwt) ]}
    DEFAULT_REQUEST_TIMEOUT_SECS) as Hb.
  destruct (client_build _ _) as [[]|]; [|done]. by eexists.
Qed.

Lemma refresh_fresh n c h :
  client_ok n c →
  ∃ c1 at_sec, refresh_jwt (moment_at su n h) c = Ok c1 ∧ client_ok (S n) c1 ∧ carries_token c1 at_sec ∧
    rq_wall_sec (su_env su n) ≤ at_sec + SIGNER_JWT_EXPIRATION + VALIDATE_LEEWAY.
Proof.
  intros (Hid & Hsec & Hurl & Hlast & Htok).
  pose proof (ck_sync Hck n) as Hsync. pose proof (ck_signer Hck n) as Hsig.
  destruct (refresh_jwt (moment_at su n h) c) as [c1|e] eqn:Hr.
  - apply refresh_jwt_ok in Hr as (Hl1 & Hid1 & Hsec1 & Hurl1 & Hcase). exists c1.
    rewrite Hlast in Hcase. cbn [moment_at instant_ns wall_sec] in Hcase.
    unfold SIGNER_JWT_EXPIRATION, NANOS_PER_SEC in *.
    destruct Hcase as [[-> Hle]|[Hc1 Hlt]].
    + destruct Htok as [Htok|(k & Hk & Hexp)].
      * exists (wall_sec t0). split_and!; [done| |done|lia]. split_and!; auto.
      * pose proof (ck_mono Hck k n ltac:(lia)). lia.
    + exists (su_wall su n). split_and!; [done| |done|lia].
      split_and!; [congruence..|]. right. exists n. unfold SIGNER_JWT_EXPIRATION, NANOS_PER_SEC. split; [lia|done].
  - exfalso. unfold refresh_jwt in Hr. destruct (_ >? _); [|done].
    destruct (client_for_total (su_wall su n) (sc_module_id c) (sc_jwt_secret c)) as (jwt & cl & Hj & Hcl).
    cbn [moment_at wall_sec] in Hr. rewrite Hj in Hr. cbn in Hr. by rewrite Hcl in Hr.
Qed.

(** *** Calls *)

(** the module is served: its manager is [m], it is registered and not limited *)
Definition good (m : LocalSigningManager) (s : Run) : Prop :=
  read_manager (su_state su) (rn_cells s) = Some (LocalManager m) ∧ evolves m0 m ∧
  jwts (rn_cells s) !! id = Some cfg ∧ jwt_auth_failures (rn_cells s) !! su_ip su = None ∧
  client_ok (rn_calls s) (rn_client s).
(** the run after a call that left the client and the cells *)
Definition called (s : Run) (c : SignerClient) (h : Cells) : Run :=
  {| rn_client := c; rn_cells := h; rn_calls := S (rn_calls s); sig_received := sig_received s;
     rn_log := rn_log s |}.

(** how the client makes the call of a body *)
Definition makes_call {A} (body : SignerBody) (parse : bytes → Result string A)
    (op : Moment → SignerClient → SignerClient * Result SignerClientError A) : Prop :=
  ∀ n h c c1 at_sec,
    refresh_jwt (moment_at su n h) c = Ok c1 → carries_token c1 at_sec → client_ok (S n) c1 →
    jwts h !! id = Some cfg → jwt_auth_failures h !! su_ip su = None →
    rq_wall_sec (su_env su n) ≤ at_sec + SIGNER_JWT_EXPIRATION + VALIDATE_LEEWAY →
    op (moment_at su n h) c =
    (c1, client_result parse (body_handler (su_state su) (su_env su n) body id h).2).
Lemma post_makes_call {A} body (parse : bytes → Result string A) :
  body ≠ SbEmpty → body_wf body → makes_call body parse (λ t c, post_and_decode t c (body_path body) body parse).
Proof.
  intros Hb Hwf n h c c1 at_sec Hr Htok (Hid & Hsec & Hurl & _) Hcfg Hfail Hnow. rewrite <- Hid.
  eapply (post_handled (su_state su) (su_env su n) (su_ip su)); try done; rewrite ?Hid, ?Hurl; try done.
  apply (dp_url Hdep).
Qed.
Lemma get_makes_call parse : makes_call SbEmpty parse (λ t c, get_pubkeys t parse c).
Proof.
  intros n h c c1 at_sec Hr Htok (Hid & Hsec & Hurl & _) Hcfg Hfail Hnow. rewrite <- Hid.
  eapply (get_pubkeys_handled (su_state su) (su_env su n) (su_ip su)); try done; rewrite ?Hid, ?Hurl; try done.
  apply (dp_url Hdep).
Qed.

(** A call is handled in the cells others left, and the module is still served after it *)
Lemma call_handled {A} m s body parse (op : Moment → SignerClient → SignerClient * Result SignerClientError A) :
  makes_call body parse op → body_wf body → good m s →
  ∃ m1 h c1, let res := body_handler (su_state su) (su_env su (rn_calls s)) body id h in
    evolves m m1 ∧ read_manager (su_state su) h = Some (LocalManager m1) ∧ jwts h !! id = Some cfg ∧
    call_signer su body op s = (called s c1 res.1, map_err DaClient (client_result parse res.2)) ∧
    (∀ m2, read_manager (su_state su) res.1 = Some (LocalManager m2) → evolves m1 m2 →
       good m2 (called s c1 res.1)).
Proof.
  intros Hop Hbody (Hm & Hev & Hcfg & Hfail & Hc). set (n := rn_calls s). set (h := su_others su n (rn_cells s)).
  destruct (Hothers n (rn_cells s)) as (Hrun & Hcfg' & Hfail').
  destruct (service_run_evolves _ _ _ _ Hrun Hm) as (m1 & Hm1 & Hev1).
  destruct (refresh_fresh n (rn_client s) h Hc) as (c1 & at_sec & Hr & Hc1 & Htok & Hnow).
  fold n h in Hcfg', Hfail', Hm1. rewrite Hcfg in Hcfg'. specialize (Hfail' Hfail).
  exists m1, h, c1. cbv zeta. split_and!; [done..| |].
  - unfold call_signer. fold n h. rewrite (Hop n h (rn_client s) c1 at_sec) by done.
    unfold called. repeat f_equal. unfold cells_after. rewrite Hr.
    destruct Hc1 as (Hid & Hsec & Hurl & _). destruct (dp_url Hdep body) as (u & Hu & Hpath).
    rewrite Hurl, Hu, (signer_http_handled _ _ _ c1 at_sec u body h cfg) by (done || congruence).
    rewrite Hid. fold n. by destruct (body_handler _ _ body id h).
  - fold n. intros m2 Hm2 Hev2. destruct (body_handler (su_state su) (su_env su n) body id h) as [h' r] eqn:E.
    assert (jwts h' = jwts h ∧ jwt_auth_failures h' = jwt_auth_failures h) as [Hj Hf].
    { destruct body; cbn [body_handler] in E.
      - by apply get_pubkeys_cells in E as ->.
      - unfold handle_request_signature in E. destruct (signing_id <$> _); by injection E as <- _.
      - by apply generate_proxy_frame in E as (? & ? & _). }
    unfold good, called. cbn [fst rn_cells rn_client rn_calls] in *. rewrite Hj, Hf. split_and!; try done.
    etrans; [exact Hev|]. by etrans.
Qed.

(** a call succeeded: the module is served as before, by a manager that holds what it held *)
Definition succeeds {A} m (s : Run) (call : Session A) (P : LocalSigningManager → A → Prop) : Prop :=
  ∃ m' s' a, call s = (s', Ok a) ∧ good m' s' ∧ evolves m m' ∧ P m' a ∧
    rn_log s' = rn_log s ∧ sig_received s' = sig_received s.

Lemma sign_call {A} m s r (parse : bytes → Result string A) (wrap : A → SignerResponse) op :
  makes_call (SbSign r) parse op → body_wf (SbSign r) → good m s →
  (∀ m1, evolves m m1 → ∀ env h, read_manager (su_state su) h = Some (LocalManager m1) →
     ∃ a, sign_with_manager (su_state su) env DA_COMMIT_SIGNING_ID r h = Ok (wrap a) ∧
       parse (response_json (wrap a)) = Ok a) →
  succeeds m s (call_signer su (SbSign r) op)
    (λ _ a, signature_for (lm_chain m0) DA_COMMIT_SIGNING_ID r (wrap a)).
Proof.
  intros Hop Hbody Hg Hsign. pose proof Hg as (_ & Hev & _).
  destruct (call_handled m s (SbSign r) parse op Hop Hbody Hg) as (m1 & h & c1 & Hm1 & Hh & Hcfg & Hcall & Hgood).
  cbn [body_handler] in Hcall, Hgood. unfold handle_request_signature in Hcall, Hgood.
  rewrite Hcfg in Hcall, Hgood. cbn [fmap option_fmap option_map fst snd] in Hcall, Hgood.
  rewrite (dp_signing_id Hdep) in Hcall.
  destruct (Hsign m1 Hm1 (su_env su (rn_calls s)) h Hh) as (a & Ha & Hparse).
  rewrite Ha in Hcall. cbn [client_result] in Hcall. rewrite Hparse in Hcall.
  exists m1. eexists _, a. split; [exact Hcall|]. split_and!; [by apply Hgood|done| |done|done].
  assert (evolves m0 m1) as (Hc & _ & _ & Hwf & _) by (by etrans).
  rewrite <- Hc. eapply sign_with_manager_ok; [done| |done]. apply Hwf, (dp_wf Hdep).
Qed.

(** The sizes of the keys a manager holds *)
Lemma good_wf m s : good m s → manager_wf m.
Proof. intros (_ & (_ & _ & _ & Hwf & _) & _). apply Hwf, (dp_wf Hdep). Qed.
Lemma consensus_key_size m pk : manager_wf m → is_Some (consensus_signers m !! pk) → length pk = 48%nat.
Proof. intros (H1 & _ & _) [[sk] Hs]. rewrite <- (H1 _ _ Hs). apply pk_size. Qed.
Lemma signer_id_size {S} (sg : scheme_signer S) : length (signer_id sg) = proxy_size S.
Proof. destruct S, sg as [sk]; [apply pk_size|apply address_size]. Qed.
Lemma proxy_key_size m S key : manager_wf m → is_Some (signers_of m S !! key) → length key = proxy_size S.
Proof.
  intros (_ & H2 & _) [p Hp]. destruct (H2 _ _ _ Hp) as (<- & _). apply signer_id_size.
Qed.
Lemma signature_size (sg : BlsSigner) c root sid : length (bls_signer_sign sg c root sid) = 96%nat.
Proof. destruct sg as [sk]. unfold bls_signer_sign. destruct sid; apply sig_size. Qed.

Lemma sign_with_ok m s pk root :
  good m s → length root = 32%nat → is_Some (consensus_signers m !! pk) →
  succeeds m s (sign_with su {| scr_pubkey := pk; scr_object_root := root |}) (λ _ sig,
    verify_proposer_commitment_signature_bls (lm_chain m0) pk root sig DA_COMMIT_SIGNING_ID = Ok ()).
Proof.
  intros Hg Hroot Hpk. set (r := Consensus {| scr_pubkey := pk; scr_object_root := root |}).
  assert (body_wf (SbSign r)) as Hb
    by (split_and!; [apply (consensus_key_size m); [by apply (good_wf m s)|done]|done..]).
  apply (sign_call m s r parse_bls_signature RespBlsSignature); [by apply post_makes_call|done|done|].
  destruct Hpk as [sk Hsk]. intros m1 (_ & Hcs & _) env h Hh. unfold sign_with_manager, sign_consensus.
  rewrite Hh. simpl. rewrite Hcs, Hsk. eexists. split; [done|]. apply read_bls, signature_size.
Qed.
Lemma sign_with_proxy_bls_ok m s key root :
  good m s → length root = 32%nat → is_Some (signers_of m Bls !! key) →
  succeeds m s (sign_with_proxy_bls su {| spr_proxy := key; spr_object_root := root |}) (λ _ sig,
    verify_proposer_commitment_signature_bls (lm_chain m0) key root sig DA_COMMIT_SIGNING_ID = Ok ()).
Proof.
  intros Hg Hroot Hp. set (r := ProxyBls {| spr_proxy := key; spr_object_root := root |}).
  assert (body_wf (SbSign r)) as Hb
    by (split_and!; [apply (proxy_key_size m Bls); [by apply (good_wf m s)|done]|done..]).
  apply (sign_call m s r parse_bls_signature RespBlsSignature); [by apply post_makes_call|done|done|].
  intros m1 (_ & _ & _ & _ & _ & Hkept) env h Hh. unfold sign_with_manager, sign_proxy_bls. rewrite Hh. simpl.
  destruct (Hkept Bls key Hp) as [p Hp1]. simpl in Hp1. rewrite Hp1. eexists. split; [done|].
  apply read_bls, signature_size.
Qed.
Lemma sign_with_proxy_ecdsa_ok m s key root :
  good m s → length root = 32%nat → is_Some (signers_of m Ecdsa !! key) →
  succeeds m s (sign_with_proxy_ecdsa su {| spr_proxy := key; spr_object_root := root |}) (λ _ sig,
    verify_proposer_commitment_signature_ecdsa (lm_chain m0) key root sig DA_COMMIT_SIGNING_ID = Ok ()).
Proof.
  intros Hg Hroot Hp. set (r := ProxyEcdsa {| spr_proxy := key; spr_object_root := root |}).
  assert (body_wf (SbSign r)) as Hb
    by (split_and!; [apply (proxy_key_size m Ecdsa); [by apply (good_wf m s)|done]|done..]).
  apply (sign_call m s r parse_ecdsa_signature RespEcdsaSignature); [by apply post_makes_call|done|done|].
  intros m1 (_ & _ & _ & _ & _ & Hkept) env h Hh. unfold sign_with_manager, sign_proxy_ecdsa. rewrite Hh. simpl.
  destruct (Hkept Ecdsa key Hp) as [p Hp1]. simpl in Hp1. rewrite Hp1. simpl.
  destruct (px_signer (S := Ecdsa) p) as [sk]. unfold ecdsa_signer_sign. cbv zeta.
  match goal with |- context [sign_hash_sync sk ?hash] =>
    pose proof (lw_ecdsa Hlib sk hash) as Hok; destruct (sign_hash_sync sk hash) as [sig|]; [|done] end.
  exists sig. split; [done|]. apply read_ecdsa.
Qed.

Lemma create_proxy_total {S} m disk (signer : scheme_signer S) module_id pk :
  evolves m0 m → is_Some (consensus_signers m !! pk) →
  ∃ d disk', create_proxy m disk signer module_id pk
      = (insert_proxy m {| px_signer := signer; px_delegation := d |} module_id, disk', Ok d) ∧
    spd_message d = {| delegator := pk; proxy := signer_id signer |} ∧ length (spd_signature d) = 96%nat.
Proof.
  intros (_ & _ & Hst & _) [sk Hsk]. unfold create_proxy, sign_consensus. rewrite Hsk. simpl.
  unfold add_proxy_signer. set (d := {| spd_signature := _; spd_message := _ |}).
  assert (length (spd_signature d) = 96%nat) as Hd by apply signature_size.
  set (p := {| px_signer := signer; px_delegation := d |}).
  destruct (lm_proxy_store m) as [store|]; [|by exists d, disk].
  symmetry in Hst. pose proof (dp_store Hdep S store module_id p disk Hst) as Hok.
  destruct (store_proxy S store module_id p disk) as [disk' [[]|]]; [|done]. by exists d, disk'.
Qed.
Lemma new_proxy_ok {S} m s pk :
  good m s → is_Some (consensus_signers m !! pk) →
  succeeds m s (new_proxy su S pk) (λ m' d, is_Some (signers_of m' S !! proxy (spd_message d))).
Proof.
  intros Hg Hpk. pose proof Hg as (_ & Hev & _). set (req := generate_proxy_request_new pk S).
  assert (length pk = 48%nat) as Hsize by (apply (consensus_key_size m); [by apply (good_wf m s)|done]).
  assert (body_wf (SbProxy req)) as Hb by (by split_and!).
  destruct (call_handled m s (SbProxy req) (parse_delegation S) _ ltac:(by apply post_makes_call) Hb Hg)
    as (m1 & h & c1 & Hm1 & Hh & _ & Hcall & Hgood).
  assert (evolves m0 m1) as Hev1 by (by etrans).
  assert (is_Some (consensus_signers m1 !! pk)) as Hpk1 by (by destruct Hm1 as (_ & -> & _)).
  set (env := su_env su (rn_calls s)) in *.
  assert (∃ d signer disk', body_handler (su_state su) env (SbProxy req) id h
    = (set_manager h (manager (su_state su))
         (LocalManager (insert_proxy m1 {| px_signer := signer : scheme_signer S; px_delegation := d |} id)) disk',
       Ok (RespDelegation S d)) ∧ spd_message d = {| delegator := pk; proxy := signer_id signer |} ∧
      length (spd_signature d) = 96%nat ∧
      evolves m1 (insert_proxy m1 {| px_signer := signer; px_delegation := d |} id)) as (d & sg & dk & E & Hd & Hs & He).
  { cbn [body_handler]. unfold handle_generate_proxy. rewrite Hh. subst req. destruct S; simpl;
      unfold create_proxy_bls, create_proxy_ecdsa.
    - destruct (create_proxy_total (S := Bls) m1 (sg_disk h) (rq_random_bls env) id pk Hev1 Hpk1)
        as (d & disk' & E & Hd & Hs). rewrite E. apply create_proxy_evolves in E. by exists d, (rq_random_bls env), disk'.
    - destruct (create_proxy_total (S := Ecdsa) m1 (sg_disk h) (rq_random_ecdsa env) id pk Hev1 Hpk1)
        as (d & disk' & E & Hd & Hs). rewrite E. apply create_proxy_evolves in E. by exists d, (rq_random_ecdsa env), disk'. }
  rewrite E in Hcall, Hgood. cbn [fst snd client_result] in Hcall, Hgood. rewrite read_delegation in Hcall
    by (rewrite ?Hd; done || apply signer_id_size).
  eexists _, _, d. split; [exact Hcall|]. split_and!; [apply Hgood|by etrans| |done|done].
  - unfold read_manager. simpl. apply list_lookup_insert_eq. by eapply lookup_lt_Some.
  - done.
  - rewrite Hd. cbn [proxy]. change (signer_id sg) with (proxy_id {| px_signer := sg; px_delegation := d |}).
    rewrite insert_proxy_signer. by eexists.
Qed.

(** Every key and address of a listing has its size *)
Lemma listing_wf m l : manager_wf m → get_consensus_proxy_maps m id = Ok l → Forall entry_wf l.
Proof.
  intros Hwf Hl. pose proof (proxy_maps_spec m id Hwf) as Hspec. cbv zeta in Hspec. rewrite Hl in Hspec.
  destruct Hspec as (Hkeys & Hproxies & _). apply Forall_forall. intros e He.
  assert (∀ S key, key ∈ default [] (keys_of m S !! id) → length key = proxy_size S) as Hsize.
  { intros S key Hk. apply (proxy_key_size m S key Hwf). destruct (keys_of m S !! id) as [ks|] eqn:E; [|by inversion Hk].
    by apply (proj2 (proj2 Hwf) S id ks). }
  destruct (Hproxies e He) as [Hb Hec]. split_and!.
  - apply (consensus_key_size m); [done|]. apply hash_keys_elem. fold (consensus_pubkeys m). rewrite <- Hkeys.
    by apply list_elem_of_fmap_2.
  - rewrite Hb. apply Forall_forall. intros key [_ Hin]%list_elem_of_filter. by apply (Hsize Bls).
  - rewrite Hec. apply Forall_forall. intros key [_ Hin]%list_elem_of_filter. by apply (Hsize Ecdsa).
Qed.
Lemma get_pubkeys_ok m s :
  good m s →
  succeeds m s (call_signer su SbEmpty (λ t c, get_pubkeys t parse_pubkeys c)) (λ m' r,
    ∃ e l, gp_keys r = e :: l ∧ is_Some (consensus_signers m' !! cpm_consensus e)).
Proof.
  intros Hg. pose proof Hg as (_ & Hev & _).
  destruct (call_handled m s SbEmpty parse_pubkeys _ (get_makes_call _) I Hg)
    as (m1 & h & c1 & Hm1 & Hh & _ & Hcall & Hgood).
  assert (evolves m0 m1) as (_ & Hcs & _ & Hwf & Hkn & _) by (by etrans).
  cbn [body_handler] in Hcall, Hgood. unfold handle_get_pubkeys in Hcall, Hgood. rewrite Hh in Hcall, Hgood.
  cbn [fst snd manager_proxy_maps] in Hcall, Hgood.
  pose proof (proxy_maps_spec m1 id (Hwf (dp_wf Hdep))) as Hspec. cbv zeta in Hspec.
  destruct (get_consensus_proxy_maps m1 id) as [l|e] eqn:Hl.
  2: { exfalso. destruct Hspec as (S & key & pk & _ & Hdel & Hnone & _). unfold delegated_by in Hdel.
       destruct (signers_of m1 S !! key) as [p|] eqn:Hp; [|done].
       simpl in Hdel. injection Hdel as <-.
       destruct (Hkn (dp_known Hdep) S key p Hp). congruence. }
  destruct Hspec as (Hkeys & _). simpl in Hcall.
  rewrite read_pubkeys in Hcall by (apply (listing_wf m1); [apply Hwf, (dp_wf Hdep)|done]). simpl in Hcall.
  eexists m1, _, _. split; [exact Hcall|]. split_and!; [by apply Hgood|done| |done|done].
  destruct l as [|e l].
  - exfalso. apply (dp_keys Hdep). rewrite <- Hcs. apply map_empty. intros k.
    apply eq_None_not_Some. intros Hk%hash_keys_elem. fold (consensus_pubkeys m1) in Hk.
    rewrite <- Hkeys in Hk. by apply not_elem_of_nil in Hk.
  - exists e, l. split; [done|]. apply hash_keys_elem. fold (consensus_pubkeys m1). rewrite <- Hkeys. csimpl. left.
Qed.

(** *** Rounds *)

(** what a round logs when all is well *)
Definition round_log (ecdsa : bool) : list (CommitKey * bool) :=
  [(ConsensusKey, true); (ProxyBlsKey, true)] ++ if ecdsa then [(ProxyEcdsaKey, true)] else [].

Lemma session_bind_ok {A B} (call : Session A) (k : A → Session B) s s' a :
  call s = (s', Ok a) → (x ← call; k x) s = k a s'.
Proof. unfold mbind, session_bind. by intros ->. Qed.

Lemma session_bind_bind {A B C} (call : Session A) (k : A → Session B) (f : B → Session C) s s' b :
  (x ← call; k x) s = (s', Ok b) → (x ← call; y ← k x; f y) s = f b s'.
Proof.
  unfold mbind, session_bind. destruct (call s) as [s1 [a|e]]; [|done]. by intros ->.
Qed.

(** A signature that verifies, asked for and logged *)
Lemma succeeds_logged {A E} m s (call : Session A) (verify : A → Result E ()) k :
  succeeds m s call (λ _ a, verify a = Ok ()) →
  ∃ m' s', (a ← call; log_verified k (verify a)) s = (s', Ok ()) ∧ good m' s' ∧ evolves m m' ∧
    rn_log s' = rn_log s ++ [(k, true)] ∧ sig_received s' = sig_received s.
Proof.
  intros (m' & s' & a & Hcall & Hg & He & Hv & Hl & Hc). exists m'. eexists.
  rewrite (session_bind_ok _ _ _ _ _ Hcall). unfold log_verified. rewrite Hv. split; [reflexivity|].
  cbn [rn_log sig_received is_ok]. rewrite Hl. done.
Qed.

(** the three keys of the module *)
Definition holds m (pk pb : BlsPublicKey) (pe : option Address) : Prop :=
  is_Some (consensus_signers m !! pk) ∧ is_Some (signers_of m Bls !! pb) ∧
  ∀ a, pe = Some a → is_Some (signers_of m Ecdsa !! a).
Lemma holds_evolves m m' pk pb pe : evolves m m' → holds m pk pb pe → holds m' pk pb pe.
Proof. intros (_ & Hcs & _ & _ & _ & Hk) (H1 & H2 & H3). split_and!; [by rewrite Hcs|auto|eauto]. Qed.

Lemma send_request_ok m s data pk pb pe :
  good m s → holds m pk pb pe →
  ∃ m' s', send_request su (lm_chain m0) data pk pb pe s = (s', Ok ()) ∧ good m' s' ∧ evolves m m' ∧
    rn_log s' = rn_log s ++ round_log (bool_decide (is_Some pe)) ∧ sig_received s' = sig_received s + 1.
Proof.
  intros Hg Hk. set (dg := {| dg_data := data |}).
  assert (length (tree_hash_root dg) = 32%nat) as Hroot by done.
  destruct (succeeds_logged m s _ (λ sig, verify_proposer_commitment_signature_bls (lm_chain m0) pk dg sig
    DA_COMMIT_SIGNING_ID) ConsensusKey (sign_with_ok m s pk (tree_hash_root dg) Hg Hroot (proj1 Hk)))
    as (m1 & s1 & E1 & Hg1 & He1 & Hl1 & Hc1).
  pose proof (holds_evolves _ _ _ _ _ He1 Hk) as Hk1.
  destruct (succeeds_logged m1 s1 _ (λ sig, verify_proposer_commitment_signature_bls (lm_chain m0) pb dg sig
    DA_COMMIT_SIGNING_ID) ProxyBlsKey (sign_with_proxy_bls_ok m1 s1 pb (tree_hash_root dg) Hg1 Hroot (proj1 (proj2 Hk1))))
    as (m2 & s2 & E2 & Hg2 & He2 & Hl2 & Hc2).
  pose proof (holds_evolves _ _ _ _ _ He2 Hk1) as Hk2.
  unfold send_request. cbv zeta. fold dg.
  rewrite (session_bind_bind _ _ _ _ _ _ E1), (session_bind_bind _ _ _ _ _ _ E2).
  assert (evolves m m2) as He by (by etrans). destruct pe as [a|].
  - destruct (succeeds_logged m2 s2 _ (λ sig, verify_proposer_commitment_signature_ecdsa (lm_chain m0) a dg sig
      DA_COMMIT_SIGNING_ID) ProxyEcdsaKey (sign_with_proxy_ecdsa_ok m2 s2 a (tree_hash_root dg) Hg2 Hroot
      (proj2 (proj2 Hk2) a eq_refl))) as (m3 & s3 & E3 & Hg3 & He3 & Hl3 & Hc3).
    exists m3. eexists. rewrite (session_bind_ok _ _ _ _ _ E3). split; [reflexivity|].
    split_and!; [done|by etrans| |]; cbn [rn_log sig_received]; [|by rewrite Hc3, Hc2, Hc1].
    by rewrite Hl3, Hl2, Hl1, <- !app_assoc.
  - exists m2. eexists. split; [reflexivity|].
    split_and!; [done|done| |]; cbn [rn_log sig_received]; [|by rewrite Hc2, Hc1].
    by rewrite Hl2, Hl1, <- !app_assoc.
Qed.

Lemma da_rounds_ok n m s data pk pb pe :
  good m s → holds m pk pb pe →
  ∃ s', da_rounds su n (lm_chain m0) data pk pb pe s = (s', Ok ()) ∧
    rn_log s' = rn_log s ++ mjoin (replicate n (round_log (bool_decide (is_Some pe)))) ∧
    sig_received s' = sig_received s + Z.of_nat n.
Proof.
  revert m s data. induction n as [|n IH]; intros m s data Hg Hk.
  - exists s. split; [done|]. split; [by rewrite app_nil_r|lia].
  - destruct (send_request_ok m s data pk pb pe Hg Hk) as (m1 & s1 & E1 & Hg1 & He1 & Hl1 & Hc1).
    destruct (IH m1 s1 (wrap64 (data + 1)) Hg1 (holds_evolves _ _ _ _ _ He1 Hk)) as (s2 & E2 & Hl2 & Hc2).
    exists s2. cbn [da_rounds]. rewrite (session_bind_ok _ _ _ _ _ E1). split; [done|].
    rewrite Hl2, Hl1, Hc2, Hc1, <- app_assoc. split; [done|lia].
Qed.

Lemma da_setup_ok m s extra :
  good m s →
  ∃ m' s' pk pb pe, da_setup su extra s = (s', Ok (pk, pb, pe)) ∧ good m' s' ∧ holds m' pk pb pe ∧
    bool_decide (is_Some pe) = use_ecdsa_keys extra ∧
    rn_log s' = rn_log s ∧ sig_received s' = sig_received s.
Proof.
  intros Hg. destruct (get_pubkeys_ok m s Hg) as (m1 & s1 & r & E1 & Hg1 & _ & (e & l & Hr & Hpk) & Hl1 & Hc1).
  destruct (new_proxy_ok (S := Bls) m1 s1 (cpm_consensus e) Hg1 Hpk)
    as (m2 & s2 & d2 & E2 & Hg2 & He2 & Hp2 & Hl2 & Hc2).
  assert (is_Some (consensus_signers m2 !! cpm_consensus e)) as Hpk2 by (by destruct He2 as (_ & -> & _)).
  unfold da_setup. rewrite (session_bind_ok _ _ _ _ _ E1), Hr.
  rewrite (session_bind_ok (mret (cpm_consensus e)) _ s1 s1 (cpm_consensus e)) by done.
  rewrite (session_bind_ok _ _ _ _ _ E2). destruct (use_ecdsa_keys extra).
  - destruct (new_proxy_ok (S := Ecdsa) m2 s2 (cpm_consensus e) Hg2 Hpk2)
      as (m3 & s3 & d3 & E3 & Hg3 & He3 & Hp3 & Hl3 & Hc3).
    exists m3, s3, (cpm_consensus e), (proxy (spd_message d2)), (Some (proxy (spd_message d3))).
    erewrite session_bind_ok; [|by erewrite session_bind_ok; [|exact E3]].
    split_and!; [done|done| |done|congruence|congruence].
    destruct He3 as (_ & Hcs & _ & _ & _ & Hkept).
    split_and!; [by rewrite Hcs|auto|by intros a [= <-]].
  - exists m2, s2, (cpm_consensus e), (proxy (spd_message d2)), None.
    split_and!; [done|done| |done|congruence|congruence]. by split_and!.
Qed.

(** the module as it starts *)
Definition da_start : Run :=
  {| rn_client := c0; rn_cells := h0; rn_calls := 0; sig_received := 0; rn_log := [] |}.
Lemma da_start_good : good m0 da_start.
Proof.
  split_and!; try apply Hdep; [done|].
  pose proof (dp_client Hdep) as Hnew. unfold signer_client_new in Hnew.
  apply result_bind_ok in Hnew as (jwt & Hjwt & Hnew). apply result_bind_ok in Hnew as (cl & Hcl & [= Hc0]).
  unfold client_ok, da_start. cbn [rn_client]. rewrite <- Hc0. split_and!; try done.
  left. exists jwt. split; [done|]. by symmetry.
Qed.

End DaTheorems.

(** ** A concrete deployment *)
Module DaSample.
Import ManagerSample ServiceSample.
#[local] Existing Instances sha256_tree_hash toy_bls toy_ecdsa toy_bls_correct toy_ecdsa_correct
  no_store toy_jwt toy_jwt_correct no_dirk two_keys plain_urls plain_headers plain_headers_correct.

Definition plain_texts : SignerTexts (EC := toy_ecdsa) :=
  {| ecdsa_error_text _ := "signer error"; seconds_text _ := "some time" |}.
#[local] Existing Instance plain_texts.

(** a reversible text for the pairs of bytes that are signatures here: their code as bits *)
Definition toy_ecdsa_text : EcdsaText (EC := toy_ecdsa) := {|
  ecdsa_display s := string_of_bytes (bits_of_pos (countable.encode s));
  ecdsa_from_str t := ok_or (countable.decode (pos_of_bits (bytes_of_string t))) "invalid signature"%string;
|}.
Lemma toy_ecdsa_text_correct : EcdsaTextCorrect (ET := toy_ecdsa_text).
Proof.
  intros s. simpl. by rewrite bytes_of_string_of_bytes, pos_of_bits_of_pos, decode_encode.
Qed.
#[local] Existing Instances plain_serde plain_serde_correct plain_json_text plain_json_text_correct
  toy_ecdsa_text toy_ecdsa_text_correct toy_bls_sizes toy_ecdsa_sizes.

Definition toy_wire : SignerWire := {|
  url_path u := string_of_bytes (drop 13 (bytes_of_string u));
  bearer_token v :=
    if decide (take 7 v = bytes_of_string "Bearer ") then Some (string_of_bytes (drop 7 v)) else None;
  no_token := Ok {| res_status := 400; res_content_length := None; res_chunks := [] |};
  unrouted _ := Ok {| res_status := 404; res_content_length := None; res_chunks := [] |};
  json_rejection _ := {| res_status := 422; res_content_length := None; res_chunks := [] |};
  split_body b := [take 1 b; drop 1 b];
|}.
#[local] Existing Instance toy_wire.

Lemma bits_ascii p : forallb token_byte (bits_of_pos p) = true.
Proof. induction p as [p IH|p IH|]; simpl; done. Qed.
Lemma toy_wire_correct : SignerWireCorrect (HL := plain_headers) (JL := toy_jwt) (SW := toy_wire).
Proof.
  split.
  - intros secret c t [= <-]. unfold token_of. rewrite bytes_of_string_of_bytes. apply bits_ascii.
  - intros t v _ H. simpl. unfold header_value_from_str, plain_headers in H.
    destruct (forallb _ _) in H; [|done]. injection H as <-.
    change (bytes_of_string ("Bearer " +:+ t)) with (bytes_of_string "Bearer " ++ bytes_of_string t).
    rewrite (take_app_length' _ _ 7), (drop_app_length' _ _ 7), decide_True by done.
    f_equal. apply String.string_of_list_byte_of_string.
  - intros [|x b]; simpl; by rewrite ?app_nil_r, ?drop_0.
Qed.
#[local] Existing Instance toy_wire_correct.

Definition da_config : ModuleSigningConfig :=
  {| module_name := "DA_COMMIT"; jwt_secret := "secret"; signing_id := DA_COMMIT_SIGNING_ID |}.
Definition da_cells : Cells := {|
  managers := [LocalManager m1]; jwts := {[ "DA_COMMIT"%string := da_config ]};
  admin_secret := "admin"; jwt_auth_failures := ∅; sg_disk := disk0 |}.
(** a call a minute, so that the token is refreshed on the way *)
Definition surroundings : Surroundings := {|
  su_state := state; su_ip := "ip";
  su_instant n := Z.of_nat n * 60 * NANOS_PER_SEC; su_wall n := 1000 + Z.of_nat n * 60;
  su_env n := {| rq_check_ns := 0; rq_failure_ns := 0; rq_wall_sec := 1000 + Z.of_nat n * 60 + 5;
                 rq_random_bls := validator x21; rq_random_ecdsa := EcdsaLocal (EC := toy_ecdsa) [x22];
                 rq_config := Ok start_config; rq_init_store := Ok; rq_dirk := () |};
  su_others _ h := h |}.
Definition t_start : Moment := sample_moment 0.
Definition da_client : SignerClient :=
  match signer_client_new t_start "http://signer" "secret" "DA_COMMIT" with
  | Ok c => c
  | Err _ => {| sc_url := ""; sc_client := {| default_headers := ∅; client_timeout_secs := 0 |};
                last_jwt_refresh := 0; sc_module_id := ""; sc_jwt_secret := "" |}
  end.
Definition extra : ExtraConfig := {| sleep_secs := 60; use_ecdsa_keys := true |}.

(** two rounds, evaluated *)
Example da_two_rounds :
  let r := da_run surroundings 2 Hoodi extra (da_start da_cells da_client) in
  is_ok r.2 = true ∧ sig_received r.1 = 2 ∧ rn_calls r.1 = 9%nat ∧
  (rn_log r.1).*2 = [true; true; true; true; true; true].
Proof. vm_compute. repeat split. Qed.

Lemma sample_deployed :
  deployed surroundings da_cells m1 da_config t_start "http://signer" "DA_COMMIT" da_client.
Proof.
  split; try done.
  - apply m1_wf.
  - apply (manager_reachable (empty_manager, disk0) (m1, disk0) m1_reachable).
    by apply (manager_new_wf Hoodi disk0).
  - intros body. exists ("http://signer" +:+ body_path body). by destruct body.
Qed.
End DaSample.
