(* ===== verification/EthAmount.v ===== *)
(** * Amounts in ether

    Models [eth_to_wei], [WEI_PER_ETH] and the module [as_eth_str] of
    [crates/common/src/utils.rs], with which the configuration reads [min_bid_eth].  A number
    of the configuration file is an [f64]: the IEEE 754 operations of the Standard Library
    ([SpecFloat] with 53 bits and exponents up to 1024) give the product, and the floor is
    written out here.  Parsing and printing of decimal strings and the conversion of a float
    to [U256] belong to [alloy]; they are the interface [EtherLib]. *)

From Stdlib Require Import Floats.SpecFloat.
From S2P Require Import Prelude Bytes Text Jwt Http PbsConfig.

Definition f64 : Type := spec_float.
Definition f64_mul : f64 → f64 → f64 := SFmul 53 1024.
Definition f64_of_Z (x : Z) : f64 := binary_normalize 53 1024 x 0 false.

(** [f64::floor]: for a positive number the bits of the fraction are cleared *)
Definition f64_floor (x : f64) : f64 :=
  match x with
  | S754_finite false m e =>
      if 0 <=? e then x
      else match Zpos m / 2 ^ (- e) * 2 ^ (- e) with
           | Zpos m' => S754_finite false m' e
           | _ => S754_zero false
           end
  | S754_finite true m e =>
      if 0 <=? e then x else binary_normalize 53 1024 (Z.neg m / 2 ^ (- e)) 0 true
  | _ => x
  end.
(** the integer a float is, if it is one *)
Definition f64_integer (x : f64) : option Z :=
  match x with
  | S754_zero _ => Some 0
  | S754_finite s m e =>
      let m := if s then Zneg m else Zpos m in
      if 0 <=? e then Some (m * 2 ^ e)
      else if m mod 2 ^ (- e) =? 0 then Some (m / 2 ^ (- e)) else None
  | _ => None
  end.

(** [U256::from(f64)] is exact on integers in range and panics on a negative number, an
    infinity and a NaN; [parse_ether] reads what [format_ether] prints *)
Class EtherLib := {
  u256_from_f64 : f64 → Call Z;
  parse_ether : string → Result string Z;
  format_ether : Z → string;
}.
Class EtherCorrect {EL : EtherLib} := {
  u256_exact : ∀ x v, f64_integer x = Some v → 0 ≤ v < 2 ^ 256 → u256_from_f64 x = Returns v;
  u256_negative : ∀ x v, f64_integer x = Some v → v < 0 → u256_from_f64 x = Panics;
  u256_not_finite : u256_from_f64 S754_nan = Panics ∧ ∀ s, u256_from_f64 (S754_infinity s) = Panics;
  ether_roundtrip : ∀ w, 0 ≤ w < 2 ^ 256 → parse_ether (format_ether w) = Ok w;
}.

Section Ether.
Context {EL : EtherLib}.

Definition eth_to_wei (eth : f64) : Call Z :=
  u256_from_f64 (f64_floor (f64_mul eth (f64_of_Z WEI_PER_ETH))).

(** [as_eth_str]: the untagged enum of the deserializer, and both directions *)
Inductive StringOrF64 : Type := EthStr (s : string) | EthF64 (f : f64).
Definition as_eth_str_serialize (data : Z) : StringOrF64 := EthStr (format_ether data).
Definition as_eth_str_deserialize (value : StringOrF64) : Call (Result string Z) :=
  match value with
  | EthStr s => Returns (map_err (λ _, "invalid eth amount"%string) (parse_ether s))
  | EthF64 f => match eth_to_wei f with Returns w => Returns (Ok w) | Panics => Panics end
  end.
End Ether.

(** ** Rounding *)

Lemma digits2_bounds p : 2 ^ (Zpos (digits2_pos p) - 1) ≤ Zpos p < 2 ^ Zpos (digits2_pos p).
Proof.
  induction p as [p IH|p IH|]; simpl digits2_pos; [..|simpl; lia].
  all: set (d := Zpos (digits2_pos p)) in *.
  all: replace (Zpos (Pos.succ (digits2_pos p))) with (Z.succ d) by lia.
  all: assert (2 ^ d = 2 * 2 ^ (d - 1)) as Hd
    by (rewrite <- Z.pow_succ_r by lia; f_equal; lia).
  all: rewrite Z.pow_succ_r, Z.sub_1_r, Z.pred_succ by lia; lia.
Qed.

(** [mrs] is [m] shifted right by [k] bits: its quotient, its first lost bit and whether any
    other lost bit was set *)
Definition shifted (m k : Z) (mrs : shr_record) : Prop :=
  0 ≤ shr_m mrs ∧
  ∃ t, 2 * m = 2 ^ k * (2 * shr_m mrs + Z.b2z (shr_r mrs)) + t ∧ 0 ≤ t < 2 ^ k ∧
       (shr_s mrs = false → t = 0) ∧ (t = 0 → shr_s mrs = false).
Lemma shr_1_shifted m k mrs : 0 ≤ k → shifted m k mrs → shifted m (k + 1) (shr_1 mrs).
Proof.
  intros Hk (Hq & t & Hm & Ht & Hs & Hs'). destruct mrs as [q r s]. simpl in *.
  pose proof (Z.pow_pos_nonneg 2 k ltac:(lia) Hk) as Hpos.
  assert (∀ q' r', q = 2 * q' + Z.b2z r' → 0 ≤ q' →
    shifted m (k + 1) {| shr_m := q'; shr_r := r'; shr_s := r || s |}) as Hnext.
  { intros q' r' Hq' Hpos'. split; [done|]. exists (2 ^ k * Z.b2z r + t). simpl.
    rewrite Z.pow_add_r, Z.pow_1_r by lia. split; [rewrite Hm, Hq'; lia|].
    destruct r, s; simpl in *; split_and!; naive_solver lia. }
  destruct q as [|[p|p|]|p]; [..|lia]; apply Hnext; simpl; lia.
Qed.
Lemma iter_shifted m p k mrs :
  0 ≤ k → shifted m k mrs → shifted m (k + Zpos p) (SpecFloat.iter_pos shr_1 p mrs).
Proof.
  revert k mrs. induction p as [p IH|p IH|]; intros k mrs Hk H; simpl.
  - replace (k + Zpos p~1) with (k + 1 + Zpos p + Zpos p) by lia.
    apply IH; [lia|]. apply IH; [lia|]. by apply shr_1_shifted.
  - replace (k + Zpos p~0) with (k + Zpos p + Zpos p) by lia. apply IH; [lia|]. by apply IH.
  - by apply shr_1_shifted.
Qed.
(** Rounding is to within half a unit of the last place *)
Lemma round_shifted m k mrs :
  0 ≤ k → shifted m k mrs →
  let r := round_nearest_even (shr_m mrs) (loc_of_shr_record mrs) in
  shr_m mrs ≤ r ≤ shr_m mrs + 1 ∧ 2 * Z.abs (r * 2 ^ k - m) ≤ 2 ^ k.
Proof.
  intros Hk (Hq & t & Hm & Ht & Hs & Hs'). destruct mrs as [q [] []]; simpl in *; try (destruct (Z.even q));
    (split; [lia|]); try (specialize (Hs eq_refl)); lia.
Qed.

Lemma digits2_unique p d : 1 ≤ d → 2 ^ (d - 1) ≤ Zpos p < 2 ^ d → Zpos (digits2_pos p) = d.
Proof.
  intros Hd Hp. pose proof (digits2_bounds p) as Hb. set (d' := Zpos (digits2_pos p)) in *.
  destruct (Z.lt_trichotomy d' d) as [Hlt|[?|Hgt]]; [|done|].
  - pose proof (Z.pow_le_mono_r 2 d' (d - 1)). lia.
  - pose proof (Z.pow_le_mono_r 2 d (d' - 1)). lia.
Qed.

(** The first shift of a mantissa with at least 53 bits *)
Lemma shr_fexp_shifted p e k :
  k = Zpos (digits2_pos p) - 53 → 0 ≤ k → -1074 ≤ e + k →
  ∃ mrs, shr_fexp 53 1024 (Zpos p) e loc_Exact = (mrs, e + k) ∧ shifted (Zpos p) k mrs.
Proof.
  intros Hk Hk0 He. unfold shr_fexp, fexp, emin. cbn [Zdigits2 shr_record_of_loc].
  replace (Z.max (Zpos (digits2_pos p) + e - 53) (3 - 1024 - 53) - e) with k by lia.
  assert (shifted (Zpos p) 0 {| shr_m := Zpos p; shr_r := false; shr_s := false |}) as H0.
  { split; [simpl; lia|]. exists 0. simpl. lia. }
  unfold shr. destruct k as [|n|]; [|..|lia].
  - eexists. split; [by rewrite Z.add_0_r|done].
  - eexists. split; [reflexivity|]. apply (iter_shifted _ n 0); [lia|done].
Qed.
(** The second one, after rounding: nothing is lost *)
Lemma shr_fexp_exact r e :
  2 ^ 52 ≤ Zpos r ≤ 2 ^ 53 → -1074 ≤ e →
  ∃ m e', shr_fexp 53 1024 (Zpos r) e loc_Exact = ({| shr_m := Zpos m; shr_r := false; shr_s := false |}, e') ∧
    e ≤ e' ≤ e + 1 ∧ Zpos m * 2 ^ (e' - e) = Zpos r.
Proof.
  intros Hr He. unfold shr_fexp, fexp, emin. cbn [Zdigits2 shr_record_of_loc].
  destruct (decide (Zpos r < 2 ^ 53)) as [Hlt|Hge].
  - rewrite (digits2_unique r 53) by lia.
    replace (Z.max (53 + e - 53) (3 - 1024 - 53) - e) with 0 by lia. exists r, e.
    split_and!; [done|lia|lia|]. rewrite Z.sub_diag. lia.
  - assert (r = Z.to_pos (2 ^ 53)) as -> by lia. exists (Z.to_pos (2 ^ 52)), (e + 1).
    replace (Z.max _ _ - e) with 1 by (simpl; lia). split; [reflexivity|]. split; [lia|].
    replace (e + 1 - e) with 1 by lia. reflexivity.
Qed.

(** A product of at least 53 bits is rounded to within a relative error of 2^-53 *)
Lemma binary_round_aux_error p e k :
  k = Zpos (digits2_pos p) - 53 → 0 ≤ k → -1074 ≤ e + k < 971 →
  ∃ m e', binary_round_aux 53 1024 false (Zpos p) e loc_Exact = S754_finite false m e' ∧
    e + k ≤ e' ≤ e + k + 1 ∧ Z.abs (Zpos m * 2 ^ (e' - e) - Zpos p) * 2 ^ 53 ≤ Zpos p.
Proof.
  intros Hk Hk0 He. destruct (shr_fexp_shifted p e k Hk Hk0 (proj1 He)) as (mrs & E1 & Hsh).
  pose proof (round_shifted _ _ _ Hk0 Hsh) as [Hr Herr].
  set (r := round_nearest_even _ _) in *. pose proof (digits2_bounds p) as Hp.
  assert (2 ^ (Zpos (digits2_pos p) - 1) = 2 ^ 52 * 2 ^ k) as Hlo
    by (rewrite <- Z.pow_add_r by lia; f_equal; lia).
  assert (2 ^ Zpos (digits2_pos p) = 2 ^ 53 * 2 ^ k) as Hhi
    by (rewrite <- Z.pow_add_r by lia; f_equal; lia).
  pose proof (Z.pow_pos_nonneg 2 k ltac:(lia) Hk0) as Hpos.
  destruct Hsh as (Hq0 & t & Hm & Ht & _). pose proof (Z.b2z (shr_r mrs)) as _.
  assert (0 ≤ Z.b2z (shr_r mrs) ≤ 1) as Hb by (destruct (shr_r mrs); simpl; lia).
  assert (2 ^ 52 ≤ shr_m mrs < 2 ^ 53) as Hq.
  { split; [apply Z.lt_succ_r|]; apply (Z.mul_lt_mono_pos_r (2 ^ k)); nia. }
  destruct r as [|r'|r'] eqn:Er; [lia| |lia].
  destruct (shr_fexp_exact r' (e + k) ltac:(lia) (proj1 He)) as (m & e' & E2 & He' & Hval).
  exists m, e'. unfold binary_round_aux. rewrite E1. fold r. rewrite Er, E2. cbn [shr_m].
  rewrite (proj2 (Z.leb_le _ _)) by lia. split; [done|]. split; [lia|].
  replace (e' - e) with ((e' - (e + k)) + k) by lia. rewrite Z.pow_add_r, Z.mul_assoc, Hval by lia. nia.
Qed.

(** ** The conversion *)

(** The floor of a positive float, as an integer *)
Lemma floor_integer m e :
  ∃ w, f64_integer (f64_floor (S754_finite false m e)) = Some w ∧ 0 ≤ w ∧
    (0 ≤ e → w = Zpos m * 2 ^ e) ∧ (e < 0 → w = Zpos m / 2 ^ (- e)).
Proof.
  unfold f64_floor. destruct (Z.leb_spec 0 e) as [He|He].
  - exists (Zpos m * 2 ^ e). simpl. rewrite (proj2 (Z.leb_le _ _)) by done.
    split; [done|]. split_and!; [lia|done|lia].
  - pose proof (Z.pow_pos_nonneg 2 (- e) ltac:(lia) ltac:(lia)) as Hpos.
    pose proof (Z.div_pos (Zpos m) (2 ^ (- e)) ltac:(lia) Hpos) as Hq.
    exists (Zpos m / 2 ^ (- e)). set (q := Zpos m / 2 ^ (- e)) in *.
    split; [|split_and!; [done|lia|done]].
    destruct (q * 2 ^ (- e)) as [|m'|m'] eqn:E; [..|nia].
    + simpl. f_equal. nia.
    + simpl. rewrite (proj2 (Z.leb_gt _ _)) by done. rewrite <- E, Z_mod_mult, Z.div_mul by lia. done.
Qed.

(** The product with 10^18, which is 7812500000000000 times 2^7 *)
Lemma wei_product m e :
  digits2_pos m = 53%positive → -1074 ≤ e ≤ -53 →
  ∃ m' e', f64_mul (S754_finite false m e) (f64_of_Z WEI_PER_ETH) = S754_finite false m' e' ∧
    e + 7 ≤ e' ∧ Z.abs (Zpos m' * 2 ^ (e' - (e + 7)) - Zpos m * 7812500000000000) * 2 ^ 53
      ≤ Zpos m * 7812500000000000.
Proof.
  intros Hm He. pose proof (digits2_bounds m) as Hb. rewrite Hm in Hb. simpl (Zpos 53 - 1) in Hb.
  set (p := (m * 7812500000000000)%positive).
  assert (Zpos p = Zpos m * 7812500000000000) as Hp by lia. pose proof (digits2_bounds p) as Hd.
  set (d := Zpos (digits2_pos p)) in *.
  assert (104 < d) as Hlo.
  { apply (Z.pow_lt_mono_r_iff 2); [lia..|]. assert (2 ^ 104 ≤ Zpos p) by (rewrite Hp; lia). lia. }
  assert (d - 1 < 106) as Hhi.
  { apply (Z.pow_lt_mono_r_iff 2); [lia..|]. assert (Zpos p < 2 ^ 106) by (rewrite Hp; lia). lia. }
  destruct (binary_round_aux_error p (e + 7) (d - 53) eq_refl ltac:(lia) ltac:(lia))
    as (m' & e' & E & He' & Herr).
  exists m', e'. rewrite Hp in Herr. split_and!; [exact E|lia|exact Herr].
Qed.


(** ** Concrete amounts *)
Module EtherSample.
(** the conversion where it is defined; amounts are printed as bits in the place of decimals *)
Definition exact_ether : EtherLib := {|
  u256_from_f64 x :=
    match f64_integer x with
    | Some v => if (0 <=? v) && (v <? 2 ^ 256) then Returns v else Panics
    | None => Panics
    end;
  parse_ether s := ok_or (decode (pos_of_bits (bytes_of_string s))) ""%string;
  format_ether w := string_of_bytes (bits_of_pos (encode w));
|}.
Lemma exact_ether_correct : EtherCorrect (EL := exact_ether).
Proof.
  split; unfold u256_from_f64, parse_ether, format_ether, exact_ether.
  - intros x v -> Hv. by rewrite (proj2 (Z.leb_le _ _)), (proj2 (Z.ltb_lt _ _)) by lia.
  - intros x v -> Hv. by rewrite (proj2 (Z.leb_gt _ _)) by lia.
  - done.
  - intros w _. by rewrite bytes_of_string_of_bytes, pos_of_bits_of_pos, decode_encode.
Qed.
#[local] Existing Instances exact_ether exact_ether_correct.

(** the floats of some decimal numbers *)
Definition f_0_5 : f64 := S754_finite false 4503599627370496 (-53).
Definition f_0_07 : f64 := S754_finite false 5044031582654956 (-56).
Definition f_0_009 : f64 := S754_finite false 5188146770730811 (-59).

(** A half is exact; 0.07 ether is 8 wei too much and 0.009 ether is one wei short; a negative
    number, which the configuration file can hold, panics *)
Example sample_amounts :
  eth_to_wei f_0_5 = Returns 500000000000000000 ∧
  eth_to_wei f_0_07 = Returns 70000000000000008 ∧
  eth_to_wei f_0_009 = Returns 8999999999999999 ∧
  as_eth_str_deserialize (EthF64 (SFopp f_0_5)) = Panics ∧
  as_eth_str_deserialize (as_eth_str_serialize 70000000000000000) = Returns (Ok 70000000000000000).
Proof. vm_compute. repeat split. Qed.

End EtherSample.
