(* ===== verification/SignerDeployment.v ===== *)
(** * The signer and a module in their containers

    Composes the docker set-up of [crates/cli/src/docker_init.rs] (DockerInit.v,
    DockerSecrets.v), the configuration loaders of [crates/common/src/config] (Config.v,
    SignerConfig.v), the start of the service (SignerService.v) and the connection of
    SignerHttp.v: what the set-up writes into the two containers is what the service needs to
    recognise the module. *)

From S2P Require Import Prelude Bytes Text Serde PlainSerde Jwt Chain Signature PbsTypes Http Relay Commit CommitJson SignerClient.
From S2P Require Import PbsConfig PbsState SignerConfig Config LocalManager FileSystem ProxyStore Loader.
From S2P Require Import DockerInit DockerSecrets SignerService SignerHttp DaCommit.

Arguments scm_signer_client {T} _.

Section Containers.
Context {CE : ConfigEnv} {CP : ConfigParsers} {CT : ConfigToml} {DK : DockerLib}.
Context {TH : TreeHashLib} {BL : BlsLib} {EC : EcdsaLib} {PS : ProxyStoreOps}.
Context {JL : JwtLib} {JC : JwtCorrect} {HO : HashOrder bytes} {HOs : HashOrder string}.
Context {DO : DirkOps} {KL : KeyLoader} {UL : UrlLib} {HL : HeaderLib}.
Context {ST : SignerTexts} {SW : SignerWire} {SC : SignerWireCorrect}.
Context {SL : SerdeLib} {SLC : SerdeCorrect} {JT : JsonText} {JTC : JsonTextCorrect} {ET : EcdsaText}.

(** every well-formed call of the client, while the token it got at [at_sec] lasts, is handled as the module *)
Definition served_as (state : SigningState) (h : Cells) (c : SignerClient) (at_sec : Z) (id : ModuleId) : Prop :=
  ∀ rq ip u body, url_path u = body_path body → body_wf body →
    rq_wall_sec rq ≤ at_sec + SIGNER_JWT_EXPIRATION + VALIDATE_LEEWAY →
    signer_http state rq ip (signer_call c u body) h =
    let '(h', r) := body_handler state rq body id h in (h', Ok (http_response r)).

Lemma new_client_token t url secret id c :
  signer_client_new t url secret id = Ok c →
  carries_token c (wall_sec t) ∧ sc_module_id c = id ∧ sc_jwt_secret c = secret ∧ sc_url c = url.
Proof.
  unfold signer_client_new. intros H. apply result_bind_ok in H as (jwt & Hj & H).
  apply result_bind_ok in H as (cl & Hc & [= <-]). split_and!; try done. exists jwt. by split.
Qed.

(** What a module's loader takes from its environment *)
Lemma commit_config_client {T} {CE' : ConfigEnv} t (from_str : string → Result string (ModuleStub T)) mc id secret url :
  env_var (ConfigEnv := CE') MODULE_ID_ENV = Some id → env_var (ConfigEnv := CE') MODULE_JWT_ENV = Some secret →
  env_var (ConfigEnv := CE') SIGNER_URL_ENV = Some url →
  load_commit_module_config (CE := CE') t from_str = Ok mc →
  carries_token (scm_signer_client mc) (wall_sec t) ∧ sc_module_id (scm_signer_client mc) = id ∧
  sc_jwt_secret (scm_signer_client mc) = secret ∧ url_parse url = Ok (sc_url (scm_signer_client mc)).
Proof.
  intros Hid Hsec Hurl H. unfold load_commit_module_config, load_env_var in H. rewrite Hid, Hsec, Hurl in H.
  cbn [ok_or result_bind mbind] in H. apply result_bind_ok in H as (u & Hu%map_err_ok & H).
  apply result_bind_ok in H as (cb & _ & H). apply result_bind_ok in H as (mcfg & _ & H).
  apply result_bind_ok in H as (c & Hc%map_err_ok & [= <-]). simpl.
  apply new_client_token in Hc as (? & ? & ? & ->). done.
Qed.

(** The service starts with the registrations of its configuration and no failures *)
Lemma start_service_cells env config disk state h :
  start_service env config disk = Returns (Ok (Some (state, h))) →
  jwts h = ss_mod_signing_configs config ∧ jwt_auth_failures h = ∅.
Proof.
  unfold start_service. case_bool_decide; [done|].
  destruct (start_manager env config disk) as [[m|]|]; [|done..]. intros [= _ <-]. done.
Qed.

(** C8: The docker set-up connects every commit module with the signer.  After the set-up of
    commit modules with distinct, plain ids and distinct signing ids, with a local signer and
    secrets drawn without repetition: the signer loads its configuration in its container, and
    once it runs, a module that loads its own configuration in its container has a client for
    the signer's address, every well-formed call of which, for as long as its token lasts, passes the
    authentication and is handled in the name of that module, for which the service holds the
    signing id of the configuration. *)
Theorem docker_module_served secrets config_path cfg sc loader store compose st addr :
  cb_signer cfg = Some sc → sg_inner sc = Local loader store →
  modules_apart secrets (default [] (cb_modules cfg)) →
  distinct_draws secrets (length (default [] (cb_modules cfg))) →
  default [] (cb_modules cfg) ≠ [] →
  (∀ m, m ∈ default [] (cb_modules cfg) → is_commit m ∧ smc_id m ≠ ""%string ∧ smc_signing_id m ≠ B256_ZERO) →
  NoDup (smc_signing_id <$> default [] (cb_modules cfg)) →
  parse_socket_addr (socket_addr "0.0.0.0" (sg_port sc)) = Ok addr →
  docker_services secrets config_path cfg = Returns (Ok (compose, st)) →
  ∃ signer, index_get "cb_signer" (services compose) = Some signer ∧
    ∀ CE', runs_in CE' st signer → ∃ config,
      start_signer_config (CE := CE') (cb_chain cfg) (cb_modules cfg) (cb_signer cfg) = Ok config ∧
      ∀ env disk state h, start_service env config disk = Returns (Ok (Some (state, h))) →
      ∀ m, m ∈ default [] (cb_modules cfg) → ∃ service,
        index_get (module_cid (smc_id m)) (services compose) = Some service ∧
        signing_id <$> jwts h !! smc_id m = Some (smc_signing_id m) ∧
        ∀ CEm T t (from_str : string → Result string (ModuleStub T)) mc,
          runs_in CEm st service → load_commit_module_config (CE := CEm) t from_str = Ok mc →
          url_parse (signer_server (docker_setup config_path cfg)) = Ok (sc_url (scm_signer_client mc)) ∧
          served_as state h (scm_signer_client mc) (wall_sec t) (smc_id m).
Proof.
  intros Hsc Hin Hms Hinj Hne Heach Hsid Haddr H.
  destruct (docker_signer_starts _ _ _ _ _ _ _ _ _ Hsc Hin Hms Hinj Hne Heach Hsid Haddr H)
    as (signer & Hsigner & Hstarts).
  assert (∃ m, m ∈ default [] (cb_modules cfg) ∧ is_commit m) as Hcommit.
  { destruct (default [] (cb_modules cfg)) as [|m l]; [done|]. exists m. split; [left|apply Heach; left]. }
  destruct (docker_deployed _ _ _ _ _ _ Hsc Hin Hms Hcommit _ _ H) as (signer' & admin & js & Hd).
  exists signer. split; [done|]. intros CE' Hrun. destruct (Hstarts CE' Hrun) as (config & Hcfg & _ & _ & _ & Hmods).
  exists config. split; [done|]. intros env disk state h Hstart m Hm.
  apply start_service_cells in Hstart as [Hj Hf].
  destruct (Hmods m Hm) as (service & c & Hs & Hc & Hid & Hjwt).
  destruct (dp_modules _ _ _ _ _ _ _ _ _ Hd m Hm (proj1 (Heach m Hm))) as (service' & _ & Hs' & _ & _ & Hmid & Hurl).
  rewrite Hs in Hs'. injection Hs' as <-.
  exists service. split; [done|]. rewrite Hj. split; [rewrite Hc; simpl; by rewrite Hid|].
  intros CEm T t from_str mc Hrunm Hload.
  destruct (commit_config_client t from_str mc (smc_id m) (jwt_secret c) (signer_server (docker_setup config_path cfg)))
    as (Htok & Hi & Hsec & Hu); [by rewrite Hrunm..|done|].
  split; [done|]. intros rq ip u body Hpath Hbody Hnow. rewrite <- Hi.
  apply (signer_http_handled state rq ip (scm_signer_client mc) (wall_sec t) u body h c); try done.
  - by rewrite Hj, Hi.
  - by rewrite Hf, lookup_empty.
Qed.
End Containers.

(** ** A concrete set-up *)
Module ContainersSample.
Import DockerSample SecretsSample.
#[local] Existing Instances ConfigSample.file_env ConfigSample.plain_parsers ConfigSample.sample_toml ascii_docker
  sha256_tree_hash toy_bls toy_ecdsa ManagerSample.no_store toy_jwt toy_jwt_correct ServiceSample.no_dirk
  ServiceSample.two_keys plain_urls plain_headers DaSample.plain_texts DaSample.toy_wire DaSample.toy_wire_correct
  plain_serde plain_serde_correct plain_json_text plain_json_text_correct DaSample.toy_ecdsa_text.

Lemma docker_module_served_witness :
  ∃ compose st signer,
    docker_services secrets "cb.toml" (cfg false 10000 commit_modules local) = Returns (Ok (compose, st)) ∧
    index_get "cb_signer" (services compose) = Some signer ∧
    ∀ CE', runs_in CE' st signer → ∃ config,
      start_signer_config (CE := CE') Mainnet (Some commit_modules) (Some (DockerSample.signer local)) = Ok config ∧
      ∀ env disk state h, start_service env config disk = Returns (Ok (Some (state, h))) →
        signing_id <$> jwts h !! "Oracle"%string = Some (byte_array 32 x02).
Proof.
  destruct (docker_services secrets "cb.toml" (cfg false 10000 commit_modules local)) as [[[compose st]|e]|] eqn:E;
    [|exfalso; vm_compute in E; discriminate E..].
  destruct (docker_module_served secrets "cb.toml" (cfg false 10000 commit_modules local) (DockerSample.signer local)
    (SLFile "keys.json") (Some (PSFile "proxies")) compose st {| sa_ip := "0.0.0.0:20000"; sa_port := 1 |})
    as (signer & Hs & Hall);
    [reflexivity|reflexivity|exact commit_modules_plain| |discriminate| |closed_decision|vm_compute; reflexivity|exact E|].
  - intros i j Hi Hj. cbn in Hi, Hj. destruct i as [|[|i]], j as [|[|j]]; try lia; discriminate.
  - intros m Hm. cbn in Hm. unfold commit_modules in Hm.
    each_of Hm; (split; [reflexivity|split; [discriminate|closed_decision]]).
  - exists compose, st, signer. split; [reflexivity|]. split; [exact Hs|]. intros CE' Hrun.
    destruct (Hall CE' Hrun) as (config & Hc & Hserve). exists config. split; [exact Hc|].
    intros env disk state h Hstart.
    destruct (Hserve env disk state h Hstart (with_signing_id x02 (module "Oracle" KindCommit))
      ltac:(right; left)) as (service & _ & Hid & _).
    exact Hid.
Defined.
End ContainersSample.
