(* ===== verification/StatusApi.v ===== *)
(** * A PBS service of one's own

    Models [examples/status_api/src/main.rs], the sample of a service that extends the PBS
    module through the trait [BuilderApi]: it counts the status requests in a counter that all
    copies of its state share, takes the amount to count by from its own field of the
    configuration, reads that field again on a reload, and has a route that shows the count.
    The counter is an [Arc<AtomicU64>]: a location in [Counters], which a clone of the state
    shares.  The API is a second instance of the class [ApiPromises], so the invariant of the
    server of PbsRoutes.v holds for it, and the theorem adds what the counter shows. *)

From stdpp Require Import pretty.
From S2P Require Import Prelude Bytes Text Jwt Chain Signature PbsTypes Http Relay SignerClient Futures.
From S2P Require Import PbsConfig PbsState GetHeader SubmitBlock RegisterValidator SignerConfig Config.
From S2P Require Import Logging PbsRoutes PbsService.

Record ExtraConfig := { extra_inc_amount : Z }.

(** the atomic counters, and the state with its amount and the location of its counter *)
Notation Counters := (list Z) (only parsing).
Record MyBuilderState := { inc_amount : Z; counter : nat }.

Definition from_config (extra : ExtraConfig) (counters : Counters) : Counters * MyBuilderState :=
  (counters ++ [0], {| inc_amount := extra_inc_amount extra; counter := length counters |}).
(** [fetch_add] wraps around *)
Definition inc (self : MyBuilderState) (counters : Counters) : Counters :=
  alter (λ n, add64 n (inc_amount self)) (counter self) counters.
Definition get (self : MyBuilderState) (counters : Counters) : Z :=
  default 0 (counters !! counter self).

Section MyApi.
Context {CE : ConfigEnv} {CP : ConfigParsers} {CT : ConfigToml} {SR : SpecReader}.
Context {UL : UrlLib} {HL : HeaderLib} {JL : JwtLib} {HO : HashOrder string} {HOk : HashOrder bytes}.
Context {TH : TreeHashLib} {BL : BlsLib} {HJ : HeaderJson}.
Context {MH : TreeHash ExecutionPayloadHeaderMessageElectra} {SJ : SubmitJson} {FL : FuturesLib}.
Context {CL : CaseLib} {LL : LogLib}.

(** [MyBuilderApi::get_status]: the counters after it has counted, and the call it then makes *)
Definition my_get_status (env : ApiEnv) (req_headers : gmap string HeaderValue)
    (state : PbsState MyBuilderState) (counters : Counters) : Counters * Method_ PbsReport () :=
  (inc (data state) counters, Some (get_status req_headers state (ap_status env) (ap_status_progress env))).

(** [MyBuilderApi::reload]: the cloned data keeps its counter *)
Definition my_reload (ssv_fuel : nat) (t : Moment) (from_str : string → Result string (PbsStub ExtraConfig))
    (state : PbsState MyBuilderState) : Result Report (PbsState MyBuilderState) :=
  '(pbs_config, extra_config) ← load_pbs_custom_config ssv_fuel t from_str;
  let data := {| inc_amount := extra_inc_amount extra_config; counter := counter (data state) |} in
  Ok (with_data (pbs_state_new pbs_config) data).

(** [impl BuilderApi<MyBuilderState> for MyBuilderApi]; the first part of [get_status], the
    count, is a step of its own below *)
Definition my_builder_api (fuel ssv_fuel : nat) (env : ApiEnv) (t : Moment)
    (from_str : string → Result string (PbsStub ExtraConfig)) : BuilderApi MyBuilderState :=
  let default := default_builder_api fuel ssv_fuel env in {|
  api_get_header := api_get_header (BuilderApi := default);
  api_get_status req_headers state := (my_get_status env req_headers state []).2;
  api_submit_block := api_submit_block (BuilderApi := default);
  api_register_validator := api_register_validator (BuilderApi := default);
  api_reload := my_reload ssv_fuel t from_str;
|}.

(** the extra route [/check] *)
Definition handle_check (state : PbsState MyBuilderState) (counters : Counters) : Answer :=
  {| an_status := STATUS_OK;
     an_body := TextBody ("Received " +:+ pretty (get (data state) counters) +:+ " status requests!") |}.
Definition extra_routes : option (list (Method * string)) := Some [(GET, "/check"%string)].

(** [main] up to [PbsService::run] *)
Definition status_main (ssv_fuel : nat) (t : Moment) (from_str : string → Result string (PbsStub ExtraConfig))
    (registry : Result string bytes) (counters : Counters)
    : Call (Result Report (option MetricsProvider * Counters * PbsState MyBuilderState)) :=
  match ('(pbs_config, extra) ← load_pbs_custom_config ssv_fuel t from_str;
         logs ← logs_from_env_config;
         Ok (pbs_config, extra, logs)) with
  | Err e => Returns (Err e)
  | Ok (pbs_config, extra, logs) =>
      call_bind (initialize_tracing_log PBS_MODULE_NAME logs) (λ _,
      let '(counters, custom_state) := from_config extra counters in
      let state := with_data (pbs_state_new pbs_config) custom_state in
      Returns (metrics ← load_and_run (chain pbs_config) registry;
               Ok (metrics, counters, state)))
  end.
End MyApi.

(** No route of the service hides another one *)
Lemma routes_apart : NoDup (rt_path <$> create_app_router extra_routes).
Proof. apply (bool_decide_unpack _). vm_compute. exact I. Qed.

(** ** The running service *)

Section StatusServer.
Variable api_run : BuilderApi MyBuilderState → Prop.

(** the server, the counters, and the status requests that have taken their snapshot of the
    state but have not counted yet *)
Record StatusServer := {
  ss_server : Server MyBuilderState;
  ss_counters : Counters;
  ss_fresh : list (InFlight MyBuilderState);
}.

(** A status request counts once between its start and its end; all else is the server's. *)
Inductive status_step : StatusServer → StatusServer → Prop :=
| StatusArrives ss hs :
    status_step ss {|
      ss_server := ss_server ss; ss_counters := ss_counters ss;
      ss_fresh := {| if_request := QGetStatus; if_headers := hs;
                     if_snapshot := sv_state (ss_server ss) |} :: ss_fresh ss |}
| StatusCounts ss p1 f p2 :
    ss_fresh ss = p1 ++ f :: p2 →
    status_step ss {|
      ss_server := {| sv_state := sv_state (ss_server ss); sv_pending := f :: sv_pending (ss_server ss);
                      sv_answers := sv_answers (ss_server ss) |};
      ss_counters := inc (data (if_snapshot f)) (ss_counters ss);
      ss_fresh := p1 ++ p2 |}
| ServerSteps ss sv' :
    server_step api_run (ss_server ss) sv' →
    (∀ hs, sv' ≠ start_request (ss_server ss) QGetStatus hs) →
    status_step ss {| ss_server := sv'; ss_counters := ss_counters ss; ss_fresh := ss_fresh ss |}.

Definition status_start (counters : Counters) (state : PbsState MyBuilderState) : StatusServer :=
  {| ss_server := server_start state; ss_counters := counters; ss_fresh := [] |}.
End StatusServer.

(** ** The promises of the API *)

(** every configuration that is read lists a relay: [load_pbs_custom_config] does not check it *)
Definition lists_relays (from_str : string → Result string (PbsStub ExtraConfig)) : Prop :=
  ∀ text stub, from_str text = Ok stub → ps_relays stub ≠ [].
(** data with the same counter *)
Definition same_counter : relation MyBuilderState := λ d d', counter d = counter d'.
#[export] Instance same_counter_preorder : PreOrder same_counter.
Proof. split; [done|]. intros d1 d2 d3. unfold same_counter. congruence. Qed.

(** What [status_main] starts with *)
Lemma status_main_ok {CE : ConfigEnv} {CP : ConfigParsers} {CT : ConfigToml} {SR : SpecReader} {UL : UrlLib}
    {HL : HeaderLib} {JL : JwtLib} {HO : HashOrder string} {HOk : HashOrder bytes} {CL : CaseLib} {LL : LogLib}
    ssv_fuel t from_str registry counters0 metrics counters st0 :
  status_main ssv_fuel t from_str registry counters0 = Returns (Ok (metrics, counters, st0)) →
  ∃ c extra, load_pbs_custom_config ssv_fuel t from_str = Ok (c, extra) ∧ counters = counters0 ++ [0] ∧
    st0 = with_data (pbs_state_new c) {| inc_amount := extra_inc_amount extra; counter := length counters0 |}.
Proof.
  unfold status_main. destruct (load_pbs_custom_config _ _ _) as [[c extra]|] eqn:Hc; [|done]. simpl.
  destruct logs_from_env_config as [logs|]; [|done]. simpl. destruct (initialize_tracing_log _ _); [|done].
  intros H%Returns_inj. apply result_bind_ok in H as (m & _ & [= _ <- <-]). by exists c, extra.
Qed.

Section Promises.
Context {UL : UrlLib} {HL : HeaderLib} {JL : JwtLib} {HO : HashOrder string} {HOk : HashOrder bytes}.
Context {TH : TreeHashLib} {BL : BlsLib} {HJ : HeaderJson}.
Context {MH : TreeHash ExecutionPayloadHeaderMessageElectra} {SJ : SubmitJson}.
Context {FL : FuturesLib} {FC : FuturesCorrect}.

Lemma custom_config_servable {CE : ConfigEnv} {CP : ConfigParsers} ssv_fuel t from_str c extra d :
  lists_relays from_str → load_pbs_custom_config ssv_fuel t from_str = Ok (c, extra) →
  servable (with_data (S := MyBuilderState) (pbs_state_new c) d).
Proof.
  intros Hl (text & stub & Hs & _ & Hv & Hrel & Hall)%load_pbs_custom_config_ok.
  destruct (all_relays_cover _ _ Hrel (Hl _ _ Hs) Hall) as (? & ? & _). done.
Qed.

#[export] Instance my_api_promises {CE : ConfigEnv} {CP : ConfigParsers} {CT : ConfigToml} {SR : SpecReader}
    fuel ssv_fuel env t from_str :
  (∀ i j, 0 ≤ ae_elapsed_ms (se_relay (ap_submit env) i) j) → lists_relays from_str →
  ApiPromises (my_builder_api fuel ssv_fuel env t from_str) servable same_counter.
Proof.
  intros Hclock Hl. destruct (default_api_promises (S := MyBuilderState) fuel ssv_fuel env Hclock).
  split; [done..|]. intros st st' _ H. cbn [my_builder_api api_reload] in H. unfold my_reload in H.
  apply result_bind_ok in H as ([c extra] & Hc & [= <-]). split; [by eapply custom_config_servable|done].
Qed.

(** a run of the methods: relays, clocks and files are whatever they are at that moment *)
Definition my_run (Api : BuilderApi MyBuilderState) : Prop :=
  ∃ (CE : ConfigEnv) (CP : ConfigParsers) (CT : ConfigToml) (SR : SpecReader) fuel ssv_fuel env t from_str,
    (∀ i j, 0 ≤ ae_elapsed_ms (se_relay (ap_submit env) i) j) ∧ lists_relays from_str ∧
    Api = my_builder_api fuel ssv_fuel env t from_str.
Lemma my_run_promises Api : my_run Api → ApiPromises Api servable same_counter.
Proof. intros (CE & CP & CT & SR & fuel & ssv_fuel & env & t & from_str & Hc & Hl & ->). by apply my_api_promises. Qed.

(** ** The invariant *)

(** what the status requests among these have counted *)
Definition counted (l : list (InFlight MyBuilderState)) : Z :=
  foldr (λ f n, match if_request f with QGetStatus => inc_amount (data (if_snapshot f)) + n | _ => n end) 0 l.
Lemma counted_app l k : counted (l ++ k) = counted l + counted k.
Proof. induction l as [|f l IH]; simpl; [done|]. rewrite IH. destruct (if_request f); lia. Qed.
Lemma counted_cons f l : counted (f :: l) = counted [f] + counted l.
Proof. apply (counted_app [f]). Qed.
Lemma lookup_inc d counters n :
  counters !! counter d = Some n → inc d counters !! counter d = Some (add64 n (inc_amount d)).
Proof. intros H. unfold inc. etrans; [apply list_lookup_alter_eq|]. by rewrite H. Qed.
(** the server with the requests that have not counted yet *)
Definition whole (ss : StatusServer) : Server MyBuilderState :=
  {| sv_state := sv_state (ss_server ss); sv_pending := ss_fresh ss ++ sv_pending (ss_server ss);
     sv_answers := sv_answers (ss_server ss) |}.
Definition status_inv (d : MyBuilderState) (ss : StatusServer) : Prop :=
  server_inv servable same_counter d (whole ss) ∧
  Forall (λ f, if_request f = QGetStatus) (ss_fresh ss) ∧
  ss_counters ss !! counter d =
    Some (wrap64 (counted (sv_pending (ss_server ss)) + counted (fst <$> sv_answers (ss_server ss)))).

Lemma server_inv_perm {S} (accepts : PbsState S → Prop) keeps d st l l' a :
  l ≡ₚ l' → server_inv accepts keeps d {| sv_state := st; sv_pending := l; sv_answers := a |} →
  server_inv accepts keeps d {| sv_state := st; sv_pending := l'; sv_answers := a |}.
Proof. intros Hl (H1 & H2 & H3). unfold server_inv. simpl in *. by rewrite <- Hl. Qed.

Lemma status_arrives_inv d ss hs :
  status_inv d ss →
  status_inv d {| ss_server := ss_server ss; ss_counters := ss_counters ss;
    ss_fresh := {| if_request := QGetStatus; if_headers := hs; if_snapshot := sv_state (ss_server ss) |}
                  :: ss_fresh ss |}.
Proof.
  intros (Hinv & Hfr & Hc). split; [|split; [by constructor|done]].
  destruct Hinv as (H1 & H2 & H3). split; [done|]. split; [|done]. simpl. by constructor.
Qed.
Lemma status_counts_inv d ss p1 f p2 :
  status_inv d ss → ss_fresh ss = p1 ++ f :: p2 →
  status_inv d {|
    ss_server := {| sv_state := sv_state (ss_server ss); sv_pending := f :: sv_pending (ss_server ss);
                    sv_answers := sv_answers (ss_server ss) |};
    ss_counters := inc (data (if_snapshot f)) (ss_counters ss); ss_fresh := p1 ++ p2 |}.
Proof.
  intros (Hinv & Hfr & Hc) Hp. rewrite Hp in Hfr. apply Forall_app in Hfr as [Hf1 [Hf Hf2]%Forall_cons].
  assert (counter d = counter (data (if_snapshot f))) as Hd.
  { destruct Hinv as (_ & H2 & _). simpl in H2. rewrite Hp in H2.
    apply Forall_app in H2 as [[_ [[_ H] _]%Forall_cons]%Forall_app _]. done. }
  split_and!.
  - unfold whole in *. simpl. eapply server_inv_perm; [|exact Hinv]. rewrite Hp. solve_Permutation.
  - by apply Forall_app.
  - simpl. rewrite Hf, Hd in *. rewrite (lookup_inc _ _ _ Hc). fold (counted (sv_pending (ss_server ss))).
    f_equal. unfold add64, wrap64. rewrite Z.add_mod_idemp_l by done. f_equal. lia.
Qed.

Lemma server_steps_inv d ss sv' :
  status_inv d ss → server_step my_run (ss_server ss) sv' →
  (∀ hs, sv' ≠ start_request (ss_server ss) QGetStatus hs) →
  status_inv d {| ss_server := sv'; ss_counters := ss_counters ss; ss_fresh := ss_fresh ss |}.
Proof.
  intros (Hinv & Hfr & Hc) Hstep Hnot. destruct ss as [sv counters fresh]. unfold status_inv, whole in *.
  cbn [ss_server ss_counters ss_fresh sv_state sv_pending sv_answers] in *.
  pose proof (λ sv2, server_inv_step _ _ _ my_run_promises d _ sv2 Hinv) as Hpres.
  destruct Hstep as [sv q hs|sv Api p1 f p2 t w Hrun Hp Hh|sv Api p1 f p2 Hrun Hp Hh];
    cbn [start_request sv_state sv_pending sv_answers] in *.
  - split_and!; [|done|].
    + eapply server_inv_perm; [|apply (Hpres _ (StartRequest _ _ q hs))]. simpl. solve_Permutation.
    + rewrite Hc. destruct q; try done. by destruct (Hnot hs).
  - rewrite Hp in *. split_and!; [|done|].
    + rewrite app_assoc. eapply (Hpres _ (FinishRequest my_run _ Api (fresh ++ p1) f p2 t w Hrun _ Hh)).
    + rewrite Hc, fmap_cons. cbn [fst]. rewrite !counted_app, (counted_cons f p2), (counted_cons f (_ <$> _)). do 2 f_equal. lia.
  - rewrite Hp in *. split_and!; [|done|].
    + rewrite app_assoc. eapply (Hpres _ (PanicRequest my_run _ Api (fresh ++ p1) f p2 Hrun _ Hh)).
    + rewrite Hc, !counted_app, (counted_cons f). unfold counted at 3. simpl.
      assert (∃ regs, if_request f = QRegisterValidator regs) as [regs ->]; [|done].
      destruct Hinv as (_ & Hpend & _). simpl in Hpend.
      apply Forall_app in Hpend as [_ [_ [[Hok _] _]%Forall_cons]%Forall_app].
      pose proof (my_run_promises Api Hrun). by eapply handle_panics.
  Unshelve. all: simpl; by rewrite <- app_assoc.
Qed.

Lemma status_inv_reachable d ss ss' :
  rtc (status_step my_run) ss ss' → status_inv d ss → status_inv d ss'.
Proof.
  induction 1 as [|ss1 ss2 ss3 [ss hs|ss p1 f p2 Hp|ss sv' Hs Hnot] _ IH]; [done|..]; intros H; apply IH.
  - by apply status_arrives_inv.
  - by apply status_counts_inv.
  - by apply server_steps_inv.
Qed.

End Promises.

(** ** A concrete service, reloaded with another amount *)
Module StatusApiSample.
Import ConfigSample.
#[local] Existing Instances file_env plain_parsers sample_toml no_spec_reader plain_urls plain_headers
  plain_headers_correct toy_jwt sha256_tree_hash toy_bls HeaderSample.header_json
  HeaderSample.message_tree_hash SubmitSample.json in_order in_order_correct
  ascii_case plain_logs.

Definition toml (amount : Z) (text : string) : Result string (PbsStub ExtraConfig) :=
  Ok {| ps_chain := Mainnet; ps_relays := [sample_relay_config]; ps_static := hc_pbs sample_pbs_toml;
        ps_extra := {| extra_inc_amount := amount |}; ps_muxes := None |}.
Definition main := status_main 0 (sample_moment 0) (toml 1) (Ok []) [].
Definition api : BuilderApi MyBuilderState :=
  my_builder_api 16 0 (StartSample.relays_answer 200) (sample_moment 0) (toml 5).

Lemma toml_lists_relays amount : lists_relays (toml amount).
Proof. by intros text stub [= <-]. Qed.
Lemma my_api_runs : my_run api.
Proof.
  do 6 eexists. exists (StartSample.relays_answer 200), (sample_moment 0), (toml 5).
  split_and!; [|apply toml_lists_relays|done]. intros i j. simpl. lia.
Qed.

(** One status request, a reload, and a second request that has counted *)
Lemma counting_run counters st0 :
  servable st0 → ∃ ss, rtc (status_step my_run) (status_start counters st0) ss ∧
    counted (sv_pending (ss_server ss)) = 5 ∧
    counted (fst <$> sv_answers (ss_server ss)) = inc_amount (data st0).
Proof.
  intros Hst. set (api0 := default_builder_api (S := MyBuilderState) 16 0 (StartSample.relays_answer 200)).
  destruct (status_answered 16 0 (StartSample.relays_answer 200) ∅ st0 Hst) as (t & Ht & _).
  assert (∃ st1, my_reload 0 (sample_moment 0) (toml 5) st0 = Ok st1 ∧ inc_amount (data st1) = 5) as (st1 & Hr & Hst1).
  { unfold my_reload. destruct (load_pbs_custom_config 0 (sample_moment 0) (toml 5)) as [[c e]|e] eqn:E;
      [|vm_compute in E; discriminate E].
    apply load_pbs_custom_config_ok in E as (? & stub & [= <-] & -> & _). by eexists. }
  assert (∃ t', handle (Api := api) QReload ∅ st0 = Some (Returns (t', Some st1))) as [t' Hreload].
  { unfold handle, handle_reload. cbn [api_reload api my_builder_api]. rewrite Hr. by eexists. }
  set (f := {| if_request := QGetStatus; if_headers := ∅; if_snapshot := st0 |}).
  set (r := {| if_request := QReload; if_headers := ∅; if_snapshot := st0 |}).
  eexists. split.
  { eapply rtc_l; [apply (StatusArrives _ _ ∅)|].
    eapply rtc_l; [by apply (StatusCounts _ _ [] f [])|].
    eapply rtc_l; [eapply ServerSteps; [by eapply (FinishRequest my_run _ api [] f []), Ht; [apply my_api_runs|]|done]|].
    eapply rtc_l; [eapply ServerSteps; [by apply (StartRequest _ _ QReload ∅)|done]|].
    eapply rtc_l; [eapply ServerSteps; [eapply (FinishRequest my_run _ api [] r []); [apply my_api_runs|done|]|]|].
    { exact Hreload. }
    { done. }
    eapply rtc_l; [apply (StatusArrives _ _ ∅)|].
    eapply rtc_l; [by eapply (StatusCounts _ _ [])|]. apply rtc_refl. }
  simpl. lia.
Qed.

(** a configuration without relays loads, and then the status request panics *)
Example no_relays_panics :
  match load_pbs_custom_config 0 (sample_moment 0) (λ _, Ok {|
          ps_chain := Mainnet; ps_relays := []; ps_static := hc_pbs sample_pbs_toml;
          ps_extra := {| extra_inc_amount := 1 |}; ps_muxes := None |}) with
  | Ok (c, _) =>
      match handle (Api := api) QGetStatus ∅ (with_data (pbs_state_new c) {| inc_amount := 1; counter := 0 |}) with
      | Some Panics => true
      | _ => false
      end
  | Err _ => false
  end = true.
Proof. vm_compute. reflexivity. Qed.

End StatusApiSample.
