(* ===== verification/Binaries.v ===== *)
(** * The other binaries

    Models [main] of [bin/signer.rs], [bin/cli.rs] with [Args::run] of [crates/cli/src/lib.rs],
    and [main] of the two sample modules [examples/da_commit] and [examples/builder_log]; [main]
    of [bin/pbs.rs] is in PbsService.v.  They put together what the other files model: the log
    settings, the configuration and the service.  A module that cannot load its configuration
    prints the error and ends well, and so does a binary whose service cannot start: only an
    error before that is the result of [main]. *)

From S2P Require Import Prelude Bytes Text Jwt Chain Signature PbsTypes Http Relay Commit SignerClient.
From S2P Require Import PbsConfig PbsState SignerConfig Config Logging PbsRoutes PbsService LocalManager.
From S2P Require Import FileSystem ProxyStore Loader DockerInit Deployment SignerService SignerHttp DaCommit.

(** ** The signer *)

Section SignerMain.
Context {CE : ConfigEnv} {CP : ConfigParsers} {CT : ConfigToml} {SR : SpecReader}.
Context {UL : UrlLib} {HO : HashOrder bytes} {HOs : HashOrder string} {CL : CaseLib} {LL : LogLib}.
Context {TH : TreeHashLib} {BL : BlsLib} {EC : EcdsaLib} {PS : ProxyStoreOps} {JL : JwtLib}.
Context {DO : DirkOps} {KL : KeyLoader}.

(** [main] up to the loop of the server; the inner result is that of [SigningService::run],
    whose error is only logged.  The metrics server is started once the manager is. *)
Definition signer_main (env : RequestEnv) (registry : Result string bytes) (disk : Disk)
    : Call (Result Report (Result Report (option (option MetricsProvider * SigningState * Cells)))) :=
  match logs_from_env_config with
  | Err e => Returns (Err e)
  | Ok logs =>
      call_bind (initialize_tracing_log SIGNER_MODULE_NAME logs) (λ _,
      match start_signer_load_from_env with
      | Err e => Returns (Err e)
      | Ok config =>
          call_bind (start_service env config disk) (λ started,
          Returns (Ok (service ← started;
                       match service with
                       | None => Ok None
                       | Some (state, cells) =>
                           metrics ← load_and_run (ss_chain config) registry;
                           Ok (Some (metrics, state, cells))
                       end)))
      end)
  end.

(** The signer runs with the configuration of the environment it started in *)
Lemma signer_main_starts env registry disk metrics state cells :
  signer_main env registry disk = Returns (Ok (Ok (Some (metrics, state, cells)))) →
  ∃ config, start_signer_load_from_env = Ok config ∧
    start_service env config disk = Returns (Ok (Some (state, cells))) ∧
    load_and_run (ss_chain config) registry = Ok metrics.
Proof.
  unfold signer_main. destruct logs_from_env_config as [logs|]; [|done].
  destruct (initialize_tracing_log _ _); [|done]. simpl.
  destruct start_signer_load_from_env as [config|]; [|done].
  destruct (start_service env config disk) as [[[[st h]|]|]|] eqn:E; [|done..]. simpl.
  intros H%Returns_inj. injection H as H.
  apply result_bind_ok in H as (m & Hm & [= <- <- <-]). by exists config.
Qed.
(** And [main] ends with an error only when the log settings or the configuration do not load *)
Lemma signer_main_error env registry disk e :
  signer_main env registry disk = Returns (Err e) →
  logs_from_env_config = Err e ∨ start_signer_load_from_env = Err e.
Proof.
  unfold signer_main. destruct logs_from_env_config as [logs|]; [|naive_solver].
  destruct (initialize_tracing_log _ _); [|done]. simpl.
  destruct start_signer_load_from_env as [config|]; [|naive_solver]. by destruct (start_service _ _ _).
Qed.
End SignerMain.

(** ** The command line *)

Inductive Command : Type := Init_ (config_path output_path : string).
Record Args := { cmd : Command }.
(** the default of [--output] *)
Definition DEFAULT_OUTPUT : string := "./".

Definition args_run {CE : ConfigEnv} {CP : ConfigParsers} {CT : ConfigToml} {HO : HashOrder string}
    {DK : DockerLib} {DF : DiskFaults} (secrets : nat → string) (self : Args) (t : Tree)
    : Tree * Call (Result Report ()) :=
  match cmd self with
  | Init_ config_path output_path => handle_docker_init secrets config_path output_path t
  end.

(** ** The sample modules *)

(** [LogProcessor] of [builder_log]: the events it logged *)
Definition LogProcessor : Type := list BuilderEvent.
#[export] Instance log_processor : OnBuilderApiEvent LogProcessor :=
  { on_builder_api_event self event := self ++ [event] }.

Section ModuleMains.
Context {CE : ConfigEnv} {CP : ConfigParsers} {CT : ConfigToml} {SR : SpecReader}.
Context {UL : UrlLib} {HL : HeaderLib} {JL : JwtLib} {CL : CaseLib} {LL : LogLib}.

(** what every module does first: [Ok None] when its configuration does not load *)
Definition module_start {C} (loaded : Result Report C) (id : C → string) : Call (Result Report (option C)) :=
  match loaded with
  | Err _ => Returns (Ok None)
  | Ok config =>
      match logs_from_env_config with
      | Err e => Returns (Err e)
      | Ok logs => call_bind (initialize_tracing_log (id config) logs) (λ _, Returns (Ok (Some config)))
      end
  end.

Definition builder_log_main (from_str : string → Result string (ModuleStub ()))
    : Call (Result Report (option (BuilderEventClient LogProcessor))) :=
  call_bind (module_start (load_builder_module_config from_str) (sbm_id _)) (λ started,
  Returns (config ← started;
           Ok (option_map (λ c, event_client_new (sbm_server_port _ c) []) config))).

Definition da_commit_main (t : Moment) (from_str : string → Result string (ModuleStub ExtraConfig))
    (registry : Result string bytes)
    : Call (Result Report (option (option MetricsProvider * StartCommitModuleConfig ExtraConfig))) :=
  call_bind (module_start (load_commit_module_config t from_str) (scm_id _)) (λ started,
  Returns (config ← started;
           match config with
           | None => Ok None
           | Some c => metrics ← load_and_run (scm_chain _ c) registry; Ok (Some (metrics, c))
           end)).
End ModuleMains.
